(* ===== verification/_CoqProject ===== *)
-Q . S2P
Prelude.v
NetIP.v
DnsMsg.v
RefDns.v
GlCache.v
Wire.v
Cache.v
CacheFacts.v
CacheSpec.v
Ecs.v
GoStrings.v
NetParse.v
Strconv.v
NetURL.v
Upstreams.v
Bootstrap.v
NetUtil.v
Dns64.v
Receipt.v
Response.v
Plain.v
Datagram.v
Dot.v
DoQClient.v
Parallel.v
Fastip.v
Exchange.v
Messages.v
Stats.v
Context.v
Recursion.v
ProxyCache.v
ResolveCache.v
Pending.v
Resolve.v
ResolveFacts.v
ResolveSpec.v
Server.v
Secretbox.v
CryptPackets.v
CryptCert.v
CryptClient.v
Address.v
CryptServer.v
CryptRun.v
Config.v
DoH.v
DoHClient.v
HttpWork.v
DoQ.v
Accept.v
Lookup.v
RateLimit.v
Middleware.v
Life.v
Flags.v
Command.v
