(* ===== verification/Prelude.v ===== *)
(** * dnsproxy: a verification development

    dnsproxy is a forwarding DNS server written in Go.  It accepts requests over
    UDP, TCP, TLS, HTTPS, QUIC and DNSCrypt, validates them, answers from a
    cache or asks upstream servers, chosen by the domain, in one of three modes
    and over any of these protocols, falls back to other servers when those
    fail, and filters, sizes and writes the response.  This library models that
    path from the command line to the bytes that are sent, and proves what makes
    it correct.  Paths below are relative to src/.

    ** How the program is modelled

    Go functions are Rocq functions with the names of the source.  A function
    that may panic (an index out of range, a nil pointer, a closed channel)
    returns in the monad [go] ([Ret] or [Panic], [let!]), one that returns an
    error in [result] ([let?]) or as [option error].  Methods that change their
    receiver return the changed value; objects that several parts share (caches,
    the exchange state, the pending requests, the statistics of wrapped
    upstreams, rate limiters) are passed along explicitly or live in a store with
    indices.  Bytes and fixed-width integers are [Z] with the wrap-around written
    out, strings and slices of bytes are lists of bytes, time is in nanoseconds.

    What is not in the repository is an interface: [DnsLib] and [DnsNames]
    (package miekg/dns), [GlCache] (golibs/cache), [NetUtil], [AddrTexts] and
    [Preference] (golibs/netutil), [HostsFile] (golibs/hostsfile), [Validators]
    (golibs/validate), [GoCache] and [Rate] (go-cache, go-rate), [DnsStamps],
    the primitives of golang.org/x/crypto ([CryptoLib], [NaclLib], [Ed25519]),
    the control messages of golang.org/x/net ([ControlMessages]),
    and, for the network, the clock, the scheduler, the random sampler and the
    connections, [Outside], [Conns] and parameters of sections.  A class of
    operations comes with a class of the laws that its clients rely on
    ([DnsLaws], [GlCacheLaws], ...), which state documented behaviour, and with
    an instance that satisfies them, in which witnesses are evaluated.
    Goroutines and locks are transition systems (Receipt, Pending, CryptRun,
    Accept, HttpWork),
    sequences of calls under a lock (Life, Dot, DoQClient, DoHClient) or a
    permutation of the order of delivery (Parallel, Bootstrap, Lookup).

    ** The files

    - Prelude: byte strings, integers, big-endian fields, errors, [go], time,
      tactics and the hint database [godb].  The standard library of Go:
      GoStrings (strings), NetIP (net, net/netip), NetParse (parsing of
      addresses, base64, query strings and media types), NetURL (net/url,
      host-port pairs), Strconv (strconv, prefixes).  DnsMsg: messages and the
      interface of miekg/dns; RefDns: an instance of it.  GlCache, NetUtil: two
      more interfaces.
    - Wire: length prefixes (proxyutil/dns.go, proxy/servertcp.go,
      dnscrypt/dns.go).
    - Cache (proxy/cache.go), CacheFacts, CacheSpec: the response cache with its
      two stores.  The theorems are about all caches reachable by any sequence of
      operations: what is served was stored for the same question and subnet,
      its age, its filtering, the longest matching subnet, storing and looking
      up, and that lookups never panic.
    - Ecs (proxy/helpers.go): the client subnet option, read back as added.
    - Upstreams (proxy/upstreams.go): parsing of configurations and the choice of
      the most specific upstreams for a domain; exactly which lines panic.
      Address (upstream/upstream.go, the constructors of all upstreams): which
      upstream an address gives, and that it can be dialed.
    - Dns64 (proxy/dns64.go): synthesis of AAAA records as RFC 6147 has it.
    - Receipt (upstream/receipt.go): the state that decides an exchange, once,
      whatever the order of receipt, rejection, expiry and abandonment.
      Response (upstream/response.go): reading the response.  Plain
      (upstream/plain.go), Dot (upstream/dot.go), DoQClient (upstream/doq.go) and
      DoHClient (upstream/doh.go): exchanges over the protocols with their pools
      of connections and retries: bounded, with valid responses only, decided at
      the end, and with no connection lost.  HttpWork (upstream/http_work.go and
      the dialing functions of upstream/doh.go): what an exchange over HTTPS
      starts is over when it returns, and nothing is started later.  Datagram
      (internal/netutil): responses leave from the address of their query.
    - Bootstrap (internal/bootstrap, upstream/resolver.go): the resolvers of the
      names of upstreams and dialing in the order of addresses.
    - Parallel (upstream/parallel.go), Fastip (fastip/), Exchange
      (proxy/exchange.go, proxy/upstreammode.go): the three modes of asking
      several upstreams.
    - Messages (internal/dnsmsg/constructor.go), Stats (proxy/stats.go), Context
      (proxy/dnscontext.go), Recursion (proxy/recursiondetector.go), ProxyCache
      (proxy/proxycache.go and [processECS], [cacheWorks] of proxy/proxy.go),
      Pending (proxy/pending.go, proxy/optimisticresolver.go): what [Resolve]
      is made of.
    - Resolve (proxy/proxy.go, proxy/bogusnxdomain.go, [setMinMaxTTL] of
      proxy/server.go): [Resolve] with all it calls.  ResolveFacts, ResolveCache
      and ResolveSpec show that it always returns and leaves a response fit for
      the client, keeps every cache within what CacheSpec is about, and asks
      only private upstreams about private addresses.  Lookup (proxy/lookup.go):
      addresses looked up through it.
    - Server (proxy/server.go, serverudp.go, servertcp.go, requesthandler.go, the
      responders of the other servers, [validateRequest] of proxy/proxy.go), DoH
      (proxy/serverhttps.go), DoQ (proxy/serverquic.go): from packets, HTTP
      requests and streams to responses; no packet stops the pipeline, streams
      are served in order, clients are known by their address or by that a
      trusted proxy gives.  Accept: the loops of the listeners and the bound on
      the requests at a time.
    - Secretbox (dnscrypt/internal/xsecretbox), CryptPackets, CryptCert,
      CryptClient (with upstream/dnscrypt.go), CryptServer, CryptRun (dnscrypt/):
      DNSCrypt from the boxes to the client and the server.  Boxes and sessions
      round-trip, what the client accepts was sealed for its query, a server
      that shuts down leaves nothing running, and one that fails says so.
    - Config (proxy/config.go and [New]), Life ([Start], [Shutdown], [Addr] and
      [Addrs]): exactly which configurations are accepted, that nothing stays
      open, and that the addresses of a started proxy are known.
    - RateLimit (ratelimit/), Middleware (internal/middleware): the handlers in
      front of [Resolve], the bound on what passes, and answers from hosts files.
    - Flags (internal/cmd/args.go, flag.go, config.go): the command line and the
      configuration file.  Which command lines are accepted and what they mean,
      their priority over the file, and the ranges of values.  Command
      (internal/cmd/proxy.go, tls.go, cmd.go): the proxy that the command makes.
      It listens where it should, keeps serving any packets, and is closed in
      the end; this puts the theorems of the other files together.

    Properties are numbered by importance in their comments.  Their witnesses
    evaluate them in the modules of examples at the end of the files.

    ** Conventions and bounds

    Loops over data are structural.  The loops that are not have fuel that is
    enough: [lookup_loop] in Upstreams runs on the length of the name and removes
    a label each time; [tcp_loop] in Server and [crypt_tcp_loop] in CryptServer
    run on the length of the stream and read at least two bytes each time;
    [itoa_loop] has room for 20 digits, more than a 64-bit integer has;
    [ipv6_loop] reads one of at most eight fields each time; [media_params] runs
    on the length of the text and consumes a parameter each time; [retry_loop]
    in Life has one more step than the attempts that the count allows, and is
    shown not to end for the one count that wraps around.

    Exchange statistics are float64 in the code and rationals here: rounding is
    not modelled there; the float32 of TLS versions is the format binary32 with
    its rounding.  Logging, contexts other than their cancellation, and metrics
    are left out, as they do not change results.  A request that waits for an
    identical one is the argument [pending] of [Resolve]; the refresh of an
    expired item is the last component of its result, run by [refresh_once].
    The two lookups of [LookupNetIP] and requests of different clients run one
    after the other: interleavings inside [Resolve] are covered by Pending and by
    the locks of the caches only.  Texts of error messages are those of the
    source without their arguments.

    ** What is not modelled

    The insides of crypto/tls, net/http and quic-go, TCP dialing of fastip, the
    system calls behind sockets (Datagram has what is done with their results),
    the timers of dials and of accepting, the profiler and the logging of the
    command, the texts of certificates and of float32 flags, log values
    (diagnostic/) and the helpers of tests (dnsproxytest/, internal/dnsproxytest/,
    dnscrypt/internal/dnscrypttest/): they are input and output, third-party code
    or text for people.  What else of the sources has no counterpart here are
    imports, checks of types for the compiler and getters of a field. *)

From Stdlib Require Export ZArith Lia String Ascii.
From stdpp Require Export base tactics list numbers option.

(** ** Byte strings

    A Go [string] and a Go [[]byte] are both lists of numbers in 0..255. *)

Notation bytes := (list Z).

Declare Scope go_scope.
Delimit Scope go_scope with go.
Open Scope Z_scope.
Open Scope go_scope.

(** [str s] is the byte string of a Go string literal. *)
Definition str (s : string) : bytes :=
  (fun c => Z.of_N (Ascii.N_of_ascii c)) <$> String.list_ascii_of_string s.

Definition is_byte (b : Z) : Prop := 0 <= b < 256.
Definition wf_bytes (bs : bytes) : Prop := Forall is_byte bs.

(** [len s] is Go's [len]. *)
Notation len l := (Z.of_nat (length l)).

(** The conversions between integer types keep the low bits. *)
Definition uint8 (z : Z) : Z := z mod 2 ^ 8.
Definition uint16 (z : Z) : Z := z mod 2 ^ 16.
Definition uint32 (z : Z) : Z := z mod 2 ^ 32.
Definition uint64 (z : Z) : Z := z mod 2 ^ 64.
Definition int64 (z : Z) : Z :=
  let u := uint64 z in if u <? 2 ^ 63 then u else u - 2 ^ 64.

Definition MaxUint16 : Z := 65535.
Definition MaxUint32 : Z := 4294967295.

(** [copy_at off src dst] is [copy(dst[off:], src)]. *)
Definition copy_at (off : nat) (src dst : bytes) : bytes :=
  take off dst ++ take (length dst - off) src ++ drop (off + length src) dst.

(** [make_bytes n] is [make([]byte, n)]. *)
Definition make_bytes (n : nat) : bytes := replicate n 0.

(** [binary.BigEndian.PutUintN] on [n] bytes, and its inverse. *)
Fixpoint be_put (n : nat) (v : Z) : bytes :=
  match n with
  | O => []
  | S n' => (v / 256 ^ Z.of_nat n') mod 256 :: be_put n' v
  end.

Fixpoint be_get_aux (acc : Z) (bs : bytes) : Z :=
  match bs with
  | [] => acc
  | b :: bs' => be_get_aux (acc * 256 + b) bs'
  end.

Definition be_get (bs : bytes) : Z := be_get_aux 0 bs.

(** [strings.ToLower] and [strings.EqualFold] on ASCII strings.  Domain names
    in presentation form are ASCII: other octets are written as [\DDD]. *)
Definition lower_byte (b : Z) : Z :=
  if (65 <=? b) && (b <=? 90) then b + 32 else b.

Definition ToLower (s : bytes) : bytes := lower_byte <$> s.

Definition EqualFold (s t : bytes) : bool := bool_decide (ToLower s = ToLower t).

(** [strings.HasPrefix], [strings.HasSuffix] and [strings.TrimSuffix]. *)
Definition HasPrefix (s p : bytes) : bool :=
  bool_decide (take (length p) s = p).
Definition HasSuffix (s p : bytes) : bool :=
  (length p <=? length s)%nat && bool_decide (drop (length s - length p) s = p).
Definition TrimSuffix (s p : bytes) : bytes :=
  if HasSuffix s p then take (length s - length p) s else s.
Definition TrimPrefix (s p : bytes) : bytes :=
  if HasPrefix s p then drop (length p) s else s.

(** [strings.IndexByte]: the index of the first occurrence of [c]. *)
Fixpoint IndexByte (s : bytes) (c : Z) : option nat :=
  match s with
  | [] => None
  | b :: s' => if b =? c then Some O else S <$> IndexByte s' c
  end.

(** ** Errors

    [New] is [errors.New] or a constant of type [errors.Error], [Errorf] a
    [fmt.Errorf] whose format ends in [%w], [Join] is [errors.Join].  The text
    of an error keeps the format string of the source. *)
Inductive error :=
  | New (msg : string)
  | Errorf (msg : string) (e : error)
  | Join (es : list error).

(** [errors.Is] for a target that is a [New]. *)
Fixpoint errors_Is (e : error) (target : string) : bool :=
  match e with
  | New m => String.eqb m target
  | Errorf _ e' => errors_Is e' target
  | Join es => existsb (fun e' => errors_Is e' target) es
  end.

(** Fallible code: [(A, error)] results of which exactly one is set. *)
Inductive result (A : Type) :=
  | Ok (a : A)
  | Err (e : error).
Arguments Ok {A} a.
Arguments Err {A} e.

Definition rbind {A B} (m : result A) (f : A -> result B) : result B :=
  match m with Ok a => f a | Err e => Err e end.

Notation "'let?' x := m 'in' k" := (rbind m (fun x => k))
  (at level 10, x pattern, m at level 100, k at level 200) : go_scope.

(** [annotate msg m] wraps the error of [m]. *)
Definition annotate {A} (msg : string) (m : result A) : result A :=
  match m with Ok a => Ok a | Err e => Err (Errorf msg e) end.

(** Code that may panic (an index out of range, a nil dereference). *)
Inductive go (A : Type) :=
  | Ret (a : A)
  | Panic.
Arguments Ret {A} a.
Arguments Panic {A}.

Definition gbind {A B} (m : go A) (f : A -> go B) : go B :=
  match m with Ret a => f a | Panic => Panic end.

Notation "'let!' x := m 'in' k" := (gbind m (fun x => k))
  (at level 10, x pattern, m at level 100, k at level 200) : go_scope.

(** [l[i]]. *)
Definition index {A} (l : list A) (i : nat) : go A :=
  match l !! i with Some a => Ret a | None => Panic end.

(** [*p] of a pointer. *)
Definition deref {A} (o : option A) : go A := match o with Some a => Ret a | None => Panic end.

(** ** Time

    A [time.Time] is the number of nanoseconds since the Unix epoch and a
    [time.Duration] a number of nanoseconds. *)
Notation Time := Z (only parsing).
Notation Duration := Z (only parsing).

Definition Second : Duration := 1000000000.
Definition Millisecond : Duration := 1000000.
Definition Unix (t : Time) : Z := t / Second.
Definition TimeUnix (sec : Z) : Time := sec * Second.
Definition After (t u : Time) : bool := u <? t.

(** [uint32(d.Seconds())] for a duration that is not negative. *)
Definition seconds32 (d : Duration) : Z := uint32 (Z.quot d Second).

(** ** Tactics and hints *)

Create HintDb godb.

#[export] Hint Unfold is_byte : godb.
#[export] Hint Resolve Forall_nil_2 Forall_cons_2 Forall_app_2 : godb.

(** Case analysis on an innermost scrutinee of the goal or of a hypothesis,
    keeping its equation. *)
Ltac destruct_innermost x :=
  lazymatch x with
  | context [match ?y with _ => _ end] => destruct_innermost y
  | _ => destruct x eqn:?
  end.
Ltac case_goal :=
  match goal with
  | |- context [match ?x with _ => _ end] => destruct_innermost x
  end.
Ltac case_hyp H :=
  match type of H with
  | context [match ?x with _ => _ end] => destruct_innermost x
  end.

(** Inverts a [let?] or a [let!] that returned. *)
Ltac inv_bind H :=
  match type of H with
  | rbind ?m _ = _ =>
      let E := fresh "E" in destruct m eqn:E; cbn [rbind] in H; [|try discriminate H]
  | gbind ?m _ = _ =>
      let E := fresh "E" in destruct m eqn:E; cbn [gbind] in H; [|try discriminate H]
  end.

(** Boolean comparisons on integers become propositions. *)
Ltac to_prop :=
  repeat match goal with
  | H : (_ <? _) = true |- _ => apply Z.ltb_lt in H
  | H : (_ <? _) = false |- _ => apply Z.ltb_ge in H
  | H : (_ <=? _) = true |- _ => apply Z.leb_le in H
  | H : (_ <=? _) = false |- _ => apply Z.leb_gt in H
  | H : (_ =? _) = true |- _ => apply Z.eqb_eq in H
  | H : (_ =? _) = false |- _ => apply Z.eqb_neq in H
  | H : (_ && _)%bool = true |- _ => apply andb_true_iff in H as [? ?]
  | H : (_ || _)%bool = false |- _ => apply orb_false_iff in H as [? ?]
  | H : negb _ = true |- _ => apply negb_true_iff in H
  | H : negb _ = false |- _ => apply negb_false_iff in H
  end.

(** ** Shared lemmas *)

Section BigEndian.

Lemma be_put_length n v : length (be_put n v) = n.
Proof. induction n; simpl; congruence. Qed.

Lemma be_put_wf n v : wf_bytes (be_put n v).
Proof.
  induction n; simpl; constructor; auto.
  apply Z.mod_pos_bound; lia.
Qed.

Lemma be_get_aux_app acc l1 l2 :
  be_get_aux acc (l1 ++ l2) = be_get_aux (be_get_aux acc l1) l2.
Proof. revert acc; induction l1; simpl; auto. Qed.

Lemma be_get_aux_put acc n v :
  be_get_aux acc (be_put n v) = acc * 256 ^ Z.of_nat n + v mod 256 ^ Z.of_nat n.
Proof.
  revert acc; induction n as [|n IH]; intros acc; cbn [be_put be_get_aux].
  - change (256 ^ Z.of_nat 0) with 1. rewrite Z.mod_1_r. lia.
  - rewrite IH.
    replace (Z.of_nat (S n)) with (Z.of_nat n + 1) by lia.
    rewrite Z.pow_add_r, Z.pow_1_r by lia.
    set (p := 256 ^ Z.of_nat n). assert (0 < p) by (apply Z.pow_pos_nonneg; lia).
    rewrite (Z.rem_mul_r v p 256) by lia. ring.
Qed.

(** Reading back what was written gives the low bits of the value. *)
Lemma be_get_put n v : be_get (be_put n v) = v mod 256 ^ Z.of_nat n.
Proof. unfold be_get. rewrite be_get_aux_put. lia. Qed.

Lemma be_get_put_small n v :
  0 <= v < 256 ^ Z.of_nat n -> be_get (be_put n v) = v.
Proof. intros. rewrite be_get_put. apply Z.mod_small; auto. Qed.

Lemma be_get_aux_bound acc bs :
  0 <= acc -> wf_bytes bs ->
  0 <= be_get_aux acc bs < (acc + 1) * 256 ^ Z.of_nat (length bs).
Proof.
  intros Ha Hw; revert acc Ha; induction Hw as [|b bs Hb _ IH]; intros acc Ha.
  - cbn. change (256 ^ Z.of_nat 0) with 1. lia.
  - cbn [be_get_aux length]. unfold is_byte in Hb.
    specialize (IH (acc * 256 + b) ltac:(lia)).
    replace (Z.of_nat (S (length bs))) with (Z.of_nat (length bs) + 1) by lia.
    rewrite Z.pow_add_r, Z.pow_1_r by lia.
    assert (0 < 256 ^ Z.of_nat (length bs)) by (apply Z.pow_pos_nonneg; lia).
    nia.
Qed.

Lemma be_get_bound bs :
  wf_bytes bs -> 0 <= be_get bs < 256 ^ Z.of_nat (length bs).
Proof. intros H. pose proof (be_get_aux_bound 0 bs ltac:(lia) H). unfold be_get. lia. Qed.

Lemma be_put_inj n v w :
  0 <= v < 256 ^ Z.of_nat n -> 0 <= w < 256 ^ Z.of_nat n ->
  be_put n v = be_put n w -> v = w.
Proof.
  intros Hv Hw H. rewrite <- (be_get_put_small n v), <- (be_get_put_small n w) by auto.
  congruence.
Qed.

Lemma be_put_get bs :
  wf_bytes bs -> be_put (length bs) (be_get bs) = bs.
Proof.
  induction bs as [|b bs IH] using rev_ind; intros Hw; [reflexivity|].
  apply Forall_app in Hw as [Hw Hb]. inversion_clear Hb as [|? ? Hb0 _]; rename Hb0 into Hb. unfold is_byte in Hb.
  assert (Happ : forall n v, be_put (n + 1) v = be_put n (v / 256) ++ [v mod 256]).
  { clear. induction n as [|n IHn]; intros v; cbn [be_put Nat.add app].
    - change (256 ^ Z.of_nat 0) with 1. rewrite Z.div_1_r. reflexivity.
    - rewrite IHn. f_equal. f_equal. rewrite Z.div_div by lia. f_equal.
      replace (Z.of_nat (n + 1)) with (1 + Z.of_nat n) by lia.
      rewrite Z.pow_add_r by lia. reflexivity. }
  rewrite length_app; cbn [length]. rewrite Happ. unfold be_get in *.
  rewrite be_get_aux_app; cbn [be_get_aux].
  rewrite Z.div_add_l by lia. rewrite (Z.div_small b 256), Z.add_0_r by lia.
  rewrite (Z.add_comm _ b), Z.mod_add by lia. rewrite (Z.mod_small b 256) by lia.
  rewrite IH by auto. reflexivity.
Qed.

End BigEndian.

#[export] Hint Resolve be_put_wf : godb.
#[export] Hint Rewrite be_put_length : godb.

Section Slices.

Lemma copy_at_length off src dst :
  (off <= length dst)%nat -> length (copy_at off src dst) = length dst.
Proof.
  intros. unfold copy_at. rewrite !length_app, length_take, length_take, length_drop. lia.
Qed.

(** A copy into a zeroed tail that is as long as the source. *)
Lemma copy_at_exact off src pre n m :
  off = length pre -> n = (length src + m)%nat ->
  copy_at off src (pre ++ make_bytes n) = pre ++ src ++ make_bytes m.
Proof.
  intros -> ->. unfold copy_at, make_bytes.
  rewrite take_app_length, length_app, length_replicate.
  rewrite (take_ge src) by lia.
  rewrite drop_app_add, drop_replicate. do 3 f_equal. lia.
Qed.

Lemma ToLower_length s : length (ToLower s) = length s.
Proof. apply length_fmap. Qed.

Lemma lower_byte_idem b : lower_byte (lower_byte b) = lower_byte b.
Proof. unfold lower_byte. repeat case_goal; to_prop; lia. Qed.

Lemma ToLower_idem s : ToLower (ToLower s) = ToLower s.
Proof.
  unfold ToLower. rewrite <- list_fmap_compose. apply list_fmap_ext. intros. apply lower_byte_idem.
Qed.

Lemma lower_byte_nonzero b : b <> 0 -> 0 <= b -> lower_byte b <> 0.
Proof. unfold lower_byte. case_goal; to_prop; lia. Qed.

(** A decidable property of all bytes holds if it computes. *)
Lemma byte_forall (P : Z -> bool) :
  forallb P (Z.of_nat <$> seq 0 256) = true -> forall b, is_byte b -> P b = true.
Proof.
  intros H b Hb. rewrite forallb_forall in H. apply H.
  replace b with (Z.of_nat (Z.to_nat b)) by (unfold is_byte in Hb; lia).
  apply in_map, in_seq. unfold is_byte in Hb. lia.
Qed.

Lemma index_Ret {A} (l : list A) i a : index l i = Ret a <-> l !! i = Some a.
Proof. unfold index. destruct (l !! i); naive_solver. Qed.

Lemma app_inj_length {A} (l1 l2 k1 k2 : list A) :
  length l1 = length l2 -> l1 ++ k1 = l2 ++ k2 -> l1 = l2 /\ k1 = k2.
Proof. intros. apply app_inj_1; auto. Qed.

Lemma uint32_small z : 0 <= z <= MaxUint32 -> uint32 z = z.
Proof. unfold uint32, MaxUint32. intros. apply Z.mod_small. lia. Qed.

Lemma uint32_range z : 0 <= uint32 z <= MaxUint32.
Proof. unfold uint32, MaxUint32. pose proof (Z.mod_pos_bound z (2 ^ 32) ltac:(lia)). lia. Qed.

Lemma int64_uint64 z : - 2 ^ 63 <= z < 2 ^ 63 -> int64 (uint64 z) = z.
Proof.
  intros Hz. unfold int64, uint64. rewrite Z.mod_mod by lia.
  destruct (Z.ltb_spec (z mod 2 ^ 64) (2 ^ 63)) as [H|H].
  - destruct (Z_lt_le_dec z 0).
    + rewrite <- (Z.mod_add z 1), Z.mod_small in H by lia. lia.
    + apply Z.mod_small; lia.
  - destruct (Z_lt_le_dec z 0).
    + rewrite <- (Z.mod_add z 1), Z.mod_small by lia. lia.
    + rewrite Z.mod_small in H by lia. lia.
Qed.

End Slices.

#[export] Hint Rewrite ToLower_length : godb.
