(* ===== verification/NetIP.v ===== *)
(** * IP addresses and subnets of the Go standard library

    The parts of packages [net] and [net/netip] that dnsproxy computes with:
    [net.IP], [net.IPMask] and [net.IPNet] as (possibly nil) byte slices, and
    [netip.Addr] and [netip.Prefix].  The last section relates CIDR masks of
    consecutive lengths, which the subnet cache depends on. *)

From S2P Require Import Prelude.

(** ** [net.IP], [net.IPMask], [net.IPNet] *)

(** A slice that may be nil; a nil slice has length 0. *)
Notation IP := (option bytes) (only parsing).
Notation IPMask := (option bytes) (only parsing).

Definition slice (s : option bytes) : bytes := default [] s.

Definition IPv4len : nat := 4.
Definition IPv6len : nat := 16.
Definition IPv4BitLen : Z := 32.
Definition IPv6BitLen : Z := 128.

Definition v4InV6Prefix : bytes := replicate 10 0 ++ [255; 255].

Record IPNet := mkIPNet { IPNet_IP : IP; IPNet_Mask : IPMask }.

#[export] Instance IPNet_eq_dec : EqDecision IPNet.
Proof. solve_decision. Defined.

(** [ip.To4()] *)
Definition To4 (ip : IP) : IP :=
  let b := slice ip in
  if (length b =? IPv4len)%nat then ip
  else if (length b =? IPv6len)%nat && bool_decide (take 12 b = v4InV6Prefix)
  then Some (drop 12 b)
  else None.

(** [ip.To16()] *)
Definition To16 (ip : IP) : IP :=
  let b := slice ip in
  if (length b =? IPv4len)%nat then Some (v4InV6Prefix ++ b)
  else if (length b =? IPv6len)%nat then ip
  else None.

Definition allFF (b : bytes) : bool := forallb (Z.eqb 255) b.

(** [ip.Mask(mask)] *)
Definition IP_Mask (ip : IP) (mask : IPMask) : IP :=
  let m := slice mask in
  let m := if (length m =? IPv6len)%nat && (length (slice ip) =? IPv4len)%nat && allFF (take 12 m)
           then drop 12 m else m in
  let b := slice ip in
  let b := if (length m =? IPv4len)%nat && (length b =? IPv6len)%nat
              && bool_decide (take 12 b = v4InV6Prefix)
           then drop 12 b else b in
  if (length b =? length m)%nat then Some (zip_with Z.land b m) else None.

(** [ip.Equal(x)] *)
Definition IP_Equal (ip x : IP) : bool :=
  let a := slice ip in
  let b := slice x in
  if (length a =? length b)%nat then bool_decide (a = b)
  else if (length a =? IPv4len)%nat && (length b =? IPv6len)%nat
  then bool_decide (take 12 b = v4InV6Prefix) && bool_decide (a = drop 12 b)
  else if (length a =? IPv6len)%nat && (length b =? IPv4len)%nat
  then bool_decide (take 12 a = v4InV6Prefix) && bool_decide (b = drop 12 a)
  else false.

(** The byte [^byte(0xff >> n)]. *)
Definition cidr_byte (n : Z) : Z := Z.lxor 255 (Z.shiftr 255 n).

Fixpoint cidr_loop (l : nat) (n : Z) : bytes :=
  match l with
  | O => []
  | S l' => if 8 <=? n then 255 :: cidr_loop l' (n - 8) else cidr_byte n :: cidr_loop l' 0
  end.

(** [net.CIDRMask(ones, bits)] *)
Definition CIDRMask (ones bits : Z) : IPMask :=
  if negb (bits =? IPv4BitLen) && negb (bits =? IPv6BitLen) then None
  else if (ones <? 0) || (bits <? ones) then None
  else Some (cidr_loop (Z.to_nat (bits / 8)) ones).

(** The leading ones of a byte and the byte left when they are shifted out. *)
Fixpoint leading_ones (fuel : nat) (v : Z) : Z * Z :=
  match fuel with
  | O => (0, v)
  | S f => if Z.testbit v 7
           then let '(n, v') := leading_ones f (uint8 (Z.shiftl v 1)) in (n + 1, v')
           else (0, v)
  end.

(** [simpleMaskLength]: the number of leading ones, -1 for a mask of another
    form. *)
Fixpoint simpleMaskLength (m : bytes) : Z :=
  match m with
  | [] => 0
  | v :: m' =>
      if v =? 255 then
        let r := simpleMaskLength m' in if r =? -1 then -1 else 8 + r
      else
        let '(n, v') := leading_ones 8 v in
        if v' =? 0 then (if forallb (Z.eqb 0) m' then n else -1) else -1
  end.

(** [mask.Size()] *)
Definition Mask_Size (m : IPMask) : Z * Z :=
  let ones := simpleMaskLength (slice m) in
  if ones =? -1 then (0, 0) else (ones, 8 * len (slice m)).

(** ** [netip.Addr] and [netip.Prefix] *)

Inductive Addr :=
  | AddrZero
  | Addr4 (b : bytes)
  | Addr6 (b : bytes) (zone : bytes).

#[export] Instance Addr_eq_dec : EqDecision Addr.
Proof. solve_decision. Defined.

Definition AddrFromSlice (b : bytes) : Addr :=
  if (length b =? IPv4len)%nat then Addr4 b
  else if (length b =? IPv6len)%nat then Addr6 b []
  else AddrZero.

Definition Is4 (a : Addr) : bool := match a with Addr4 _ => true | _ => false end.
Definition Is6 (a : Addr) : bool := match a with Addr6 _ _ => true | _ => false end.
Definition IsValid (a : Addr) : bool := match a with AddrZero => false | _ => true end.

(** [ip.IsUnspecified()] *)
Definition IsUnspecified (a : Addr) : bool :=
  bool_decide (a = Addr4 (replicate 4 0)) || bool_decide (a = Addr6 (replicate 16 0) []).

Definition AsSlice (a : Addr) : IP :=
  match a with AddrZero => None | Addr4 b => Some b | Addr6 b _ => Some b end.

Definition BitLen (a : Addr) : Z :=
  match a with AddrZero => 0 | Addr4 _ => 32 | Addr6 _ _ => 128 end.

(** [ip.As16()]; the zero address gives zeroes. *)
Definition As16 (a : Addr) : bytes :=
  match a with
  | AddrZero => replicate 16 0
  | Addr4 b => v4InV6Prefix ++ b
  | Addr6 b _ => b
  end.

(** [ip.As4()], which panics on an address that is not an IPv4 or a mapped
    one. *)
Definition As4 (a : Addr) : go bytes :=
  match a with
  | AddrZero => Panic
  | Addr4 b => Ret b
  | Addr6 b _ => if bool_decide (take 12 b = v4InV6Prefix) then Ret (drop 12 b) else Panic
  end.

Definition Unmap (a : Addr) : Addr :=
  match a with
  | Addr6 b _ => if bool_decide (take 12 b = v4InV6Prefix) then Addr4 (drop 12 b) else a
  | _ => a
  end.

(** The bytes of an address whose bits after the first [n] are cleared. *)
Definition mask_bytes (b : bytes) (n : Z) : bytes :=
  zip_with Z.land b (cidr_loop (length b) n).

(** A prefix; [Bits] is -1 in an invalid one. *)
Record Prefix := mkPrefix { Prefix_Addr : Addr; Bits : Z }.

#[export] Instance Prefix_eq_dec : EqDecision Prefix.
Proof. solve_decision. Defined.

Definition addr_bytes (a : Addr) : bytes := slice (AsSlice a).

Definition same_family (a b : Addr) : bool :=
  match a, b with Addr4 _, Addr4 _ | Addr6 _ _, Addr6 _ _ => true | _, _ => false end.

Definition hasZone (a : Addr) : bool :=
  match a with Addr6 _ z => negb (bool_decide (z = [])) | _ => false end.

(** [p.IsValid()] *)
Definition Prefix_IsValid (p : Prefix) : bool :=
  IsValid (Prefix_Addr p) && (0 <=? Bits p) && (Bits p <=? BitLen (Prefix_Addr p)).

(** [p.Contains(ip)] *)
Definition Contains (p : Prefix) (ip : Addr) : bool :=
  Prefix_IsValid p && negb (hasZone ip) && same_family (Prefix_Addr p) ip
  && bool_decide (mask_bytes (addr_bytes ip) (Bits p)
                  = mask_bytes (addr_bytes (Prefix_Addr p)) (Bits p)).

(** [p.Masked()] *)
Definition Masked (p : Prefix) : Prefix :=
  if Prefix_IsValid p then
    match Prefix_Addr p with
    | AddrZero => mkPrefix AddrZero (-1)
    | Addr4 b => mkPrefix (Addr4 (mask_bytes b (Bits p))) (Bits p)
    | Addr6 b _ => mkPrefix (Addr6 (mask_bytes b (Bits p)) []) (Bits p)
    end
  else mkPrefix AddrZero (-1).

(** Addresses of the right length, made of bytes. *)
Definition wf_addr (a : Addr) : Prop :=
  match a with
  | AddrZero => True
  | Addr4 b => length b = IPv4len /\ wf_bytes b
  | Addr6 b _ => length b = IPv6len /\ wf_bytes b
  end.

(** ** CIDR masks *)

Section Cidr.

Lemma slice_Some b : slice (Some b) = b.
Proof. reflexivity. Qed.

Lemma cidr_loop_length l n : length (cidr_loop l n) = l.
Proof. revert n; induction l; intros n; simpl; [|case_goal]; simpl; auto. Qed.

Lemma cidr_loop_0 l : cidr_loop l 0 = replicate l 0.
Proof. induction l; simpl; f_equal; auto. Qed.

Lemma mask_bytes_length b n : length (mask_bytes b n) = length b.
Proof. unfold mask_bytes. rewrite length_zip_with, cidr_loop_length. lia. Qed.

Lemma mask_bytes_cons x b n :
  mask_bytes (x :: b) n =
  if 8 <=? n then Z.land x 255 :: mask_bytes b (n - 8)
  else Z.land x (cidr_byte n) :: mask_bytes b 0.
Proof. unfold mask_bytes. simpl. case_goal; reflexivity. Qed.

(** A property of all bytes and all shifts 0..8 is decided by evaluation. *)
Lemma byte_cases (P : Z -> Z -> bool) :
  forallb (fun b => forallb (P b) (seqZ 0 9)) (seqZ 0 256) = true ->
  forall b n, is_byte b -> 0 <= n <= 8 -> P b n = true.
Proof.
  intros H b n Hb Hn. rewrite forallb_forall in H.
  assert (Hi : forall x lo k, lo <= x < lo + k -> In x (seqZ lo k)).
  { intros x lo k ?. apply list_elem_of_In, elem_of_seqZ. lia. }
  specialize (H b (Hi b 0 256 ltac:(unfold is_byte in *; lia))).
  rewrite forallb_forall in H. apply H, Hi. lia.
Qed.

Lemma land_cidr_byte_bit b n :
  is_byte b -> 0 <= n < 8 ->
  Z.ldiff (Z.land b (cidr_byte (n + 1))) (Z.shiftl 1 (7 - n)) = Z.land b (cidr_byte n).
Proof.
  intros Hb Hn.
  pose proof (byte_cases (fun b n => (8 <=? n) ||
    (Z.ldiff (Z.land b (cidr_byte (n + 1))) (Z.shiftl 1 (7 - n)) =? Z.land b (cidr_byte n)))
    ltac:(vm_compute; reflexivity) b n Hb ltac:(lia)) as H.
  apply orb_true_iff in H as [H|H]; to_prop; lia.
Qed.

Lemma land_255 b : is_byte b -> Z.land b 255 = b.
Proof.
  intros Hb. unfold is_byte in Hb. change 255 with (Z.ones 8).
  rewrite Z.land_ones by lia. apply Z.mod_small; lia.
Qed.

Lemma land_byte b c : is_byte b -> is_byte (Z.land b c).
Proof.
  unfold is_byte. intros Hb. split; [apply Z.land_nonneg; lia|].
  destruct (Z.eq_dec (Z.land b c) 0) as [->|]; [lia|].
  assert (0 <= Z.land b c) by (apply Z.land_nonneg; lia).
  change 256 with (2 ^ 8). apply Z.log2_lt_pow2; [lia|].
  destruct (Z_le_gt_dec 8 (Z.log2 (Z.land b c))); [|lia].
  exfalso. assert (Ht : Z.testbit (Z.land b c) (Z.log2 (Z.land b c)) = true).
  { apply Z.bit_log2; lia. }
  rewrite Z.land_spec in Ht. apply andb_true_iff in Ht as [Ht _].
  rewrite Z.bits_above_log2 in Ht; [discriminate|lia|].
  destruct (Z.eq_dec b 0) as [->|]; [rewrite Z.log2_nonpos; lia|].
  apply Z.log2_lt_pow2; [lia|]. apply Z.lt_le_trans with (2 ^ 8); [lia|].
  apply Z.pow_le_mono_r; lia.
Qed.

Lemma mask_bytes_wf b n : wf_bytes b -> wf_bytes (mask_bytes b n).
Proof.
  intros Hb; revert n; induction Hb; intros n; [constructor|].
  rewrite mask_bytes_cons. case_goal; (constructor; [auto using land_byte | apply IHHb]).
Qed.

Lemma mask_bytes_0 b : mask_bytes b 0 = replicate (length b) 0.
Proof.
  induction b as [|x b IH]; [reflexivity|].
  rewrite mask_bytes_cons; cbn -[cidr_byte mask_bytes]. rewrite IH.
  change (cidr_byte 0) with 0. rewrite Z.land_0_r. reflexivity.
Qed.

(** Masking twice keeps the shorter prefix. *)
Lemma mask_bytes_twice b n m :
  wf_bytes b -> 0 <= m <= n -> mask_bytes (mask_bytes b n) m = mask_bytes b m.
Proof.
  intros Hb; revert n m; induction Hb as [|x b Hx Hb IH]; intros n m Hm; [reflexivity|].
  rewrite !mask_bytes_cons.
  destruct (Z.leb_spec 8 n), (Z.leb_spec 8 m); try lia; rewrite mask_bytes_cons.
  - destruct (Z.leb_spec 8 m); [|lia]. rewrite IH by lia. rewrite !land_255; auto using land_byte.
  - destruct (Z.leb_spec 8 m); [lia|]. rewrite IH, land_255 by (auto; lia). reflexivity.
  - destruct (Z.leb_spec 8 m); [lia|]. rewrite IH by lia. f_equal.
    rewrite <- Z.land_assoc. f_equal.
    assert (Hc : forallb (fun n => forallb (fun m => (n <? m) ||
        (Z.land (cidr_byte n) (cidr_byte m) =? cidr_byte m)) (seqZ 0 9)) (seqZ 0 9) = true)
      by (vm_compute; reflexivity).
    rewrite forallb_forall in Hc.
    specialize (Hc n ltac:(apply list_elem_of_In, elem_of_seqZ; lia)).
    rewrite forallb_forall in Hc.
    specialize (Hc m ltac:(apply list_elem_of_In, elem_of_seqZ; lia)).
    apply orb_true_iff in Hc as [Hc|Hc]; to_prop; lia.
Qed.

(** Moving from a prefix of length [m + 1] to one of length [m] clears exactly
    the bit [m] of the address. *)
Lemma mask_bytes_step b m :
  wf_bytes b -> 0 <= m < 8 * len b ->
  alter (fun v => Z.ldiff v (Z.shiftl 1 (7 - m mod 8))) (Z.to_nat (m / 8)) (mask_bytes b (m + 1))
  = mask_bytes b m.
Proof.
  intros Hb; revert m; induction Hb as [|x b Hx Hb IH]; intros m Hm; [cbn in Hm; lia|].
  cbn [length] in Hm. rewrite !mask_bytes_cons.
  destruct (Z.leb_spec 8 m) as [H8|H8].
  - destruct (Z.leb_spec 8 (m + 1)); [|lia].
    replace (m / 8) with ((m - 8) / 8 + 1)
      by (replace m with (m - 8 + 1 * 8) at 2 by lia; rewrite Z.div_add; lia).
    assert (0 <= (m - 8) / 8) by (apply Z.div_pos; lia).
    rewrite Z2Nat.inj_add, Nat.add_1_r by lia. cbn [alter list_alter]. f_equal.
    replace (m mod 8) with ((m - 8) mod 8)
      by (replace m with (m - 8 + 1 * 8) at 2 by lia; rewrite Z.mod_add; lia).
    replace (m + 1 - 8) with (m - 8 + 1) by lia. apply IH. lia.
  - rewrite Z.div_small, Z.mod_small by lia. cbn -[cidr_byte mask_bytes].
    rewrite <- (land_cidr_byte_bit x m) by (auto; lia).
    destruct (Z.leb_spec 8 (m + 1)); cbn -[cidr_byte mask_bytes].
    + assert (m = 7) as -> by lia. reflexivity.
    + reflexivity.
Qed.

(** The masks with a defined size are the CIDR masks. *)
Lemma simpleMaskLength_cidr m n :
  wf_bytes m -> simpleMaskLength m = n -> n <> -1 ->
  0 <= n <= 8 * len m /\ m = cidr_loop (length m) n.
Proof.
  intros Hm; revert n; induction Hm as [|v m Hv Hm IH]; intros n Hn Hd.
  { cbn in Hn. subst. cbn. split; [lia|reflexivity]. }
  cbn -[leading_ones Z.mul] in Hn. destruct (Z.eqb_spec v 255) as [->|Hne].
  - destruct (Z.eqb_spec (simpleMaskLength m) (-1)); [congruence|].
    destruct (IH _ eq_refl n0) as [Hb He]. subst n. cbn [length]. split; [lia|].
    cbn [cidr_loop]. destruct (Z.leb_spec 8 (8 + simpleMaskLength m)); [|lia].
    f_equal. rewrite He at 1. f_equal. lia.
  - pose proof (byte_cases (fun b _ => (b =? 255) ||
      (let '(k, r) := leading_ones 8 b in
       negb (r =? 0) || ((0 <=? k) && (k <? 8) && (b =? cidr_byte k))))
      ltac:(vm_compute; reflexivity) v 0 Hv ltac:(lia)) as Hc.
    destruct (Z.eqb_spec v 255); [congruence|]. cbn [orb] in Hc.
    destruct (leading_ones 8 v) as [k r]. destruct (Z.eqb_spec r 0); [|congruence].
    cbn [negb orb] in Hc. to_prop.
    destruct (forallb (Z.eqb 0) m) eqn:Hz; [|congruence]. subst n.
    cbn [length]. split; [lia|]. cbn [cidr_loop].
    destruct (Z.leb_spec 8 k); [lia|]. f_equal; [lia|].
    rewrite cidr_loop_0. clear -Hz. induction m as [|a m IHm]; [reflexivity|].
    cbn [forallb] in Hz. to_prop. subst a. cbn. f_equal. auto.
Qed.

Lemma simpleMaskLength_cidr_loop l n :
  0 <= n <= 8 * Z.of_nat l -> simpleMaskLength (cidr_loop l n) = n.
Proof.
  revert n; induction l as [|l IH]; intros n Hn; [cbn; lia|].
  cbn [cidr_loop]. destruct (Z.leb_spec 8 n) as [H8|H8].
  - cbn -[Z.add]. rewrite IH by lia. destruct (Z.eqb_spec (n - 8) (-1)); lia.
  - rewrite cidr_loop_0. cbn -[leading_ones cidr_byte].
    assert (Hc : forallb (fun n => (8 <=? n) || (negb (cidr_byte n =? 255)
      && bool_decide (leading_ones 8 (cidr_byte n) = (n, 0)))) (seqZ 0 9) = true)
      by (vm_compute; reflexivity).
    rewrite forallb_forall in Hc.
    specialize (Hc n ltac:(apply list_elem_of_In, elem_of_seqZ; lia)).
    destruct (Z.leb_spec 8 n); [lia|]. cbn [orb] in Hc. to_prop.
    destruct (Z.eqb_spec (cidr_byte n) 255); [lia|].
    rewrite (bool_decide_eq_true_1 _ H1). rewrite Z.eqb_refl.
    replace (forallb (Z.eqb 0) (replicate l 0)) with true; [reflexivity|].
    symmetry. apply forallb_forall. intros x Hx.
    apply list_elem_of_In, elem_of_replicate in Hx as [-> _]. reflexivity.
Qed.

Lemma Mask_Size_CIDR ones bits :
  bits = 32 \/ bits = 128 -> 0 <= ones <= bits ->
  Mask_Size (CIDRMask ones bits) = (ones, bits).
Proof.
  intros Hb Ho. unfold CIDRMask, IPv4BitLen, IPv6BitLen.
  assert (negb (bits =? 32) && negb (bits =? 128) = false) as ->
    by (destruct Hb as [-> | ->]; reflexivity).
  destruct (Z.ltb_spec ones 0), (Z.ltb_spec bits ones); try lia. cbn [orb].
  unfold Mask_Size. rewrite slice_Some, cidr_loop_length.
  assert (8 * Z.of_nat (Z.to_nat (bits / 8)) = bits) as Hl
    by (destruct Hb as [-> | ->]; reflexivity).
  rewrite simpleMaskLength_cidr_loop by lia.
  destruct (Z.eqb_spec ones (-1)); [lia|]. rewrite Hl. reflexivity.
Qed.

Lemma CIDRMask_slice ones l :
  (l = IPv4len \/ l = IPv6len) -> 0 <= ones <= 8 * Z.of_nat l ->
  CIDRMask ones (8 * Z.of_nat l) = Some (cidr_loop l ones).
Proof.
  intros [-> | ->] H; unfold CIDRMask, IPv4len, IPv6len in *;
    destruct (Z.ltb_spec ones 0), (Z.ltb_spec (8 * Z.of_nat 4) ones),
      (Z.ltb_spec (8 * Z.of_nat 16) ones); try lia; reflexivity.
Qed.

Lemma To4_Some_length ip ip4 : To4 ip = Some ip4 -> length ip4 = 4%nat.
Proof.
  unfold To4, IPv4len, IPv6len. destruct (Nat.eqb_spec (length (slice ip)) 4) as [H4|].
  - intros ->. exact H4.
  - destruct (Nat.eqb_spec (length (slice ip)) 16) as [H16|]; cbn [andb]; [|discriminate].
    case_goal; [|discriminate]. intros [= <-]. rewrite length_drop, H16. reflexivity.
Qed.

End Cidr.

#[export] Hint Rewrite mask_bytes_length cidr_loop_length : godb.
#[export] Hint Resolve mask_bytes_wf land_byte : godb.
