(* ===== verification/DnsMsg.v ===== *)
(** * DNS messages and the interface of the DNS library

    The message structures whose fields dnsproxy reads and writes, the
    functions it calls from package [dns] as a class of operations, and the
    documented behaviour of those functions as a class of laws.  The last
    section gives the equivalence of records and of messages up to which a
    message survives packing. *)

From S2P Require Import Prelude NetIP.

(** ** Data *)

Record RR_Header := mkHdr { Name : bytes; Rrtype : Z; Class_ : Z; Ttl : Z }.

Inductive EDNS0 :=
  | EDNS0_SUBNET (Code Family SourceNetmask SourceScope : Z) (Address : IP)
  | EDNS0_Other (Code : Z) (data : bytes).

(** The dynamic type of a [dns.RR] and the fields that are read. *)
Inductive RData :=
  | RD_A (A : IP)
  | RD_AAAA (AAAA : IP)
  | RD_OPT (Option : list EDNS0)
  | RD_TXT (Txt : list bytes)
  | RD_PTR (Ptr : bytes)
  | RD_SOA (Ns Mbox : bytes) (nums : list Z)
  | RD_Other (data : bytes).

Record RR := mkRR { Header : RR_Header; Data : RData }.

Record Question_t := mkQ { QName : bytes; Qtype : Z; Qclass : Z }.

Record MsgHdr := mkMsgHdr {
  Id : Z;
  Response : bool;
  Opcode : Z;
  Authoritative : bool;
  Truncated : bool;
  RecursionDesired : bool;
  RecursionAvailable : bool;
  Zero : bool;
  AuthenticatedData : bool;
  CheckingDisabled : bool;
  Rcode : Z;
}.

Record Msg := mkMsg {
  Hdr : MsgHdr;
  Compress : bool;
  Question : list Question_t;
  Answer : list RR;
  Ns : list RR;
  Extra : list RR;
}.

(** ** Constants of the protocol *)

Definition TypeNone : Z := 0.
Definition TypeA : Z := 1.
Definition TypeNS : Z := 2.
Definition TypeCNAME : Z := 5.
Definition TypeSOA : Z := 6.
Definition TypePTR : Z := 12.
Definition TypeTXT : Z := 16.
Definition TypeSIG : Z := 24.
Definition TypeAAAA : Z := 28.
Definition TypeOPT : Z := 41.
Definition TypeDS : Z := 43.
Definition TypeRRSIG : Z := 46.
Definition TypeNSEC : Z := 47.
Definition TypeDNSKEY : Z := 48.
Definition TypeNSEC3 : Z := 50.
Definition TypeANY : Z := 255.
Definition ClassINET : Z := 1.
Definition RcodeSuccess : Z := 0.
Definition RcodeFormatError : Z := 1.
Definition RcodeServerFailure : Z := 2.
Definition RcodeNameError : Z := 3.
Definition RcodeNotImplemented : Z := 4.
Definition RcodeRefused : Z := 5.
Definition OpcodeQuery : Z := 0.
Definition OpcodeNotify : Z := 4.
Definition EDNS0SUBNET : Z := 8.
Definition MinMsgSize : Z := 512.
Definition MaxMsgSize : Z := 65535.

(** ** Field updates *)

Definition empty_hdr : MsgHdr :=
  mkMsgHdr 0 false 0 false false false false false false false 0.
(** [&dns.Msg{}] *)
Definition empty_msg : Msg := mkMsg empty_hdr false [] [] [] [].

Definition upd_hdr (f : MsgHdr -> MsgHdr) (m : Msg) : Msg :=
  mkMsg (f (Hdr m)) (Compress m) (Question m) (Answer m) (Ns m) (Extra m).

Definition set_Id (v : Z) (m : Msg) : Msg :=
  upd_hdr (fun h => mkMsgHdr v (Response h) (Opcode h) (Authoritative h) (Truncated h)
    (RecursionDesired h) (RecursionAvailable h) (Zero h) (AuthenticatedData h)
    (CheckingDisabled h) (Rcode h)) m.
Definition set_Truncated (v : bool) (m : Msg) : Msg :=
  upd_hdr (fun h => mkMsgHdr (Id h) (Response h) (Opcode h) (Authoritative h) v
    (RecursionDesired h) (RecursionAvailable h) (Zero h) (AuthenticatedData h)
    (CheckingDisabled h) (Rcode h)) m.
Definition set_RecursionDesired (v : bool) (m : Msg) : Msg :=
  upd_hdr (fun h => mkMsgHdr (Id h) (Response h) (Opcode h) (Authoritative h) (Truncated h)
    v (RecursionAvailable h) (Zero h) (AuthenticatedData h) (CheckingDisabled h) (Rcode h)) m.
Definition set_RecursionAvailable (v : bool) (m : Msg) : Msg :=
  upd_hdr (fun h => mkMsgHdr (Id h) (Response h) (Opcode h) (Authoritative h) (Truncated h)
    (RecursionDesired h) v (Zero h) (AuthenticatedData h) (CheckingDisabled h) (Rcode h)) m.
Definition set_AuthenticatedData (v : bool) (m : Msg) : Msg :=
  upd_hdr (fun h => mkMsgHdr (Id h) (Response h) (Opcode h) (Authoritative h) (Truncated h)
    (RecursionDesired h) (RecursionAvailable h) (Zero h) v (CheckingDisabled h) (Rcode h)) m.
Definition set_Rcode (v : Z) (m : Msg) : Msg :=
  upd_hdr (fun h => mkMsgHdr (Id h) (Response h) (Opcode h) (Authoritative h) (Truncated h)
    (RecursionDesired h) (RecursionAvailable h) (Zero h) (AuthenticatedData h)
    (CheckingDisabled h) v) m.
Definition set_Compress (v : bool) (m : Msg) : Msg :=
  mkMsg (Hdr m) v (Question m) (Answer m) (Ns m) (Extra m).
Definition set_Question (v : list Question_t) (m : Msg) : Msg :=
  mkMsg (Hdr m) (Compress m) v (Answer m) (Ns m) (Extra m).
Definition set_Answer (v : list RR) (m : Msg) : Msg :=
  mkMsg (Hdr m) (Compress m) (Question m) v (Ns m) (Extra m).
Definition set_Ns (v : list RR) (m : Msg) : Msg :=
  mkMsg (Hdr m) (Compress m) (Question m) (Answer m) v (Extra m).
Definition set_Extra (v : list RR) (m : Msg) : Msg :=
  mkMsg (Hdr m) (Compress m) (Question m) (Answer m) (Ns m) v.

Definition set_hdr_Ttl (t : Z) (h : RR_Header) : RR_Header :=
  mkHdr (Name h) (Rrtype h) (Class_ h) t.
Definition set_Ttl (t : Z) (r : RR) : RR := mkRR (set_hdr_Ttl t (Header r)) (Data r).
Definition set_Data (d : RData) (r : RR) : RR := mkRR (Header r) d.

Notation rrtype r := (Rrtype (Header r)).
Notation ttl_of r := (Ttl (Header r)).

#[export] Instance RR_Header_eq_dec : EqDecision RR_Header.
Proof. solve_decision. Defined.
#[export] Instance EDNS0_eq_dec : EqDecision EDNS0.
Proof. solve_decision. Defined.
#[export] Instance RData_eq_dec : EqDecision RData.
Proof. solve_decision. Defined.
#[export] Instance RR_eq_dec : EqDecision RR.
Proof. solve_decision. Defined.
#[export] Instance Question_t_eq_dec : EqDecision Question_t.
Proof. solve_decision. Defined.
#[export] Instance MsgHdr_eq_dec : EqDecision MsgHdr.
Proof. solve_decision. Defined.
#[export] Instance Msg_eq_dec : EqDecision Msg.
Proof. solve_decision. Defined.

(** Fields in range: TTLs of 32 bits and subnets of bytes. *)
Definition typed_option (o : EDNS0) : Prop :=
  match o with EDNS0_SUBNET _ _ _ _ a => wf_bytes (slice a) | EDNS0_Other _ _ => True end.

Definition typed_rr (r : RR) : Prop :=
  0 <= ttl_of r <= MaxUint32 /\ match Data r with RD_OPT os => Forall typed_option os | _ => True end.

Definition typed_msg (m : Msg) : Prop := Forall typed_rr (Answer m ++ Ns m ++ Extra m).

(** ** The functions of package [dns]

    A method that changes its receiver returns the changed receiver.  [IsEdns0]
    returns the position of the OPT record in the additional section, through
    which callers change the record.  [Unpack] may fill a part of the message
    and still fail.  A deep copy ([Msg.Copy], [dns.Copy]) is the value itself. *)
Class DnsLib := {
  Pack : Msg -> result bytes;
  Unpack : bytes -> Msg * option error;
  IsEdns0 : Msg -> option nat;
  Do : RR -> bool;
  SetDo : RR -> bool -> RR;
  UDPSize : RR -> Z;
  SetUDPSize : RR -> Z -> RR;
  SetEdns0 : Msg -> Z -> bool -> Msg;
  SetRcode : Msg -> Msg -> Z -> Msg;
  SetReply : Msg -> Msg -> Msg;
  Truncate : Msg -> Z -> Msg;
  (** Two records with the same contents on the wire. *)
  rr_eqv : RR -> RR -> Prop;
}.

(** The OPT record of a message. *)
Definition opt_of `{DnsLib} (m : Msg) : option RR := IsEdns0 m ≫= (Extra m !!.).

(** Replaces the OPT record of a message. *)
Definition upd_opt `{DnsLib} (f : RR -> RR) (m : Msg) : Msg :=
  match IsEdns0 m with
  | Some i => set_Extra (alter f i (Extra m)) m
  | None => m
  end.

(** The DO bit of the OPT record, if any: [opt != nil && opt.Do()]. *)
Definition msg_do `{DnsLib} (m : Msg) : bool :=
  match opt_of m with Some o => Do o | None => false end.

(** ** Equivalence of messages *)

Definition q_eqv (q q' : Question_t) : Prop := Qtype q = Qtype q' /\ Qclass q = Qclass q'.

Record msg_eqv `{DnsLib} (m m' : Msg) : Prop := {
  eqv_hdr : Hdr m = Hdr m';
  eqv_question : Forall2 q_eqv (Question m) (Question m');
  eqv_answer : Forall2 rr_eqv (Answer m) (Answer m');
  eqv_ns : Forall2 rr_eqv (Ns m) (Ns m');
  eqv_extra : Forall2 rr_eqv (Extra m) (Extra m');
}.

(** The number of records of a message. *)
Definition rr_count (m : Msg) : nat :=
  length (Answer m) + length (Ns m) + length (Extra m).

(** ** Documented behaviour *)

(** [dns.Fqdn]: a trailing dot is added unless there is one. *)
Class DnsNames := Fqdn : bytes -> bytes.

Class DnsLaws `{DnsLib} := {
  (** [rr_eqv] keeps the type, and the TTL of all records but OPT, whose TTL
      field holds flags. *)
  rr_eqv_equiv : Equivalence rr_eqv;
  rr_eqv_type r r' : rr_eqv r r' -> rrtype r = rrtype r';
  rr_eqv_ttl r r' : rr_eqv r r' -> rrtype r <> TypeOPT -> ttl_of r = ttl_of r';
  rr_eqv_set_ttl t r r' : rr_eqv r r' -> rrtype r <> TypeOPT -> rr_eqv (set_Ttl t r) (set_Ttl t r');
  (** A packed message has a header of twelve bytes and unpacks to the same
      message. *)
  pack_wf m b : Pack m = Ok b -> wf_bytes b /\ 12 <= len b;
  unpack_pack m b : Pack m = Ok b -> exists m', Unpack b = (m', None) /\ msg_eqv m m';
  (** The identifier is the first two bytes, and nothing else depends on it. *)
  pack_set_id m b id : Pack m = Ok b -> 0 <= id <= MaxUint16 -> Pack (set_Id id m) = Ok (be_put 2 id ++ drop 2 b);
  (** The header of a message on the wire (RFC 1035, section 4.1.1). *)
  unpack_header b m : Unpack b = (m, None) ->
    12 <= len b /\ Id (Hdr m) = be_get (take 2 b)
    /\ Response (Hdr m) = negb (Z.land (default 0 (b !! 2%nat)) 128 =? 0)
    /\ Truncated (Hdr m) = negb (Z.land (default 0 (b !! 2%nat)) 2 =? 0);
  (** [IsEdns0] finds an OPT record of the additional section, if any. *)
  isedns0_some m i : IsEdns0 m = Some i ->
    exists r, Extra m !! i = Some r /\ rrtype r = TypeOPT;
  isedns0_none m : IsEdns0 m = None -> Forall (fun r => rrtype r <> TypeOPT) (Extra m);
  isedns0_types m m' :
    (fun r => rrtype r) <$> Extra m = (fun r => rrtype r) <$> Extra m' -> IsEdns0 m = IsEdns0 m';
  (** Flags and size of an OPT record. *)
  do_setdo r b : Do (SetDo r b) = b;
  setdo_type r b : rrtype (SetDo r b) = rrtype r;
  setdo_data r b : Data (SetDo r b) = Data r;
  setdo_udpsize r b : UDPSize (SetDo r b) = UDPSize r;
  udpsize_set r n : 0 <= n <= MaxUint16 -> UDPSize (SetUDPSize r n) = n;
  setudpsize_type r n : rrtype (SetUDPSize r n) = rrtype r;
  setudpsize_data r n : Data (SetUDPSize r n) = Data r;
  setudpsize_do r n : Do (SetUDPSize r n) = Do r;
  udpsize_data r d : UDPSize (set_Data d r) = UDPSize r;
  do_data r d : Do (set_Data d r) = Do r;
  (** [SetEdns0] appends an OPT record. *)
  setedns0_extra m n b : exists o, SetEdns0 m n b = set_Extra (Extra m ++ [o]) m
    /\ rrtype o = TypeOPT /\ Do o = b /\ (0 <= n <= MaxUint16 -> UDPSize o = n);
  (** [SetRcode] and [SetReply] answer the question of the request. *)
  setrcode_spec m req c :
    let r := SetRcode m req c in
    Rcode (Hdr r) = c /\ Id (Hdr r) = Id (Hdr req) /\ Response (Hdr r) = true
    /\ (length (Question req) = 1%nat -> Question r = Question req)
    /\ Answer r = Answer m /\ Ns r = Ns m /\ Extra r = Extra m;
  setreply_spec m req :
    let r := SetReply m req in
    Rcode (Hdr r) = RcodeSuccess /\ Id (Hdr r) = Id (Hdr req) /\ Response (Hdr r) = true
    /\ (length (Question req) = 1%nat -> Question r = Question req)
    /\ Answer r = Answer m /\ Ns r = Ns m /\ Extra r = Extra m;
  (** [Truncate] removes records that do not fit, and then sets TC.  It may
      move the OPT record to the end of the additional section. *)
  truncate_sub m n :
    Answer (Truncate m n) `sublist_of` Answer m /\ Ns (Truncate m n) `sublist_of` Ns m
    /\ Extra (Truncate m n) ⊆+ Extra m;
  truncate_tc m n :
    Truncated (Hdr (Truncate m n)) = Truncated (Hdr m) || negb (rr_count (Truncate m n) =? rr_count m)%nat;
  truncate_rcode m n : Rcode (Hdr (Truncate m n)) = Rcode (Hdr m);
  truncate_ad m n : AuthenticatedData (Hdr (Truncate m n)) = AuthenticatedData (Hdr m);
  truncate_question m n : Question (Truncate m n) = Question m;
  truncate_size m n b :
    Pack (set_Compress true (Truncate m n)) = Ok b -> len b <= Z.max MinMsgSize n;
}.

(** ** Derived facts *)

Section Facts.
Context `{DnsLaws}.

#[export] Instance rr_eqv_Equivalence : Equivalence rr_eqv := rr_eqv_equiv.

#[export] Instance msg_eqv_Equivalence : Equivalence msg_eqv.
Proof.
  assert (Equivalence q_eqv).
  { unfold q_eqv; split; red; [intros|intros ? ? []|intros ? ? ? [] []]; split; congruence. }
  split.
  - intros m; split; reflexivity.
  - intros m m' []; split; symmetry; assumption.
  - intros m1 m2 m3 [] []; split; etransitivity; eassumption.
Qed.

Lemma opt_of_type m o : opt_of m = Some o -> rrtype o = TypeOPT.
Proof.
  unfold opt_of. destruct (IsEdns0 m) as [i|] eqn:E; [|discriminate]. cbn.
  destruct (isedns0_some m i E) as (r & -> & ?). congruence.
Qed.

Lemma opt_of_None m : opt_of m = None -> IsEdns0 m = None.
Proof.
  unfold opt_of. destruct (IsEdns0 m) as [i|] eqn:E; [|reflexivity]. cbn.
  destruct (isedns0_some m i E) as (r & -> & ?). discriminate.
Qed.

Lemma IsEdns0_no_opt m :
  Forall (fun r => rrtype r <> TypeOPT) (Extra m) -> IsEdns0 m = None.
Proof.
  intros Hf. destruct (IsEdns0 m) as [i|] eqn:E; [|reflexivity].
  destruct (isedns0_some m i E) as (r & Hr & Ht).
  rewrite Forall_lookup in Hf. destruct (Hf _ _ Hr Ht).
Qed.

(** An OPT record appended to a message without one is the one found. *)
Lemma opt_of_append m m' o :
  IsEdns0 m = None -> rrtype o = TypeOPT -> Extra m' = Extra m ++ [o] -> opt_of m' = Some o.
Proof.
  intros Hn Ho He. unfold opt_of.
  destruct (IsEdns0 m') as [i|] eqn:E; cbn.
  - destruct (isedns0_some m' i E) as (r & Hr & Ht). rewrite He in Hr |- *.
    rewrite Hr. apply lookup_app_Some in Hr as [Hr|[? Hr]].
    + pose proof (isedns0_none m Hn) as Hf. rewrite Forall_lookup in Hf.
      destruct (Hf _ _ Hr Ht).
    + apply list_lookup_singleton_Some in Hr as [_ ->]. reflexivity.
  - apply isedns0_none in E. rewrite He, Forall_app, Forall_singleton in E. tauto.
Qed.

(** Updates of the OPT record that keep its type. *)
Lemma opt_of_upd f m o :
  opt_of m = Some o -> (forall r, rrtype (f r) = rrtype r) -> opt_of (upd_opt f m) = Some (f o).
Proof.
  intros Ho Hf. unfold upd_opt. unfold opt_of in Ho.
  destruct (IsEdns0 m) as [i|] eqn:E; [|discriminate]. cbn in Ho.
  unfold opt_of. rewrite (isedns0_types _ m), E; cbn.
  - rewrite list_lookup_alter_eq, Ho. reflexivity.
  - apply list_eq; intros j. cbn. rewrite !list_lookup_fmap.
    destruct (decide (i = j)) as [->|].
    + rewrite list_lookup_alter_eq. destruct (Extra m !! j); cbn; [rewrite Hf|]; reflexivity.
    + rewrite list_lookup_alter_ne; done.
Qed.

Lemma upd_opt_others f m :
  Hdr (upd_opt f m) = Hdr m /\ Question (upd_opt f m) = Question m
  /\ Answer (upd_opt f m) = Answer m /\ Ns (upd_opt f m) = Ns m.
Proof. unfold upd_opt. case_goal; auto. Qed.

End Facts.
