(* ===== verification/RefDns.v ===== *)
(** * A reference DNS library

    An executable instance of [DnsLib] that satisfies [DnsLaws].  It shows that
    the laws are consistent and lets the witnesses of the development evaluate
    code that calls the DNS library.  Its wire form is not that of RFC 1035:
    only what [DnsLaws] states of it is used. *)

From S2P Require Import Prelude NetIP DnsMsg.

(** ** Self-delimiting encodings *)

Class Codec (A : Type) := {
  enc : A -> bytes;
  dec : bytes -> option (A * bytes);
  dec_enc a r : dec (enc a ++ r) = Some (a, r);
  enc_wf a : wf_bytes (enc a);
}.

Fixpoint enc_pos (p : positive) : bytes :=
  match p with xH => [2] | xO p' => 0 :: enc_pos p' | xI p' => 1 :: enc_pos p' end.

Fixpoint dec_pos (b : bytes) : option (positive * bytes) :=
  match b with
  | 0 :: b' => match dec_pos b' with Some (p, r) => Some (xO p, r) | None => None end
  | 1 :: b' => match dec_pos b' with Some (p, r) => Some (xI p, r) | None => None end
  | 2 :: b' => Some (xH, b')
  | _ => None
  end.

Definition enc_Z (z : Z) : bytes :=
  match z with Z0 => [0] | Zpos p => 1 :: enc_pos p | Zneg p => 2 :: enc_pos p end.

Definition dec_Z (b : bytes) : option (Z * bytes) :=
  match b with
  | 0 :: b' => Some (0, b')
  | 1 :: b' => match dec_pos b' with Some (p, r) => Some (Zpos p, r) | None => None end
  | 2 :: b' => match dec_pos b' with Some (p, r) => Some (Zneg p, r) | None => None end
  | _ => None
  end.

Lemma dec_enc_pos p r : dec_pos (enc_pos p ++ r) = Some (p, r).
Proof. induction p; cbn; rewrite ?IHp; reflexivity. Qed.

Lemma enc_pos_wf p : wf_bytes (enc_pos p).
Proof. induction p; cbn; repeat constructor; auto; discriminate. Qed.

#[export] Instance Z_codec : Codec Z.
Proof.
  refine {| enc := enc_Z; dec := dec_Z |}.
  - intros [|p|p] r; cbn; rewrite ?dec_enc_pos; reflexivity.
  - intros [|p|p]; cbn; (constructor; [unfold is_byte; lia|]); [constructor|apply enc_pos_wf..].
Defined.

Section Combinators.
Context {A B C : Type} {CA : Codec A} {CB : Codec B}.

#[export] Instance prod_codec : Codec (A * B).
Proof using CA CB.
  refine {| enc x := enc x.1 ++ enc x.2;
            dec b := match dec b with
                     | Some (x, b') => match dec b' with
                                       | Some (y, r) => Some ((x, y), r)
                                       | None => None end
                     | None => None end |}.
  - intros [x y] r. cbn. rewrite <- app_assoc, !dec_enc. reflexivity.
  - intros [x y]. apply Forall_app. split; apply enc_wf.
Defined.

#[export] Instance sum_codec : Codec (A + B).
Proof using CA CB.
  refine {| enc x := match x with inl a => 0 :: enc a | inr b => 1 :: enc b end;
            dec b := match b with
                     | 0 :: b' => match dec b' with Some (x, r) => Some (inl x, r) | None => None end
                     | 1 :: b' => match dec b' with Some (x, r) => Some (inr x, r) | None => None end
                     | _ => None end |}.
  - intros [x|y] r; cbn; rewrite dec_enc; reflexivity.
  - intros [x|y]; (constructor; [unfold is_byte; lia|apply enc_wf]).
Defined.

Fixpoint enc_list (l : list A) : bytes :=
  match l with [] => [0] | x :: l' => 1 :: enc x ++ enc_list l' end.

Fixpoint dec_list (fuel : nat) (b : bytes) : option (list A * bytes) :=
  match fuel, b with
  | S f, 0 :: b' => Some ([], b')
  | S f, 1 :: b' => match dec b' with
                    | Some (x, r) => match dec_list f r with
                                     | Some (l, r') => Some (x :: l, r')
                                     | None => None end
                    | None => None end
  | _, _ => None
  end.

Lemma dec_enc_list l r fuel : (length l < fuel)%nat -> dec_list fuel (enc_list l ++ r) = Some (l, r).
Proof using Type.
  revert fuel; induction l as [|x l IH]; intros [|fuel] Hf; cbn in *; try lia; [reflexivity|].
  rewrite <- app_assoc, dec_enc, IH by lia. reflexivity.
Qed.

Lemma enc_list_length l : (length l < length (enc_list l))%nat.
Proof using Type. induction l; cbn; rewrite ?length_app; lia. Qed.

#[export] Instance list_codec : Codec (list A).
Proof using CA.
  refine {| enc := enc_list; dec b := dec_list (length b) b |}.
  - intros l r. apply dec_enc_list. rewrite length_app. pose proof (enc_list_length l). lia.
  - induction a; cbn; (constructor; [unfold is_byte; lia|]); [constructor|].
    apply Forall_app. split; [apply enc_wf|exact IHa].
Defined.

(** Encodings along an injection. *)
Definition iso_codec (f : C -> A) (g : A -> C) (Hgf : forall c, g (f c) = c) : Codec C.
Proof using CA.
  refine {| enc c := enc (f c);
            dec b := match dec b with Some (a, r) => Some (g a, r) | None => None end |}.
  - intros c r. cbn. rewrite dec_enc, Hgf. reflexivity.
  - intros c. apply enc_wf.
Defined.

End Combinators.

#[export] Instance bool_codec : Codec bool :=
  iso_codec (fun b : bool => if b then 1 else 0) (Z.eqb 1) ltac:(by intros []).

#[export] Instance option_codec {A} `{Codec A} : Codec (option A) :=
  iso_codec (fun o => match o with None => [] | Some a => [a] end) head ltac:(by intros []).

#[export] Instance RR_Header_codec : Codec RR_Header :=
  iso_codec (fun h => (Name h, Rrtype h, Class_ h, Ttl h))
    (fun '(n, t, c, l) => mkHdr n t c l) ltac:(by intros []).

#[export] Instance EDNS0_codec : Codec EDNS0 :=
  iso_codec (fun e => match e with
      | EDNS0_SUBNET c f n s a => inl (c, f, n, s, a)
      | EDNS0_Other c d => inr (c, d) end)
    (fun s => match s with
      | inl (c, f, n, s, a) => EDNS0_SUBNET c f n s a
      | inr (c, d) => EDNS0_Other c d end) ltac:(by intros []).

#[export] Instance RData_codec : Codec RData :=
  iso_codec (fun e => match e with
      | RD_A a => inl (inl a)
      | RD_AAAA a => inl (inr (inl a))
      | RD_OPT o => inl (inr (inr o))
      | RD_TXT t => inr (inl (inl t))
      | RD_PTR p => inr (inl (inr p))
      | RD_SOA n m l => inr (inr (inl (n, m, l)))
      | RD_Other d => inr (inr (inr d)) end)
    (fun s => match s with
      | inl (inl a) => RD_A a
      | inl (inr (inl a)) => RD_AAAA a
      | inl (inr (inr o)) => RD_OPT o
      | inr (inl (inl t)) => RD_TXT t
      | inr (inl (inr p)) => RD_PTR p
      | inr (inr (inl (n, m, l))) => RD_SOA n m l
      | inr (inr (inr d)) => RD_Other d end) ltac:(by intros []).

#[export] Instance RR_codec : Codec RR :=
  iso_codec (fun r => (Header r, Data r)) (fun '(h, d) => mkRR h d) ltac:(by intros []).

#[export] Instance Question_t_codec : Codec Question_t :=
  iso_codec (fun q => (QName q, Qtype q, Qclass q)) (fun '(n, t, c) => mkQ n t c) ltac:(by intros []).

#[export] Instance MsgHdr_codec : Codec MsgHdr :=
  iso_codec (fun h => (Id h, Response h, Opcode h, Authoritative h, Truncated h,
      RecursionDesired h, RecursionAvailable h, Zero h, AuthenticatedData h,
      CheckingDisabled h, Rcode h))
    (fun '(a, b, c, d, e, f, g, h, i, j, k) => mkMsgHdr a b c d e f g h i j k) ltac:(by intros []).

#[export] Instance Msg_codec : Codec Msg :=
  iso_codec (fun m => (Hdr m, Compress m, Question m, Answer m, Ns m, Extra m))
    (fun '(a, b, c, d, e, f) => mkMsg a b c d e f) ltac:(by intros []).

(** ** The library *)

(** The identifier and the flags QR and TC are where RFC 1035 has them. *)
Definition ref_hdr (m : Msg) : bytes :=
  be_put 2 (Id (Hdr m))
  ++ ((if Response (Hdr m) then 128 else 0) + (if Truncated (Hdr m) then 2 else 0)) :: replicate 9 0.

Definition ref_wire (m : Msg) : bytes := ref_hdr m ++ enc (set_Id 0 m).

Definition id_ok (m : Msg) : bool := (0 <=? Id (Hdr m)) && (Id (Hdr m) <=? MaxUint16).

Definition ref_Pack (m : Msg) : result bytes :=
  if negb (id_ok m) || (rr_count m =? 0)%nat && (MinMsgSize <? len (ref_wire m))
  then Err (New "message too large") else Ok (ref_wire m).

Definition ref_Unpack (b : bytes) : Msg * option error :=
  match dec (drop 12 b) with
  | Some (m, []) =>
      let m := set_Id (be_get (take 2 b)) m in
      (m, if bool_decide (take 12 b = ref_hdr m) && id_ok m then None else Some (New "bad header"))
  | Some (m, _) => (m, Some (New "bad message"))
  | None => (empty_msg, Some (New "bad message"))
  end.

Fixpoint last_opt (l : list RR) : option nat :=
  match l with
  | [] => None
  | r :: l' => match last_opt l' with
               | Some i => Some (S i)
               | None => if rrtype r =? TypeOPT then Some O else None
               end
  end.

Definition do_mask : Z := 32768.

Definition ref_SetDo (r : RR) (b : bool) : RR :=
  set_Ttl (if b then Z.setbit (ttl_of r) 15 else Z.clearbit (ttl_of r) 15) r.

Definition ref_SetUDPSize (r : RR) (n : Z) : RR :=
  mkRR (mkHdr (Name (Header r)) (rrtype r) n (ttl_of r)) (Data r).

Definition ref_SetEdns0 (m : Msg) (n : Z) (b : bool) : Msg :=
  set_Extra (Extra m ++ [ref_SetDo (mkRR (mkHdr (str ".") TypeOPT n 0) (RD_OPT [])) b]) m.

Definition ref_SetReply (m req : Msg) : Msg :=
  mkMsg (mkMsgHdr (Id (Hdr req)) true (Opcode (Hdr req)) (Authoritative (Hdr m)) (Truncated (Hdr m))
          (RecursionDesired (Hdr req)) (RecursionAvailable (Hdr m)) (Zero (Hdr m))
          (AuthenticatedData (Hdr m)) (CheckingDisabled (Hdr req)) RcodeSuccess)
    (Compress m) (take 1 (Question req)) (Answer m) (Ns m) (Extra m).

Definition ref_Truncate (m : Msg) (n : Z) : Msg :=
  if len (ref_wire (set_Compress true m)) <=? Z.max MinMsgSize n then m
  else set_Truncated (Truncated (Hdr m) || negb (rr_count m =? 0)%nat)
         (mkMsg (Hdr m) (Compress m) (Question m) [] [] []).

#[export] Instance refDns : DnsLib := {|
  Pack := ref_Pack;
  Unpack := ref_Unpack;
  IsEdns0 m := last_opt (Extra m);
  Do r := Z.testbit (ttl_of r) 15;
  SetDo := ref_SetDo;
  UDPSize r := Class_ (Header r);
  SetUDPSize := ref_SetUDPSize;
  SetEdns0 := ref_SetEdns0;
  SetRcode m req c := set_Rcode c (ref_SetReply m req);
  SetReply := ref_SetReply;
  Truncate := ref_Truncate;
  rr_eqv := eq;
|}.

Lemma ref_unpack_wire m : id_ok m = true -> ref_Unpack (ref_wire m) = (m, None).
Proof.
  intros Hid. unfold ref_Unpack, ref_wire. rewrite drop_app_length' by reflexivity.
  rewrite <- (app_nil_r (enc _)), dec_enc. change (take 2 (ref_hdr m ++ ?l)) with (be_put 2 (Id (Hdr m))).
  rewrite take_app_length' by reflexivity.
  rewrite be_get_put_small by (unfold id_ok, MaxUint16 in Hid; change (256 ^ Z.of_nat 2) with 65536; lia).
  assert (Hm : set_Id (Id (Hdr m)) (set_Id 0 m) = m) by (destruct m as [[] ? ? ? ? ?]; reflexivity).
  rewrite Hm, bool_decide_true, Hid by reflexivity. reflexivity.
Qed.

Lemma ref_Pack_Ok m b : ref_Pack m = Ok b -> b = ref_wire m /\ id_ok m = true.
Proof.
  unfold ref_Pack. destruct (id_ok m); cbn [negb orb]; [|discriminate].
  destruct (_ && _); [discriminate|]. intros [= <-]. auto.
Qed.

Lemma ref_unpack_header b m :
  ref_Unpack b = (m, None) -> take 12 b = ref_hdr m /\ id_ok m = true.
Proof.
  unfold ref_Unpack. destruct (dec (drop 12 b)) as [[m' [|]]|]; try discriminate.
  set (m1 := set_Id _ m'). destruct (bool_decide_reflect (take 12 b = ref_hdr m1)); cbn; [|discriminate].
  destruct (id_ok m1) eqn:E; [|discriminate]. intros [= <-]. auto.
Qed.

Lemma last_opt_some l i :
  last_opt l = Some i -> exists r, l !! i = Some r /\ rrtype r = TypeOPT.
Proof.
  revert i; induction l as [|r l IH]; intros i; cbn; [discriminate|].
  destruct (last_opt l) as [j|] eqn:E.
  - intros [= <-]. destruct (IH j eq_refl) as (r' & ? & ?). exists r'. auto.
  - case_goal; [intros [= <-]; to_prop; eauto|discriminate].
Qed.

Lemma last_opt_none l : last_opt l = None -> Forall (fun r => rrtype r <> TypeOPT) l.
Proof.
  induction l as [|r l IH]; cbn; [constructor|].
  destruct (last_opt l); [discriminate|]. case_goal; [discriminate|]. to_prop. auto.
Qed.

Lemma last_opt_types l l' :
  (fun r => rrtype r) <$> l = (fun r => rrtype r) <$> l' -> last_opt l = last_opt l'.
Proof.
  revert l'; induction l as [|r l IH]; intros [|r' l']; cbn; try discriminate; [reflexivity|].
  intros [= Hr Hl]. rewrite (IH l' Hl), Hr. reflexivity.
Qed.

#[export] Instance refDns_laws : DnsLaws.
Proof.
  split; cbn [rr_eqv refDns Pack Unpack IsEdns0 Do SetDo UDPSize SetUDPSize SetEdns0 SetRcode
    SetReply Truncate]; try (intros; congruence); try reflexivity; try typeclasses eauto.
  - intros m b [-> _]%ref_Pack_Ok. split.
    + apply Forall_app; split; [|apply enc_wf]. apply Forall_app; split; [apply be_put_wf|].
      constructor; [destruct (Response _), (Truncated _); unfold is_byte; lia|].
      apply Forall_replicate; unfold is_byte; lia.
    + unfold ref_wire. rewrite length_app. cbn. lia.
  - intros m b [-> Hid]%ref_Pack_Ok. exists m. split; [apply ref_unpack_wire, Hid|].
    split; try reflexivity. apply Forall_Forall2_diag, Forall_true. intros q. split; reflexivity.
  - intros m b id Hp Hi. pose proof (ref_Pack_Ok m b Hp) as [-> _]. unfold ref_Pack in *.
    assert (Hlen : len (ref_wire (set_Id id m)) = len (ref_wire m)) by (unfold ref_wire; rewrite !length_app; reflexivity).
    rewrite Hlen. change (rr_count (set_Id id m)) with (rr_count m).
    assert (Hok : id_ok (set_Id id m) = true) by (unfold id_ok; cbn; lia). rewrite Hok.
    destruct (id_ok m); cbn [negb orb] in *; [|discriminate]. destruct (_ && _); [discriminate|]. reflexivity.
  - intros b m [Hh Hid]%ref_unpack_header. unfold id_ok in Hid.
    assert (Hl : (12 <= length b)%nat).
    { assert (length (take 12 b) = 12%nat) by (rewrite Hh; reflexivity). rewrite length_take in H. lia. }
    split; [lia|].
    assert (H2 : take 2 b = be_put 2 (Id (Hdr m))).
    { transitivity (take 2 (take 12 b)); [rewrite take_take; reflexivity|]. rewrite Hh. reflexivity. }
    assert (H3 : b !! 2%nat = ref_hdr m !! 2%nat).
    { rewrite <- Hh, lookup_take_lt by lia. reflexivity. }
    rewrite H2, H3. split; [|split].
    + symmetry. apply be_get_put_small; change MaxUint16 with 65535 in Hid; change (256 ^ 2) with 65536; lia.
    + cbn. destruct (Response _), (Truncated _); reflexivity.
    + cbn. destruct (Response _), (Truncated _); reflexivity.
  - intros m i Hi. exact (last_opt_some (Extra m) i Hi).
  - intros m Hi. exact (last_opt_none (Extra m) Hi).
  - intros m m' Hi. exact (last_opt_types _ _ Hi).
  - intros r b. destruct b; [apply Z.setbit_eq; lia|apply Z.clearbit_eq].
  - intros m n b. eexists; split; [reflexivity|]. split; [reflexivity|]. split; [|reflexivity].
    destruct b; reflexivity.
  - intros m req c. repeat split. cbn. intros Hq. apply take_ge. lia.
  - intros m req. repeat split. cbn. intros Hq. apply take_ge. lia.
  - intros m n. unfold ref_Truncate. case_goal; cbn; [auto|].
    split; [apply sublist_nil_l|split; [apply sublist_nil_l|apply submseteq_nil_l]].
  - intros m n. unfold ref_Truncate. case_goal.
    + rewrite Nat.eqb_refl, orb_false_r. reflexivity.
    + cbn. unfold rr_count at 2. cbn. f_equal. f_equal. apply Nat.eqb_sym.
  - intros m n. unfold ref_Truncate. case_goal; reflexivity.
  - intros m n. unfold ref_Truncate. case_goal; reflexivity.
  - intros m n. unfold ref_Truncate. case_goal; reflexivity.
  - intros m n b Hb. pose proof (ref_Pack_Ok _ _ Hb) as [-> _]. unfold ref_Truncate in *.
    case_goal; to_prop; [assumption|]. unfold ref_Pack in Hb. case_hyp Hb; [discriminate|].
    cbn in Heqb0. unfold set_Compress, set_Truncated, upd_hdr in *. cbn in *. to_prop. lia.
Qed.
