(* ===== verification/GlCache.v ===== *)
(** * The interface of the byte cache and of the upstreams

    The LRU cache of byte strings that dnsproxy imports, as a class of
    operations with the laws its clients rely on, an unbounded instance, and the
    upstream interface as the rest of the program sees it. *)

From S2P Require Import Prelude.

(** ** The cache library

    [glc_find] is the contents of the cache; [Get] also moves the element to
    the front, [Set] may evict other elements or refuse an element that is too
    large. *)
Class GlCache := {
  glc : Type;
  glc_New : Z -> bool -> glc;
  glc_Get : glc -> bytes -> option bytes * glc;
  glc_Set : glc -> bytes -> bytes -> glc;
  glc_Del : glc -> bytes -> glc;
  glc_Clear : glc -> glc;
  glc_find : glc -> bytes -> option bytes;
}.

Class GlCacheLaws `{GlCache} := {
  find_New n b k : glc_find (glc_New n b) k = None;
  Get_find g k : fst (glc_Get g k) = glc_find g k;
  find_Get g k k' : glc_find (snd (glc_Get g k)) k' = glc_find g k';
  (** nothing is found that was not stored *)
  find_Set g k v k' v' : glc_find (glc_Set g k v) k' = Some v' ->
    (k' = k /\ v' = v) \/ glc_find g k' = Some v';
  find_Del_eq g k : glc_find (glc_Del g k) k = None;
  find_Del_ne g k k' : k <> k' -> glc_find (glc_Del g k) k' = glc_find g k';
  find_Clear g k : glc_find (glc_Clear g) k = None;
}.

(** A cache that keeps everything, as an association list. *)
Fixpoint assoc (g : list (bytes * bytes)) (k : bytes) : option bytes :=
  match g with
  | [] => None
  | (k', v) :: g' => if bool_decide (k' = k) then Some v else assoc g' k
  end.

Fixpoint assoc_del (g : list (bytes * bytes)) (k : bytes) : list (bytes * bytes) :=
  match g with
  | [] => []
  | (k', v) :: g' => if bool_decide (k' = k) then assoc_del g' k else (k', v) :: assoc_del g' k
  end.

#[export] Instance refGlc : GlCache := {|
  glc := list (bytes * bytes);
  glc_New _ _ := [];
  glc_Get g k := (assoc g k, g);
  glc_Set g k v := (k, v) :: assoc_del g k;
  glc_Del g k := assoc_del g k;
  glc_Clear _ := [];
  glc_find g k := assoc g k;
|}.

Lemma assoc_del_find g k k' :
  assoc (assoc_del g k) k' = if bool_decide (k = k') then None else assoc g k'.
Proof.
  induction g as [|[k1 v1] g IH]; cbn [assoc assoc_del]; [case_goal; reflexivity|].
  repeat case_bool_decide; cbn [assoc]; rewrite ?IH; repeat case_bool_decide; congruence.
Qed.

#[export] Instance refGlc_laws : GlCacheLaws.
Proof.
  split; cbn; intros; try reflexivity; rewrite ?assoc_del_find in *;
    repeat case_bool_decide; naive_solver.
Qed.

(** ** Upstreams

    A value of the interface [upstream.Upstream]: its identity and what its
    [Address] method returns. *)
Record Upstream := mkUpstream { u_id : nat; Address : bytes }.

#[export] Instance Upstream_eq_dec : EqDecision Upstream.
Proof. solve_decision. Defined.
