(* ===== verification/Wire.v ===== *)
(** * Framing of messages on streams (proxyutil/dns.go, proxy/servertcp.go,
      dnscrypt/dns.go)

    The two-byte length prefix of DNS over TCP, reading a prefixed message from
    a stream of bytes, writing one, and the address of an address record. *)

From S2P Require Import Prelude NetIP DnsMsg.

(** [proxyutil.LengthPrefix] *)
Definition LengthPrefix (size : Z) : result bytes :=
  if (size <? 0) || (MaxUint16 <? size)
  then Err (New "DNS frame length %d is outside 0..65535")
  else Ok (be_put 2 (uint16 size)).

(** [proxyutil.IPFromRR] *)
Definition IPFromRR (rr : RR) : Addr :=
  match Data rr with
  | RD_A a => AddrFromSlice (slice (To4 a))
  | RD_AAAA a => AddrFromSlice (slice a)
  | _ => AddrZero
  end.

Definition io_EOF : error := New "EOF".
Definition io_ErrUnexpectedEOF : error := New "unexpected EOF".

(** [io.ReadFull] of [n] bytes from a stream that ends after the bytes
    [conn]; the result is the data and what is left of the stream. *)
Definition ReadFull (conn : bytes) (n : nat) : result (bytes * bytes) :=
  if (n <=? length conn)%nat then Ok (take n conn, drop n conn)
  else if (length conn =? 0)%nat then Err io_EOF
  else Err io_ErrUnexpectedEOF.

Definition errTooLarge : error := New "dns message is too large".

(** [readPrefixed] of proxy/servertcp.go *)
Definition readPrefixed (conn : bytes) : result (bytes * bytes) :=
  let? (l, conn) := annotate "reading len" (ReadFull conn 2) in
  let packetLen := be_get l in
  if MaxMsgSize <? packetLen then Err errTooLarge
  else annotate "reading msg" (ReadFull conn (Z.to_nat packetLen)).

(** [writePrefixed] of proxy/servertcp.go: what is written to the stream. *)
Definition writePrefixed (b : bytes) : result bytes :=
  let? prefix := LengthPrefix (len b) in
  Ok (prefix ++ b).

Definition ErrQueryTooLarge : error := New "dnscrypt query is too large".

(** The variants of dnscrypt/dns.go. *)
Module Dnscrypt.

Definition readPrefixed (conn : bytes) : result (bytes * bytes) :=
  let? (l, conn) := annotate "reading msg len" (ReadFull conn 2) in
  annotate "reading full message" (ReadFull conn (Z.to_nat (be_get l))).

Definition writePrefixed (b : bytes) : result bytes :=
  match LengthPrefix (len b) with
  | Err _ => Err ErrQueryTooLarge
  | Ok prefix => Ok (prefix ++ b)
  end.

End Dnscrypt.

(** ** Lemmas *)

Section Lemmas.

Lemma LengthPrefix_Ok n p :
  LengthPrefix n = Ok p <-> 0 <= n <= MaxUint16 /\ p = be_put 2 n.
Proof.
  unfold LengthPrefix, uint16, MaxUint16.
  destruct (Z.ltb_spec n 0), (Z.ltb_spec 65535 n); cbn [orb];
    try (split; [discriminate|lia]).
  rewrite Z.mod_small by lia. split; [intros [= <-]; split; [lia|reflexivity]|intros [? ->]; reflexivity].
Qed.

Lemma ReadFull_app a b n : n = length a -> ReadFull (a ++ b) n = Ok (a, b).
Proof.
  intros ->. unfold ReadFull. rewrite length_app.
  rewrite (proj2 (Nat.leb_le _ _)) by lia. rewrite take_app_length, drop_app_length. reflexivity.
Qed.

Lemma ReadFull_short a n : (length a < n)%nat -> exists e, ReadFull a n = Err e.
Proof.
  intros. unfold ReadFull. rewrite (proj2 (Nat.leb_gt _ _)) by lia. case_goal; eauto.
Qed.

Lemma ReadFull_inv conn n d rest :
  ReadFull conn n = Ok (d, rest) -> conn = d ++ rest /\ length d = n.
Proof.
  unfold ReadFull. destruct (Nat.leb_spec n (length conn)); [|case_goal; discriminate].
  intros [= <- <-]. rewrite take_drop, length_take. split; [reflexivity|lia].
Qed.

End Lemmas.

Lemma be_get_prefix n : 0 <= n <= MaxUint16 -> be_get (be_put 2 n) = n.
Proof.
  intros Hn. apply be_get_put_small. unfold MaxUint16 in Hn. change (256 ^ Z.of_nat 2) with 65536. lia.
Qed.

Lemma readPrefixed_frame b rest :
  len b <= MaxUint16 -> readPrefixed (be_put 2 (len b) ++ b ++ rest) = Ok (b, rest).
Proof.
  intros Hl. unfold readPrefixed. rewrite ReadFull_app by reflexivity. cbn [annotate rbind].
  rewrite be_get_prefix by lia. rewrite (proj2 (Z.ltb_ge _ _)) by (unfold MaxMsgSize, MaxUint16 in *; lia).
  rewrite ReadFull_app by apply Nat2Z.id. reflexivity.
Qed.

(** A message of at most 65535 bytes written with its length prefix is read
    back, with the rest of the stream left as it is, by the readers of the TCP
    and the DNSCrypt servers, which use the same frames; an incomplete frame is
    an error and never a shorter message; and a longer message is refused when
    written. *)
Theorem framing_roundtrip (b rest : bytes) :
  if len b <=? MaxUint16
  then exists frame, writePrefixed b = Ok frame /\ Dnscrypt.writePrefixed b = Ok frame
    /\ readPrefixed (frame ++ rest) = Ok (b, rest) /\ Dnscrypt.readPrefixed (frame ++ rest) = Ok (b, rest)
    /\ forall k, (k < length frame)%nat ->
         (exists e, readPrefixed (take k frame) = Err e) /\ exists e, Dnscrypt.readPrefixed (take k frame) = Err e
  else (exists e, writePrefixed b = Err e) /\ exists e, Dnscrypt.writePrefixed b = Err e.
Proof.
  destruct (Z.leb_spec (len b) MaxUint16) as [Hl|Hl].
  2: { unfold writePrefixed, Dnscrypt.writePrefixed, LengthPrefix.
       rewrite (proj2 (Z.ltb_lt _ _) Hl), orb_true_r. cbn. eauto. }
  assert (Hp : LengthPrefix (len b) = Ok (be_put 2 (len b))) by (apply LengthPrefix_Ok; split; [lia|reflexivity]).
  exists (be_put 2 (len b) ++ b). unfold writePrefixed, Dnscrypt.writePrefixed. rewrite Hp.
  split; [reflexivity|]. split; [reflexivity|].
  rewrite <- app_assoc, readPrefixed_frame by exact Hl. split; [reflexivity|].
  unfold readPrefixed, Dnscrypt.readPrefixed. rewrite ReadFull_app by reflexivity. cbn [annotate rbind].
  rewrite be_get_prefix by lia. rewrite ReadFull_app by apply Nat2Z.id. split; [reflexivity|]. intros k Hk.
  destruct (decide (k < 2)%nat) as [H2|H2].
  - destruct (ReadFull_short (take k (be_put 2 (len b) ++ b)) 2) as [e ->]; [rewrite length_take; lia|]. cbn. eauto.
  - rewrite length_app, be_put_length in Hk.
    rewrite take_app_ge by (rewrite be_put_length; lia). rewrite ReadFull_app by reflexivity. cbn [annotate rbind].
    rewrite be_get_prefix by lia. rewrite (proj2 (Z.ltb_ge _ _)) by (unfold MaxMsgSize, MaxUint16 in *; lia).
    rewrite be_put_length.
    destruct (ReadFull_short (take (k - 2) b) (Z.to_nat (len b))) as [e ->]; [rewrite length_take, Nat2Z.id; lia|].
    cbn. eauto.
Qed.
