(* ===== verification/Cache.v ===== *)
(** * The response cache (proxy/cache.go)

    [cache] with its two stores, the packed form of an item, the lookup by
    subnet with decreasing prefix length, and the rules that decide what is
    cached and for how long. *)

From S2P Require Import Prelude NetIP DnsMsg RefDns GlCache Wire.

Section Cache.
Context `{DnsLib} `{GlCache}.

Definition defaultCacheSize : Z := 64 * 1024.

Record cache := mkCache {
  items : option glc;
  itemsWithSubnet : option glc;
  optimistic : bool;
  optimisticTTL : Duration;
  optimisticMaxAge : Duration;
}.

Record cacheItem := mkItem { ci_m : Msg; ci_u : bytes; ci_ttl : Z }.

Record cacheConfig := mkCacheConfig {
  cc_size : Z;
  cc_optimisticTTL : Duration;
  cc_optimisticMaxAge : Duration;
  cc_withECS : bool;
  cc_optimistic : bool;
}.

(** ** Cacheability and lifetime *)

Definition ServFailMaxCacheTTL : Z := 30.

Definition minTTL (h : RR_Header) (ttl : Z) : Z :=
  if Rrtype h =? TypeOPT then ttl
  else if Ttl h <? ttl then Ttl h
  else ttl.

(** The loop over the records; a TTL of zero stops it. *)
Fixpoint ttl_loop (rrs : list RR) (ttl : Z) : Z :=
  match rrs with
  | [] => ttl
  | rr :: rrs' =>
      let ttl := minTTL (Header rr) ttl in
      if ttl =? 0 then 0 else ttl_loop rrs' ttl
  end.

Definition calculateTTL (m : Msg) : Z :=
  let ttl := ttl_loop (Answer m ++ Ns m ++ Extra m) MaxUint32 in
  if (Rcode (Hdr m) =? RcodeServerFailure) && (ServFailMaxCacheTTL <? ttl)
  then ServFailMaxCacheTTL
  else if ttl =? MaxUint32 then 0
  else ttl.

Definition hasIPAns (m : Msg) : bool :=
  existsb (fun rr => (rrtype rr =? TypeA) || (rrtype rr =? TypeAAAA)) (Answer m).

Fixpoint negative_loop (rrs : list RR) (ok : bool) : bool :=
  match rrs with
  | [] => ok
  | rr :: rrs' =>
      if rrtype rr =? TypeSOA then negative_loop rrs' true
      else if rrtype rr =? TypeNS then false
      else negative_loop rrs' ok
  end.

Definition isCacheableNegative (m : Msg) : bool := negative_loop (Ns m) false.

(** [q] is [m.Question[0]]. *)
Definition isCacheableSucceded (q : Question_t) (m : Msg) : bool :=
  negb (Qtype q =? TypeA) && negb (Qtype q =? TypeAAAA) || hasIPAns m || isCacheableNegative m.

Definition cacheTTL (m : option Msg) : Z :=
  match m with
  | None => 0
  | Some m =>
      if Truncated (Hdr m) then 0
      else match Question m with
      | [q] =>
          let ttl := calculateTTL m in
          if ttl =? 0 then 0
          else if Rcode (Hdr m) =? RcodeSuccess then
            (if isCacheableSucceded q m then ttl else 0)
          else if Rcode (Hdr m) =? RcodeNameError then
            (if isCacheableNegative m then ttl else 0)
          else if Rcode (Hdr m) =? RcodeServerFailure then ttl
          else 0
      | _ => 0
      end
  end.

Definition respectTTLOverrides (ttl cacheMinTTL cacheMaxTTL : Z) : Z :=
  if ttl <? cacheMinTTL then cacheMinTTL
  else if negb (cacheMaxTTL =? 0) && (cacheMaxTTL <? ttl) then cacheMaxTTL
  else ttl.

(** ** Filtering *)

Definition isDNSSEC (r : RR) : bool :=
  existsb (Z.eqb (rrtype r)) [TypeNSEC; TypeNSEC3; TypeDS; TypeRRSIG; TypeSIG; TypeDNSKEY].

Definition filtered_out (do : bool) (except : Z) (r : RR) : bool :=
  negb do && isDNSSEC r && negb (rrtype r =? except) || (rrtype r =? TypeOPT).

Fixpoint filterRRSlice (rrs : list RR) (do : bool) (ttl : Z) (except : Z) : list RR :=
  match rrs with
  | [] => []
  | r :: rrs' =>
      if filtered_out do except r then filterRRSlice rrs' do ttl except
      else (if ttl =? 0 then r else set_Ttl ttl r) :: filterRRSlice rrs' do ttl except
  end.

Definition filterMsg (dst m : Msg) (ad do : bool) (ttl : Z) : go Msg :=
  let dst := set_AuthenticatedData (AuthenticatedData (Hdr dst) && (ad || do)) dst in
  let! q := index (Question m) 0 in
  let dst := set_Answer (filterRRSlice (Answer m) do ttl (Qtype q)) dst in
  let dst := set_Ns (filterRRSlice (Ns m) do ttl TypeNone) dst in
  Ret (set_Extra (filterRRSlice (Extra m) do ttl TypeNone) dst).

(** ** Packed items *)

Definition packedMsgLenSz : nat := 2.
Definition expTimeSz : nat := 8.
Definition minPackedLen : nat := expTimeSz + packedMsgLenSz.

Definition respToItem (m : option Msg) (u : option Upstream) : option cacheItem :=
  let ttl := cacheTTL m in
  if ttl =? 0 then None
  else match m with
  | Some m => Some (mkItem m (match u with Some u => Address u | None => [] end) ttl)
  | None => None
  end.

(** [now] is what [time.Now] returns. *)
Definition pack (ci : cacheItem) (now : Time) : result bytes :=
  let? pm := annotate "packing cached DNS message" (Pack (ci_m ci)) in
  let? prefix := LengthPrefix (len pm) in
  let packed := make_bytes minPackedLen in
  let packed := copy_at 0 (be_put 8 (uint64 (Unix now + ci_ttl ci))) packed in
  let packed := copy_at expTimeSz prefix packed in
  Ok (packed ++ pm ++ ci_u ci).

(** The remaining lifetime as a DNS TTL. *)
Definition remaining_ttl (expire now : Time) : Z :=
  let seconds := Unix expire - Unix now in
  if seconds <? 0 then 0
  else if MaxUint32 <? seconds then MaxUint32
  else seconds.

Definition unpackItem (c : cache) (now : Time) (data : bytes) (req : Msg)
    : go (option cacheItem * bool) :=
  if (length data <? minPackedLen)%nat then Ret (None, false)
  else
    let expire := TimeUnix (int64 (be_get (take expTimeSz data))) in
    let rest := drop expTimeSz data in
    let expired := After now expire in
    if expired && (negb (optimistic c) || After now (expire + optimisticMaxAge c))
    then Ret (None, expired)
    else
      let ttl := if expired then seconds32 (optimisticTTL c) else remaining_ttl expire now in
      let l := Z.to_nat (be_get (take packedMsgLenSz rest)) in
      let rest := drop packedMsgLenSz rest in
      if (l =? 0)%nat then Ret (None, expired)
      else match Unpack (take l rest) with
      | (_, Some _) => Ret (None, expired)
      | (m, None) =>
          let res := SetRcode empty_msg req (Rcode (Hdr m)) in
          let res := set_AuthenticatedData (AuthenticatedData (Hdr m)) res in
          let res := set_RecursionAvailable (RecursionAvailable (Hdr m)) res in
          let! res := filterMsg res m (AuthenticatedData (Hdr req)) (msg_do req) ttl in
          Ret (Some (mkItem res (drop l rest) 0), expired)
      end.

(** ** Keys *)

Definition keyMaskIndex : nat := 1 + 2 * packedMsgLenSz.
Definition keyIPIndex : nat := keyMaskIndex + 1.

Definition bool_byte (b : bool) : Z := if b then 1 else 0.

Definition msgToKey (m : Msg) : go bytes :=
  let! q := index (Question m) 0 in
  let name := QName q in
  let b := make_bytes (1 + packedMsgLenSz + packedMsgLenSz + length name) in
  let b := copy_at 0 [bool_byte (msg_do m)] b in
  let b := copy_at 1 (be_put 2 (Qtype q)) b in
  let b := copy_at (1 + packedMsgLenSz) (be_put 2 (Qclass q)) b in
  Ret (copy_at (1 + 2 * packedMsgLenSz) (ToLower name) b).

Definition msgToKeyWithSubnet (m : Msg) (ecsIP : IP) (mask : Z) : go bytes :=
  let! q := index (Question m) 0 in
  let masked := negb (mask =? 0) in
  let keyLen := (keyIPIndex + length (QName q) + if masked then length (slice ecsIP) else 0)%nat in
  let key := make_bytes keyLen in
  let key := copy_at 0 [bool_byte (msg_do m)] key in
  let key := copy_at 1 (be_put 2 (Qtype q)) key in
  let key := copy_at (1 + packedMsgLenSz) (be_put 2 (Qclass q)) key in
  let key := copy_at keyMaskIndex [mask] key in
  let key := if masked then copy_at keyIPIndex (slice ecsIP) key else key in
  let k := (keyIPIndex + if masked then length (slice ecsIP) else 0)%nat in
  Ret (copy_at k (ToLower (QName q)) key).

(** The result is [None] when the subnet is not valid. *)
Definition cacheSubnet (n : option IPNet) : option (IP * Z) :=
  match n with
  | None => None
  | Some n =>
      match IPNet_Mask n with
      | None =>
          if bool_decide (IPNet_IP n = None) || negb (bool_decide (To16 (IPNet_IP n) = None))
          then Some (None, 0) else None
      | Some _ =>
          let '(ones, bits) := Mask_Size (IPNet_Mask n) in
          let ip :=
            if bits =? 32 then To4 (IPNet_IP n)
            else if bits =? 128 then
              (if bool_decide (To4 (IPNet_IP n) = None) then To16 (IPNet_IP n) else None)
            else None in
          if bool_decide (ip = None) || (ones <? 0) || (128 <? ones) then None
          else Some (IP_Mask ip (IPNet_Mask n), ones)
      end
  end.

(** ** Lookup and store *)

Definition canLookUpInCache (c : option glc) (req : option Msg) : bool :=
  match c, req with
  | Some _, Some r => (length (Question r) =? 1)%nat
  | _, _ => false
  end.

(** [items.Get], [items.Set] and [items.Del] through a possibly nil interface
    value. *)
Definition items_Get (g : option glc) (k : bytes) : go (option bytes * option glc) :=
  match g with
  | Some g => let '(d, g) := glc_Get g k in Ret (d, Some g)
  | None => Panic
  end.
Definition items_Set (g : option glc) (k v : bytes) : go (option glc) :=
  match g with Some g => Ret (Some (glc_Set g k v)) | None => Panic end.
Definition items_Del (g : option glc) (k : bytes) : go (option glc) :=
  match g with Some g => Ret (Some (glc_Del g k)) | None => Panic end.
Definition items_Clear (g : option glc) : go (option glc) :=
  match g with Some g => Ret (Some (glc_Clear g)) | None => Panic end.

Definition set_items (g : option glc) (c : cache) : cache :=
  mkCache g (itemsWithSubnet c) (optimistic c) (optimisticTTL c) (optimisticMaxAge c).
Definition set_itemsWithSubnet (g : option glc) (c : cache) : cache :=
  mkCache (items c) g (optimistic c) (optimisticTTL c) (optimisticMaxAge c).

Definition createCache (cacheSize : Z) : glc :=
  glc_New (if 0 <? cacheSize then cacheSize else defaultCacheSize) true.

Definition newCache (conf : cacheConfig) : cache :=
  mkCache (Some (createCache (cc_size conf)))
    (if cc_withECS conf then Some (createCache (cc_size conf)) else None)
    (cc_optimistic conf) (cc_optimisticTTL conf) (cc_optimisticMaxAge conf).

(** What a lookup returns: the item, whether it is expired, and the key. *)
Record lookup_res := mkLookup { lk_item : option cacheItem; lk_expired : bool; lk_key : option bytes }.

Definition get (c : cache) (now : Time) (req : option Msg) : go (lookup_res * cache) :=
  match req with
  | Some req =>
      if negb (canLookUpInCache (items c) (Some req)) then Ret (mkLookup None false None, c)
      else
        let! key := msgToKey req in
        let! (data, g) := items_Get (items c) key in
        match data with
        | None => Ret (mkLookup None false (Some key), set_items g c)
        | Some data =>
            let! (ci, expired) := unpackItem c now data req in
            let! g := match ci with None => items_Del g key | Some _ => Ret g end in
            Ret (mkLookup ci expired (Some key), set_items g c)
        end
  | None => Ret (mkLookup None false None, c)
  end.

(** [k[i] = f(k[i])], which panics out of range. *)
Definition update_at (k : bytes) (i : nat) (f : Z -> Z) : go bytes :=
  if (i <? length k)%nat then Ret (alter f i k) else Panic.

(** [slices.Delete(k, i, j)] *)
Definition slices_Delete (k : bytes) (i j : nat) : go bytes :=
  if (i <=? j)%nat && (j <=? length k)%nat then Ret (take i k ++ drop j k) else Panic.

(** The search with decreasing prefix length [m]. *)
Fixpoint subnet_loop (ipLen m : nat) (k : bytes) (data : option bytes) (g : option glc)
    : go (bytes * option bytes * option glc) :=
  match m, data with
  | S m', None =>
      let! k := update_at k keyMaskIndex (fun _ => Z.of_nat m') in
      let! k :=
        if (m' =? 0)%nat then slices_Delete k keyIPIndex (keyIPIndex + ipLen)
        else update_at k (keyIPIndex + m' / 8)
               (fun v => Z.ldiff v (Z.shiftl 1 (7 - Z.of_nat m' mod 8))) in
      let! (data, g) := items_Get g k in
      subnet_loop ipLen m' k data g
  | _, _ => Ret (k, data, g)
  end.

Definition getWithSubnet (c : cache) (now : Time) (req : option Msg) (n : option IPNet)
    : go (lookup_res * cache) :=
  match req with
  | Some req =>
      if negb (canLookUpInCache (itemsWithSubnet c) (Some req))
      then Ret (mkLookup None false None, c)
      else
        match cacheSubnet n with
        | None => Ret (mkLookup None false None, c)
        | Some (ecsIP, m) =>
            let! k := msgToKeyWithSubnet req ecsIP m in
            let! (data, g) := items_Get (itemsWithSubnet c) k in
            let! (k, data, g) := subnet_loop (length (slice ecsIP)) (Z.to_nat m) k data g in
            match data with
            | None => Ret (mkLookup None false (Some k), set_itemsWithSubnet g c)
            | Some data =>
                let! (ci, expired) := unpackItem c now data req in
                let! g := match ci with None => items_Del g k | Some _ => Ret g end in
                Ret (mkLookup ci expired (Some k), set_itemsWithSubnet g c)
            end
        end
  | None => Ret (mkLookup None false None, c)
  end.

(** A response that cannot be packed is not stored. *)
Definition set (c : cache) (now : Time) (req : Msg) (m : option Msg) (u : option Upstream)
    : go cache :=
  match respToItem m u with
  | None => Ret c
  | Some item =>
      let! key := msgToKey req in
      match pack item now with
      | Err _ => Ret c
      | Ok packed =>
          let! g := items_Set (items c) key packed in
          Ret (set_items g c)
      end
  end.

Definition setWithSubnet (c : cache) (now : Time) (req : Msg) (m : option Msg)
    (u : option Upstream) (n : option IPNet) : go cache :=
  match respToItem m u with
  | None => Ret c
  | Some item =>
      match cacheSubnet n with
      | None => Ret c
      | Some (ip, pref) =>
          let! key := msgToKeyWithSubnet req ip pref in
          match pack item now with
          | Err _ => Ret c
          | Ok packed =>
              let! g := items_Set (itemsWithSubnet c) key packed in
              Ret (set_itemsWithSubnet g c)
          end
      end
  end.

Definition clearItems (c : cache) : go cache :=
  let! g := items_Clear (items c) in Ret (set_items g c).

Definition clearItemsWithSubnet (c : cache) : go cache :=
  match itemsWithSubnet c with
  | None => Ret c
  | Some _ => let! g := items_Clear (itemsWithSubnet c) in Ret (set_itemsWithSubnet g c)
  end.

End Cache.
