(* ===== verification/CacheFacts.v ===== *)
(** * Lemmas on the response cache

    Closed forms of the keys, the step of the search by subnet, the lifetime of
    a message and the round trip of a packed item. *)

From S2P Require Import Prelude NetIP DnsMsg GlCache Wire Cache.

(** The part of a key that both stores share: DO, QTYPE and QCLASS. *)
Definition key_hdr `{DnsLib} (m : Msg) (q : Question_t) : bytes :=
  bool_byte (msg_do m) :: be_put 2 (Qtype q) ++ be_put 2 (Qclass q).

(** The key of the entry for the first [p] bits of the address [b]. *)
Definition subnet_key (hdr b : bytes) (p : Z) (name : bytes) : bytes :=
  hdr ++ [p] ++ (if p =? 0 then [] else mask_bytes b p) ++ name.

(** A subnet whose slices are made of bytes. *)
Definition wf_net (n : IPNet) : Prop :=
  wf_bytes (slice (IPNet_IP n)) /\ wf_bytes (slice (IPNet_Mask n)).

Section Keys.
Context `{DnsLib} `{GlCacheLaws}.

Lemma copy_at_nil off dst : (off <= length dst)%nat -> copy_at off [] dst = dst.
Proof.
  intros. unfold copy_at. rewrite take_nil, Nat.add_0_r. apply take_drop.
Qed.

Lemma msgToKey_eq m q l :
  Question m = q :: l ->
  msgToKey m = Ret (key_hdr m q ++ ToLower (QName q)).
Proof.
  intros Hq. unfold msgToKey, index. rewrite Hq. cbn [gbind lookup list_lookup]. f_equal.
  set (n := length (QName q)).
  pose proof (copy_at_exact 0 [bool_byte (msg_do m)] [] _ (4 + n) eq_refl eq_refl) as E1.
  rewrite app_nil_l in E1. unfold packedMsgLenSz. cbn [length Nat.add] in E1 |- *. rewrite E1.
  rewrite app_nil_l.
  rewrite (copy_at_exact 1 (be_put 2 (Qtype q)) [bool_byte (msg_do m)] (S (S (S (S n)))) (2 + n))
    by (rewrite ?be_put_length; reflexivity).
  rewrite app_assoc.
  rewrite (copy_at_exact 3 (be_put 2 (Qclass q)) _ (2 + n) n)
    by (rewrite ?length_app, ?be_put_length; reflexivity).
  rewrite app_assoc.
  rewrite (copy_at_exact 5 (ToLower (QName q)) _ n 0)
    by (rewrite ?length_app, ?be_put_length, ?ToLower_length; cbn; lia).
  unfold make_bytes. cbn [replicate]. rewrite app_nil_r. reflexivity.
Qed.

Lemma msgToKeyWithSubnet_eq m q l ip p :
  Question m = q :: l ->
  msgToKeyWithSubnet m ip p =
    Ret (key_hdr m q ++ [p] ++ (if p =? 0 then [] else slice ip) ++ ToLower (QName q)).
Proof.
  intros Hq. unfold msgToKeyWithSubnet, index. rewrite Hq. cbn [gbind lookup list_lookup]. f_equal.
  set (n := length (QName q)).
  set (b := if p =? 0 then [] else slice ip).
  replace (if negb (p =? 0) then length (slice ip) else 0%nat) with (length b)
    by (unfold b; destruct (p =? 0); reflexivity).
  unfold keyIPIndex, keyMaskIndex, packedMsgLenSz. cbn [Nat.add Nat.mul].
  pose proof (copy_at_exact 0 [bool_byte (msg_do m)] [] _ (5 + (n + length b)) eq_refl eq_refl) as E1.
  rewrite app_nil_l in E1. cbn [length Nat.add] in E1. rewrite E1. rewrite app_nil_l.
  rewrite (copy_at_exact 1 (be_put 2 (Qtype q)) [bool_byte (msg_do m)] _ (3 + (n + length b)))
    by (rewrite ?be_put_length; reflexivity).
  rewrite app_assoc.
  rewrite (copy_at_exact 3 (be_put 2 (Qclass q)) _ _ (1 + (n + length b)))
    by (rewrite ?length_app, ?be_put_length; reflexivity).
  rewrite app_assoc.
  rewrite (copy_at_exact 5 [p] _ _ (n + length b))
    by (rewrite ?length_app, ?be_put_length; reflexivity).
  rewrite app_assoc.
  set (pre := (([bool_byte (msg_do m)] ++ be_put 2 (Qtype q)) ++ be_put 2 (Qclass q)) ++ [p]).
  assert (Hpre : length pre = 6%nat)
    by (unfold pre; rewrite !length_app, !be_put_length; reflexivity).
  assert (E2 : (if negb (p =? 0) then copy_at 6 (slice ip) (pre ++ make_bytes (n + length b))
                else pre ++ make_bytes (n + length b)) = (pre ++ b) ++ make_bytes n).
  { unfold b. destruct (p =? 0); cbn [negb length].
    - rewrite Nat.add_0_r, app_nil_r. reflexivity.
    - rewrite <- app_assoc. apply copy_at_exact; [auto|lia]. }
  rewrite E2, (copy_at_exact _ (ToLower (QName q)) (pre ++ b) n 0)
    by (rewrite ?length_app, ?Hpre, ?ToLower_length; lia).
  unfold make_bytes, pre, key_hdr. cbn [replicate]. rewrite app_nil_r, <- !app_assoc. reflexivity.
Qed.

Lemma key_hdr_length m q : length (key_hdr m q) = 5%nat.
Proof. reflexivity. Qed.

Lemma subnet_key_length hdr b p name :
  length hdr = 5%nat ->
  length (subnet_key hdr b p name)
  = (6 + (if (p =? 0)%Z then 0 else length b) + length name)%nat.
Proof.
  intros. unfold subnet_key. rewrite !length_app, H2. destruct (p =? 0); cbn [length].
  - lia.
  - rewrite mask_bytes_length. lia.
Qed.

End Keys.

Section SubnetSearch.
Context `{DnsLib} `{GlCacheLaws}.

Lemma update_at_app pre l i f :
  (i < length l)%nat -> update_at (pre ++ l) (length pre + i) f = Ret (pre ++ alter f i l).
Proof.
  intros. unfold update_at. rewrite length_app, (proj2 (Nat.ltb_lt _ _)) by lia.
  rewrite alter_app_r. reflexivity.
Qed.

(** One iteration turns the key of prefix length [m + 1] into that of [m]. *)
Lemma subnet_step hdr b name m :
  length hdr = 5%nat -> wf_bytes b -> (Z.of_nat m < 8 * len b) ->
  (let! k := update_at (subnet_key hdr b (Z.of_nat m + 1) name) keyMaskIndex
               (fun _ => Z.of_nat m) in
   if (m =? 0)%nat then slices_Delete k keyIPIndex (keyIPIndex + length b)
   else update_at k (keyIPIndex + m / 8)
          (fun v => Z.ldiff v (Z.shiftl 1 (7 - Z.of_nat m mod 8))))
  = Ret (subnet_key hdr b (Z.of_nat m) name).
Proof.
  intros Hh Hb Hm. unfold subnet_key, keyIPIndex, keyMaskIndex, packedMsgLenSz.
  rewrite (proj2 (Z.eqb_neq (Z.of_nat m + 1) 0)) by lia. cbn [Nat.mul Nat.add].
  set (l := mask_bytes b (Z.of_nat m + 1)).
  pose proof (update_at_app hdr ([Z.of_nat m + 1] ++ l ++ name) 0 (fun _ => Z.of_nat m)
    ltac:(cbn; lia)) as E.
  rewrite Hh, Nat.add_0_r in E. rewrite E. cbn [gbind alter list_alter app].
  assert (Hl : length l = length b) by apply mask_bytes_length.
  destruct (Nat.eqb_spec m 0) as [->|Hm0].
  - unfold slices_Delete. rewrite length_app. cbn [length]. rewrite length_app.
    rewrite (proj2 (Nat.leb_le 6 _)), (proj2 (Nat.leb_le _ _)) by lia. cbn [andb].
    change (hdr ++ Z.of_nat 0 :: l ++ name) with (hdr ++ [Z.of_nat 0] ++ l ++ name).
    rewrite !app_assoc. f_equal.
    rewrite <- (app_assoc _ l), take_app_length' by (rewrite length_app; cbn; lia).
    rewrite app_assoc, drop_app_length' by (rewrite !length_app; cbn; lia).
    rewrite <- !app_assoc. reflexivity.
  - rewrite (proj2 (Z.eqb_neq (Z.of_nat m) 0)) by lia.
    assert (Hd : (m / 8 < length b)%nat) by (apply Nat.Div0.div_lt_upper_bound; lia).
    change (hdr ++ Z.of_nat m :: l ++ name) with (hdr ++ [Z.of_nat m] ++ l ++ name).
    rewrite app_assoc.
    pose proof (update_at_app (hdr ++ [Z.of_nat m]) (l ++ name) (m / 8)
      (fun v => Z.ldiff v (Z.shiftl 1 (7 - Z.of_nat m mod 8)))
      ltac:(rewrite length_app; lia)) as E2.
    rewrite length_app, Hh in E2. cbn [length Nat.add] in E2. rewrite E2.
    rewrite alter_app_l by lia. rewrite <- app_assoc. repeat f_equal.
    unfold l. rewrite <- (mask_bytes_step b (Z.of_nat m)) by (auto; lia). f_equal.
    rewrite <- (Nat2Z.id (m / 8)), Nat2Z.inj_div. reflexivity.
Qed.

(** The first hit among the keys of decreasing prefix length. *)
Fixpoint longest_match (find : bytes -> option bytes) (key : nat -> bytes) (m : nat)
    : nat * option bytes :=
  match find (key m), m with
  | Some d, _ => (m, Some d)
  | None, O => (O, None)
  | None, S m' => longest_match find key m'
  end.

Lemma longest_match_spec find key m :
  let '(r, d) := longest_match find key m in
  (r <= m)%nat /\ find (key r) = d /\ (forall i, (r < i <= m)%nat -> find (key i) = None)
  /\ (d = None -> r = O).
Proof.
  induction m as [|m IH]; cbn [longest_match].
  - destruct (find (key 0%nat)) eqn:E; repeat split; auto; lia.
  - destruct (find (key (S m))) eqn:E.
    + repeat split; auto; try lia. discriminate.
    + destruct (longest_match find key m) as [r d]. destruct IH as (Hr & Hd & Hi & Hn).
      repeat split; auto. intros i Hi'.
      destruct (Nat.eq_dec i (S m)) as [->|]; [exact E|apply Hi; lia].
Qed.

Lemma subnet_loop_spec hdr b name m g d g0 :
  length hdr = 5%nat -> wf_bytes b -> (Z.of_nat m <= 8 * len b) ->
  d = glc_find g0 (subnet_key hdr b (Z.of_nat m) name) ->
  (forall k, glc_find g k = glc_find g0 k) ->
  let '(r, d') := longest_match (glc_find g0) (fun i => subnet_key hdr b (Z.of_nat i) name) m in
  exists g', subnet_loop (length b) m (subnet_key hdr b (Z.of_nat m) name) d (Some g)
             = Ret (subnet_key hdr b (Z.of_nat r) name, d', Some g')
             /\ forall k, glc_find g' k = glc_find g0 k.
Proof.
  intros Hh Hb. revert d g. induction m as [|m IH]; intros d g Hm -> Hg.
  - cbn [longest_match]. case_goal; cbn [subnet_loop]; eexists; split; eauto.
  - cbn [longest_match subnet_loop]. destruct (glc_find g0 (subnet_key hdr b (Z.of_nat (S m)) name)) as [v|]; [eauto|].
    pose proof (subnet_step hdr b name m Hh Hb ltac:(lia)) as Hs.
    replace (Z.of_nat (S m)) with (Z.of_nat m + 1) by lia.
    destruct (update_at _ keyMaskIndex _) as [k|] eqn:Ek; cbn [gbind] in Hs |- *; [|discriminate].
    rewrite Hs. cbn [gbind items_Get].
    rewrite (surjective_pairing (glc_Get g _)). cbn [gbind].
    rewrite Get_find, Hg. apply IH; [lia|reflexivity|].
    intros k'. rewrite find_Get. apply Hg.
Qed.

End SubnetSearch.

(** The address of a subnet in the form in which it is cached. *)
Definition net_addr (n : IPNet) : bytes :=
  match IPNet_Mask n with
  | None => []
  | Some m => if (length m =? 4)%nat then slice (To4 (IPNet_IP n)) else slice (IPNet_IP n)
  end.

(** Requests as they come from the DNS library: one question, 16-bit fields
    and a name without NUL characters, which are written as [\000]. *)
Record wf_req (m : Msg) (q : Question_t) : Prop := {
  wf_question : Question m = [q];
  wf_qtype : 0 <= Qtype q <= MaxUint16;
  wf_qclass : 0 <= Qclass q <= MaxUint16;
  wf_qname : Forall (fun c => 0 < c < 256) (QName q);
}.

Section KeyFacts.
Context `{DnsLib}.

Lemma To4_wf ip : wf_bytes (slice ip) -> wf_bytes (slice (To4 ip)).
Proof.
  intros Hw. unfold To4. repeat case_goal; auto; [|constructor].
  apply Forall_drop, Hw.
Qed.

Lemma To4_length ip : To4 ip <> None -> length (slice (To4 ip)) = 4%nat.
Proof.
  unfold To4, IPv4len, IPv6len. destruct (Nat.eqb_spec (length (slice ip)) 4); [auto|].
  destruct (Nat.eqb_spec (length (slice ip)) 16); cbn [andb]; [|congruence].
  case_goal; [|congruence]. intros _. rewrite slice_Some, length_drop. lia.
Qed.

Lemma IP_Mask_cidr b m p :
  length b = length m -> length m = 4%nat \/ length m = 16%nat -> m = cidr_loop (length m) p ->
  IP_Mask (Some b) (Some m) = Some (mask_bytes b p).
Proof.
  intros Hl Hm Hp. unfold IP_Mask, IPv4len, IPv6len. rewrite !slice_Some.
  assert ((length m =? 16)%nat && (length b =? 4)%nat = false) as ->.
  { rewrite Hl. destruct Hm as [-> | ->]; reflexivity. }
  cbn [andb].
  assert ((length m =? 4)%nat && (length b =? 16)%nat = false) as ->.
  { rewrite Hl. destruct Hm as [-> | ->]; reflexivity. }
  cbn [andb]. rewrite Hl, Nat.eqb_refl. unfold mask_bytes. rewrite Hl, <- Hp. reflexivity.
Qed.

Lemma Mask_Size_inv m ones bits :
  wf_bytes (slice m) -> Mask_Size m = (ones, bits) -> bits <> 0 ->
  bits = 8 * len (slice m) /\ 0 <= ones <= bits /\ slice m = cidr_loop (length (slice m)) ones.
Proof.
  intros Hw. unfold Mask_Size.
  destruct (Z.eqb_spec (simpleMaskLength (slice m)) (-1)) as [|Hn]; [congruence|].
  intros [= <- <-] _.
  destruct (simpleMaskLength_cidr _ _ Hw eq_refl Hn) as [? ?]. auto.
Qed.

Lemma cacheSubnet_spec n ip p :
  wf_net n -> cacheSubnet (Some n) = Some (ip, p) ->
  wf_bytes (net_addr n)
  /\ (length (net_addr n) = 0 \/ length (net_addr n) = 4 \/ length (net_addr n) = 16)%nat
  /\ 0 <= p <= 8 * len (net_addr n) /\ slice ip = mask_bytes (net_addr n) p.
Proof.
  intros [Hi Hm]. unfold cacheSubnet, net_addr. destruct (IPNet_Mask n) as [m|] eqn:Em.
  2: { case_goal; [|discriminate]. intros [= <- <-].
       split; [constructor|]. split; [auto|]. split; [cbn; lia|reflexivity]. }
  destruct (Mask_Size (Some m)) as [ones bits] eqn:Es.
  destruct (Z.eqb_spec bits 32) as [->|H32]; [|destruct (Z.eqb_spec bits 128) as [->|H128]].
  - destruct (Mask_Size_inv _ _ _ Hm Es) as (Hb & Ho & Hc); [lia|]. rewrite slice_Some in *.
    assert (length m = 4%nat) as Hl by lia. rewrite Hl, Nat.eqb_refl.
    destruct (To4 (IPNet_IP n)) as [b|] eqn:E4; cbn [bool_decide]; [|discriminate].
    pose proof (To4_wf _ Hi) as Hw. pose proof (To4_length (IPNet_IP n)) as Hlen.
    rewrite E4 in Hw, Hlen. rewrite slice_Some in *. specialize (Hlen ltac:(discriminate)).
    rewrite bool_decide_false by discriminate. cbn [orb].
    case_goal; [discriminate|]. intros [= <- <-].
    rewrite (IP_Mask_cidr b m ones) by (auto; lia). rewrite slice_Some.
    split; [auto|]. split; [auto|]. split; [lia|reflexivity].
  - destruct (Mask_Size_inv _ _ _ Hm Es) as (Hb & Ho & Hc); [lia|]. rewrite slice_Some in *.
    assert (length m = 16%nat) as Hl by lia. rewrite Hl. cbn [Nat.eqb].
    destruct (bool_decide (To4 (IPNet_IP n) = None)) eqn:E4; [|rewrite bool_decide_true by auto; discriminate].
    apply bool_decide_eq_true_1 in E4. unfold To16.
    unfold To4 in E4. destruct (Nat.eqb_spec (length (slice (IPNet_IP n))) IPv4len) as [Hl4|].
    { rewrite E4 in Hl4. discriminate. }
    destruct (Nat.eqb_spec (length (slice (IPNet_IP n))) IPv6len) as [Hl6|];
      [|rewrite bool_decide_true by auto; discriminate].
    destruct (IPNet_IP n) as [b|] eqn:Ei; [|discriminate]. rewrite slice_Some in *.
    unfold IPv6len in Hl6. rewrite bool_decide_false by discriminate. cbn [orb].
    case_goal; [discriminate|]. intros [= <- <-].
    rewrite (IP_Mask_cidr b m ones) by (auto; lia). rewrite slice_Some.
    split; [auto|]. split; [auto|]. split; [lia|reflexivity].
  - rewrite bool_decide_true by reflexivity. discriminate.
Qed.

Lemma mask_bytes_tail b p i :
  0 <= p <= 8 * Z.of_nat i -> (i < length b)%nat -> mask_bytes b p !! i = Some 0.
Proof.
  revert p i; induction b as [|x b IH]; intros p i Hp Hi; cbn [length] in Hi; [lia|].
  rewrite mask_bytes_cons. destruct (Z.leb_spec 8 p).
  - destruct i as [|i]; [lia|]. cbn. apply IH; lia.
  - destruct i as [|i]; cbn -[cidr_byte mask_bytes]; [|apply IH; lia].
    replace p with 0 by lia. change (cidr_byte 0) with 0. rewrite Z.land_0_r. reflexivity.
Qed.

(** Masked addresses of different families are told apart by the NUL bytes
    after the prefix. *)
Lemma masked_app_inj b b' p name name' :
  (length b = 0 \/ length b = 4 \/ length b = 16)%nat ->
  (length b' = 0 \/ length b' = 4 \/ length b' = 16)%nat ->
  0 < p <= 8 * len b -> p <= 8 * len b' ->
  Forall (fun c => 0 < c < 256) name -> Forall (fun c => 0 < c < 256) name' ->
  mask_bytes b p ++ name = mask_bytes b' p ++ name' ->
  length b = length b' /\ mask_bytes b p = mask_bytes b' p /\ name = name'.
Proof.
  assert (Hw : forall b b' name name', (length b = 4)%nat -> (length b' = 16)%nat ->
    0 < p <= 8 * len b -> Forall (fun c => 0 < c < 256) name ->
    mask_bytes b p ++ name = mask_bytes b' p ++ name' -> False).
  { clear. intros b b' name name' H4 H16 Hp Hn He.
    assert (H4' : (mask_bytes b p ++ name) !! 4%nat = Some 0).
    { rewrite He, lookup_app_l by (rewrite mask_bytes_length; lia). apply mask_bytes_tail; lia. }
    rewrite lookup_app_r in H4' by (rewrite mask_bytes_length; lia).
    rewrite mask_bytes_length, H4 in H4'. rewrite Forall_lookup in Hn.
    specialize (Hn _ _ H4'). cbn in Hn. lia. }
  intros Hl Hl' Hp Hp' Hn Hn' He.
  assert (length b = length b') as Hll.
  { destruct Hl as [|[|]], Hl' as [|[|]]; try lia; exfalso.
    - apply (Hw b b' name name'); auto.
    - apply (Hw b' b name' name); auto; lia. }
  apply app_inj_length in He as [? ?]; [auto|]. rewrite !mask_bytes_length. exact Hll.
Qed.

Lemma subnet_key_inj hdr hdr' b b' p p' name name' :
  length hdr = 5%nat -> length hdr' = 5%nat ->
  (length b = 0 \/ length b = 4 \/ length b = 16)%nat ->
  (length b' = 0 \/ length b' = 4 \/ length b' = 16)%nat ->
  0 <= p <= 8 * len b -> 0 <= p' <= 8 * len b' ->
  Forall (fun c => 0 < c < 256) name -> Forall (fun c => 0 < c < 256) name' ->
  subnet_key hdr b p name = subnet_key hdr' b' p' name' ->
  hdr = hdr' /\ p = p' /\ name = name'
  /\ (p = 0 \/ (length b = length b' /\ mask_bytes b p = mask_bytes b' p)).
Proof.
  intros Hh Hh' Hl Hl' Hp Hp' Hn Hn' He. unfold subnet_key in He.
  apply app_inj_length in He as [<- He]; [|congruence]. cbn [app] in He.
  injection He as <- He. destruct (Z.eqb_spec p 0); [cbn [app] in He; auto|].
  destruct (masked_app_inj b b' p name name') as (? & ? & ?); auto; lia || auto 6.
Qed.

Lemma key_hdr_inj m m' q q' :
  wf_req m q -> wf_req m' q' -> key_hdr m q = key_hdr m' q' ->
  msg_do m = msg_do m' /\ Qtype q = Qtype q' /\ Qclass q = Qclass q'.
Proof.
  intros [_ Ht Hc _] [_ Ht' Hc' _] He. unfold MaxUint16, key_hdr in *.
  apply (app_inj_length [_] [_]) in He as [Hd He]; [|reflexivity].
  apply app_inj_length in He as [E1 E2]; [|rewrite !be_put_length; reflexivity].
  split; [destruct (msg_do m), (msg_do m'); cbn in Hd; congruence|].
  split; eapply (be_put_inj 2); eauto; cbn; lia.
Qed.

Lemma wf_req_lower m q : wf_req m q -> Forall (fun c => 0 < c < 256) (ToLower (QName q)).
Proof.
  intros [_ _ _ Hn]. apply Forall_fmap. eapply Forall_impl; [|exact Hn].
  intros c Hc. cbn in Hc. change (0 < lower_byte c < 256). unfold lower_byte. case_goal; to_prop; lia.
Qed.

End KeyFacts.

(** ** Lifetimes *)

(** The least TTL among the records that have one. *)
Definition min_ttl (rrs : list RR) : Z :=
  foldr Z.min MaxUint32 ((fun r => ttl_of r) <$> filter (fun r => rrtype r <> TypeOPT) rrs).

Definition msg_rrs (m : Msg) : list RR := Answer m ++ Ns m ++ Extra m.

(** TTLs are 32-bit numbers. *)
Definition wf_ttls (m : Msg) : Prop := Forall (fun r => 0 <= ttl_of r <= MaxUint32) (msg_rrs m).

Section Lifetime.

Lemma foldr_min_le t l x : In x l -> foldr Z.min t l <= x.
Proof. induction l; cbn; [easy|]. intros [->|?]; [lia|]. specialize (IHl H). lia. Qed.

Lemma foldr_min_start t l : foldr Z.min t l <= t.
Proof. induction l; cbn; lia. Qed.

Lemma foldr_min_swap t x l : foldr Z.min (Z.min x t) l = Z.min x (foldr Z.min t l).
Proof. induction l; cbn; [reflexivity|]. rewrite IHl. lia. Qed.

Lemma foldr_min_nonneg t l : 0 <= t -> Forall (fun x => 0 <= x) l -> 0 <= foldr Z.min t l.
Proof. induction 2; cbn; lia. Qed.

Lemma ttl_loop_min rrs t :
  Forall (fun r => 0 <= ttl_of r) rrs -> 0 <= t ->
  ttl_loop rrs t
  = foldr Z.min t ((fun r => ttl_of r) <$> filter (fun r => rrtype r <> TypeOPT) rrs).
Proof.
  intros Hf; revert t; induction Hf as [|r rrs Hr Hf IH]; intros t Ht; [reflexivity|].
  cbn [ttl_loop]. rewrite filter_cons. unfold minTTL.
  assert (Hn : Forall (fun x => 0 <= x)
    ((fun r => ttl_of r) <$> filter (fun r => rrtype r <> TypeOPT) rrs)).
  { apply Forall_fmap, Forall_forall. intros x [_ Hx]%list_elem_of_In%list_elem_of_filter.
    rewrite Forall_forall in Hf. apply (Hf x), list_elem_of_In, Hx. }
  destruct (Z.eqb_spec (rrtype r) TypeOPT) as [Ho|Ho].
  - rewrite decide_False by auto. destruct (Z.eqb_spec t 0) as [->|]; [|apply IH; lia].
    pose proof (foldr_min_start 0 _ : foldr Z.min 0 ((fun r => ttl_of r) <$>
      filter (fun r => rrtype r <> TypeOPT) rrs) <= 0).
    pose proof (foldr_min_nonneg 0 _ ltac:(lia) Hn). lia.
  - rewrite decide_True by auto. cbn [fmap list_fmap foldr].
    rewrite <- foldr_min_swap.
    replace (if ttl_of r <? t then ttl_of r else t) with (Z.min (ttl_of r) t)
      by (destruct (Z.ltb_spec (ttl_of r) t); lia).
    destruct (Z.eqb_spec (Z.min (ttl_of r) t) 0) as [E|E]; [|apply IH; lia].
    rewrite E. pose proof (foldr_min_start 0 _ : foldr Z.min 0 ((fun r => ttl_of r) <$>
      filter (fun r => rrtype r <> TypeOPT) rrs) <= 0).
    pose proof (foldr_min_nonneg 0 _ ltac:(lia) Hn). lia.
Qed.

Lemma wf_ttls_nonneg m : wf_ttls m -> Forall (fun r => 0 <= ttl_of r) (msg_rrs m).
Proof. intros Hw. eapply Forall_impl; [|exact Hw]. cbn. lia. Qed.

Lemma min_ttl_le m r : In r (msg_rrs m) -> rrtype r <> TypeOPT -> min_ttl (msg_rrs m) <= ttl_of r.
Proof.
  intros Hi Ht. apply foldr_min_le.
  apply list_elem_of_In, list_elem_of_fmap. exists r. split; [reflexivity|].
  apply list_elem_of_filter. split; [exact Ht|]. apply list_elem_of_In, Hi.
Qed.

Lemma min_ttl_range m : wf_ttls m -> 0 <= min_ttl (msg_rrs m) <= MaxUint32.
Proof.
  intros Hw. unfold min_ttl. split; [|apply foldr_min_start].
  apply foldr_min_nonneg; [unfold MaxUint32; lia|].
  apply Forall_fmap, Forall_forall. intros x [_ Hx]%list_elem_of_In%list_elem_of_filter.
  apply wf_ttls_nonneg in Hw. rewrite Forall_forall in Hw. apply (Hw x), list_elem_of_In, Hx.
Qed.

Lemma calculateTTL_min m :
  wf_ttls m ->
  calculateTTL m =
    let t := min_ttl (msg_rrs m) in
    if Rcode (Hdr m) =? RcodeServerFailure then Z.min t ServFailMaxCacheTTL
    else if t =? MaxUint32 then 0 else t.
Proof.
  intros Hw. unfold calculateTTL. fold (msg_rrs m).
  rewrite ttl_loop_min by (auto using wf_ttls_nonneg || (unfold MaxUint32; lia)).
  fold (min_ttl (msg_rrs m)). cbn zeta. pose proof (min_ttl_range m Hw) as Hr.
  unfold ServFailMaxCacheTTL, MaxUint32 in *.
  destruct (Rcode (Hdr m) =? RcodeServerFailure); cbn [andb]; [|reflexivity].
  destruct (Z.ltb_spec 30 (min_ttl (msg_rrs m))); [lia|].
  destruct (Z.eqb_spec (min_ttl (msg_rrs m)) 4294967295); lia.
Qed.

(** A cached message is kept for no longer than any of its TTLs. *)
Lemma cacheTTL_le m r :
  wf_ttls m -> cacheTTL (Some m) <> 0 -> In r (msg_rrs m) -> rrtype r <> TypeOPT ->
  0 < cacheTTL (Some m) <= ttl_of r.
Proof.
  intros Hw Hc Hi Ht. pose proof (min_ttl_le m r Hi Ht) as Hm.
  pose proof (min_ttl_range m Hw) as Hr.
  assert (cacheTTL (Some m) = calculateTTL m) as He.
  { unfold cacheTTL in *. repeat (case_hyp Hc; try congruence); reflexivity. }
  rewrite He in *. rewrite calculateTTL_min in Hc |- * by auto. cbn zeta in *.
  unfold ServFailMaxCacheTTL in *. repeat case_goal; lia.
Qed.

Lemma cacheTTL_question m : cacheTTL (Some m) <> 0 -> exists q, Question m = [q].
Proof.
  unfold cacheTTL. case_goal; [congruence|].
  destruct (Question m) as [|q [|]]; [congruence|eauto|congruence].
Qed.

Lemma cacheTTL_range m : wf_ttls m -> 0 <= cacheTTL (Some m) <= MaxUint32.
Proof.
  intros Hw. pose proof (min_ttl_range m Hw) as Hr.
  assert (0 <= calculateTTL m <= MaxUint32) as Hc.
  { rewrite calculateTTL_min by auto. cbn zeta. unfold ServFailMaxCacheTTL, MaxUint32 in *.
    repeat case_goal; lia. }
  unfold cacheTTL. repeat case_goal; unfold MaxUint32 in *; lia.
Qed.

Lemma negative_loop_spec rrs ok :
  negative_loop rrs ok =
  negb (existsb (fun r => rrtype r =? TypeNS) rrs) && (ok || existsb (fun r => rrtype r =? TypeSOA) rrs).
Proof.
  revert ok; induction rrs as [|r rrs IH]; intros ok; cbn [negative_loop existsb].
  - destruct ok; reflexivity.
  - destruct (Z.eqb_spec (rrtype r) TypeSOA) as [E|E].
    + rewrite IH, E. cbn. destruct (existsb _ rrs); destruct ok; reflexivity.
    + destruct (Z.eqb_spec (rrtype r) TypeNS); cbn [orb]; [reflexivity|apply IH].
Qed.

End Lifetime.

(** ** Packed items *)

(** [res] is the answer to [req] made of the stored message [m] whose question
    has the type [qtype], with all TTLs set to [ttl] unless that is zero. *)
Record served `{DnsLib} (m req : Msg) (qtype ttl : Z) (res : Msg) : Prop := {
  sv_rcode : Rcode (Hdr res) = Rcode (Hdr m);
  sv_id : Id (Hdr res) = Id (Hdr req);
  sv_question : length (Question req) = 1%nat -> Question res = Question req;
  sv_ad : AuthenticatedData (Hdr res)
          = AuthenticatedData (Hdr m) && (AuthenticatedData (Hdr req) || msg_do req);
  sv_ra : RecursionAvailable (Hdr res) = RecursionAvailable (Hdr m);
  sv_answer : Forall2 rr_eqv (filterRRSlice (Answer m) (msg_do req) ttl qtype) (Answer res);
  sv_ns : Forall2 rr_eqv (filterRRSlice (Ns m) (msg_do req) ttl TypeNone) (Ns res);
  sv_extra : Forall2 rr_eqv (filterRRSlice (Extra m) (msg_do req) ttl TypeNone) (Extra res);
}.

(** The TTL that the answer gets at the time [now]. *)
Definition answer_ttl `{GlCache} (c : cache) (expire now : Time) : Z :=
  if After now expire then seconds32 (optimisticTTL c) else remaining_ttl expire now.

(** Whether an item is still usable at the time [now]. *)
Definition usable `{GlCache} (c : cache) (expire now : Time) : bool :=
  negb (After now expire) || optimistic c && negb (After now (expire + optimisticMaxAge c)).

Section Packed.
Context `{DnsLaws} `{GlCache}.

Lemma filtered_out_eqv do ex r r' : rr_eqv r r' -> filtered_out do ex r = filtered_out do ex r'.
Proof.
  intros Hr. unfold filtered_out, isDNSSEC. rewrite (rr_eqv_type _ _ Hr). reflexivity.
Qed.

(** Filtering respects the equivalence of records. *)
#[export] Instance filterRRSlice_proper :
  Proper (Forall2 rr_eqv ==> eq ==> eq ==> eq ==> Forall2 rr_eqv) filterRRSlice.
Proof.
  intros l l' Hl do ? <- ttl ? <- ex ? <-.
  induction Hl as [|r r' l l' Hr Hl IH]; cbn [filterRRSlice]; [constructor|].
  rewrite <- (filtered_out_eqv do ex r r' Hr). destruct (filtered_out do ex r) eqn:Ef; [exact IH|].
  constructor; [|exact IH]. case_goal; [exact Hr|]. apply rr_eqv_set_ttl; [exact Hr|].
  unfold filtered_out in Ef. to_prop. auto.
Qed.

Lemma pack_Ok ci now data :
  pack ci now = Ok data <->
  exists pm, Pack (ci_m ci) = Ok pm /\ len pm <= MaxUint16
    /\ data = be_put 8 (uint64 (Unix now + ci_ttl ci)) ++ be_put 2 (len pm) ++ pm ++ ci_u ci.
Proof.
  unfold pack. destruct (Pack (ci_m ci)) as [pm|e]; cbn [annotate rbind].
  2: { split; [discriminate|]. intros (? & ? & _). discriminate. }
  destruct (LengthPrefix (len pm)) as [p|e] eqn:E; cbn [rbind].
  - apply LengthPrefix_Ok in E as [Hl ->].
    assert (Hd : forall v, copy_at expTimeSz (be_put 2 (len pm)) (copy_at 0 (be_put 8 v)
      (make_bytes minPackedLen)) = be_put 8 v ++ be_put 2 (len pm)).
    { intros v. pose proof (copy_at_exact 0 (be_put 8 v) [] minPackedLen 2 eq_refl eq_refl) as E1.
      rewrite app_nil_l in E1. rewrite E1, app_nil_l.
      rewrite (copy_at_exact expTimeSz (be_put 2 (len pm)) (be_put 8 v) 2 0)
        by (rewrite be_put_length; reflexivity).
      cbn [make_bytes replicate]. rewrite app_nil_r. reflexivity. }
    rewrite Hd, <- app_assoc. split.
    + intros [= <-]. exists pm. auto with lia.
    + intros (pm' & [= <-] & _ & ->). reflexivity.
  - split; [discriminate|]. intros (pm' & [= <-] & Hl & _).
    assert (LengthPrefix (len pm) = Ok (be_put 2 (len pm))) by (apply LengthPrefix_Ok; split; [lia|reflexivity]).
    congruence.
Qed.

(** Unpacking a packed item whose message has the question [q]. *)
Lemma unpack_packed c t0 now m q u ttl data req :
  Question m = [q] -> pack (mkItem m u ttl) t0 = Ok data ->
  - 2 ^ 63 <= Unix t0 + ttl < 2 ^ 63 ->
  let expire := TimeUnix (Unix t0 + ttl) in
  if usable c expire now then
    exists res, served m req (Qtype q) (answer_ttl c expire now) res
      /\ unpackItem c now data req = Ret (Some (mkItem res u 0), After now expire)
  else unpackItem c now data req = Ret (None, true).
Proof.
  intros Hq Hp Hr expire. apply pack_Ok in Hp as (pm & Hpm & Hl & ->). cbn [ci_m ci_ttl ci_u] in *.
  destruct (pack_wf _ _ Hpm) as [_ Hlen].
  destruct (unpack_pack _ _ Hpm) as (m' & Hm' & [Hh Hqs Ha Hn Hx]).
  unfold unpackItem. rewrite (proj2 (Nat.ltb_ge _ _)).
  2: { rewrite !length_app, !be_put_length. unfold minPackedLen, expTimeSz, packedMsgLenSz. lia. }
  unfold expTimeSz, packedMsgLenSz.
  rewrite take_app_length', drop_app_length' by (rewrite be_put_length; reflexivity).
  rewrite take_app_length', drop_app_length' by (rewrite be_put_length; reflexivity).
  rewrite (be_get_put_small 8) by (apply Z.mod_pos_bound; lia).
  rewrite (be_get_put_small 2)
    by (unfold MaxUint16 in Hl; change (256 ^ Z.of_nat 2) with 65536; lia).
  rewrite int64_uint64 by exact Hr. fold expire. unfold usable, answer_ttl.
  rewrite Nat2Z.id, take_app_length, drop_app_length, Hm'.
  rewrite (proj2 (Nat.eqb_neq _ 0)) by lia.
  assert (Hu : negb (After now expire) || optimistic c && negb (After now (expire + optimisticMaxAge c))
    = negb (After now expire && (negb (optimistic c) || After now (expire + optimisticMaxAge c)))).
  { destruct (After now expire), (optimistic c), (After now (expire + optimisticMaxAge c)); reflexivity. }
  rewrite Hu. destruct (After now expire && _) eqn:Ee; cbn [negb]; [to_prop; congruence|].
  rewrite Hq in Hqs. destruct (Question m') as [|q' l'] eqn:Hq'; [inversion Hqs|].
  apply Forall2_cons_1 in Hqs as [[Hqt _] _].
  unfold filterMsg, index. rewrite Hq'. cbn [gbind lookup list_lookup].
  set (ttl' := if After now expire then _ else _).
  pose proof (setrcode_spec empty_msg req (Rcode (Hdr m'))) as (Hrc & Hid & _ & Hsq & _).
  eexists. split; [|reflexivity].
  split; cbn; rewrite ?Hh; auto.
  - rewrite Hqt. apply filterRRSlice_proper; auto.
  - apply filterRRSlice_proper; auto.
  - apply filterRRSlice_proper; auto.
Qed.

End Packed.
