(* ===== verification/CacheSpec.v ===== *)
(** * What the response cache guarantees

    The operations of a cache as a labelled transition system, the invariant of
    the reachable caches (every stored item comes from a store operation under
    the key of that operation), and the theorems on lookups: they do not panic,
    they answer only the same question for a subnet that contains the client,
    the most specific stored subnet wins, and TTLs never grow. *)

From S2P Require Import Prelude NetIP DnsMsg RefDns GlCache Wire Cache CacheFacts.

(** ** Histories of a cache *)

(** One operation with its arguments and the time at which it runs. *)
Inductive cache_op :=
  | OpSet (t : Time) (req : Msg) (m : option Msg) (u : option Upstream)
  | OpSetSubnet (t : Time) (req : Msg) (m : option Msg) (u : option Upstream) (n : option IPNet)
  | OpGet (t : Time) (req : option Msg)
  | OpGetSubnet (t : Time) (req : option Msg) (n : option IPNet)
  | OpClear
  | OpClearSubnet.

Definition apply_op `{DnsLib} `{GlCache} (c : cache) (op : cache_op) : go cache :=
  match op with
  | OpSet t req m u => set c t req m u
  | OpSetSubnet t req m u n => setWithSubnet c t req m u n
  | OpGet t req => let! (_, c) := get c t req in Ret c
  | OpGetSubnet t req n => let! (_, c) := getWithSubnet c t req n in Ret c
  | OpClear => clearItems c
  | OpClearSubnet => clearItemsWithSubnet c
  end.

(** Caches reachable from a new one, with the operations in reverse order.
    The read-write locks make the operations atomic. *)
Inductive reachable `{DnsLib} `{GlCache} (conf : cacheConfig) : list cache_op -> cache -> Prop :=
  | reachable_new : reachable conf [] (newCache conf)
  | reachable_step h c op c' :
      reachable conf h c -> apply_op c op = Ret c' -> reachable conf (op :: h) c'.

Definition upstream_addr (u : option Upstream) : bytes :=
  match u with Some u => Address u | None => [] end.

(** What store operations are given. *)
Definition wf_store (t : Time) (req : Msg) (m : option Msg) : Prop :=
  (exists q, wf_req req q) /\ (forall m', m = Some m' -> wf_ttls m') /\ 0 <= Unix t < 2 ^ 62.

Definition wf_op (op : cache_op) : Prop :=
  match op with
  | OpSet t req m _ => wf_store t req m
  | OpSetSubnet t req m _ n => wf_store t req m /\ (forall n', n = Some n' -> wf_net n')
  | _ => True
  end.

Definition expiry (t : Time) (m : Msg) : Time := TimeUnix (Unix t + cacheTTL (Some m)).

(** The question of a request as far as the cache tells questions apart. *)
Definition same_question `{DnsLib} (req : Msg) (q : Question_t) (req' : Msg) (q' : Question_t) :=
  msg_do req = msg_do req' /\ Qtype q = Qtype q' /\ Qclass q = Qclass q'
  /\ EqualFold (QName q) (QName q') = true.

(** The first [p'] bits of [b'] are a prefix of the first [p] bits of [b]. *)
Definition within (b : bytes) (p : Z) (b' : bytes) (p' : Z) : Prop :=
  p' <= p /\ (p' = 0 \/ (length b = length b' /\ mask_bytes b p' = mask_bytes b' p')).

(** The value [v] was packed by storing [m] at [t]. *)
Definition packed_at `{DnsLib} (t : Time) (m : Msg) (u : option Upstream) (v : bytes) : Prop :=
  cacheTTL (Some m) <> 0 /\ pack (mkItem m (upstream_addr u) (cacheTTL (Some m))) t = Ok v.

(** Where the items of the two stores come from. *)
Definition stored `{DnsLib} (h : list cache_op) (k v : bytes) : Prop :=
  exists t req q m u, In (OpSet t req (Some m) u) h /\ wf_req req q
    /\ k = key_hdr req q ++ ToLower (QName q) /\ packed_at t m u v.

Definition storedWithSubnet `{DnsLib} (h : list cache_op) (k v : bytes) : Prop :=
  exists t req q m u n ip p, In (OpSetSubnet t req (Some m) u (Some n)) h /\ wf_req req q
    /\ cacheSubnet (Some n) = Some (ip, p)
    /\ k = subnet_key (key_hdr req q) (net_addr n) p (ToLower (QName q)) /\ packed_at t m u v.

Definition find_in `{GlCache} (o : option glc) (k : bytes) : option bytes :=
  match o with Some g => glc_find g k | None => None end.

Record cache_inv `{DnsLib} `{GlCache} (conf : cacheConfig) (h : list cache_op) (c : cache) : Prop := {
  inv_items : forall k v, find_in (items c) k = Some v -> stored h k v;
  inv_subnet : forall k v, find_in (itemsWithSubnet c) k = Some v -> storedWithSubnet h k v;
  inv_some : is_Some (items c);
  inv_ecs : is_Some (itemsWithSubnet c) <-> cc_withECS conf = true;
  inv_conf : optimistic c = cc_optimistic conf /\ optimisticTTL c = cc_optimisticTTL conf
    /\ optimisticMaxAge c = cc_optimisticMaxAge conf;
}.

(** ** The invariant *)

Section Invariant.
Context {DL : DnsLib} {DLaws : DnsLaws} {GC : GlCache} {GLaws : GlCacheLaws}.

Lemma stored_cons h op k v : stored h k v -> stored (op :: h) k v.
Proof. intros (t & req & q & m & u & Hi & Hr). exists t, req, q, m, u. split; [right; exact Hi|exact Hr]. Qed.

Lemma storedWithSubnet_cons h op k v : storedWithSubnet h k v -> storedWithSubnet (op :: h) k v.
Proof.
  intros (t & req & q & m & u & n & ip & p & Hi & Hr).
  exists t, req, q, m, u, n, ip, p. split; [right; exact Hi|exact Hr].
Qed.

(** A change of the stores that only removes items keeps the invariant. *)
Definition shrinks (o o' : option glc) : Prop :=
  (forall k v, find_in o' k = Some v -> find_in o k = Some v) /\ (is_Some o <-> is_Some o').

Lemma shrinks_refl o : shrinks o o.
Proof. split; tauto. Qed.

Lemma shrinks_trans o1 o2 o3 : shrinks o1 o2 -> shrinks o2 o3 -> shrinks o1 o3.
Proof. intros [H1 ?] [H2 ?]. split; [auto|tauto]. Qed.

Lemma inv_shrinks conf h c op g g' :
  cache_inv conf h c -> shrinks (items c) g -> shrinks (itemsWithSubnet c) g' ->
  cache_inv conf (op :: h) (set_itemsWithSubnet g' (set_items g c)).
Proof.
  intros [Hi Hs Hk He Hc] [H1 H1'] [H2 H2']. split; cbn; auto.
  - intros k v Hf. apply stored_cons, Hi, H1, Hf.
  - intros k v Hf. apply storedWithSubnet_cons, Hs, H2, Hf.
  - tauto.
  - tauto.
Qed.

Lemma items_Get_shrinks o k d o' : items_Get o k = Ret (d, o') -> shrinks o o' /\ d = find_in o k.
Proof.
  unfold items_Get. destruct o as [g|]; [|discriminate].
  pose proof (Get_find g k) as Hg. pose proof (fun k' => find_Get g k k') as Hf.
  destruct (glc_Get g k) as [d' g']. cbn in *. intros [= <- <-]. split; [split|auto].
  - intros k' v. cbn. rewrite Hf. auto.
  - split; eauto.
Qed.

Lemma items_Del_shrinks o k o' : items_Del o k = Ret o' -> shrinks o o'.
Proof.
  unfold items_Del. destruct o as [g|]; [|discriminate]. intros [= <-]. split; [|split; eauto].
  intros k' v. cbn. destruct (decide (k = k')) as [->|Hn].
  - rewrite find_Del_eq. discriminate.
  - rewrite find_Del_ne by exact Hn. auto.
Qed.

Lemma items_Clear_shrinks o o' : items_Clear o = Ret o' -> shrinks o o'.
Proof.
  unfold items_Clear. destruct o as [g|]; [|discriminate]. intros [= <-]. split; [|split; eauto].
  intros k' v. cbn. rewrite find_Clear. discriminate.
Qed.

Lemma subnet_loop_shrinks ipLen m k d o k' d' o' :
  subnet_loop ipLen m k d o = Ret (k', d', o') -> shrinks o o'.
Proof.
  revert k d o; induction m as [|m IH]; intros k d o; cbn [subnet_loop].
  - intros [= <- <- <-]. apply shrinks_refl.
  - destruct d; [intros [= <- <- <-]; apply shrinks_refl|]. intros Hl.
    inv_bind Hl. inv_bind Hl. inv_bind Hl. destruct a1 as [d1 o1].
    apply items_Get_shrinks in E1 as [? _]. eapply shrinks_trans; eauto.
Qed.

Lemma get_shrinks c now req lk c' :
  get c now req = Ret (lk, c') ->
  exists g, c' = set_items g c /\ shrinks (items c) g.
Proof.
  assert (Hid : exists g, c = set_items g c /\ shrinks (items c) g).
  { exists (items c). split; [destruct c; reflexivity|apply shrinks_refl]. }
  unfold get. destruct req as [req|]; [|intros [= <- <-]; exact Hid].
  case_goal; [intros [= <- <-]; exact Hid|]. intros Hg.
  inv_bind Hg. inv_bind Hg. destruct a0 as [[data|] g]; apply items_Get_shrinks in E0 as [Hs _].
  - inv_bind Hg. destruct a0 as [ci e]. inv_bind Hg. injection Hg as <- <-.
    eexists; split; [reflexivity|]. destruct ci; [injection E1 as <-; exact Hs|].
    eapply shrinks_trans, items_Del_shrinks; eauto.
  - injection Hg as <- <-. eauto.
Qed.

Lemma getWithSubnet_shrinks c now req n lk c' :
  getWithSubnet c now req n = Ret (lk, c') ->
  exists g, c' = set_itemsWithSubnet g c /\ shrinks (itemsWithSubnet c) g.
Proof.
  assert (Hid : exists g, c = set_itemsWithSubnet g c /\ shrinks (itemsWithSubnet c) g).
  { exists (itemsWithSubnet c). split; [destruct c; reflexivity|apply shrinks_refl]. }
  unfold getWithSubnet. destruct req as [req|]; [|intros [= <- <-]; exact Hid].
  case_goal; [intros [= <- <-]; exact Hid|].
  destruct (cacheSubnet n) as [[ip p]|]; [|intros [= <- <-]; exact Hid]. intros Hg.
  inv_bind Hg. inv_bind Hg. destruct a0 as [d g]. apply items_Get_shrinks in E0 as [Hs _].
  inv_bind Hg. destruct a0 as [[k [data|]] g']; apply subnet_loop_shrinks in E0.
  - inv_bind Hg. destruct a0 as [ci e]. inv_bind Hg. injection Hg as <- <-.
    eexists; split; [reflexivity|]. eapply shrinks_trans; [exact Hs|].
    destruct ci; [injection E2 as <-; exact E0|].
    eapply shrinks_trans, items_Del_shrinks; eauto.
  - injection Hg as <- <-. eexists; split; [reflexivity|]. eapply shrinks_trans; eauto.
Qed.

Lemma respToItem_Some m u ci :
  respToItem m u = Some ci ->
  exists m', m = Some m' /\ cacheTTL (Some m') <> 0
    /\ ci = mkItem m' (upstream_addr u) (cacheTTL (Some m')).
Proof.
  unfold respToItem. destruct (Z.eqb_spec (cacheTTL m) 0) as [|Hn]; [discriminate|].
  destruct m as [m|]; [|discriminate]. intros [= <-]. eauto.
Qed.

Lemma items_Set_find o k v o' k' v' :
  items_Set o k v = Ret o' -> find_in o' k' = Some v' ->
  (k' = k /\ v' = v) \/ find_in o k' = Some v'.
Proof. destruct o as [g|]; [|discriminate]. intros [= <-]. apply find_Set. Qed.

Lemma set_inv conf h c t req m u c' :
  cache_inv conf h c -> wf_store t req m -> set c t req m u = Ret c' ->
  cache_inv conf (OpSet t req m u :: h) c'.
Proof.
  intros Hinv [[q Hq] _] Hs.
  assert (Hid : cache_inv conf (OpSet t req m u :: h) c).
  { pose proof (inv_shrinks conf h c (OpSet t req m u) _ _ Hinv (shrinks_refl _) (shrinks_refl _)).
    destruct c; assumption. }
  unfold set in Hs. destruct (respToItem m u) as [ci|] eqn:Er; [|congruence].
  apply respToItem_Some in Er as (m' & -> & Hc & ->).
  rewrite (msgToKey_eq req q []) in Hs by apply Hq. cbn [gbind] in Hs.
  destruct (pack _ t) as [v|] eqn:Ep; [|congruence].
  inv_bind Hs. injection Hs as <-. destruct Hid as [Hi Hsn Hk He Hcf]. split; cbn; auto.
  - intros k' v' Hf. destruct (items_Set_find _ _ _ _ _ _ E Hf) as [[-> ->]|Hf']; [|auto].
    exists t, req, q, m', u. split; [left; reflexivity|]. repeat split; auto; apply Hq.
  - destruct (items c); [|discriminate]. injection E as <-. eauto.
Qed.

Lemma setWithSubnet_inv conf h c t req m u n c' :
  cache_inv conf h c -> wf_op (OpSetSubnet t req m u n) -> setWithSubnet c t req m u n = Ret c' ->
  cache_inv conf (OpSetSubnet t req m u n :: h) c'.
Proof.
  intros Hinv [[[q Hq] _] Hwn] Hs. set (op := OpSetSubnet t req m u n).
  assert (Hid : cache_inv conf (op :: h) c).
  { pose proof (inv_shrinks conf h c op _ _ Hinv (shrinks_refl _) (shrinks_refl _)).
    destruct c; assumption. }
  unfold setWithSubnet in Hs. destruct (respToItem m u) as [ci|] eqn:Er; [|congruence].
  apply respToItem_Some in Er as (m' & -> & Hc & ->).
  destruct (cacheSubnet n) as [[ip p]|] eqn:En; [|congruence].
  destruct n as [n|]; [|discriminate].
  rewrite (msgToKeyWithSubnet_eq req q [] ip p) in Hs by apply Hq. cbn [gbind] in Hs.
  destruct (pack _ t) as [v|] eqn:Ep; [|congruence].
  inv_bind Hs. injection Hs as <-. destruct Hid as [Hi Hsn Hk He Hcf]. split; cbn; auto.
  - intros k' v' Hf. destruct (items_Set_find _ _ _ _ _ _ E Hf) as [[-> ->]|Hf']; [|auto].
    destruct (cacheSubnet_spec n ip p (Hwn n eq_refl) En) as (_ & _ & _ & Hsl).
    exists t, req, q, m', u, n, ip, p. split; [left; reflexivity|]. repeat split; auto; try apply Hq.
    unfold subnet_key. rewrite Hsl. reflexivity.
  - destruct (itemsWithSubnet c); [|discriminate]. injection E as <-. rewrite <- He. split; eauto.
Qed.

(** The invariant holds in every reachable cache. *)
Lemma reachable_inv conf h c :
  reachable conf h c -> Forall wf_op h -> cache_inv conf h c.
Proof.
  induction 1 as [|h c op c' _ IH Ha]; intros Hw.
  - split; cbn.
    + intros k v. unfold createCache. rewrite find_New. discriminate.
    + intros k v. unfold createCache. destruct (cc_withECS conf); cbn; [rewrite find_New|]; discriminate.
    + eauto.
    + destruct (cc_withECS conf); split; eauto; [intros [? ?]|]; discriminate.
    + auto.
  - apply Forall_cons_1 in Hw as [Hop Hw]. specialize (IH Hw).
    assert (Hst : forall g g', shrinks (items c) g -> shrinks (itemsWithSubnet c) g' ->
      cache_inv conf (op :: h) (set_itemsWithSubnet g' (set_items g c))) by eauto using inv_shrinks.
    pose proof (shrinks_refl (items c)) as R1. pose proof (shrinks_refl (itemsWithSubnet c)) as R2.
    destruct op; cbn in Ha.
    + eapply set_inv; eauto.
    + eapply setWithSubnet_inv; eauto.
    + inv_bind Ha. destruct a as [lk c1]. injection Ha as <-.
      apply get_shrinks in E as (g & -> & Hg). exact (Hst _ _ Hg R2).
    + inv_bind Ha. destruct a as [lk c1]. injection Ha as <-.
      apply getWithSubnet_shrinks in E as (g & -> & Hg). exact (Hst _ _ R1 Hg).
    + unfold clearItems in Ha. inv_bind Ha. injection Ha as <-.
      apply items_Clear_shrinks in E. exact (Hst _ _ E R2).
    + unfold clearItemsWithSubnet in Ha. destruct (itemsWithSubnet c) as [g|] eqn:Eg.
      * inv_bind Ha. injection Ha as <-. apply items_Clear_shrinks in E.
        pose proof (Hst _ _ R1 E) as Hr. destruct c; exact Hr.
      * injection Ha as <-. pose proof (Hst _ _ R1 R2) as Hr. destruct c; cbn in *. subst. exact Hr.
Qed.

End Invariant.

(** ** Lookups *)

(** [ci] is the answer to [req] at [now] from the message [m] stored at [t]. *)
Record hit_of `{DnsLib} `{GlCache} (c : cache) (now : Time) (req : Msg) (t : Time) (m : Msg)
    (u : option Upstream) (ci : cacheItem) (expired : bool) : Prop := {
  hit_usable : usable c (expiry t m) now = true;
  hit_expired : expired = After now (expiry t m);
  hit_u : ci_u ci = upstream_addr u;
  hit_served : exists q, Question m = [q]
    /\ served m req (Qtype q) (answer_ttl c (expiry t m) now) (ci_m ci);
}.

(** The key of the entry for the first [i] bits of the subnet [n]. *)
Definition net_key `{DnsLib} (req : Msg) (q : Question_t) (n : IPNet) (i : nat) : bytes :=
  subnet_key (key_hdr req q) (net_addr n) (Z.of_nat i) (ToLower (QName q)).

Section Lookups.
Context {DL : DnsLib} {DLaws : DnsLaws} {GC : GlCache} {GLaws : GlCacheLaws}.

Lemma unpack_stored c now req t m u v :
  packed_at t m u v -> wf_ttls m -> 0 <= Unix t < 2 ^ 62 ->
  (exists ci, unpackItem c now v req = Ret (Some ci, After now (expiry t m))
     /\ hit_of c now req t m u ci (After now (expiry t m)))
  \/ (usable c (expiry t m) now = false /\ unpackItem c now v req = Ret (None, true)).
Proof.
  intros [Hc Hp] Hw Ht. destruct (cacheTTL_question m Hc) as [q Hq].
  pose proof (cacheTTL_range m Hw) as Hr. unfold MaxUint32 in Hr.
  pose proof (unpack_packed c t now m q (upstream_addr u) _ v req Hq Hp ltac:(lia)) as Hu.
  cbn zeta in Hu. fold (expiry t m) in Hu.
  destruct (usable c (expiry t m) now) eqn:E; [left|right; auto].
  destruct Hu as (res & Hs & Hu). eexists; split; [exact Hu|]. split; cbn; eauto.
Qed.

(** A message that fits a length prefix. *)
Definition packable (m : Msg) : Prop := exists b, Pack m = Ok b /\ len b <= MaxUint16.

Lemma pack_exists t m u :
  packable m -> exists v, pack (mkItem m (upstream_addr u) (cacheTTL (Some m))) t = Ok v.
Proof. intros (b & Hb & Hl). eexists. apply pack_Ok. exists b. auto. Qed.

Lemma respToItem_eq m u :
  cacheTTL (Some m) <> 0 ->
  respToItem (Some m) u = Some (mkItem m (upstream_addr u) (cacheTTL (Some m))).
Proof. intros Hc. unfold respToItem. rewrite (proj2 (Z.eqb_neq _ 0) Hc). reflexivity. Qed.

Lemma wf_op_In h op : Forall wf_op h -> In op h -> wf_op op.
Proof. rewrite Forall_forall. auto. Qed.

Lemma get_eq c now req q g :
  Question req = [q] -> items c = Some g ->
  exists g', (forall k, glc_find g' k = glc_find g k) /\
  let key := key_hdr req q ++ ToLower (QName q) in
  get c now (Some req) =
    match glc_find g key with
    | None => Ret (mkLookup None false (Some key), set_items (Some g') c)
    | Some data =>
        let! (ci, e) := unpackItem c now data req in
        Ret (mkLookup ci e (Some key),
             set_items (Some (match ci with None => glc_Del g' key | Some _ => g' end)) c)
    end.
Proof.
  intros Hq Hg. unfold get, canLookUpInCache. rewrite Hg, Hq. cbn [length Nat.eqb negb].
  rewrite (msgToKey_eq req q []) by exact Hq. cbn [gbind items_Get].
  rewrite (surjective_pairing (glc_Get g _)). cbn [gbind]. rewrite Get_find.
  eexists; split; [intros k; apply find_Get|]. cbn zeta.
  destruct (glc_find g _); [|reflexivity]. destruct (unpackItem _ _ _ _) as [[[ci|] e]|]; reflexivity.
Qed.

Lemma getWithSubnet_eq c now req q n ip p g :
  Question req = [q] -> wf_net n -> itemsWithSubnet c = Some g ->
  cacheSubnet (Some n) = Some (ip, p) ->
  let '(r, d) := longest_match (glc_find g) (net_key req q n) (Z.to_nat p) in
  exists g', (forall k, glc_find g' k = glc_find g k) /\
  let key := net_key req q n r in
  getWithSubnet c now (Some req) (Some n) =
    match d with
    | None => Ret (mkLookup None false (Some key), set_itemsWithSubnet (Some g') c)
    | Some data =>
        let! (ci, e) := unpackItem c now data req in
        Ret (mkLookup ci e (Some key), set_itemsWithSubnet
               (Some (match ci with None => glc_Del g' key | Some _ => g' end)) c)
    end.
Proof.
  intros Hq Hn Hg Hc. destruct (cacheSubnet_spec n ip p Hn Hc) as (Hw & Hl & Hp & Hs).
  unfold getWithSubnet, canLookUpInCache. rewrite Hg, Hq, Hc.
  cbn [length Nat.eqb negb].
  rewrite (msgToKeyWithSubnet_eq req q [] ip p) by exact Hq. cbn [gbind items_Get].
  rewrite Hs, mask_bytes_length.
  change (key_hdr req q ++ [p] ++ _) with
    (subnet_key (key_hdr req q) (net_addr n) p (ToLower (QName q))).
  rewrite (surjective_pairing (glc_Get g _)). cbn [gbind]. rewrite Get_find.
  pose proof (subnet_loop_spec (key_hdr req q) (net_addr n) (ToLower (QName q)) (Z.to_nat p)
    (snd (glc_Get g (subnet_key (key_hdr req q) (net_addr n) p (ToLower (QName q)))))
    _ g (key_hdr_length _ _) Hw ltac:(lia) eq_refl ltac:(intros; apply find_Get)) as Hloop.
  fold (net_key req q n) in Hloop. rewrite Z2Nat.id in Hloop by lia.
  change (fun i => subnet_key (key_hdr req q) (net_addr n) (Z.of_nat i) (ToLower (QName q)))
    with (net_key req q n) in Hloop.
  destruct (longest_match _ _ _) as [r d]. destruct Hloop as (g' & -> & Hf).
  exists g'. split; [exact Hf|]. cbn [gbind]. cbn zeta.
  destruct d as [data|]; [|reflexivity].
  destruct (unpackItem _ _ _ _) as [[[ci|] e]|]; reflexivity.
Qed.

End Lookups.

Section Answers.
Context {DL : DnsLib} {DLaws : DnsLaws}.

Lemma filterRRSlice_In l do ttl ex r :
  In r (filterRRSlice l do ttl ex) ->
  exists r0, In r0 l /\ rrtype r0 <> TypeOPT /\ r = if ttl =? 0 then r0 else set_Ttl ttl r0.
Proof.
  induction l as [|x l IH]; cbn [filterRRSlice]; [easy|].
  destruct (filtered_out do ex x) eqn:Ef.
  - intros Hi. destruct (IH Hi) as (r0 & ? & ?). exists r0. split; [right|]; auto.
  - intros [<-|Hi].
    + exists x. split; [left; reflexivity|]. split; [|reflexivity].
      unfold filtered_out in Ef. to_prop. auto.
    + destruct (IH Hi) as (r0 & ? & ?). exists r0. split; [right|]; auto.
Qed.

Lemma filterRRSlice_kept l do ttl ex :
  Forall (fun r => filtered_out do ex r = false) (filterRRSlice l do ttl ex).
Proof.
  induction l as [|x l IH]; cbn [filterRRSlice]; [constructor|].
  destruct (filtered_out do ex x) eqn:Ef; [exact IH|]. constructor; [|exact IH].
  destruct (ttl =? 0); exact Ef.
Qed.

Lemma filtered_section l l' do ttl ex :
  Forall2 rr_eqv (filterRRSlice l do ttl ex) l' ->
  Forall (fun r => filtered_out do ex r = false) l'.
Proof.
  intros Hf. pose proof (filterRRSlice_kept l do ttl ex) as Hk.
  induction Hf as [|r r' k k' He Hf IH]; [constructor|].
  apply Forall_cons_1 in Hk as [Hr Hk]. constructor; [|apply IH, Hk].
  rewrite <- (filtered_out_eqv do ex r r' He). exact Hr.
Qed.

Lemma filtered_no_dnssec l :
  Forall (fun r => filtered_out false TypeNone r = false) l -> Forall (fun r => isDNSSEC r = false) l.
Proof.
  intros Hl. eapply Forall_impl; [|exact Hl]. cbn. intros r Hr.
  unfold filtered_out in Hr. cbn [negb andb] in Hr. to_prop.
  destruct (isDNSSEC r) eqn:E; [|exact E]. cbn [andb] in *. to_prop.
  unfold isDNSSEC in E. rewrite H in E. discriminate.
Qed.

Lemma filtered_asked l ty :
  Forall (fun r => filtered_out false ty r = false) l -> Forall (fun r => isDNSSEC r = true -> rrtype r = ty) l.
Proof.
  intros Hl. eapply Forall_impl; [|exact Hl]. intros r Hr Hsec. cbv beta in Hr.
  unfold filtered_out in Hr. rewrite Hsec in Hr. cbn [negb andb] in Hr. to_prop. auto.
Qed.

Lemma filtered_no_opt l do ty :
  Forall (fun r => filtered_out do ty r = false) l -> Forall (fun r => rrtype r <> TypeOPT) l.
Proof.
  intros Hl. eapply Forall_impl; [|exact Hl]. cbn. intros r Hr. unfold filtered_out in Hr. to_prop. auto.
Qed.

(** Every record of an answer comes from a record of the stored message. *)
Lemma section_source l l' do ttl ex r :
  Forall2 rr_eqv (filterRRSlice l do ttl ex) l' -> In r l' ->
  exists r0, In r0 l /\ rrtype r0 <> TypeOPT /\ rrtype r0 = rrtype r
    /\ ttl_of r = if ttl =? 0 then ttl_of r0 else ttl.
Proof.
  intros Hf Hi. apply list_elem_of_In, list_elem_of_lookup in Hi as [i Hi].
  destruct (Forall2_lookup_r _ _ _ _ _ Hf Hi) as (r1 & Hr1 & He).
  apply list_elem_of_lookup_2, list_elem_of_In, filterRRSlice_In in Hr1 as (r0 & Hr0 & Hn & ->).
  exists r0. split; [exact Hr0|]. split; [exact Hn|].
  pose proof (rr_eqv_type _ _ He) as Hty. pose proof (rr_eqv_ttl _ _ He) as Htl.
  destruct (ttl =? 0); cbn in *; (split; [auto|symmetry; auto]).
Qed.

Lemma served_source m req qtype ttl res :
  served m req qtype ttl res -> forall r, In r (msg_rrs res) ->
  exists r0, In r0 (msg_rrs m) /\ rrtype r0 <> TypeOPT /\ rrtype r0 = rrtype r
    /\ ttl_of r = if ttl =? 0 then ttl_of r0 else ttl.
Proof.
  intros [_ _ _ _ _ Ha Hn Hx] r. unfold msg_rrs. rewrite !in_app_iff. intros [Hr|[Hr|Hr]].
  - destruct (section_source _ _ _ _ _ _ Ha Hr) as (r0 & ? & ?). exists r0. rewrite !in_app_iff. tauto.
  - destruct (section_source _ _ _ _ _ _ Hn Hr) as (r0 & ? & ?). exists r0. rewrite !in_app_iff. tauto.
  - destruct (section_source _ _ _ _ _ _ Hx Hr) as (r0 & ? & ?). exists r0. rewrite !in_app_iff. tauto.
Qed.

(** Before the expiry the remaining lifetime is zero only at its instant. *)
Lemma remaining_ttl_spec t now ttl :
  t <= now -> 0 < ttl <= MaxUint32 -> After now (TimeUnix (Unix t + ttl)) = false ->
  (remaining_ttl (TimeUnix (Unix t + ttl)) now = 0 /\ now = TimeUnix (Unix t + ttl))
  \/ (0 < remaining_ttl (TimeUnix (Unix t + ttl)) now
      /\ remaining_ttl (TimeUnix (Unix t + ttl)) now + (Unix now - Unix t) <= ttl).
Proof.
  unfold After, remaining_ttl, TimeUnix, Unix. intros Ht Hl Ha. to_prop.
  assert (HS : 0 < Second) by (unfold Second; lia). set (S := Second) in *.
  rewrite Z.div_mul by lia.
  assert (t / S <= now / S) by (apply Z.div_le_mono; lia).
  assert (now / S <= t / S + ttl).
  { rewrite <- (Z.div_mul (t / S + ttl) S) by lia. apply Z.div_le_mono; lia. }
  unfold MaxUint32 in *.
  destruct (Z.ltb_spec (t / S + ttl - now / S) 0); [lia|].
  destruct (Z.ltb_spec 4294967295 (t / S + ttl - now / S)); [lia|].
  destruct (Z.eq_dec (t / S + ttl - now / S) 0) as [E|E]; [left|right; lia].
  split; [lia|]. pose proof (Z.mul_div_le now S HS). nia.
Qed.

End Answers.

Section Theorems.
Context {DL : DnsLib} {DLaws : DnsLaws} {GC : GlCache} {GLaws : GlCacheLaws}.

(** C3: the cache never answers a question with the response to another one.
    In a reachable cache, an item returned by [get] is made from a message that
    was stored earlier for a request with the same DO bit, type, class and
    name up to case, it is still usable at the time of the lookup, and the
    answer is that message filtered for the request, with its remaining
    lifetime as TTL. *)
Theorem get_provenance conf h c now req q lk c' ci :
  reachable conf h c -> Forall wf_op h -> wf_req req q ->
  get c now (Some req) = Ret (lk, c') -> lk_item lk = Some ci ->
  exists t req' q' m u,
    In (OpSet t req' (Some m) u) h /\ wf_req req' q' /\ same_question req q req' q'
    /\ hit_of c now req t m u ci (lk_expired lk).
Proof.
  intros Hr Hw Hq Hg Hci. pose proof (reachable_inv _ _ _ Hr Hw) as Hinv.
  destruct (inv_some _ _ _ Hinv) as [g Hitems].
  destruct (get_eq c now req q g (wf_question _ _ Hq) Hitems) as (g' & _ & He). cbn zeta in He. rewrite Hg in He.
  destruct (glc_find g _) as [v|] eqn:Ev; [|injection He as -> _; discriminate].
  destruct (inv_items _ _ _ Hinv (key_hdr req q ++ ToLower (QName q)) v)
    as (t & req' & q' & m & u & Hin & Hq' & Hk & Hp); [rewrite Hitems; exact Ev|].
  destruct (wf_op_In _ _ Hw Hin) as (_ & Hwm & Ht).
  exists t, req', q', m, u. split; [exact Hin|]. split; [exact Hq'|]. split.
  - apply app_inj_length in Hk as [Hh Hn]; [|reflexivity].
    destruct (key_hdr_inj _ _ _ _ Hq Hq' Hh) as (? & ? & ?).
    repeat split; auto. apply bool_decide_eq_true_2, Hn.
  - destruct (unpack_stored c now req t m u v Hp (Hwm m eq_refl) Ht) as [(ci' & Hu & Hh)|[_ Hu]];
      rewrite Hu in He; cbn [gbind] in He; injection He as -> _; cbn in *; [|discriminate].
    injection Hci as ->. exact Hh.
Qed.

(** C30: the subnet cache never leaks an answer to a foreign subnet.  An item
    returned by [getWithSubnet] for the client subnet [n] is made from a message
    stored earlier for the same question and for a subnet that contains [n]. *)
Theorem getWithSubnet_provenance conf h c now req q n ip p lk c' ci :
  reachable conf h c -> Forall wf_op h -> wf_req req q -> wf_net n ->
  cacheSubnet (Some n) = Some (ip, p) ->
  getWithSubnet c now (Some req) (Some n) = Ret (lk, c') -> lk_item lk = Some ci ->
  exists t req' q' m u n' ip' p',
    In (OpSetSubnet t req' (Some m) u (Some n')) h /\ wf_req req' q'
    /\ same_question req q req' q'
    /\ cacheSubnet (Some n') = Some (ip', p') /\ within (net_addr n) p (net_addr n') p'
    /\ hit_of c now req t m u ci (lk_expired lk).
Proof.
  intros Hr Hw Hq Hn Hc Hg Hci. pose proof (reachable_inv _ _ _ Hr Hw) as Hinv.
  destruct (itemsWithSubnet c) as [g|] eqn:Hitems.
  2: { unfold getWithSubnet, canLookUpInCache in Hg. rewrite Hitems in Hg. injection Hg as <- _. discriminate. }
  pose proof (getWithSubnet_eq c now req q n ip p g (wf_question _ _ Hq) Hn Hitems Hc) as He.
  pose proof (longest_match_spec (glc_find g) (net_key req q n) (Z.to_nat p)) as Hm.
  destruct (longest_match _ _ _) as [r [v|]]; destruct Hm as (Hrp & Hf & _); destruct He as (g' & _ & He);
    cbn zeta in He; rewrite Hg in He; [|injection He as -> _; discriminate].
  destruct (inv_subnet _ _ _ Hinv (net_key req q n r) v)
    as (t & req' & q' & m & u & n' & ip' & p' & Hin & Hq' & Hc' & Hk & Hp); [rewrite Hitems; exact Hf|].
  destruct (wf_op_In _ _ Hw Hin) as [(_ & Hwm & Ht) Hwn].
  destruct (cacheSubnet_spec n ip p Hn Hc) as (_ & Hl & Hp1 & _).
  destruct (cacheSubnet_spec n' ip' p' (Hwn n' eq_refl) Hc') as (_ & Hl' & Hp2 & _).
  destruct (subnet_key_inj _ _ _ _ (Z.of_nat r) _ _ _ (key_hdr_length _ _) (key_hdr_length _ _) Hl Hl'
    ltac:(lia) Hp2 (wf_req_lower _ _ Hq) (wf_req_lower _ _ Hq') Hk) as (Hh & Hpe & Hnm & Hin').
  exists t, req', q', m, u, n', ip', p'. split; [exact Hin|]. split; [exact Hq'|]. split; [|split; [exact Hc'|split]].
  - destruct (key_hdr_inj _ _ _ _ Hq Hq' Hh) as (? & ? & ?).
    repeat split; auto. apply bool_decide_eq_true_2, Hnm.
  - split; [lia|]. rewrite <- Hpe. destruct Hin' as [->|[? ?]]; auto.
  - destruct (unpack_stored c now req t m u v Hp (Hwm m eq_refl) Ht) as [(ci' & Hu & Hh')|[_ Hu]];
      rewrite Hu in He; cbn [gbind] in He; injection He as -> _; cbn in *; [|discriminate].
    injection Hci as ->. exact Hh'.
Qed.

(** the search by subnet finds the most specific entry.  Clearing one bit
    of the key per step, [getWithSubnet] stops at the greatest prefix length
    [r] not above that of the client's subnet for which the entry of the client
    address masked to [r] bits is present, exactly the key under which
    [setWithSubnet] stores that subnet; the returned item is that entry. *)
Theorem getWithSubnet_longest_prefix c now req q n ip p lk c' :
  Question req = [q] -> wf_net n -> cacheSubnet (Some n) = Some (ip, p) ->
  is_Some (itemsWithSubnet c) ->
  getWithSubnet c now (Some req) (Some n) = Ret (lk, c') ->
  let key i := msgToKeyWithSubnet req (Some (mask_bytes (net_addr n) i)) i in
  exists r k, 0 <= r <= p /\ key r = Ret k /\ lk_key lk = Some k
    /\ (forall i k', r < i <= p -> key i = Ret k' -> find_in (itemsWithSubnet c) k' = None)
    /\ match find_in (itemsWithSubnet c) k with
       | None => r = 0 /\ lk_item lk = None
       | Some v => unpackItem c now v req = Ret (lk_item lk, lk_expired lk)
       end.
Proof.
  intros Hq Hn Hc [g Hitems] Hg key.
  assert (Hkey : forall i, 0 <= i -> key i = Ret (net_key req q n (Z.to_nat i))).
  { intros i Hi. unfold key. rewrite (msgToKeyWithSubnet_eq req q []) by exact Hq.
    unfold net_key, subnet_key. rewrite Z2Nat.id by lia. reflexivity. }
  pose proof (getWithSubnet_eq c now req q n ip p g Hq Hn Hitems Hc) as He.
  pose proof (longest_match_spec (glc_find g) (net_key req q n) (Z.to_nat p)) as Hm.
  destruct (cacheSubnet_spec n ip p Hn Hc) as (_ & _ & Hp & _).
  destruct (longest_match _ _ _) as [r d]. destruct Hm as (Hrp & Hf & Hno & Hz).
  destruct He as (g' & _ & He). cbn zeta in He. rewrite Hg in He. rewrite Hitems. cbn [find_in].
  exists (Z.of_nat r), (net_key req q n r). rewrite Hkey, Nat2Z.id by lia.
  split; [lia|]. split; [reflexivity|].
  assert (Hlk : lk_key lk = Some (net_key req q n r) /\ match d with
     | None => lk_item lk = None
     | Some v => unpackItem c now v req = Ret (lk_item lk, lk_expired lk) end).
  { destruct d as [v|].
    - destruct (unpackItem c now v req) as [[ci e]|]; [|discriminate].
      cbn [gbind] in He. injection He as -> _. auto.
    - injection He as -> _. auto. }
  destruct Hlk as [Hk Hi]. split; [exact Hk|]. split.
  - intros i k' Hi'. rewrite Hkey by lia. intros [= <-]. apply Hno. lia.
  - rewrite Hf. destruct d; [exact Hi|]. rewrite Hz by reflexivity. auto.
Qed.

(** Lookups in a reachable cache return. *)
Lemma lookups_total conf h c now req n :
  reachable conf h c -> Forall wf_op h ->
  (forall n', n = Some n' -> wf_net n') ->
  (exists r, get c now req = Ret r) /\ (exists r, getWithSubnet c now req n = Ret r).
Proof.
  intros Hr Hw Hn. pose proof (reachable_inv _ _ _ Hr Hw) as Hinv.
  destruct req as [req|]; [|split; eexists; reflexivity].
  destruct (length (Question req) =? 1)%nat eqn:El.
  2: { unfold get, getWithSubnet, canLookUpInCache. rewrite El.
       split; [destruct (items c)|destruct (itemsWithSubnet c)]; eexists; reflexivity. }
  destruct (Question req) as [|q [|]] eqn:Hq'; try discriminate El. split.
  - destruct (inv_some _ _ _ Hinv) as [g Hitems].
    destruct (get_eq c now req q g Hq' Hitems) as (g' & _ & ->). cbn zeta.
    destruct (glc_find g _) as [v|] eqn:Ev; [|eauto].
    destruct (inv_items _ _ _ Hinv (key_hdr req q ++ ToLower (QName q)) v)
      as (t & req' & q' & m & u & Hin & _ & _ & Hp); [rewrite Hitems; exact Ev|].
    destruct (wf_op_In _ _ Hw Hin) as (_ & Hwm & Ht).
    destruct (unpack_stored c now req t m u v Hp (Hwm m eq_refl) Ht) as [(ci & -> & _)|[_ ->]];
      cbn; eauto.
  - unfold getWithSubnet. case_goal; [eauto|]. destruct (itemsWithSubnet c) as [g|] eqn:Hitems; [|discriminate].
    destruct n as [n|]; [|cbn; eauto].
    destruct (cacheSubnet (Some n)) as [[ip p]|] eqn:Hc; [|eauto].
    pose proof (getWithSubnet_eq c now req q n ip p g Hq' (Hn n eq_refl) Hitems Hc) as He.
    pose proof (longest_match_spec (glc_find g) (net_key req q n) (Z.to_nat p)) as Hm.
    unfold getWithSubnet in He. rewrite Hitems, Heqb, Hc in He.
    destruct (longest_match _ _ _) as [r [v|]]; destruct Hm as (_ & Hf & _); destruct He as (g' & _ & ->);
      [|eauto].
    destruct (inv_subnet _ _ _ Hinv (net_key req q n r) v)
      as (t & req' & q' & m & u & n' & ip' & p' & Hin & _ & _ & _ & Hp); [rewrite Hitems; exact Hf|].
    destruct (wf_op_In _ _ Hw Hin) as [(_ & Hwm & Ht) _].
    destruct (unpack_stored c now req t m u v Hp (Hwm m eq_refl) Ht) as [(ci & -> & _)|[_ ->]];
      cbn; eauto.
Qed.

(** lookups in a reachable cache never panic, whatever the request is and
    for every subnet made of bytes. *)
Theorem lookups_never_panic conf h c now req n :
  reachable conf h c -> Forall wf_op h ->
  (forall n', n = Some n' -> wf_net n') ->
  (exists r, get c now req = Ret r) /\ (exists r, getWithSubnet c now req n = Ret r).
Proof. exact (lookups_total conf h c now req n). Qed.

(** what is stored is found again until it expires.  After [set], a lookup
    of the same question returns the stored message while it is usable, that is
    until its expiry or, in an optimistic cache, until the maximum age after
    it; afterwards the lookup misses and removes the entry. *)
Theorem set_get c t req q m u g c1 now req' q' :
  items c = Some g -> (forall k v, glc_find (glc_Set g k v) k = Some v) ->
  wf_store t req (Some m) -> wf_req req q -> cacheTTL (Some m) <> 0 ->
  packable m ->
  set c t req (Some m) u = Ret c1 -> wf_req req' q' -> same_question req q req' q' ->
  if usable c (expiry t m) now
  then exists ci c2, get c1 now (Some req')
         = Ret (mkLookup (Some ci) (After now (expiry t m)) (Some (key_hdr req' q' ++ ToLower (QName q'))), c2)
         /\ hit_of c now req' t m u ci (After now (expiry t m))
  else exists c2, get c1 now (Some req')
         = Ret (mkLookup None true (Some (key_hdr req' q' ++ ToLower (QName q'))), c2)
         /\ find_in (items c2) (key_hdr req' q' ++ ToLower (QName q')) = None.
Proof.
  intros Hg Hkeep (_ & Hw & Ht) Hq Hc Hb Hs Hq' (Hd & Hty & Hcl & Hnm).
  apply bool_decide_eq_true_1 in Hnm. unfold set in Hs.
  rewrite respToItem_eq, (msgToKey_eq req q []) in Hs by (exact Hc || apply Hq). cbn [gbind] in Hs.
  destruct (pack_exists t m u Hb) as [v Ep]. rewrite Ep in Hs.
  set (key := key_hdr req' q' ++ ToLower (QName q')).
  assert (Hk : key_hdr req q ++ ToLower (QName q) = key).
  { unfold key, key_hdr. rewrite Hd, Hty, Hcl, Hnm. reflexivity. }
  rewrite Hg, Hk in Hs. cbn [items_Set gbind] in Hs.
  assert (c1 = set_items (Some (glc_Set g key v)) c) as Hc1 by congruence. clear Hs.
  destruct (get_eq c1 now req' q' (glc_Set g key v) (wf_question _ _ Hq')
    ltac:(rewrite Hc1; reflexivity)) as (g' & _ & ->).
  fold key. rewrite Hkeep.
  assert (usable c (expiry t m) now = usable c1 (expiry t m) now) as -> by (rewrite Hc1; reflexivity).
  destruct (unpack_stored c1 now req' t m u v (conj Hc Ep) (Hw m eq_refl) Ht)
    as [(ci & Hu & Hh)|[Hus' Hu]].
  - rewrite (hit_usable _ _ _ _ _ _ _ _ Hh), Hu. eexists _, _. split; [reflexivity|].
    rewrite Hc1 in Hh. destruct Hh. split; auto.
  - rewrite Hus', Hu. eexists. split; [reflexivity|]. cbn. apply find_Del_eq.
Qed.

(** a response stored for a subnet is served to every client inside it.
    After [setWithSubnet] for a subnet [n'], a lookup of the same question from
    a subnet [n] within [n'] returns the stored message, if no entry for a
    longer prefix of [n] is stored and the message is still usable. *)
Theorem setWithSubnet_serves c t req q m u n' ip' p' g c1 now req' q' n ip p :
  itemsWithSubnet c = Some g -> (forall k v, glc_find (glc_Set g k v) k = Some v) ->
  wf_store t req (Some m) -> wf_req req q -> cacheTTL (Some m) <> 0 ->
  packable m ->
  wf_net n' -> cacheSubnet (Some n') = Some (ip', p') ->
  setWithSubnet c t req (Some m) u (Some n') = Ret c1 ->
  wf_req req' q' -> same_question req q req' q' ->
  wf_net n -> cacheSubnet (Some n) = Some (ip, p) -> within (net_addr n) p (net_addr n') p' ->
  (forall i, p' < Z.of_nat i <= p -> find_in (itemsWithSubnet c1) (net_key req' q' n i) = None) ->
  usable c (expiry t m) now = true ->
  exists ci c2 k, getWithSubnet c1 now (Some req') (Some n)
      = Ret (mkLookup (Some ci) (After now (expiry t m)) (Some k), c2)
    /\ hit_of c now req' t m u ci (After now (expiry t m)).
Proof.
  intros Hg Hkeep (_ & Hw & Ht) Hq Hc Hb Hn' Hc' Hs Hq' (Hd & Hty & Hcl & Hnm)
    Hn Hcn [Hpp Hin] Hno Hus.
  apply bool_decide_eq_true_1 in Hnm. unfold setWithSubnet in Hs.
  destruct (cacheSubnet_spec n' ip' p' Hn' Hc') as (_ & _ & Hp' & Hsl).
  rewrite respToItem_eq, Hc', (msgToKeyWithSubnet_eq req q []) in Hs by (exact Hc || apply Hq).
  cbn [gbind] in Hs. destruct (pack_exists t m u Hb) as [v Ep]. rewrite Ep in Hs.
  assert (Hk : key_hdr req q ++ [p'] ++ (if p' =? 0 then [] else slice ip') ++ ToLower (QName q)
               = net_key req' q' n (Z.to_nat p')).
  { unfold net_key, subnet_key, key_hdr. rewrite Hd, Hty, Hcl, Hnm, Hsl, Z2Nat.id by lia.
    destruct (Z.eqb_spec p' 0); [reflexivity|]. destruct Hin as [|[_ ->]]; [lia|reflexivity]. }
  rewrite Hg, Hk in Hs. cbn [items_Set gbind] in Hs. set (key' := net_key req' q' n (Z.to_nat p')) in *.
  assert (c1 = set_itemsWithSubnet (Some (glc_Set g key' v)) c) as -> by congruence. clear Hs Hk.
  set (c1 := set_itemsWithSubnet _ c) in *.
  pose proof (getWithSubnet_eq c1 now req' q' n ip p _ (wf_question _ _ Hq') Hn eq_refl Hcn) as He.
  pose proof (longest_match_spec (glc_find (glc_Set g key' v)) (net_key req' q' n) (Z.to_nat p)) as Hm.
  destruct (longest_match _ _ _) as [r d]. destruct Hm as (Hrp & Hf & Hgt & Hz).
  assert (Z.of_nat r = p') as Hr.
  { destruct (Z.lt_trichotomy (Z.of_nat r) p') as [Hlt|[Heq|Hlt]]; [|exact Heq|].
    - pose proof (Hkeep key' v) as Hk. unfold key' at 2 in Hk. rewrite Hgt in Hk by lia. discriminate.
    - pose proof (Hno r ltac:(lia)) as Hr.
      change (glc_find (glc_Set g key' v) (net_key req' q' n r) = None) in Hr.
      rewrite Hf in Hr. rewrite (Hz Hr) in Hlt. lia. }
  replace r with (Z.to_nat p') in * by lia. fold key' in Hf. rewrite Hkeep in Hf. subst d.
  destruct He as (g' & _ & ->).
  destruct (unpack_stored c1 now req' t m u v (conj Hc Ep) (Hw m eq_refl) Ht)
    as [(ci & Hu & Hh)|[Hus' _]]; [|unfold usable in *; cbn in *; congruence].
  rewrite Hu. eexists _, _, _. split; [reflexivity|]. destruct Hh. split; auto.
Qed.


(** clients get only the DNSSEC records they asked for.  A message served
    from the cache has no OPT record, and without the DO bit no DNSSEC record
    except answers of the type asked for; the AD bit is set only if the stored
    message has it and the request asks for it with AD or DO. *)
Theorem served_filtered c now req t m u ci expired q :
  hit_of c now req t m u ci expired -> Question m = [q] ->
  Forall (fun r => rrtype r <> TypeOPT) (msg_rrs (ci_m ci))
  /\ (msg_do req = false ->
      Forall (fun r => isDNSSEC r = true -> rrtype r = Qtype q) (Answer (ci_m ci))
      /\ Forall (fun r => isDNSSEC r = false) (Ns (ci_m ci) ++ Extra (ci_m ci)))
  /\ (AuthenticatedData (Hdr (ci_m ci)) = true ->
      AuthenticatedData (Hdr m) = true /\ (AuthenticatedData (Hdr req) = true \/ msg_do req = true)).
Proof.
  intros [_ _ _ (q' & Hq' & Hs)] Hq. rewrite Hq in Hq'. injection Hq' as <-.
  pose proof (filtered_section _ _ _ _ _ (sv_answer _ _ _ _ _ Hs)) as Ha.
  pose proof (filtered_section _ _ _ _ _ (sv_ns _ _ _ _ _ Hs)) as Hns.
  pose proof (filtered_section _ _ _ _ _ (sv_extra _ _ _ _ _ Hs)) as Hx.
  split; [|split].
  - unfold msg_rrs. rewrite !Forall_app. split; [|split]; eapply filtered_no_opt; eassumption.
  - intros Hd. rewrite Hd in *. rewrite Forall_app. auto using filtered_asked, filtered_no_dnssec.
  - rewrite (sv_ad _ _ _ _ _ Hs). intros Had. to_prop. split; [auto|]. apply orb_true_iff; auto.
Qed.

(** A negative answer that says where it comes from: an SOA record and no NS
    record in the authority section (RFC 2308, section 5). *)
Definition negative (m : Msg) : Prop :=
  (exists r, In r (Ns m) /\ rrtype r = TypeSOA) /\ (forall r, In r (Ns m) -> rrtype r <> TypeNS).

Lemma isCacheableNegative_spec m : isCacheableNegative m = true <-> negative m.
Proof.
  unfold isCacheableNegative, negative. rewrite negative_loop_spec. cbn [orb].
  rewrite andb_true_iff, negb_true_iff, existsb_exists, <- not_true_iff_false, existsb_exists.
  setoid_rewrite Z.eqb_eq. split; [intros [Hn Hs]|intros [Hs Hn]]; (split; [|firstorder]).
  - firstorder.
  - intros (r & Hr & Ht). exact (Hn r Hr Ht).
Qed.

Lemma hasIPAns_spec m :
  hasIPAns m = true <-> exists r, In r (Answer m) /\ (rrtype r = TypeA \/ rrtype r = TypeAAAA).
Proof.
  unfold hasIPAns. rewrite existsb_exists. setoid_rewrite orb_true_iff.
  setoid_rewrite Z.eqb_eq. reflexivity.
Qed.

(** which responses are cached, and for how long.  A response is cached
    exactly if it is not truncated, has one question and a positive least TTL,
    and is a SERVFAIL, a negative answer with an SOA, or a success that has an
    address when one was asked for (a response without TTLs is cached only as a
    SERVFAIL); the lifetime is the least TTL, at most 30 seconds for SERVFAIL. *)
Theorem cacheTTL_spec m :
  wf_ttls m ->
  let t := min_ttl (msg_rrs m) in
  (cacheTTL (Some m) <> 0 <->
     Truncated (Hdr m) = false /\ 0 < t /\ exists q, Question m = [q]
     /\ (Rcode (Hdr m) = RcodeServerFailure
         \/ (t < MaxUint32 /\ Rcode (Hdr m) = RcodeNameError /\ negative m)
         \/ (t < MaxUint32 /\ Rcode (Hdr m) = RcodeSuccess
             /\ ((Qtype q <> TypeA /\ Qtype q <> TypeAAAA)
                 \/ (exists r, In r (Answer m) /\ (rrtype r = TypeA \/ rrtype r = TypeAAAA))
                 \/ negative m))))
  /\ (cacheTTL (Some m) <> 0 ->
      cacheTTL (Some m) = if Rcode (Hdr m) =? RcodeServerFailure then Z.min t 30 else t).
Proof.
  intros Hw t. pose proof (min_ttl_range m Hw) as Hr. fold t in Hr.
  pose proof (calculateTTL_min m Hw) as Hc. cbn zeta in Hc. fold t in Hc.
  unfold ServFailMaxCacheTTL, MaxUint32 in *.
  unfold cacheTTL.
  destruct (Truncated (Hdr m)); [split; [split; [congruence|intros [? _]; congruence]|congruence]|].
  assert (Hnq : forall P, (forall q, Question m <> [q]) ->
    (0 <> 0 <-> false = false /\ 0 < t /\ exists q, Question m = [q] /\ P q)).
  { intros P Hn. split; [congruence|]. intros (_ & _ & q & Hq & _). destruct (Hn q Hq). }
  destruct (Question m) as [|q [|q2 l]]; [split; [apply Hnq; congruence|congruence]| |
    split; [apply Hnq; congruence|congruence]]. clear Hnq.
  assert (Hex : forall P : Question_t -> Prop, (exists q', [q] = [q'] /\ P q') <-> P q).
  { intros P. split; [intros (q' & [= <-] & HP); exact HP|eauto]. }
  rewrite Hex, Hc, <- isCacheableNegative_spec, <- hasIPAns_spec. clear Hex Hc. unfold isCacheableSucceded.
  destruct (Z.eqb_spec (Rcode (Hdr m)) RcodeServerFailure) as [E|E].
  - rewrite E. cbn. destruct (Z.eqb_spec (Z.min t 30) 0); split; try lia; split; try lia;
      intros (_ & ? & _); lia.
  - destruct (Z.eqb_spec t 4294967295) as [Em|Em].
    { cbn. split; [split; [congruence|]|congruence]. intros (_ & _ & [|[[? _]|[? _]]]); [congruence|lia|lia]. }
    destruct (Z.eqb_spec t 0) as [E0|E0]; [split; [split; [lia|intros (_ & ? & _); lia]|congruence]|].
    destruct (Z.eqb_spec (Rcode (Hdr m)) RcodeSuccess) as [Es|Es];
      [|destruct (Z.eqb_spec (Rcode (Hdr m)) RcodeNameError) as [En|En]].
    + destruct (Z.eqb_spec (Qtype q) TypeA), (Z.eqb_spec (Qtype q) TypeAAAA),
        (hasIPAns m), (isCacheableNegative m); cbn; split; try lia; split; try lia; try (intros _);
        try (split; [reflexivity|split; [lia|]]; tauto || (right; right; split; [lia|]; tauto));
        intros (_ & _ & [|[(_ & Hx & _)|(_ & _ & [[]|[]]) ]]); congruence.
    + destruct (isCacheableNegative m); split; try lia; split; try lia.
    + split; [|congruence]. split; [congruence|].
      intros (_ & _ & [|[(_ & ? & _)|(_ & ? & _)]]); congruence.
Qed.

End Theorems.

(** ** Concrete runs *)

Module CacheExamples.

Definition q : Question_t := mkQ (str "Example.org.") TypeA ClassINET.
Definition req : Msg := set_Question [q] empty_msg.
Definition rr_a : RR := mkRR (mkHdr (str "example.org.") TypeA ClassINET 300) (RD_A (Some [192; 0; 2; 1])).
Definition resp : Msg := set_Answer [rr_a] req.
Definition conf : cacheConfig := mkCacheConfig 0 (10 * Second) (60 * Second) true true.
Definition ups : Upstream := mkUpstream 0 (str "8.8.8.8:53").
Definition net24 : IPNet := mkIPNet (Some [198; 51; 100; 7]) (Some [255; 255; 255; 0]).
Definition net16 : IPNet := mkIPNet (Some [198; 51; 0; 0]) (Some [255; 255; 0; 0]).
Definition t0 : Time := 1000 * Second.
Definition t1 : Time := 1100 * Second.

Definition from_go (d : cache) (g : go cache) : cache := match g with Ret c => c | Panic => d end.
Definition op1 : cache_op := OpSet t0 req (Some resp) (Some ups).
Definition op2 : cache_op := OpSetSubnet t0 req (Some resp) (Some ups) (Some net16).
Definition c1 : cache := from_go (newCache conf) (apply_op (newCache conf) op1).
Definition c2 : cache := from_go c1 (apply_op c1 op2).

Lemma wf_q : wf_req req q.
Proof.
  split; [reflexivity| | |].
  - vm_compute; split; discriminate.
  - vm_compute; split; discriminate.
  - repeat constructor.
Qed.

Lemma wf_resp : wf_store t0 req (Some resp).
Proof.
  split; [exists q; apply wf_q|]. split; [|vm_compute; split; congruence].
  intros m [= <-]. repeat constructor; discriminate.
Qed.

Lemma wf_net24 : wf_net net24.
Proof. split; repeat constructor; discriminate. Qed.

Lemma wf_net16 : wf_net net16.
Proof. split; repeat constructor; discriminate. Qed.

Lemma reach2 : reachable conf [op2; op1] c2.
Proof.
  apply reachable_step with c1; [apply reachable_step with (newCache conf)|].
  - apply reachable_new.
  - vm_compute. reflexivity.
  - vm_compute. reflexivity.
Qed.

Lemma wf2 : Forall wf_op [op2; op1].
Proof.
  constructor; [|constructor; [|constructor]]; [split|].
  - apply wf_resp.
  - intros n' [= <-]. apply wf_net16.
  - apply wf_resp.
Qed.

Definition get_item (g : go (lookup_res * cache)) : lookup_res * cache :=
  match g with Ret r => r | Panic => (mkLookup None false None, c2) end.
Definition default_item (o : option cacheItem) : cacheItem := default (mkItem empty_msg [] 0) o.

Definition r_get := get_item (get c2 t1 (Some req)).
Definition r_sub := get_item (getWithSubnet c2 t1 (Some req) (Some net24)).

Lemma get_hit : get c2 t1 (Some req) = Ret (fst r_get, snd r_get)
  /\ lk_item (fst r_get) = Some (default_item (lk_item (fst r_get))).
Proof. vm_compute. split; reflexivity. Qed.

Lemma sub_hit : getWithSubnet c2 t1 (Some req) (Some net24) = Ret (fst r_sub, snd r_sub)
  /\ lk_item (fst r_sub) = Some (default_item (lk_item (fst r_sub))).
Proof. vm_compute. split; reflexivity. Qed.

Lemma packable_resp : packable resp.
Proof. eexists. split; [vm_compute; reflexivity|vm_compute; discriminate]. Qed.

Lemma keeps g k v : glc_find (glc_Set g k v) k = Some v.
Proof. cbn. rewrite bool_decide_true; reflexivity. Qed.

Lemma same_q : same_question req q req q.
Proof. repeat split; reflexivity. Qed.

Lemma within_nets : within (net_addr net24) 24 (net_addr net16) 16.
Proof. split; [lia|]. right. vm_compute. auto. Qed.

Lemma no_longer i :
  16 < Z.of_nat i <= 24 -> find_in (itemsWithSubnet c2) (net_key req q net24 i) = None.
Proof.
  intros Hi. assert (In i (seq 17 8)) as Hin by (apply in_seq; lia).
  assert (Hall : forallb (fun i => bool_decide (find_in (itemsWithSubnet c2) (net_key req q net24 i) = None))
    (seq 17 8) = true) by (vm_compute; reflexivity).
  rewrite forallb_forall in Hall. exact (bool_decide_eq_true_1 _ (Hall i Hin)).
Qed.

End CacheExamples.

Lemma get_provenance_witness :
  exists t req' q' m u, In (OpSet t req' (Some m) u) [CacheExamples.op2; CacheExamples.op1]
    /\ wf_req req' q' /\ same_question CacheExamples.req CacheExamples.q req' q'
    /\ hit_of CacheExamples.c2 CacheExamples.t1 CacheExamples.req t m u
         (CacheExamples.default_item (lk_item (fst CacheExamples.r_get)))
         (lk_expired (fst CacheExamples.r_get)).
Proof.
  apply (get_provenance CacheExamples.conf _ _ _ _ _ (fst CacheExamples.r_get)
    (snd CacheExamples.r_get)); [apply CacheExamples.reach2|apply CacheExamples.wf2
    |apply CacheExamples.wf_q|apply CacheExamples.get_hit|apply CacheExamples.get_hit].
Defined.

Lemma getWithSubnet_provenance_witness :
  exists t req' q' m u n' ip' p',
    In (OpSetSubnet t req' (Some m) u (Some n')) [CacheExamples.op2; CacheExamples.op1]
    /\ wf_req req' q' /\ same_question CacheExamples.req CacheExamples.q req' q'
    /\ cacheSubnet (Some n') = Some (ip', p')
    /\ within (net_addr CacheExamples.net24) 24 (net_addr n') p'
    /\ hit_of CacheExamples.c2 CacheExamples.t1 CacheExamples.req t m u
         (CacheExamples.default_item (lk_item (fst CacheExamples.r_sub)))
         (lk_expired (fst CacheExamples.r_sub)).
Proof.
  apply (getWithSubnet_provenance CacheExamples.conf _ _ _ _ _ _ (Some [198; 51; 100; 0]) 24
    (fst CacheExamples.r_sub) (snd CacheExamples.r_sub));
    [apply CacheExamples.reach2|apply CacheExamples.wf2|apply CacheExamples.wf_q
    |apply CacheExamples.wf_net24|vm_compute; reflexivity
    |apply CacheExamples.sub_hit|apply CacheExamples.sub_hit].
Defined.

Lemma getWithSubnet_longest_prefix_witness :
  exists r k, 0 <= r <= 24
    /\ msgToKeyWithSubnet CacheExamples.req
         (Some (mask_bytes (net_addr CacheExamples.net24) r)) r = Ret k
    /\ lk_key (fst CacheExamples.r_sub) = Some k
    /\ (forall i k', r < i <= 24 ->
          msgToKeyWithSubnet CacheExamples.req
            (Some (mask_bytes (net_addr CacheExamples.net24) i)) i = Ret k' ->
          find_in (itemsWithSubnet CacheExamples.c2) k' = None)
    /\ match find_in (itemsWithSubnet CacheExamples.c2) k with
       | None => r = 0 /\ lk_item (fst CacheExamples.r_sub) = None
       | Some v => unpackItem CacheExamples.c2 CacheExamples.t1 v CacheExamples.req
                   = Ret (lk_item (fst CacheExamples.r_sub), lk_expired (fst CacheExamples.r_sub))
       end.
Proof.
  pose proof (getWithSubnet_longest_prefix CacheExamples.c2 CacheExamples.t1 CacheExamples.req
    CacheExamples.q CacheExamples.net24 (Some [198; 51; 100; 0]) 24 (fst CacheExamples.r_sub)
    (snd CacheExamples.r_sub) eq_refl CacheExamples.wf_net24 ltac:(vm_compute; reflexivity)
    ltac:(vm_compute; eexists; reflexivity) (proj1 CacheExamples.sub_hit)) as Hl.
  cbv zeta in Hl. exact Hl.
Defined.

Lemma lookups_never_panic_witness :
  (exists r, get CacheExamples.c2 CacheExamples.t1 (Some CacheExamples.resp) = Ret r)
  /\ (exists r, getWithSubnet CacheExamples.c2 CacheExamples.t1 (Some CacheExamples.resp)
        (Some CacheExamples.net24) = Ret r).
Proof.
  apply (lookups_never_panic CacheExamples.conf [CacheExamples.op2; CacheExamples.op1]);
    [apply CacheExamples.reach2|apply CacheExamples.wf2|].
  intros n' [= <-]. apply CacheExamples.wf_net24.
Defined.

Lemma set_get_witness :
  exists ci c2, get CacheExamples.c1 CacheExamples.t1 (Some CacheExamples.req)
      = Ret (mkLookup (Some ci) (After CacheExamples.t1 (expiry CacheExamples.t0 CacheExamples.resp)) (Some (key_hdr CacheExamples.req CacheExamples.q
          ++ ToLower (QName CacheExamples.q))), c2)
    /\ hit_of (newCache CacheExamples.conf) CacheExamples.t1 CacheExamples.req CacheExamples.t0
         CacheExamples.resp (Some CacheExamples.ups) ci
         (After CacheExamples.t1 (expiry CacheExamples.t0 CacheExamples.resp)).
Proof.
  assert (usable (newCache CacheExamples.conf) (expiry CacheExamples.t0 CacheExamples.resp)
    CacheExamples.t1 = true) as Hus by (vm_compute; reflexivity).
  pose proof (set_get (newCache CacheExamples.conf) CacheExamples.t0 CacheExamples.req CacheExamples.q
    CacheExamples.resp (Some CacheExamples.ups) [] CacheExamples.c1 CacheExamples.t1
    CacheExamples.req CacheExamples.q eq_refl (CacheExamples.keeps [])
    CacheExamples.wf_resp CacheExamples.wf_q ltac:(vm_compute; discriminate)
    CacheExamples.packable_resp ltac:(vm_compute; reflexivity) CacheExamples.wf_q
    CacheExamples.same_q) as Hget.
  rewrite Hus in Hget. exact Hget.
Defined.

Lemma setWithSubnet_serves_witness :
  exists ci c3 k, getWithSubnet CacheExamples.c2 CacheExamples.t1 (Some CacheExamples.req)
        (Some CacheExamples.net24) = Ret (mkLookup (Some ci) (After CacheExamples.t1 (expiry CacheExamples.t0 CacheExamples.resp)) (Some k), c3)
    /\ hit_of CacheExamples.c1 CacheExamples.t1 CacheExamples.req CacheExamples.t0
         CacheExamples.resp (Some CacheExamples.ups) ci
         (After CacheExamples.t1 (expiry CacheExamples.t0 CacheExamples.resp)).
Proof.
  pose proof (setWithSubnet_serves CacheExamples.c1 CacheExamples.t0 CacheExamples.req CacheExamples.q
    CacheExamples.resp (Some CacheExamples.ups) CacheExamples.net16 (Some [198; 51; 0; 0]) 16 []
    CacheExamples.c2 CacheExamples.t1 CacheExamples.req CacheExamples.q CacheExamples.net24
    (Some [198; 51; 100; 0]) 24 ltac:(vm_compute; reflexivity) (CacheExamples.keeps [])
    CacheExamples.wf_resp CacheExamples.wf_q ltac:(vm_compute; discriminate)
    CacheExamples.packable_resp CacheExamples.wf_net16 ltac:(vm_compute; reflexivity)
    ltac:(vm_compute; reflexivity) CacheExamples.wf_q CacheExamples.same_q
    CacheExamples.wf_net24 ltac:(vm_compute; reflexivity) CacheExamples.within_nets
    CacheExamples.no_longer ltac:(vm_compute; reflexivity)) as Hs.
  exact Hs.
Defined.


Lemma served_filtered_witness :
  Forall (fun r => rrtype r <> TypeOPT)
    (msg_rrs (ci_m (CacheExamples.default_item (lk_item (fst CacheExamples.r_get))))).
Proof.
  apply (served_filtered CacheExamples.c2 CacheExamples.t1 CacheExamples.req CacheExamples.t0
    CacheExamples.resp (Some CacheExamples.ups) _ false CacheExamples.q); [|reflexivity].
  split; try (vm_compute; reflexivity). exists CacheExamples.q. split; [reflexivity|].
  split; try (vm_compute; reflexivity); vm_compute; repeat constructor.
Defined.

Lemma cacheTTL_spec_witness :
  cacheTTL (Some CacheExamples.resp) <> 0
  /\ cacheTTL (Some CacheExamples.resp) = min_ttl (msg_rrs CacheExamples.resp).
Proof.
  split; [vm_compute; discriminate|].
  apply (cacheTTL_spec CacheExamples.resp); [repeat constructor; discriminate|].
  vm_compute; discriminate.
Defined.
