(* ===== verification/Ecs.v ===== *)
(** * EDNS Client Subnet (proxy/helpers.go)

    Reading the subnet option of a message and adding one.  The theorem at the
    end shows that what [setECS] adds is what [ecsFromMsg] reads, and that the
    subnet holds no more than 24 bits of an IPv4 and 56 bits of an IPv6
    address. *)

From S2P Require Import Prelude NetIP DnsMsg RefDns.

Section Ecs.
Context {DL : DnsLib}.

(** The options of an OPT record. *)
Definition opt_options (r : RR) : list EDNS0 :=
  match Data r with RD_OPT o => o | _ => [] end.

(** [opt.Option = append(opt.Option, e)] *)
Definition add_option (e : EDNS0) (r : RR) : RR := set_Data (RD_OPT (opt_options r ++ [e])) r.

Fixpoint ecs_loop (os : list EDNS0) : option (IPNet * Z) :=
  match os with
  | [] => None
  | EDNS0_SUBNET _ Family SourceNetmask SourceScope Address :: os' =>
      if Family =? 1 then
        Some (mkIPNet (To4 Address) (CIDRMask SourceNetmask IPv4BitLen), SourceScope)
      else if Family =? 2 then
        Some (mkIPNet Address (CIDRMask SourceNetmask IPv6BitLen), SourceScope)
      else ecs_loop os'
  | EDNS0_Other _ _ :: os' => ecs_loop os'
  end.

(** The subnet and its scope, or [None] for [nil, 0]. *)
Definition ecsFromMsg (m : Msg) : option (IPNet * Z) :=
  match opt_of m with
  | None => None
  | Some opt => ecs_loop (opt_options opt)
  end.

Definition defaultECSv4 : Z := 24.
Definition defaultECSv6 : Z := 56.

(** Adds the option to the OPT record or, without one, in a new record. *)
Definition insert_option (e : EDNS0) (m : Msg) : Msg :=
  match IsEdns0 m with
  | Some _ => upd_opt (add_option e) m
  | None =>
      let o := mkRR (mkHdr (str ".") TypeOPT 0 0) (RD_OPT [e]) in
      set_Extra (Extra m ++ [SetUDPSize o 4096]) m
  end.

(** The subnet, and the message with the option. *)
Definition setECS (m : Msg) (ip : IP) (scope : Z) : IPNet * Msg :=
  let '(family, netmask, mask, ip) :=
    match To4 ip with
    | Some ip4 => (1, defaultECSv4, CIDRMask defaultECSv4 IPv4BitLen, Some ip4)
    | None => (2, defaultECSv6, CIDRMask defaultECSv6 IPv6BitLen, ip)
    end in
  let subnet := mkIPNet (IP_Mask ip mask) mask in
  let e := EDNS0_SUBNET EDNS0SUBNET family netmask scope (IPNet_IP subnet) in
  (subnet, insert_option e m).

End Ecs.

(** A client address of one of the two families. *)
Definition wf_ip (ip : IP) : Prop :=
  wf_bytes (slice ip) /\ (length (slice ip) = 4%nat \/ length (slice ip) = 16%nat).

(** The bits of an address that are sent to upstreams. *)
Definition ecs_prefix (ip : IP) : bytes * Z :=
  match To4 ip with
  | Some ip4 => (ip4, 24)
  | None => (slice ip, 56)
  end.

Section EcsFacts.
Context {DL : DnsLib} {DLaws : DnsLaws}.

Lemma ecs_loop_app os os' :
  ecs_loop (os ++ os') = match ecs_loop os with Some r => Some r | None => ecs_loop os' end.
Proof.
  induction os as [|[c f n s a|c d] os IH]; cbn; [reflexivity| |exact IH].
  destruct (f =? 1), (f =? 2); auto.
Qed.

Lemma To4_masked ip4 n : length ip4 = 4%nat -> To4 (Some (mask_bytes ip4 n)) = Some (mask_bytes ip4 n).
Proof. intros Hl. unfold To4. rewrite slice_Some, mask_bytes_length, Hl. reflexivity. Qed.

Lemma IP_Mask_cidr_eq b ones :
  length b = 4%nat \/ length b = 16%nat -> 0 <= ones <= 8 * len b ->
  IP_Mask (Some b) (CIDRMask ones (8 * len b)) = Some (mask_bytes b ones).
Proof.
  intros Hl Ho. unfold IP_Mask. rewrite CIDRMask_slice by (unfold IPv4len, IPv6len; lia).
  rewrite !slice_Some, cidr_loop_length.
  assert ((length b =? IPv6len)%nat && (length b =? IPv4len)%nat = false) as Hb.
  { unfold IPv4len, IPv6len. destruct Hl as [-> | ->]; reflexivity. }
  rewrite Hb. cbn [andb]. rewrite cidr_loop_length, (andb_comm (length b =? IPv4len)%nat), Hb.
  cbn [andb]. rewrite Nat.eqb_refl. reflexivity.
Qed.

(** The number of OPT records of a message. *)
Definition opt_count (m : Msg) : nat :=
  length (filter (fun t => t = TypeOPT) ((fun r => rrtype r) <$> Extra m)).

Lemma insert_option_types e m i :
  IsEdns0 m = Some i ->
  (fun r => rrtype r) <$> Extra (insert_option e m) = (fun r => rrtype r) <$> Extra m.
Proof.
  intros Hi. unfold insert_option, upd_opt. rewrite Hi. cbn. apply list_eq. intros j.
  rewrite !list_lookup_fmap. destruct (decide (i = j)) as [->|].
  - rewrite list_lookup_alter_eq. destruct (Extra m !! j); reflexivity.
  - rewrite list_lookup_alter_ne by done. reflexivity.
Qed.

Lemma insert_option_opts e m :
  opt_count (insert_option e m) = Nat.max 1 (opt_count m).
Proof.
  unfold opt_count. destruct (IsEdns0 m) as [i|] eqn:Hi.
  - rewrite (insert_option_types e m i Hi).
    destruct (isedns0_some m i Hi) as (r & Hr & Ht).
    assert (TypeOPT ∈ filter (fun t => t = TypeOPT) ((fun r => rrtype r) <$> Extra m)) as He.
    { apply list_elem_of_filter. split; [reflexivity|]. apply list_elem_of_fmap.
      exists r. split; [auto|]. eapply list_elem_of_lookup_2, Hr. }
    destruct (filter _ _); [inversion He|cbn; lia].
  - unfold insert_option. rewrite Hi. cbn -[SetUDPSize].
    rewrite fmap_app, list.filter_app, length_app. cbn [fmap list_fmap].
    rewrite filter_cons_True by (rewrite setudpsize_type; reflexivity). cbn [length].
    replace (filter _ ((fun r => rrtype r) <$> Extra m)) with (@nil Z); [reflexivity|].
    pose proof (isedns0_none m Hi) as Hf. symmetry.
    induction Hf as [|r l Hr Hf IH]; [reflexivity|]. rewrite fmap_cons, filter_cons_False by auto. exact IH.
Qed.

Lemma insert_option_others e m :
  Hdr (insert_option e m) = Hdr m /\ Question (insert_option e m) = Question m
  /\ Answer (insert_option e m) = Answer m /\ Ns (insert_option e m) = Ns m.
Proof. unfold insert_option. case_goal; [apply upd_opt_others|auto]. Qed.

Lemma insert_option_read e m r :
  ecs_loop [e] = Some r -> ecsFromMsg m = None -> ecsFromMsg (insert_option e m) = Some r.
Proof.
  intros He Hm. unfold insert_option. destruct (IsEdns0 m) as [i|] eqn:Hi.
  - destruct (isedns0_some m i Hi) as (o & Ho & Ht).
    assert (opt_of m = Some o) as Hom by (unfold opt_of; rewrite Hi; exact Ho).
    unfold ecsFromMsg in *. rewrite Hom in Hm.
    rewrite (opt_of_upd _ m o Hom) by reflexivity.
    unfold add_option, opt_options at 1. cbn [Data set_Data].
    rewrite ecs_loop_app, Hm. exact He.
  - unfold ecsFromMsg. erewrite (opt_of_append m); [|exact Hi| |reflexivity].
    + unfold opt_options. rewrite setudpsize_data. exact He.
    + rewrite setudpsize_type. reflexivity.
Qed.

(** the subnet added by [setECS] is the one read by [ecsFromMsg], and it
    discloses only the network part of the client address: for a message
    without a subnet option, reading it back gives the given scope and the
    address with all but the first 24 (IPv4) or 56 (IPv6) bits cleared; the
    other parts of the message are unchanged and it does not get a second OPT
    record. *)
Theorem setECS_read_back m ip scope :
  wf_ip ip -> ecsFromMsg m = None ->
  let '(subnet, m') := setECS m ip scope in
  let '(b, n) := ecs_prefix ip in
  ecsFromMsg m' = Some (subnet, scope)
  /\ IPNet_IP subnet = Some (mask_bytes b n) /\ Mask_Size (IPNet_Mask subnet) = (n, 8 * len b)
  /\ Hdr m' = Hdr m /\ Question m' = Question m /\ Answer m' = Answer m /\ Ns m' = Ns m
  /\ opt_count m' = Nat.max 1 (opt_count m).
Proof.
  intros [Hw Hl] Hn. unfold setECS, ecs_prefix, defaultECSv4, defaultECSv6, IPv4BitLen, IPv6BitLen.
  destruct (To4 ip) as [ip4|] eqn:E4.
  - pose proof (To4_Some_length _ _ E4) as H4.
    change 32 with (8 * Z.of_nat 4). rewrite <- H4, IP_Mask_cidr_eq by lia.
    set (e := EDNS0_SUBNET _ _ _ _ _). cbn [IPNet_IP IPNet_Mask].
    split; [|split; [reflexivity|split]].
    + apply insert_option_read; [|exact Hn]. unfold e. cbn -[CIDRMask To4].
      rewrite To4_masked by exact H4. rewrite H4. reflexivity.
    + apply Mask_Size_CIDR; rewrite H4; auto; lia.
    + pose proof (insert_option_others e m). pose proof (insert_option_opts e m). tauto.
  - destruct ip as [b|]; [|cbn in Hl; lia]. rewrite slice_Some in *.
    assert (length b = 16%nat) as H16.
    { unfold To4 in E4. rewrite slice_Some in E4. destruct Hl as [Hl|Hl]; [|exact Hl].
      rewrite Hl in E4. discriminate. }
    change 128 with (8 * Z.of_nat 16). rewrite <- H16, IP_Mask_cidr_eq by lia.
    set (e := EDNS0_SUBNET _ _ _ _ _). cbn [IPNet_IP IPNet_Mask].
    split; [|split; [reflexivity|split]].
    + apply insert_option_read; [|exact Hn]. unfold e. cbn -[CIDRMask]. rewrite H16. reflexivity.
    + apply Mask_Size_CIDR; rewrite H16; auto; lia.
    + pose proof (insert_option_others e m). pose proof (insert_option_opts e m). tauto.
Qed.

End EcsFacts.

Lemma setECS_read_back_witness :
  ecsFromMsg (snd (setECS empty_msg (Some [198; 51; 100; 7]) 0))
  = Some (mkIPNet (Some [198; 51; 100; 0]) (Some [255; 255; 255; 0]), 0).
Proof.
  pose proof (setECS_read_back empty_msg (Some [198; 51; 100; 7]) 0
    ltac:(split; [repeat constructor; discriminate|left; reflexivity]) eq_refl) as Hs.
  cbn zeta in Hs. vm_compute in Hs |- *. exact (proj1 Hs).
Defined.
