(* ===== verification/GoStrings.v ===== *)
(** * Functions of package [strings]

    Cutting and splitting of byte strings, with the lemmas on label suffixes
    that the upstream selection uses. *)

From S2P Require Import Prelude.

(** The position of the first occurrence of [sep] in [s]. *)
Fixpoint Index (s sep : bytes) : option nat :=
  if HasPrefix s sep then Some O
  else match s with
  | [] => None
  | _ :: s' => S <$> Index s' sep
  end.

(** [strings.Cut]: what is before and after the first separator, and whether
    there is one. *)
Definition Cut (s sep : bytes) : bytes * bytes * bool :=
  match Index s sep with
  | Some i => (take i s, drop (i + length sep) s, true)
  | None => (s, [], false)
  end.

(** [strings.Split] for a separator of one byte. *)
Fixpoint Split (s : bytes) (c : Z) : list bytes :=
  match s with
  | [] => [[]]
  | b :: s' =>
      if b =? c then [] :: Split s' c
      else match Split s' c with
           | w :: ws => (b :: w) :: ws
           | [] => [[b]]
           end
  end.

Definition is_space (b : Z) : bool := (b =? 32) || ((9 <=? b) && (b <=? 13)).

(** [strings.Fields] on ASCII strings. *)
Fixpoint Fields (s : bytes) : list bytes :=
  match s with
  | [] => []
  | b :: s' =>
      if is_space b then Fields s'
      else match s' with
           | [] => [[b]]
           | b' :: _ =>
               if is_space b' then [b] :: Fields s'
               else match Fields s' with
                    | w :: ws => (b :: w) :: ws
                    | [] => [[b]]
                    end
           end
  end.

(** [strings.SplitAfterN(s, sep, 2)] for a separator of one byte. *)
Definition SplitAfter2 (s : bytes) (c : Z) : list bytes :=
  match IndexByte s c with
  | Some i => [take (S i) s; drop (S i) s]
  | None => [s]
  end.

(** [strings.CutPrefix] *)
Definition CutPrefix (s p : bytes) : bytes * bool :=
  if HasPrefix s p then (drop (length p) s, true) else (s, false).

(** The dot that separates labels. *)
Definition dot : Z := 46.

(** [_, after, _ = strings.Cut(s, ".")] *)
Definition after_dot (s : bytes) : bytes := snd (fst (Cut s [dot])).

(** The suffixes of [s] that start right after a dot, longest first. *)
Fixpoint label_suffixes (s : bytes) : list bytes :=
  match s with
  | [] => []
  | b :: s' => if b =? dot then s' :: label_suffixes s' else label_suffixes s'
  end.

Section StringFacts.

Lemma Index_singleton s c : Index s [c] = IndexByte s c.
Proof.
  induction s as [|b s IH]; [reflexivity|]. cbn [Index IndexByte].
  unfold HasPrefix. cbn. rewrite IH. clear IH.
  destruct (Z.eqb_spec b c) as [->|Hn].
  - rewrite bool_decide_true by reflexivity. reflexivity.
  - rewrite bool_decide_false by congruence. reflexivity.
Qed.

Lemma Cut_dot_cons b s :
  Cut (b :: s) [dot] =
  if b =? dot then ([], s, true)
  else let '(x, y, f) := Cut s [dot] in (b :: x, y, f).
Proof.
  unfold Cut. rewrite !Index_singleton. cbn [IndexByte].
  destruct (b =? dot); [reflexivity|]. destruct (IndexByte s dot); reflexivity.
Qed.

(** What is after the first dot is the first label suffix. *)
Lemma after_dot_suffix s : after_dot s = default [] (head (label_suffixes s)).
Proof.
  unfold after_dot. induction s as [|b s IH]; [reflexivity|].
  rewrite Cut_dot_cons. cbn [label_suffixes]. destruct (b =? dot); [reflexivity|].
  destruct (Cut s [dot]) as [[x y] f]. exact IH.
Qed.

Lemma label_suffixes_after s t ts :
  label_suffixes s = t :: ts -> ts = label_suffixes t.
Proof.
  induction s as [|b s IH]; cbn; [discriminate|].
  destruct (b =? dot); [intros [= -> ->]; reflexivity|exact IH].
Qed.

Lemma label_suffixes_shorter s t : In t (label_suffixes s) -> (length t < length s)%nat.
Proof.
  induction s as [|b s IH]; cbn; [easy|].
  destruct (b =? dot); cbn; [intros [<-|Hi]|intros Hi]; [lia| |]; specialize (IH Hi); lia.
Qed.

(** A suffix after a dot, characterised. *)
Lemma label_suffixes_spec s t : In t (label_suffixes s) <-> exists p, s = p ++ dot :: t.
Proof.
  induction s as [|b s IH]; cbn.
  - split; [easy|]. intros (p & H). destruct p; discriminate.
  - destruct (Z.eqb_spec b dot) as [->|Hn]; cbn; rewrite IH; clear IH.
    + split.
      * intros [->|(p & ->)]; [exists []; reflexivity|exists (dot :: p); reflexivity].
      * intros ([|x p] & H); cbn in H; [left; congruence|right; exists p; congruence].
    + split.
      * intros (p & ->). exists (b :: p). reflexivity.
      * intros ([|x p] & H); cbn in H; [congruence|exists p; congruence].
Qed.

Lemma Fields_nil s : Fields s = [] <-> Forall (fun b => is_space b = true) s.
Proof.
  induction s as [|b s IH]; cbn [Fields]; [split; auto|].
  destruct (is_space b) eqn:E.
  - rewrite IH. split; [auto|]. intros H. apply Forall_cons_1 in H. tauto.
  - split; [|intros H; apply Forall_cons_1 in H as [? _]; congruence].
    destruct s as [|b' s]; [discriminate|]. destruct (is_space b'); [discriminate|].
    destruct (Fields (b' :: s)); discriminate.
Qed.

End StringFacts.
