(* ===== verification/NetParse.v ===== *)
(** * Parsing of the standard library: net/netip, encoding/base64 and net/url

    [netip.ParseAddr] and [netip.ParseAddrPort], the base64 encodings of DoH
    requests and of basic authentication, and the parameters of a query string.
    The texts of errors are left out. *)

From S2P Require Import Prelude NetIP GoStrings.

(** The rest of a string that starts with [c]. *)
Definition after (c : Z) (s : bytes) : option bytes :=
  match s with b :: s' => if b =? c then Some s' else None | [] => None end.

Definition is_digit (c : Z) : bool := (48 <=? c) && (c <=? 57).

(** [strings.TrimSpace] on ASCII strings. *)
Fixpoint trim_left (s : bytes) : bytes :=
  match s with b :: s' => if is_space b then trim_left s' else s | [] => [] end.
Definition TrimSpace (s : bytes) : bytes := reverse (trim_left (reverse (trim_left s))).

(** ** netip *)

Definition parse_error : error := New "ParseAddr".

(** [parseIPv4Fields]: [pos] fields are read, [val] is the current one, of
    [digLen] digits; [prev] is the byte before. *)
Fixpoint ipv4_fields (s : bytes) (prev : option Z) (fields : bytes) (val : Z) (digLen : nat) : result bytes :=
  match s with
  | [] => if (length fields <? 3)%nat then Err parse_error else Ok (fields ++ [val])
  | c :: s' =>
      if is_digit c then
        if (digLen =? 1)%nat && (val =? 0) then Err parse_error
        else
          let val := val * 10 + (c - 48) in
          if 255 <? val then Err parse_error else ipv4_fields s' (Some c) fields val (S digLen)
      else if c =? 46 then
        if negb (match prev with Some p => negb (p =? 46) | None => false end) || (length s' =? 0)%nat then Err parse_error
        else if (length fields =? 3)%nat then Err parse_error
        else ipv4_fields s' (Some c) (fields ++ [val]) 0 0
      else Err parse_error
  end.

Definition parseIPv4 (s : bytes) : result bytes := ipv4_fields s None [] 0 0.

Definition hex_digit_value (c : Z) : option Z :=
  if is_digit c then Some (c - 48)
  else if (97 <=? c) && (c <=? 102) then Some (c - 87)
  else if (65 <=? c) && (c <=? 70) then Some (c - 55)
  else None.

(** The hexadecimal digits at the start of [s], at most four: their number, their
    value and the rest. *)
Fixpoint hex_field (s : bytes) (off : nat) (acc : Z) : result (nat * Z * bytes) :=
  match s with
  | c :: s' =>
      match hex_digit_value c with
      | Some d =>
          let acc := acc * 16 + d in
          if (3 <? off)%nat || (65535 <? acc) then Err parse_error else hex_field s' (S off) acc
      | None => Ok (off, acc, s)
      end
  | [] => Ok (off, acc, s)
  end.

(** The loop of [parseIPv6]: [ip] are the bytes so far, [ellipsis] the index of
    the [::].  Each turn reads a field of at least two bytes, so eight turns are
    enough. *)
Fixpoint ipv6_loop (fuel : nat) (s ip : bytes) (ellipsis : option nat) : result (bytes * bytes * option nat) :=
  match fuel with
  | O => Ok (s, ip, ellipsis)
  | S f =>
      if (16 <=? length ip)%nat then Ok (s, ip, ellipsis)
      else
        let? (off, acc, rest) := hex_field s 0 0 in
        if (off =? 0)%nat then Err parse_error
        else match after 46 rest with
        | Some _ =>
            if (match ellipsis with None => negb (length ip =? 12)%nat | Some _ => false end) || (16 <? length ip + 4)%nat
            then Err parse_error
            else let? fields := parseIPv4 s in Ok ([], ip ++ fields, ellipsis)
        | None =>
            let ip := ip ++ [acc / 256; acc mod 256] in
            match rest with
            | [] => Ok ([], ip, ellipsis)
            | _ =>
                match after 58 rest with
                | None | Some [] => Err parse_error
                | Some s2 =>
                    match after 58 s2, ellipsis with
                    | None, _ => ipv6_loop f s2 ip ellipsis
                    | Some _, Some _ => Err parse_error
                    | Some [], None => Ok ([], ip, Some (length ip))
                    | Some s3, None => ipv6_loop f s3 ip (Some (length ip))
                    end
                end
            end
        end
  end.

Definition parseIPv6 (input : bytes) : result Addr :=
  let '(s, zone, ok) :=
    match IndexByte input 37 with
    | Some i => (take i input, drop (S i) input, negb (length (drop (S i) input) =? 0)%nat)
    | None => (input, [], true)
    end in
  if negb ok then Err parse_error
  else
    let '(s, ellipsis) := if HasPrefix s (str "::") then (drop 2 s, Some O) else (s, None) in
    if (length s =? 0)%nat && bool_decide (ellipsis = Some O) then Ok (Addr6 (replicate 16 0) zone)
    else
      let? (s, ip, ellipsis) := ipv6_loop 8 s [] ellipsis in
      if negb (length s =? 0)%nat then Err parse_error
      else match ellipsis with
      | None => if (length ip <? 16)%nat then Err parse_error else Ok (Addr6 ip zone)
      | Some e =>
          if (length ip <? 16)%nat
          then Ok (Addr6 (take e ip ++ replicate (16 - length ip) 0 ++ drop e ip) zone)
          else Err parse_error
      end.

(** The first dot, colon or percent sign decides. *)
Fixpoint addr_family (s : bytes) : option bool :=
  match s with
  | [] => None
  | c :: s' =>
      if c =? 46 then Some false else if c =? 58 then Some true else if c =? 37 then None else addr_family s'
  end.

Definition ParseAddr (s : bytes) : result Addr :=
  match addr_family s with
  | Some false => let? b := parseIPv4 s in Ok (Addr4 b)
  | Some true => parseIPv6 s
  | None => Err parse_error
  end.

(** [strconv.ParseUint(s, 10, 16)] *)
Fixpoint parse_port (s : bytes) (acc : Z) : result Z :=
  match s with
  | [] => Ok acc
  | c :: s' =>
      if is_digit c then
        let acc := acc * 10 + (c - 48) in
        if MaxUint16 <? acc then Err parse_error else parse_port s' acc
      else Err parse_error
  end.

(** The decimal digits of a number, [strconv.Itoa]. *)
Fixpoint itoa_loop (fuel : nat) (n : Z) (acc : bytes) : bytes :=
  match fuel with
  | O => acc
  | S f => let acc := 48 + n mod 10 :: acc in if n <? 10 then acc else itoa_loop f (n / 10) acc
  end.
Definition Itoa (n : Z) : bytes := itoa_loop 20 n [].

Definition LastIndexByte (s : bytes) (c : Z) : option nat :=
  match IndexByte (reverse s) c with Some i => Some (length s - 1 - i)%nat | None => None end.

Definition ParseAddrPort (s : bytes) : result (Addr * Z) :=
  match LastIndexByte s 58 with
  | None => Err parse_error
  | Some i =>
      let ip := take i s in
      let port := drop (S i) s in
      if (length ip =? 0)%nat || (length port =? 0)%nat then Err parse_error
      else
        let? (ip, ipv6) :=
          match after 91 ip with
          | Some rest =>
              if (length rest =? 0)%nat || negb (HasSuffix rest [93]) then Err parse_error
              else Ok (TrimSuffix rest [93], true)
          | None => Ok (ip, false)
          end in
        let? port := parse_port port 0 in
        let? a := ParseAddr ip in
        if (ipv6 && Is4 a) || (negb ipv6 && Is6 a) then Err parse_error else Ok (a, port)
  end.

(** ** base64 *)

(** The digits of the standard and of the URL alphabet. *)
Definition b64_char (url : bool) (d : Z) : Z :=
  if d <? 26 then 65 + d else if d <? 52 then 71 + d else if d <? 62 then d - 4
  else if d =? 62 then (if url then 45 else 43) else (if url then 95 else 47).

Definition b64_value (url : bool) (c : Z) : option Z :=
  if (65 <=? c) && (c <=? 90) then Some (c - 65)
  else if (97 <=? c) && (c <=? 122) then Some (c - 71)
  else if is_digit c then Some (c + 4)
  else if c =? (if url then 45 else 43) then Some 62
  else if c =? (if url then 95 else 47) then Some 63
  else None.

Definition CorruptInputError : error := New "illegal base64 data at input byte %d".

(** The values of all characters. *)
Fixpoint b64_digits (url : bool) (s : bytes) : result (list Z) :=
  match s with
  | [] => Ok []
  | c :: s' =>
      match b64_value url c with
      | Some d => let? ds := b64_digits url s' in Ok (d :: ds)
      | None => Err CorruptInputError
      end
  end.

(** Four digits are three bytes; two and three digits at the end are one byte and
    two. *)
Fixpoint b64_bytes (ds : list Z) : result bytes :=
  match ds with
  | [] => Ok []
  | [_] => Err CorruptInputError
  | [a; b] => Ok [(a * 64 + b) / 16]
  | [a; b; c] => let v := (a * 64 + b) * 64 + c in Ok [v / 1024; v / 4 mod 256]
  | a :: b :: c :: d :: ds' =>
      let v := ((a * 64 + b) * 64 + c) * 64 + d in
      let? rest := b64_bytes ds' in Ok (v / 65536 :: v / 256 mod 256 :: v mod 256 :: rest)
  end.

Definition skip_newlines (s : bytes) : bytes := List.filter (fun c => negb ((c =? 10) || (c =? 13))) s.

(** [base64.RawURLEncoding.DecodeString] *)
Definition RawURL_DecodeString (s : bytes) : result bytes :=
  let? ds := b64_digits true (skip_newlines s) in b64_bytes ds.

(** [base64.StdEncoding.DecodeString]: full groups of four with padding. *)
Definition Std_DecodeString (s : bytes) : result bytes :=
  let s := skip_newlines s in
  if negb (length s mod 4 =? 0)%nat then Err CorruptInputError
  else
    let s := TrimSuffix (TrimSuffix s [61]) [61] in
    let? ds := b64_digits false s in b64_bytes ds.

(** [base64.RawURLEncoding.EncodeToString] *)
Fixpoint RawURL_EncodeToString (b : bytes) : bytes :=
  let char := b64_char true in
  match b with
  | [] => []
  | [x] => [char (x / 4); char (x mod 4 * 16)]
  | [x; y] => [char (x / 4); char (x mod 4 * 16 + y / 16); char (y mod 16 * 4)]
  | x :: y :: z :: b' =>
      char (x / 4) :: char (x mod 4 * 16 + y / 16) :: char (y mod 16 * 4 + z / 64) :: char (z mod 64)
      :: RawURL_EncodeToString b'
  end.

(** ** Query strings *)

Definition url_error : error := New "invalid URL escape %q".

(** [url.QueryUnescape] *)
Fixpoint QueryUnescape (s : bytes) : result bytes :=
  match s with
  | [] => Ok []
  | c :: s' =>
      if c =? 37 then
        match s' with
        | h :: l :: s2 =>
            match hex_digit_value h, hex_digit_value l with
            | Some h, Some l => let? r := QueryUnescape s2 in Ok (h * 16 + l :: r)
            | _, _ => Err url_error
            end
        | _ => Err url_error
        end
      else let? r := QueryUnescape s' in Ok ((if c =? 43 then 32 else c) :: r)
  end.

(** The key and the value of a parameter, if it is well formed. *)
Definition parse_param (p : bytes) : option (bytes * bytes) :=
  if (length p =? 0)%nat || bool_decide (59 ∈ p) then None
  else
    let '(key, value, _) := Cut p [61] in
    match QueryUnescape key, QueryUnescape value with
    | Ok key, Ok value => Some (key, value)
    | _, _ => None
    end.

(** [u.Query().Get(key)] of a raw query. *)
Definition query_Get (rawQuery key : bytes) : bytes :=
  match List.find (fun kv => bool_decide (fst kv = key)) (omap parse_param (Split rawQuery 38)) with
  | Some (_, v) => v
  | None => []
  end.

(** ** mime *)

Definition is_tspecial (c : Z) : bool := bool_decide (c ∈ str "()<>@,;:\/[]?=" ++ [34]).
Definition is_token_char (c : Z) : bool := (32 <? c) && (c <? 127) && negb (is_tspecial c).

Fixpoint consumeToken (s : bytes) : bytes * bytes :=
  match s with
  | c :: s' => if is_token_char c then let '(t, rest) := consumeToken s' in (c :: t, rest) else ([], s)
  | [] => ([], [])
  end.

Definition checkMediaTypeDisposition (s : bytes) : bool :=
  let '(typ, rest) := consumeToken s in
  match typ, rest with
  | [], _ => false
  | _, [] => true
  | _, c :: rest =>
      let '(subtype, rest) := consumeToken rest in
      (c =? 47) && negb (length subtype =? 0)%nat && (length rest =? 0)%nat
  end.

(** The rest of a quoted string, after its opening quote. *)
Fixpoint quoted (s acc : bytes) : option (bytes * bytes) :=
  match s with
  | [] => None
  | c :: s' =>
      let plain := if (c =? 13) || (c =? 10) then None else quoted s' (acc ++ [c]) in
      if c =? 34 then Some (acc, s')
      else match s' with
      | c' :: s'' => if (c =? 92) && is_tspecial c' then quoted s'' (acc ++ [c']) else plain
      | [] => plain
      end
  end.

(** The value of a parameter, none if there is none. *)
Definition consumeValue (s : bytes) : option (bytes * bytes) :=
  match after 34 s with
  | Some s' => quoted s' []
  | None => match consumeToken s with ([], _) => None | x => Some x end
  end.

Definition consumeMediaParam (s : bytes) : option (bytes * bytes * bytes) :=
  match after 59 (trim_left s) with
  | None => None
  | Some s =>
      let '(param, s) := consumeToken (trim_left s) in
      match param, after 61 (trim_left s) with
      | _ :: _, Some s => match consumeValue (trim_left s) with Some (value, s) => Some (ToLower param, value, s) | None => None end
      | _, _ => None
      end
  end.

(** The parameters; each takes at least a byte. *)
Fixpoint media_params (fuel : nat) (s : bytes) (params : list (bytes * bytes)) : bool :=
  match fuel with
  | O => true
  | S f =>
      let s := trim_left s in
      match s with
      | [] => true
      | _ =>
          match consumeMediaParam s with
          | None => bool_decide (TrimSpace s = [59])
          | Some (key, value, s) =>
              forallb (fun kv => negb (bool_decide (fst kv = key)) || bool_decide (snd kv = value)) params
              && media_params f s ((key, value) :: params)
          end
      end
  end.

(** [mime.ParseMediaType] without the values of the parameters. *)
Definition ParseMediaType (v : bytes) : result bytes :=
  let '(base, _, _) := Cut v [59] in
  let mediatype := TrimSpace (ToLower base) in
  if negb (checkMediaTypeDisposition mediatype) then Err (New "mime: no media type")
  else
    let rest := drop (length base) v in
    if media_params (S (length rest)) rest [] then Ok mediatype else Err (New "mime: invalid media parameter").

Example media_types :
  ParseMediaType (str "application/dns-message") = Ok (str "application/dns-message")
  /\ ParseMediaType (str " Application/DNS-Message ; charset=utf-8;") = Ok (str "application/dns-message")
  /\ (exists e, ParseMediaType (str "application/dns-message; charset") = Err e)
  /\ (exists e, ParseMediaType (str "application/dns-message; a=1; a=2") = Err e)
  /\ (exists e, ParseMediaType [] = Err e).
Proof. vm_compute. eauto 10. Qed.

(** ** Facts *)

Section ParseFacts.

(** The characters of the URL alphabet: none of them separates or escapes. *)
Definition url_char (c : Z) : bool :=
  match b64_value true c with Some _ => negb (existsb (Z.eqb c) [10; 13; 37; 38; 43; 59; 61]) | None => false end.

Definition digit_ok (d : Z) : bool :=
  bool_decide (b64_value true (b64_char true d) = Some d) && url_char (b64_char true d).

Lemma b64_digit d : 0 <= d < 64 -> b64_value true (b64_char true d) = Some d /\ url_char (b64_char true d) = true.
Proof.
  intros Hd. assert (Ha : forallb digit_ok (Z.of_nat <$> seq 0 64) = true) by (vm_compute; reflexivity).
  rewrite forallb_forall in Ha. specialize (Ha d). unfold digit_ok in Ha. rewrite andb_true_iff, bool_decide_eq_true in Ha.
  apply Ha, in_map_iff. exists (Z.to_nat d). split; [lia|]. apply in_seq. lia.
Qed.

Lemma triples_ind (P : bytes -> Prop) :
  P [] -> (forall x, P [x]) -> (forall x y, P [x; y]) -> (forall x y z l, P l -> P (x :: y :: z :: l)) -> forall l, P l.
Proof. intros H0 H1 H2 H3. fix F 1. intros [|x [|y [|z l]]]; [apply H0|apply H1|apply H2|apply H3, F]. Qed.

Ltac divmod := unfold is_byte in *; Z.to_euclidean_division_equations; lia.

(** [s] is the encoding of [b]. *)
Definition encodes (s b : bytes) : Prop :=
  exists ds, b64_digits true s = Ok ds /\ b64_bytes ds = Ok b /\ Forall (fun c => url_char c = true) s.

(** Digits are read back one by one. *)
Lemma encodes_digits ds rest ds' :
  Forall (fun d => 0 <= d < 64) ds -> b64_digits true rest = Ok ds' -> Forall (fun c => url_char c = true) rest ->
  b64_digits true (map (b64_char true) ds ++ rest) = Ok (ds ++ ds')
  /\ Forall (fun c => url_char c = true) (map (b64_char true) ds ++ rest).
Proof.
  intros Hds Hr Hu. induction Hds as [|d ds Hd _ [IH1 IH2]]; [auto|]. destruct (b64_digit d Hd) as [Hv Hc]. cbn.
  rewrite Hv, IH1. auto.
Qed.

Lemma RawURL_encodes b : wf_bytes b -> encodes (RawURL_EncodeToString b) b.
Proof.
  unfold encodes. induction b as [|x|x y|x y z b IH] using triples_ind; intros Hb; cbn [RawURL_EncodeToString].
  - exists []. repeat split; constructor.
  - apply Forall_cons_1 in Hb as [Hx _].
    destruct (encodes_digits [x / 4; x mod 4 * 16] [] []) as [H1 H2]; [repeat constructor; divmod|reflexivity|constructor|].
    eexists. split; [exact H1|]. split; [cbn; do 2 f_equal; divmod|exact H2].
  - apply Forall_cons_1 in Hb as [Hx Hb]. apply Forall_cons_1 in Hb as [Hy _].
    destruct (encodes_digits [x / 4; x mod 4 * 16 + y / 16; y mod 16 * 4] [] []) as [H1 H2]; [repeat constructor; divmod|reflexivity|constructor|].
    eexists. split; [exact H1|]. split; [cbn; repeat f_equal; divmod|exact H2].
  - apply Forall_cons_1 in Hb as [Hx Hb]. apply Forall_cons_1 in Hb as [Hy Hb]. apply Forall_cons_1 in Hb as [Hz Hb].
    destruct (IH Hb) as (ds & H1 & H2 & H3).
    destruct (encodes_digits [x / 4; x mod 4 * 16 + y / 16; y mod 16 * 4 + z / 64; z mod 64] _ ds ltac:(repeat constructor; divmod) H1 H3) as [H4 H5].
    eexists. split; [exact H4|]. split; [|exact H5]. cbn [app b64_bytes]. rewrite H2. cbn. repeat f_equal; divmod.
Qed.

Lemma skip_newlines_id s : Forall (fun c => url_char c = true) s -> skip_newlines s = s.
Proof.
  induction 1 as [|c s Hc _ IH]; [reflexivity|]. cbn. unfold url_char in Hc.
  destruct (b64_value true c); [|discriminate]. cbn in Hc. destruct (c =? 10), (c =? 13); try discriminate. cbn. f_equal. exact IH.
Qed.

(** Decoding inverts encoding. *)
Lemma RawURL_roundtrip b : wf_bytes b -> RawURL_DecodeString (RawURL_EncodeToString b) = Ok b.
Proof.
  intros Hb. destruct (RawURL_encodes b Hb) as (ds & H1 & H2 & H3). unfold RawURL_DecodeString.
  rewrite skip_newlines_id, H1 by exact H3. exact H2.
Qed.

Lemma RawURL_url_chars b : wf_bytes b -> Forall (fun c => url_char c = true) (RawURL_EncodeToString b).
Proof. intros Hb. destruct (RawURL_encodes b Hb) as (ds & _ & _ & H). exact H. Qed.

Lemma QueryUnescape_id s : Forall (fun c => url_char c = true) s -> QueryUnescape s = Ok s.
Proof.
  induction 1 as [|c s Hc _ IH]; [reflexivity|]. cbn. rewrite IH. unfold url_char in Hc.
  destruct (b64_value true c); [|discriminate]. cbn in Hc. destruct (c =? 37), (c =? 43); cbn in *; rewrite ?orb_true_r in *; try discriminate; reflexivity.
Qed.

Lemma Split_single s c : Forall (fun b => b <> c) s -> Split s c = [s].
Proof.
  induction 1 as [|b s Hb _ IH]; [reflexivity|]. cbn. rewrite (proj2 (Z.eqb_neq b c)), IH by exact Hb. reflexivity.
Qed.

Lemma url_char_not s c : Forall (fun c => url_char c = true) s -> In c [10; 13; 37; 38; 43; 59; 61] -> Forall (fun b => b <> c) s.
Proof.
  intros Hs Hc. eapply List.Forall_impl; [|exact Hs]. cbn beta. intros b Hb ->. unfold url_char in Hb.
  destruct (b64_value true c); [|discriminate]. apply negb_true_iff in Hb.
  assert (existsb (Z.eqb c) [10; 13; 37; 38; 43; 59; 61] = true); [|congruence].
  apply existsb_exists. exists c. split; [exact Hc|apply Z.eqb_refl].
Qed.

(** The parameter of a query with nothing else. *)
Lemma query_Get_only s : Forall (fun c => url_char c = true) s -> query_Get (str "dns=" ++ s) (str "dns") = s.
Proof.
  intros Hs. unfold query_Get. rewrite Split_single.
  - cbn [omap list_omap]. unfold parse_param. cbn [length app str]. 
    rewrite bool_decide_false.
    + unfold Cut. rewrite Index_singleton. change (IndexByte (str "dns=" ++ s) 61) with (Some 3%nat). cbv beta iota.
      change (drop (3 + length [61]) (str "dns=" ++ s)) with s. rewrite (QueryUnescape_id s Hs). reflexivity.
    + rewrite list_elem_of_In. intros Hi. apply in_app_or in Hi as [Hi|Hi].
      * cbn in Hi. intuition discriminate.
      * eapply List.Forall_forall in Hi; [|apply (url_char_not s 59 Hs); cbn; tauto]. congruence.
  - apply Forall_app. split; [repeat constructor; discriminate|]. apply (url_char_not s 38 Hs). cbn. tauto.
Qed.

(** *** Decimal numbers *)

Lemma itoa_loop_acc fuel : forall n acc, itoa_loop fuel n acc = itoa_loop fuel n [] ++ acc.
Proof.
  induction fuel as [|f IH]; intros n acc; [reflexivity|]. cbn [itoa_loop]. destruct (n <? 10); [reflexivity|].
  rewrite IH, (IH _ [_]), <- app_assoc. reflexivity.
Qed.

Lemma parse_port_app s : forall t acc, parse_port (s ++ t) acc = let? v := parse_port s acc in parse_port t v.
Proof.
  induction s as [|c s IH]; intros t acc; [reflexivity|]. cbn [app parse_port]. destruct (is_digit c); [|reflexivity].
  destruct (_ <? _); [reflexivity|]. apply IH.
Qed.

Lemma itoa_loop_parse fuel : forall n, 0 <= n <= MaxUint16 -> n < 10 ^ Z.of_nat fuel -> (0 < fuel)%nat ->
  parse_port (itoa_loop fuel n []) 0 = Ok n /\ Forall (fun c => is_digit c = true) (itoa_loop fuel n []) /\ itoa_loop fuel n [] <> [].
Proof.
  unfold MaxUint16. induction fuel as [|f IH]; intros n Hn Hf Hpos; [lia|]. cbn [itoa_loop].
  assert (Hdig : is_digit (48 + n mod 10) = true) by (unfold is_digit; pose proof (Z.mod_pos_bound n 10); to_prop; lia).
  assert (Hone : forall v, 0 <= v -> v * 10 + n mod 10 = n -> parse_port [48 + n mod 10] v = Ok n).
  { intros v Hv He. cbn [parse_port]. rewrite Hdig. replace (48 + n mod 10 - 48) with (n mod 10) by lia. rewrite He.
    unfold MaxUint16. rewrite (proj2 (Z.ltb_ge _ _)) by lia. reflexivity. }
  destruct (Z.ltb_spec n 10) as [Hlt|Hge].
  - rewrite (Hone 0) by (rewrite ?Z.mod_small; lia). repeat constructor; [exact Hdig|discriminate].
  - rewrite itoa_loop_acc. destruct f as [|f]; [cbn in Hf; lia|].
    assert (H10 : 0 <= n / 10 <= 65535) by (split; [apply Z.div_pos; lia|apply Z.div_le_upper_bound; lia]).
    destruct (IH (n / 10) H10) as (Hp & Hd & Hne); [rewrite Nat2Z.inj_succ, Z.pow_succ_r in Hf by lia; apply Z.div_lt_upper_bound; lia|lia|].
    rewrite parse_port_app, Hp. cbn [rbind]. rewrite Hone by (pose proof (Z.div_mod n 10); lia).
    split; [reflexivity|]. split; [apply Forall_app; auto|]. destruct (itoa_loop (S f) (n / 10) []); discriminate || contradiction.
Qed.

(** Printing a port and parsing it. *)
Lemma Itoa_port n : 0 <= n <= MaxUint16 ->
  parse_port (Itoa n) 0 = Ok n /\ Forall (fun c => is_digit c = true) (Itoa n) /\ Itoa n <> [].
Proof. intros Hn. apply itoa_loop_parse; [exact Hn|unfold MaxUint16 in Hn; cbn; lia|lia]. Qed.

(** *** Addresses that parse are well formed *)

Lemma ipv4_fields_wf s : forall prev fields val digLen b,
  wf_bytes fields -> (length fields <= 3)%nat -> is_byte val -> ipv4_fields s prev fields val digLen = Ok b ->
  length b = IPv4len /\ wf_bytes b.
Proof.
  induction s as [|c s IH]; intros prev fields val digLen b Hf Hl Hv; cbn [ipv4_fields].
  - destruct (Nat.ltb_spec (length fields) 3); [discriminate|]. intros [= <-]. rewrite length_app. cbn.
    split; [unfold IPv4len; lia|]. apply Forall_app. auto.
  - unfold is_digit. destruct (Z.leb_spec 48 c), (Z.leb_spec c 57); cbn [andb].
    1: { case_goal; [discriminate|]. destruct (Z.ltb_spec 255 (val * 10 + (c - 48))); [discriminate|].
         apply IH; auto. unfold is_byte in *. lia. }
    all: destruct (c =? 46); [|discriminate]; destruct (negb _ || _); [discriminate|];
      (destruct (Nat.eqb_spec (length fields) 3); [discriminate|]);
      apply IH; [apply Forall_app; auto|rewrite length_app; cbn; lia|unfold is_byte; lia].
Qed.

Lemma parseIPv4_wf s b : parseIPv4 s = Ok b -> length b = IPv4len /\ wf_bytes b.
Proof. apply ipv4_fields_wf; [constructor|cbn; lia|unfold is_byte; lia]. Qed.

Lemma hex_digit_range c d : hex_digit_value c = Some d -> 0 <= d < 16.
Proof.
  unfold hex_digit_value, is_digit.
  destruct (Z.leb_spec 48 c), (Z.leb_spec c 57), (Z.leb_spec 97 c), (Z.leb_spec c 102), (Z.leb_spec 65 c), (Z.leb_spec c 70);
    cbn [andb]; intros [= <-]; lia.
Qed.

Lemma hex_field_range s : forall off acc n v rest, 0 <= acc <= 65535 -> hex_field s off acc = Ok (n, v, rest) -> 0 <= v <= 65535.
Proof.
  induction s as [|c s IH]; intros off acc n v rest Ha; cbn [hex_field]; [intros [= _ <- _]; exact Ha|].
  destruct (hex_digit_value c) as [d|] eqn:Ed; [|intros [= _ <- _]; exact Ha]. apply hex_digit_range in Ed.
  destruct (Z.ltb_spec 65535 (acc * 16 + d)); rewrite ?orb_true_r; [discriminate|]. case_goal; [discriminate|]. apply IH. lia.
Qed.

(** The bytes read so far: pairs, at most sixteen. *)
Definition fields_wf (ip : bytes) : Prop := wf_bytes ip /\ exists k, length ip = (2 * k)%nat /\ (k <= 8)%nat.

Lemma ipv6_loop_wf : forall fuel s ip e s' ip' e',
  fields_wf ip -> ipv6_loop fuel s ip e = Ok (s', ip', e') -> fields_wf ip'.
Proof.
  induction fuel as [|f IH]; intros s ip e s' ip' e' Hw; cbn [ipv6_loop]; [intros [= _ <- _]; exact Hw|].
  destruct (Nat.leb_spec 16 (length ip)); [intros [= _ <- _]; exact Hw|].
  destruct (hex_field s 0 0) as [[[off acc] rest]|] eqn:Eh; cbn [rbind]; [|discriminate].
  apply hex_field_range in Eh; [|lia]. case_goal; [discriminate|]. destruct Hw as [Hw (k & Hk & Hk8)].
  assert (Hnext : fields_wf (ip ++ [acc / 256; acc mod 256])).
  { split; [apply Forall_app; split; [exact Hw|]; repeat constructor; divmod|]. exists (S k). rewrite length_app. cbn. lia. }
  destruct (after 46 rest).
  - destruct (Nat.ltb_spec 16 (length ip + 4)); rewrite ?orb_true_r; [discriminate|]. destruct (_ || false); [discriminate|].
    destruct (parseIPv4 s) as [b|] eqn:E4; cbn [rbind]; [|discriminate]. apply parseIPv4_wf in E4 as [Hl4 Hw4].
    intros [= _ <- _]. split; [apply Forall_app; auto|]. exists (k + 2)%nat. rewrite length_app, Hl4. unfold IPv4len. lia.
  - destruct rest; [intros [= _ <- _]; exact Hnext|]. destruct (after 58 _) as [[|c s2]|]; [discriminate| |discriminate].
    destruct (after 58 (c :: s2)) as [[|c3 s3]|]; [|destruct e; [discriminate|apply IH, Hnext]|apply IH, Hnext].
    destruct e; [discriminate|]. intros [= _ <- _]. exact Hnext.
Qed.

Lemma parseIPv6_wf s a : parseIPv6 s = Ok a -> wf_addr a.
Proof.
  unfold parseIPv6. destruct (match IndexByte s 37 with Some i => _ | None => _ end) as [[s1 zone] ok].
  case_goal; [discriminate|]. destruct (if HasPrefix s1 (str "::") then _ else _) as [s2 e].
  case_goal; [intros [= <-]; split; [reflexivity|]; repeat (constructor; [unfold is_byte; lia|]); constructor|].
  destruct (ipv6_loop 8 s2 [] e) as [[[s3 ip] e']|] eqn:El; cbn [rbind]; [|discriminate].
  apply ipv6_loop_wf in El as [Hw (k & Hk & Hk8)]; [|split; [constructor|exists O; cbn; lia]].
  case_goal; [discriminate|]. destruct e' as [e'|]; (destruct (Nat.ltb_spec (length ip) 16) as [Hl|Hl]); try discriminate; intros [= <-].
  - split.
    + rewrite !length_app, length_replicate, length_take, length_drop. unfold IPv6len. lia.
    + apply Forall_app. split; [apply Forall_take, Hw|]. apply Forall_app. split; [apply Forall_replicate; unfold is_byte; lia|apply Forall_drop, Hw].
  - split; [unfold IPv6len; lia|exact Hw].
Qed.

Lemma ParseAddr_wf s a : ParseAddr s = Ok a -> wf_addr a /\ IsValid a = true.
Proof.
  unfold ParseAddr. destruct (addr_family s) as [[]|]; [|destruct (parseIPv4 s) as [b|] eqn:E4; cbn [rbind]|discriminate]; [|intros [= <-]|discriminate].
  - intros H. split; [eapply parseIPv6_wf, H|]. revert H. unfold parseIPv6.
    destruct (match IndexByte s 37 with Some i => _ | None => _ end) as [[s1 zone] ok]. case_goal; [discriminate|].
    destruct (if HasPrefix s1 (str "::") then _ else _) as [s2 e]. case_goal; [intros [= <-]; reflexivity|].
    destruct (ipv6_loop 8 s2 [] e) as [[[s3 ip] e']|]; cbn [rbind]; [|discriminate]. case_goal; [discriminate|].
    destruct e'; case_goal; try discriminate; intros [= <-]; reflexivity.
  - split; [apply parseIPv4_wf in E4; exact E4|reflexivity].
Qed.

Lemma ParseAddrPort_wf s a port : ParseAddrPort s = Ok (a, port) -> wf_addr a /\ IsValid a = true.
Proof.
  unfold ParseAddrPort. destruct (LastIndexByte s 58); [|discriminate]. case_goal; [discriminate|].
  destruct (match after 91 _ with Some rest => _ | None => _ end) as [[ip v6]|]; cbn [rbind]; [|discriminate].
  destruct (parse_port _ 0); cbn [rbind]; [|discriminate]. destruct (ParseAddr ip) eqn:Ep; cbn [rbind]; [|discriminate].
  case_goal; [discriminate|]. intros [= <- _]. eapply ParseAddr_wf, Ep.
Qed.

Example parses :
  ParseAddr (str "192.0.2.7") = Ok (Addr4 [192; 0; 2; 7])
  /\ ParseAddr (str "2001:db8::1:2") = Ok (Addr6 [32; 1; 13; 184; 0; 0; 0; 0; 0; 0; 0; 0; 0; 1; 0; 2] [])
  /\ ParseAddr (str "::ffff:192.0.2.7") = Ok (Addr6 (v4InV6Prefix ++ [192; 0; 2; 7]) [])
  /\ ParseAddr (str "192.0.02.7") = Err parse_error
  /\ ParseAddrPort (str "[fe80::1%eth0]:443") = Ok (Addr6 ([254; 128] ++ replicate 13 0 ++ [1]) (str "eth0"), 443)
  /\ Std_DecodeString (str "dXNlcjpwYXNz") = Ok (str "user:pass").
Proof. vm_compute. repeat split. Qed.
End ParseFacts.
