(* ===== verification/Strconv.v ===== *)
(** * Numbers and prefixes from text (the Go standard library: strconv, net/netip)

    [ParseUint], [ParseInt], [ParseBool] and [ParseFloat] of strconv as the flags of
    the command use them, and [netip.ParsePrefix]. *)

From stdpp Require Import gmap.
From Stdlib Require Import SpecFloat.
From S2P Require Import Prelude NetIP GoStrings NetParse.
#[local] Open Scope Z_scope.

Definition ErrSyntax : error := New "invalid syntax".
Definition ErrRange : error := New "value out of range".

Definition lower (c : Z) : Z := Z.lor c 32.
Definition is_letter (first last c : Z) : bool := (first <=? lower c) && (lower c <=? last).

(** ** Integers *)

(** The last character that [underscoreOK] has seen. *)
Inductive saw := SawStart | SawDigit | SawUnderscore | SawOther.

Fixpoint underscore_loop (hex : bool) (s : bytes) (last : saw) : bool :=
  match s with
  | [] => match last with SawUnderscore => false | _ => true end
  | c :: s =>
      if is_digit c || (hex && is_letter 97 102 c) then underscore_loop hex s SawDigit
      else if c =? 95 then match last with SawDigit => underscore_loop hex s SawUnderscore | _ => false end
      else match last with SawUnderscore => false | _ => underscore_loop hex s SawOther end
  end.

Definition underscoreOK (s : bytes) : bool :=
  let s := match s with c :: s' => if (c =? 45) || (c =? 43) then s' else s | [] => s end in
  match s with
  | 48 :: c :: s' =>
      if bool_decide (lower c ∈ [98; 111; 120]) then underscore_loop (lower c =? 120) s' SawDigit
      else underscore_loop false s SawStart
  | _ => underscore_loop false s SawStart
  end.

Definition digit_value (c : Z) : option Z :=
  if is_digit c then Some (c - 48) else if is_letter 97 122 c then Some (lower c - 97 + 10) else None.

(** The number, and whether there were underscores. *)
Fixpoint uint_loop (base maxVal : Z) (base0 : bool) (s : bytes) (n : Z) (underscores : bool) : result (Z * bool) :=
  match s with
  | [] => Ok (n, underscores)
  | c :: s =>
      if (c =? 95) && base0 then uint_loop base maxVal base0 s n true
      else match digit_value c with
      | None => Err ErrSyntax
      | Some d =>
          if base <=? d then Err ErrSyntax
          else let n1 := n * base + d in
            if maxVal <? n1 then Err ErrRange else uint_loop base maxVal base0 s n1 underscores
      end
  end.

(** The base that the prefix of a text of base 0 says, and what follows it. *)
Definition base_prefix (s : bytes) : Z * bytes :=
  match s with
  | 48 :: rest =>
      match rest with
      | c :: (_ :: _) as digits =>
          if lower c =? 98 then (2, digits)
          else if lower c =? 111 then (8, digits)
          else if lower c =? 120 then (16, digits)
          else (8, rest)
      | _ => (8, rest)
      end
  | _ => (10, s)
  end.

(** [base] is 0 or from 2 to 36, [bitSize] from 1 to 64. *)
Definition ParseUint (s : bytes) (base bitSize : Z) : result Z :=
  match s with
  | [] => Err ErrSyntax
  | _ =>
      let base0 := base =? 0 in
      let '(base, digits) := if base0 then base_prefix s else (base, s) in
      let? (n, underscores) := uint_loop base (2 ^ bitSize - 1) base0 digits 0 false in
      if underscores && negb (underscoreOK s) then Err ErrSyntax else Ok n
  end.

Definition ParseInt (s : bytes) (base bitSize : Z) : result Z :=
  match s with
  | [] => Err ErrSyntax
  | c :: s' =>
      let neg := c =? 45 in
      let cutoff := 2 ^ (bitSize - 1) in
      match ParseUint (if (c =? 43) || neg then s' else s) base bitSize with
      | Err e => Err e
      | Ok un =>
          if negb neg && (cutoff <=? un) then Err ErrRange
          else if neg && (cutoff <? un) then Err ErrRange
          else Ok (if neg then - un else un)
      end
  end.

Definition Atoi (s : bytes) : result Z := ParseInt s 10 64.

(** ** Booleans *)

Definition ParseBool (s : bytes) : result bool :=
  if bool_decide (s ∈ str <$> ["1"; "t"; "T"; "true"; "TRUE"; "True"]%string) then Ok true
  else if bool_decide (s ∈ str <$> ["0"; "f"; "F"; "false"; "FALSE"; "False"]%string) then Ok false
  else Err ErrSyntax.

(** ** Floating-point numbers *)

(** A float32 is a number of the format binary32. *)
Definition float32 : Type := spec_float.
Definition prec32 : Z := 24.
Definition emax32 : Z := 128.

(** The mantissa and its fractional digits, with what follows them. *)
Fixpoint mantissa_loop (base : Z) (s : bytes) (m frac : Z) (sawdot sawdigits underscores : bool)
    : Z * Z * bool * bool * bytes :=
  match s with
  | [] => (m, frac, sawdigits, underscores, [])
  | c :: s' =>
      let digit d := mantissa_loop base s' (m * base + d) (if sawdot then frac + 1 else frac) sawdot true underscores in
      if c =? 95 then mantissa_loop base s' m frac sawdot sawdigits true
      else if c =? 46 then
        if sawdot then (m, frac, sawdigits, underscores, s) else mantissa_loop base s' m frac true sawdigits underscores
      else if is_digit c then digit (c - 48)
      else if (base =? 16) && is_letter 97 102 c then digit (lower c - 97 + 10)
      else (m, frac, sawdigits, underscores, s)
  end.

Fixpoint exponent_loop (s : bytes) (e : Z) (underscores : bool) : Z * bool * bytes :=
  match s with
  | [] => (e, underscores, [])
  | c :: s' =>
      if is_digit c then exponent_loop s' (if e <? 10000 then e * 10 + (c - 48) else e) underscores
      else if c =? 95 then exponent_loop s' e true
      else (e, underscores, s)
  end.

(** The exponent after the mantissa: how much it is, whether there were underscores
    and what follows. *)
Definition read_exponent (expChar : Z) (s : bytes) : result (Z * bool * bytes) :=
  match s with
  | c :: s' =>
      if lower c =? expChar then
        let '(esign, digits) :=
          match s' with
          | 43 :: d => (1, d)
          | 45 :: d => (-1, d)
          | _ => (1, s')
          end in
        match digits with
        | d :: _ =>
            if is_digit d then let '(e, us, rest) := exponent_loop digits 0 false in Ok (esign * e, us, rest)
            else Err ErrSyntax
        | [] => Err ErrSyntax
        end
      else if expChar =? 112 then Err ErrSyntax else Ok (0, false, s)
  | [] => if expChar =? 112 then Err ErrSyntax else Ok (0, false, s)
  end.

(** The nearest float32 of [m] times the power of ten or two. *)
Definition to_float32 (neg hex : bool) (m e : Z) : float32 :=
  match m with
  | Z.pos p =>
      if hex then binary_normalize prec32 emax32 (if neg then - m else m) e neg
      else if 0 <=? e then binary_normalize prec32 emax32 ((if neg then - m else m) * 10 ^ e) 0 neg
      else SFdiv prec32 emax32 (S754_finite neg p 0) (S754_finite false (Z.to_pos (10 ^ (- e))) 0)
  | _ => S754_zero neg
  end.

Definition split_sign (s : bytes) : bool * bytes :=
  match s with 43 :: s' => (false, s') | 45 :: s' => (true, s') | _ => (false, s) end.

(** A number of [readFloat], which takes all of the text. *)
Definition parse_number (s : bytes) : result float32 :=
  let '(neg, s1) := split_sign s in
  let '(hex, digits) :=
    match s1 with
    | 48 :: c :: (_ :: _) as ds => if lower c =? 120 then (true, ds) else (false, s1)
    | _ => (false, s1)
    end in
  let '(m, frac, sawdigits, us, rest) := mantissa_loop (if hex then 16 else 10) digits 0 0 false false false in
  if negb sawdigits then Err ErrSyntax
  else
    let? (e, us', rest) := read_exponent (if hex then 112 else 101) rest in
    if (us || us') && negb (underscoreOK s) then Err ErrSyntax
    else match rest with
    | _ :: _ => Err ErrSyntax
    | [] =>
        match to_float32 neg hex m (e - (if hex then 4 * frac else frac)) with
        | S754_infinity _ => Err ErrRange
        | f => Ok f
        end
    end.

Definition lower_text (s : bytes) : bytes := (fun c => if (65 <=? c) && (c <=? 90) then c + 32 else c) <$> s.

(** [ParseFloat(s, 32)] *)
Definition ParseFloat32 (s : bytes) : result float32 :=
  let '(neg, s1) := split_sign s in
  if bool_decide (lower_text s1 ∈ [str "inf"; str "infinity"]) then Ok (S754_infinity neg)
  else if bool_decide (lower_text s = str "nan") then Ok S754_nan
  else parse_number s.

(** ** Prefixes *)

Definition withoutZone (a : Addr) : Addr := match a with Addr6 b _ => Addr6 b [] | a => a end.

(** [PrefixFrom]; an invalid prefix has -1 bits. *)
Definition PrefixFrom (ip : Addr) (bits : Z) : Prefix :=
  mkPrefix (withoutZone ip) (if IsValid ip && (0 <=? bits) && (bits <=? BitLen ip) then bits else -1).

Definition ParsePrefix (s : bytes) : result Prefix :=
  match LastIndexByte s 47 with
  | None => Err (New "no '/'")
  | Some i =>
      match ParseAddr (take i s) with
      | Err e => Err e
      | Ok ip =>
          if Is6 ip && hasZone ip then Err (New "IPv6 zones cannot be present in a prefix")
          else
            let bitsStr := drop (S i) s in
            if match bitsStr with c :: _ :: _ => (c <? 49) || (57 <? c) | _ => false end then Err (New "bad bits after slash")
            else match Atoi bitsStr with
            | Err e => Err (New "bad bits after slash")
            | Ok bits =>
                if (bits <? 0) || ((if Is6 ip then 128 else 32) <? bits) then Err (New "prefix length out of range")
                else Ok (PrefixFrom ip bits)
            end
      end
  end.

(** ** Facts *)

Lemma digit_value_range c d : digit_value c = Some d -> 0 <= d.
Proof.
  unfold digit_value, is_digit, is_letter. intros H. repeat case_hyp H; to_prop; try discriminate; injection H as <-; lia.
Qed.

Lemma uint_loop_range base maxVal base0 s : forall n us m us', 0 <= base ->
  uint_loop base maxVal base0 s n us = Ok (m, us') -> 0 <= n <= maxVal -> 0 <= m <= maxVal.
Proof.
  induction s as [|c s IH]; intros n us m us' Hb H Hn; cbn [uint_loop] in H; [injection H as -> ->; exact Hn|].
  destruct (_ && base0); [eauto|]. destruct (digit_value c) as [d|] eqn:Ed; [|discriminate].
  apply digit_value_range in Ed. destruct (base <=? d); [discriminate|]. destruct (Z.ltb_spec maxVal (n * base + d)); [discriminate|].
  apply (IH _ _ _ _ Hb H). nia.
Qed.

Lemma base_prefix_base s : 0 <= (base_prefix s).1.
Proof. unfold base_prefix. repeat case_match; cbn; lia. Qed.

Lemma ParseUint_range s base bitSize n : 0 <= base -> 0 <= bitSize -> ParseUint s base bitSize = Ok n -> 0 <= n < 2 ^ bitSize.
Proof.
  intros Hb Hs. unfold ParseUint. destruct s as [|c s]; [discriminate|]. set (t := c :: s). clearbody t.
  destruct (if base =? 0 then base_prefix t else (base, t)) as [b ds] eqn:Eb.
  destruct (uint_loop _ _ _ _ _ _) as [[m us]|] eqn:El; [|discriminate]. cbn. destruct (_ && _); [discriminate|]. intros [= ->].
  pose proof (Z.pow_pos_nonneg 2 bitSize ltac:(lia) Hs). apply uint_loop_range in El; [lia| |lia].
  pose proof (base_prefix_base t) as Hp. destruct (base =? 0); [rewrite Eb in Hp; exact Hp|injection Eb as <- _; exact Hb].
Qed.

Lemma ParseInt_range s base bitSize n : 0 <= base -> 1 <= bitSize ->
  ParseInt s base bitSize = Ok n -> - 2 ^ (bitSize - 1) <= n < 2 ^ (bitSize - 1).
Proof.
  intros Hb Hs. unfold ParseInt. destruct s as [|c s]; [discriminate|].
  destruct (ParseUint _ base bitSize) as [un|] eqn:E; [|discriminate]. apply ParseUint_range in E; [|lia..].
  pose proof (Z.pow_pos_nonneg 2 (bitSize - 1) ltac:(lia) ltac:(lia)). destruct (c =? 45); cbn [negb andb].
  - destruct (Z.ltb_spec (2 ^ (bitSize - 1)) un); [discriminate|]. intros [= <-]. lia.
  - destruct (Z.leb_spec (2 ^ (bitSize - 1)) un); [discriminate|]. intros [= <-]. lia.
Qed.

(** *** Numbers that are printed are read back *)

Lemma uint_loop_app base maxVal base0 s : forall t n us,
  uint_loop base maxVal base0 (s ++ t) n us = let? (n', us') := uint_loop base maxVal base0 s n us in uint_loop base maxVal base0 t n' us'.
Proof.
  induction s as [|c s IH]; intros t n us; [reflexivity|]. cbn [app uint_loop]. destruct (_ && _); [apply IH|].
  destruct (digit_value c); [|reflexivity]. destruct (_ <=? _); [reflexivity|]. destruct (_ <? _); [reflexivity|]. apply IH.
Qed.

Lemma uint_loop_digit maxVal base0 d n us : 0 <= d < 10 -> n * 10 + d <= maxVal ->
  uint_loop 10 maxVal base0 [48 + d] n us = Ok (n * 10 + d, us).
Proof.
  intros Hd Hn. cbn [uint_loop]. unfold digit_value. rewrite (proj2 (Z.eqb_neq _ _)) by lia. cbn [andb].
  assert (Hdig : is_digit (48 + d) = true) by (unfold is_digit; to_prop; lia). rewrite Hdig.
  replace (48 + d - 48) with d by lia. rewrite (proj2 (Z.leb_gt _ _)), (proj2 (Z.ltb_ge _ _)) by lia. reflexivity.
Qed.

Lemma itoa_uint_loop maxVal base0 fuel : forall n, 0 <= n <= maxVal -> n < 10 ^ Z.of_nat fuel -> (0 < fuel)%nat ->
  uint_loop 10 maxVal base0 (itoa_loop fuel n []) 0 false = Ok (n, false)
  /\ exists c s, itoa_loop fuel n [] = c :: s /\ (n = 0 -> c = 48 /\ s = []) /\ (0 < n -> c <> 48).
Proof.
  induction fuel as [|f IH]; intros n Hn Hf Hpos; [lia|]. cbn [itoa_loop]. pose proof (Z.mod_pos_bound n 10 ltac:(lia)) as Hm.
  pose proof (Z.div_mod n 10 ltac:(lia)) as Hdm. destruct (Z.ltb_spec n 10) as [Hlt|Hge].
  - rewrite uint_loop_digit, Z.mod_small by lia. split; [reflexivity|]. do 2 eexists. split; [reflexivity|]. split; [split; [lia|reflexivity]|lia].
  - rewrite itoa_loop_acc. destruct f as [|f]; [cbn in Hf; lia|].
    destruct (IH (n / 10)) as (Hp & c & s & Hs & _ & Hc).
    + split; [apply Z.div_pos; lia|]. apply Z.div_le_upper_bound; lia.
    + rewrite Nat2Z.inj_succ, Z.pow_succ_r in Hf by lia. apply Z.div_lt_upper_bound; lia.
    + lia.
    + rewrite uint_loop_app, Hp. cbn [rbind]. rewrite uint_loop_digit by lia. split; [repeat f_equal; lia|].
      rewrite Hs. exists c, (s ++ [48 + n mod 10]). split; [reflexivity|]. split; [lia|]. intros _. apply Hc.
      pose proof (Z.div_le_lower_bound n 10 1 ltac:(lia) ltac:(lia)). lia.
Qed.

Lemma ParseUint_Itoa n base bitSize : base = 0 \/ base = 10 -> 0 <= bitSize <= 64 -> 0 <= n < 2 ^ bitSize ->
  ParseUint (Itoa n) base bitSize = Ok n.
Proof.
  intros Hb Hs Hn. assert (H64 : 2 ^ bitSize <= 2 ^ 64) by (apply Z.pow_le_mono_r; lia).
  assert (Hf : n < 10 ^ Z.of_nat 20) by (change (10 ^ Z.of_nat 20) with 100000000000000000000; lia).
  destruct (itoa_uint_loop (2 ^ bitSize - 1) (base =? 0) 20 n ltac:(lia) Hf ltac:(lia)) as (Hl & c & s & Hc & H0 & H1).
  change (itoa_loop 20 n []) with (Itoa n) in *. unfold ParseUint. rewrite Hc. cbv beta iota zeta. rewrite <- Hc.
  assert (Hd : n = 0 /\ Itoa n = [48] \/ base_prefix (Itoa n) = (10, Itoa n)).
  { rewrite Hc. destruct (Z.eq_dec n 0) as [Hz|Hz]; [left; destruct (H0 Hz); subst; auto|right].
    unfold base_prefix. assert (c <> 48) by (apply H1; lia). repeat case_match; congruence. }
  destruct Hb as [-> | ->]; cbn [Z.eqb] in *; [|rewrite Hl; reflexivity].
  destruct Hd as [[-> ->]|Hd]; [reflexivity|]. rewrite Hd, Hl. reflexivity.
Qed.

(** A prefix that is parsed is one of its address. *)
Lemma ParsePrefix_wf s p : ParsePrefix s = Ok p -> wf_addr (Prefix_Addr p) /\ 0 <= Bits p <= BitLen (Prefix_Addr p).
Proof.
  unfold ParsePrefix. destruct (LastIndexByte s 47) as [i|]; [|discriminate]. destruct (ParseAddr (take i s)) as [ip|] eqn:Ei; [|discriminate].
  apply ParseAddr_wf in Ei as [Hw Hv]. destruct (_ && _); [discriminate|]. destruct (match drop _ s with [] => _ | _ => _ end); [discriminate|].
  destruct (Atoi _) as [bits|]; [|discriminate]. destruct (_ || _) eqn:Eb; [discriminate|]. intros [= <-]. to_prop.
  unfold PrefixFrom. rewrite Hv. cbn [Prefix_Addr Bits andb]. destruct ip as [|b|b z]; [discriminate| |]; cbn [withoutZone BitLen Is6] in *;
    rewrite (proj2 (Z.leb_le 0 bits)), (proj2 (Z.leb_le bits _)) by lia; cbn; (split; [exact Hw|lia]).
Qed.

Module StrconvExamples.
Example integers :
  (ParseUint (str "0x1F") 0 32, ParseUint (str "010") 0 32, ParseUint (str "1_000") 0 32, ParseUint (str "4294967296") 0 32)
  = (Ok 31, Ok 8, Ok 1000, Err ErrRange).
Proof. vm_compute. reflexivity. Qed.

Example floats :
  match ParseFloat32 (str "1.1"), ParseFloat32 (str "11e-1"), ParseFloat32 (str "1.10000001") with
  | Ok a, Ok b, Ok c => SFeqb a b && SFeqb b c && negb (SFeqb a (S754_finite false 1 0))
  | _, _, _ => false
  end = true.
Proof. vm_compute. reflexivity. Qed.
End StrconvExamples.
