(* ===== verification/Upstreams.v ===== *)
(** * Upstream configuration (proxy/upstreams.go)

    The parser of upstream specifications and the choice of the upstreams for a
    domain name.  [ParseUpstreamsConfig] is related to a parser that keeps only
    two maps (exact and wildcard domains), and [getUpstreamsForDomain] to the
    most specific match among the label suffixes of the name. *)

From stdpp Require Import gmap sets sorting.
From S2P Require Import Prelude NetIP GoStrings GlCache.

Notation dmap := (gmap bytes (list Upstream)).

Definition UnqualifiedNames : bytes := str "unqualified_names".

Record UpstreamConfig := mkUpstreamConfig {
  DomainReservedUpstreams : dmap;
  SpecifiedDomainUpstreams : dmap;
  SubdomainExclusions : gset bytes;
  Upstreams : list Upstream;
}.

(** ** Selection *)

Definition lookupUpstreams (uc : UpstreamConfig) (name : bytes) : list Upstream * bool :=
  match DomainReservedUpstreams uc !! name with
  | None => ([], false)
  | Some [] => (Upstreams uc, true)
  | Some ups => (ups, true)
  end.

Definition lookupSubdomainExclusion (uc : UpstreamConfig) (host : bytes) : go (list Upstream) :=
  match SpecifiedDomainUpstreams uc !! host with
  | Some (u :: ups) => Ret (u :: ups)
  | _ =>
      let h := SplitAfter2 host dot in
      let! h1 := index h 1 in
      match DomainReservedUpstreams uc !! h1 with
      | Some (u :: ups) => Ret (u :: ups)
      | _ => Ret (Upstreams uc)
      end
  end.

(** The loop [for fqdn != ""]; the name gets shorter in each iteration. *)
Fixpoint lookup_loop (uc : UpstreamConfig) (fuel : nat) (fqdn : bytes) : list Upstream :=
  match fuel, fqdn with
  | S fuel', _ :: _ =>
      let '(ups, ok) := lookupUpstreams uc fqdn in
      if ok then ups else lookup_loop uc fuel' (after_dot fqdn)
  | _, _ => Upstreams uc
  end.

Definition getUpstreamsForDomain (uc : UpstreamConfig) (fqdn : bytes) : go (list Upstream) :=
  if bool_decide (DomainReservedUpstreams uc = ∅) then Ret (Upstreams uc)
  else
    let fqdn := ToLower fqdn in
    if bool_decide (fqdn ∈ SubdomainExclusions uc) then lookupSubdomainExclusion uc fqdn
    else
      let '(ups, ok) := lookupUpstreams uc fqdn in
      if ok then Ret ups
      else
        let '(firstLabel, fqdn, _) := Cut fqdn [dot] in
        let fqdn := match firstLabel, fqdn with _ :: _, [] => UnqualifiedNames | _, _ => fqdn end in
        Ret (lookup_loop uc (length fqdn) fqdn).

Definition getUpstreamsForDS (uc : UpstreamConfig) (fqdn : bytes) : go (list Upstream) :=
  match after_dot fqdn with
  | [] => Ret (Upstreams uc)
  | fqdn' => getUpstreamsForDomain uc fqdn'
  end.

(** [None] is the nil error. *)
Definition validate (uc : option UpstreamConfig) : option error :=
  match uc with
  | None => Some (New "no value")
  | Some uc =>
      match Upstreams uc with
      | _ :: _ => None
      | [] =>
          if bool_decide (DomainReservedUpstreams uc = ∅) && bool_decide (SpecifiedDomainUpstreams uc = ∅)
          then Some (New "no upstream specified")
          else Some (Errorf "default upstreams" (New "no value"))
      end
  end.

(** The order of Go strings. *)
Fixpoint bytes_leb (a b : bytes) : bool :=
  match a, b with
  | [], _ => true
  | _, [] => false
  | x :: a', y :: b' => if x <? y then true else if y <? x then false else bytes_leb a' b'
  end.

Definition bytes_le (a b : bytes) : Prop := bytes_leb a b = true.
#[export] Instance bytes_le_dec a b : Decision (bytes_le a b) := decide (bytes_leb a b = true).

(** [slices.Sorted(maps.Keys(m))] *)
Definition sorted_keys (mp : dmap) : list bytes := merge_sort bytes_le (elements (dom mp)).

(** [errors.Join(errs...)] *)
Definition join_errors (errs : list error) : option error :=
  match errs with [] => None | _ => Some (Join errs) end.

(** [ExtractReversedAddr] is [netutil.ExtractReversedAddr], [private] the
    [Contains] method of the private subnets, a nil interface if [None]. *)
Definition private_domain_error (ExtractReversedAddr : bytes -> result Prefix) (private : option (Addr -> bool))
    (domain : bytes) : go (option error) :=
  match ExtractReversedAddr domain with
  | Err extErr => Ret (Some extErr)
  | Ok pref =>
      if Bits pref =? 0 then Ret None
      else
        let! contains := deref private in
        Ret (if negb (contains (Prefix_Addr pref)) then Some (New "reversed subnet in %q is not private") else None)
  end.

Fixpoint private_errors (ExtractReversedAddr : bytes -> result Prefix) (private : option (Addr -> bool))
    (domains : list bytes) : go (list error) :=
  match domains with
  | [] => Ret []
  | domain :: domains =>
      let! e := private_domain_error ExtractReversedAddr private domain in
      let! errs := private_errors ExtractReversedAddr private domains in
      Ret (option_list e ++ errs)
  end.

Definition ValidatePrivateConfig (ExtractReversedAddr : bytes -> result Prefix)
    (private : option (Addr -> bool)) (uc : option UpstreamConfig) : go (option error) :=
  match validate uc, uc with
  | Some err, _ => Ret (Some err)
  | None, None => Ret None
  | None, Some uc =>
      let! errs := private_errors ExtractReversedAddr private (sorted_keys (DomainReservedUpstreams uc)) in
      Ret (join_errors errs)
  end.

(** ** Parsing *)

Record configParser := mkParser {
  upstreamsIndex : gmap bytes Upstream;
  domainReservedUpstreams : dmap;
  specifiedDomainUpstreams : dmap;
  subdomainsOnlyUpstreams : dmap;
  subdomainsOnlyExclusions : gset bytes;
  upstreams : list Upstream;
}.

Definition new_parser : configParser := mkParser ∅ ∅ ∅ ∅ ∅ [].

(** [strings.HasPrefix(host, "*.")] and the rest of the host. *)
Definition wildcard (host : bytes) : option bytes :=
  if HasPrefix host (str "*.") then Some (drop 2 host) else None.

(** [m[k] = append(m[k], u)] *)
Definition append_to (k : bytes) (u : Upstream) (mp : dmap) : dmap :=
  <[k := default [] (mp !! k) ++ [u]]> mp.

Definition exclude_host (p : configParser) (host : bytes) : configParser :=
  match wildcard host with
  | Some trimmed =>
      mkParser (upstreamsIndex p) (domainReservedUpstreams p) (specifiedDomainUpstreams p)
        (<[trimmed := []]> (subdomainsOnlyUpstreams p))
        ({[trimmed]} ∪ subdomainsOnlyExclusions p) (upstreams p)
  | None =>
      mkParser (upstreamsIndex p) (<[host := []]> (domainReservedUpstreams p))
        (<[host := []]> (specifiedDomainUpstreams p)) (subdomainsOnlyUpstreams p)
        (subdomainsOnlyExclusions p) (upstreams p)
  end.

Definition excludeFromReserved (p : configParser) (domains : list bytes) : configParser :=
  fold_left exclude_host domains p.

Definition include_host (u : Upstream) (p : configParser) (host : bytes) : configParser :=
  match wildcard host with
  | Some host =>
      mkParser (upstreamsIndex p) (append_to host u (domainReservedUpstreams p))
        (specifiedDomainUpstreams p) (append_to host u (subdomainsOnlyUpstreams p))
        ({[host]} ∪ subdomainsOnlyExclusions p) (upstreams p)
  | None =>
      mkParser (upstreamsIndex p) (append_to host u (domainReservedUpstreams p))
        (append_to host u (specifiedDomainUpstreams p)) (subdomainsOnlyUpstreams p)
        (subdomainsOnlyExclusions p) (upstreams p)
  end.

Definition includeToReserved (p : configParser) (u : Upstream) (domains : list bytes) : configParser :=
  fold_left (include_host u) domains p.

Section Parser.
(** [upstream.AddressToUpstream] with the options of the parser, and
    [netutil.ValidateDomainName]. *)
Context (AddressToUpstream : bytes -> result Upstream).
Context (ValidateDomainName : bytes -> option error).

Fixpoint split_domains (hosts : list bytes) : result (list bytes) :=
  match hosts with
  | [] => Ok []
  | confHost :: hosts' =>
      let? d :=
        match confHost with
        | [] => Ok UnqualifiedNames
        | _ =>
            match ValidateDomainName (TrimPrefix confHost (str "*.")) with
            | Some err => Err (Errorf "domain at index %d" err)
            | None => Ok (ToLower (confHost ++ [dot]))
            end
        end in
      let? ds := split_domains hosts' in
      Ok (d :: ds)
  end.

(** The upstreams and the domains of a line. *)
Definition splitConfigLine (confLine : bytes) : result (list bytes * list bytes) :=
  if negb (HasPrefix confLine (str "[/")) then Ok ([confLine], [])
  else
    let '(domainsLine, upstreamsLine, found) := Cut (drop 2 confLine) (str "/]") in
    match found, upstreamsLine with
    | true, _ :: _ =>
        let? domains := split_domains (Split domainsLine 47) in
        Ok (Fields upstreamsLine, domains)
    | _, _ => Err (New "wrong upstream format")
    end.

Definition specifyUpstream (p : configParser) (domains : list bytes) (u : bytes)
    : configParser * option error :=
  let add (dnsUpstream : Upstream) (p : configParser) :=
    match domains with
    | [] =>
        mkParser (upstreamsIndex p) (domainReservedUpstreams p) (specifiedDomainUpstreams p)
          (subdomainsOnlyUpstreams p) (subdomainsOnlyExclusions p) (upstreams p ++ [dnsUpstream])
    | _ => includeToReserved p dnsUpstream domains
    end in
  match upstreamsIndex p !! u with
  | Some dnsUpstream => (add dnsUpstream p, None)
  | None =>
      match AddressToUpstream u with
      | Err _ => (p, Some (New "cannot prepare the upstream: %s"))
      | Ok dnsUpstream =>
          (add dnsUpstream (mkParser (<[u := dnsUpstream]> (upstreamsIndex p))
             (domainReservedUpstreams p) (specifiedDomainUpstreams p) (subdomainsOnlyUpstreams p)
             (subdomainsOnlyExclusions p) (upstreams p)), None)
      end
  end.

(** Stops at the first upstream that cannot be created. *)
Fixpoint specify_all (p : configParser) (domains us : list bytes) : configParser * option error :=
  match us with
  | [] => (p, None)
  | u :: us' =>
      match specifyUpstream p domains u with
      | (p, Some err) => (p, Some err)
      | (p, None) => specify_all p domains us'
      end
  end.

Definition parseLine (p : configParser) (confLine : bytes) : go (configParser * option error) :=
  match confLine with
  | [] => Ret (p, None)
  | c :: _ =>
      if c =? 35 then Ret (p, None)
      else
        match splitConfigLine confLine with
        | Err err => Ret (p, Some err)
        | Ok (us, domains) =>
            let! u0 := index us 0 in
            if bool_decide (u0 = str "#") && (0 <? len domains)
            then Ret (excludeFromReserved p domains, None)
            else Ret (specify_all p domains us)
        end
  end.

(** All lines; the errors come with the index of their line. *)
Fixpoint parse_lines (p : configParser) (i : nat) (lines : list bytes)
    : go (configParser * list (nat * error)) :=
  match lines with
  | [] => Ret (p, [])
  | l :: lines' =>
      let! (p, err) := parseLine p l in
      let! (p, errs) := parse_lines p (S i) lines' in
      Ret (p, match err with Some e => (i, e) :: errs | None => errs end)
  end.

Definition parse (p : configParser) (lines : list bytes)
    : go (UpstreamConfig * list (nat * error)) :=
  let! (p, errs) := parse_lines p 0 lines in
  (* [maps.Copy(p.domainReservedUpstreams, p.subdomainsOnlyUpstreams)] *)
  let reserved := subdomainsOnlyUpstreams p ∪ domainReservedUpstreams p in
  Ret (mkUpstreamConfig reserved (specifiedDomainUpstreams p) (subdomainsOnlyExclusions p)
         (upstreams p), errs).

Definition ParseUpstreamsConfig (lines : list bytes) : go (UpstreamConfig * list (nat * error)) :=
  parse new_parser lines.

End Parser.

(** ** Reference definitions *)

(** The names under which upstreams may be reserved for [f], most specific
    first. *)
Definition candidates (f : bytes) : list bytes :=
  f :: match Cut f [dot] with
       | (_ :: _, [], _) => [UnqualifiedNames]
       | _ => filter (fun d => d <> []) (label_suffixes f)
       end.

Fixpoint first_match (uc : UpstreamConfig) (cs : list bytes) : list Upstream :=
  match cs with
  | [] => Upstreams uc
  | c :: cs' =>
      match DomainReservedUpstreams uc !! c with
      | None => first_match uc cs'
      | Some [] => Upstreams uc
      | Some ups => ups
      end
  end.

(** A name made of one label, with or without the final dot. *)
Definition single_label (f : bytes) : Prop :=
  exists l, l <> [] /\ dot ∉ l /\ (f = l \/ f = l ++ [dot]).

(** The specification for [d] covers the name [f]. *)
Definition covers (d f : bytes) : Prop :=
  d = f \/ (d <> [] /\ exists p, f = p ++ dot :: d) \/ (single_label f /\ d = UnqualifiedNames).

(** What [ParseUpstreamsConfig] builds: wildcard specifications take the place
    of exact ones in the map of reserved domains and are the exclusions. *)
Definition parsed_config (uc : UpstreamConfig) : Prop :=
  exists wild : dmap, SubdomainExclusions uc = dom wild
    /\ DomainReservedUpstreams uc = wild ∪ SpecifiedDomainUpstreams uc
    /\ forall d, d ∈ dom wild -> exists d', d = d' ++ [dot].

(** ** Selection facts *)

Section Selection.
Implicit Types uc : UpstreamConfig.

Lemma lookup_loop_first uc fuel s :
  (length s <= fuel)%nat ->
  lookup_loop uc fuel s = first_match uc (filter (fun d => d <> []) (s :: label_suffixes s)).
Proof.
  revert s; induction fuel as [|fuel IH]; intros s Hf.
  - destruct s; [reflexivity|cbn in Hf; lia].
  - destruct s as [|b s]; [reflexivity|]. cbn [lookup_loop].
    rewrite filter_cons_True by discriminate. cbn [first_match]. unfold lookupUpstreams.
    destruct (DomainReservedUpstreams uc !! (b :: s)) as [[|u ups]|]; try reflexivity.
    rewrite after_dot_suffix. destruct (label_suffixes (b :: s)) as [|t ts] eqn:E; cbn [head default from_option id].
    + destruct fuel; reflexivity.
    + assert (length t < length (b :: s))%nat as Hlt.
      { apply label_suffixes_shorter. rewrite E. left. reflexivity. }
      cbn in Hlt, Hf. rewrite IH by lia. rewrite (label_suffixes_after _ _ _ E). reflexivity.
Qed.

Lemma Cut_dot_after s : snd (fst (Cut s [dot])) = default [] (head (label_suffixes s)).
Proof. apply after_dot_suffix. Qed.

(** The code computes the first match among the candidates. *)
Lemma getUpstreamsForDomain_first uc fqdn :
  ToLower fqdn ∉ SubdomainExclusions uc ->
  getUpstreamsForDomain uc fqdn = Ret (first_match uc (candidates (ToLower fqdn))).
Proof.
  intros He. unfold getUpstreamsForDomain. set (f := ToLower fqdn) in *.
  destruct (bool_decide (DomainReservedUpstreams uc = ∅)) eqn:Eb.
  { apply bool_decide_eq_true_1 in Eb. f_equal.
    assert (Hall : forall cs, first_match uc cs = Upstreams uc).
    { induction cs; cbn; [reflexivity|]. rewrite Eb, lookup_empty. assumption. }
    rewrite Hall. reflexivity. }
  rewrite bool_decide_false by exact He. unfold candidates. cbn [first_match].
  unfold lookupUpstreams at 1. destruct (DomainReservedUpstreams uc !! f) as [[|u ups]|]; try reflexivity.
  pose proof (Cut_dot_after f) as Ha. destruct (Cut f [dot]) as [[l r] fd]. cbn [fst snd] in Ha. f_equal.
  rewrite lookup_loop_first by reflexivity.
  destruct l as [|b l], r as [|c r].
  - destruct (label_suffixes f) as [|t ts] eqn:E; cbn in Ha; [reflexivity|]. subst t.
    rewrite (label_suffixes_after _ _ _ E). reflexivity.
  - destruct (label_suffixes f) as [|t ts] eqn:E; cbn in Ha; [discriminate|]. subst t.
    rewrite (label_suffixes_after _ _ _ E). reflexivity.
  - reflexivity.
  - destruct (label_suffixes f) as [|t ts] eqn:E; cbn in Ha; [discriminate|]. subst t.
    rewrite (label_suffixes_after _ _ _ E). reflexivity.
Qed.

Lemma first_match_spec uc cs :
  (exists pre d post l, cs = pre ++ d :: post /\ DomainReservedUpstreams uc !! d = Some l
     /\ Forall (fun c => DomainReservedUpstreams uc !! c = None) pre
     /\ first_match uc cs = match l with [] => Upstreams uc | _ => l end)
  \/ (Forall (fun c => DomainReservedUpstreams uc !! c = None) cs /\ first_match uc cs = Upstreams uc).
Proof.
  induction cs as [|c cs IH]; [right; auto|]. cbn [first_match].
  destruct (DomainReservedUpstreams uc !! c) as [l|] eqn:E.
  - left. exists [], c, cs, l. destruct l; auto.
  - destruct IH as [(pre & d & post & l & -> & Hd & Hp & Hf)|[Hn Hf]].
    + left. exists (c :: pre), d, post, l. auto.
    + right. auto.
Qed.

Lemma single_label_Cut f : single_label f <-> exists b l fd, Cut f [dot] = (b :: l, [], fd).
Proof.
  unfold single_label, Cut. rewrite Index_singleton. split.
  - intros (l & Hl & Hd & Hf). assert (IndexByte l dot = None) as Hi.
    { clear Hl Hf. induction l as [|b l IH]; [reflexivity|]. apply not_elem_of_cons in Hd as [? Hd].
      cbn. rewrite (proj2 (Z.eqb_neq b dot)) by congruence. rewrite IH by exact Hd. reflexivity. }
    destruct l as [|b l]; [congruence|]. destruct Hf as [->| ->].
    + rewrite Hi. eauto.
    + assert (IndexByte ((b :: l) ++ [dot]) dot = Some (length (b :: l))) as ->.
      { clear Hd Hl. revert Hi. generalize (b :: l). induction l0 as [|x y IH]; [reflexivity|].
        cbn. destruct (x =? dot); [discriminate|]. destruct (IndexByte y dot); [discriminate|].
        intros _. rewrite IH; reflexivity. }
      rewrite take_app_length, drop_ge by (rewrite length_app; cbn; lia). eauto.
  - intros (b & l & fd & H). destruct (IndexByte f dot) as [i|] eqn:E.
    + injection H as Ht Hd _. exists (b :: l). split; [discriminate|].
      assert (dot ∉ take i f /\ f !! i = Some dot /\ (i < length f)%nat) as (Hn & Hi & Hlt).
      { clear Ht Hd. revert i E. induction f as [|x f IH]; intros i; cbn; [discriminate|].
        destruct (Z.eqb_spec x dot) as [->|Hx]; [intros [= <-]; cbn; split; [apply not_elem_of_nil|]; auto with lia|].
        destruct (IndexByte f dot) as [j|]; [|discriminate]. intros [= <-].
        destruct (IH j eq_refl) as (? & ? & ?). cbn. rewrite not_elem_of_cons. auto with lia. }
      rewrite Ht in Hn. split; [exact Hn|]. right.
      rewrite <- (take_drop i f), Ht. f_equal. rewrite (drop_S _ _ _ Hi).
      rewrite Nat.add_1_r in Hd. rewrite Hd. reflexivity.
    + injection H as -> _. exists (b :: l). split; [discriminate|]. split; [|auto].
      revert E. generalize (b :: l). induction l0 as [|x y IH]; cbn; [intros _; apply not_elem_of_nil|].
      destruct (Z.eqb_spec x dot); [discriminate|]. destruct (IndexByte y dot); [discriminate|].
      intros _. apply not_elem_of_cons. auto.
Qed.

End Selection.

Section Specificity.

Lemma covers_candidates f d : covers d f <-> In d (candidates f).
Proof.
  unfold covers, candidates. cbn [In].
  assert (Hsuf : forall x, In x (filter (fun d => d <> []) (label_suffixes f))
    <-> x <> [] /\ exists p, f = p ++ dot :: x).
  { intros x. rewrite <- list_elem_of_In, list_elem_of_filter, list_elem_of_In, label_suffixes_spec.
    reflexivity. }
  pose proof (single_label_Cut f) as Hs. pose proof (Cut_dot_after f) as Ha.
  destruct (Cut f [dot]) as [[[|b l] r] fd] eqn:Ec.
  - rewrite Hsuf. split; [intros [?|[?|[Hs1 _]]]; auto|intros [?|?]; auto].
    apply Hs in Hs1 as (? & ? & ? & [=]).
  - destruct r as [|c r].
    + cbn [In]. split.
      * intros [?|[[Hd (p & Hp)]|[_ ->]]]; auto. exfalso.
        assert (In d (label_suffixes f)) as Hi by (apply label_suffixes_spec; eauto).
        destruct (label_suffixes f) as [|t ts] eqn:El; [destruct Hi|]. cbn in Ha. subst t.
        pose proof (label_suffixes_after _ _ _ El) as ->. destruct Hi as [<-|[]]. congruence.
      * intros [?|[<-|[]]]; auto. right; right. split; [|reflexivity]. apply Hs. eauto.
    + rewrite Hsuf. split; [intros [?|[?|[Hs1 _]]]; auto|intros [?|?]; auto].
      apply Hs in Hs1 as (? & ? & ? & [=]).
Qed.

(** After the name itself, the candidates get shorter. *)
Lemma candidates_sorted f pre d post d' :
  candidates f = pre ++ d :: post -> In d' (d :: post) -> pre = [] \/ (length d' <= length d)%nat.
Proof.
  unfold candidates. intros Hc Hi. destruct pre as [|x pre]; [auto|right].
  injection Hc as _ Hc.
  assert (Hsub : forall s, filter (fun d => d <> []) (label_suffixes s) = pre ++ d :: post ->
    (length d' <= length d)%nat).
  { clear Hc. intros s Hc. destruct Hi as [<-|Hi]; [lia|].
    revert pre Hc. induction s as [|b s IH]; intros pre Hc; cbn in Hc; [destruct pre; discriminate|].
    destruct (b =? dot); [|eapply IH, Hc]. rewrite filter_cons in Hc. case_decide; [|eapply IH, Hc].
    destruct pre as [|y pre]; injection Hc as -> Hc; [|eapply IH, Hc].
    assert (In d' (label_suffixes d)) as Hd'.
    { apply list_elem_of_In. eapply list_elem_of_filter. rewrite Hc. apply list_elem_of_In, Hi. }
    apply label_suffixes_shorter in Hd'. lia. }
  destruct (Cut f [dot]) as [[[|b l] [|c r]] fd]; try (eapply Hsub, Hc).
  destruct pre as [|y pre]; [|destruct pre; discriminate]. injection Hc as <- <-.
  destruct Hi as [<-|[]]. lia.
Qed.

(** C31: the most specific specification wins.  If a name is not a wildcard
    exclusion, its upstreams are those reserved for the longest domain that
    covers it (the name itself, a parent domain, or the unqualified names for
    a single label), the default ones if that domain is excluded with "#", and
    the default ones if no reserved domain covers it. *)
Theorem getUpstreamsForDomain_most_specific uc fqdn :
  ToLower fqdn ∉ SubdomainExclusions uc ->
  exists ups, getUpstreamsForDomain uc fqdn = Ret ups /\
  let f := ToLower fqdn in
  ((exists d l, covers d f /\ DomainReservedUpstreams uc !! d = Some l
     /\ ups = (if bool_decide (l = []) then Upstreams uc else l)
     /\ forall d', covers d' f -> is_Some (DomainReservedUpstreams uc !! d') ->
          d = f \/ (length d' <= length d)%nat)
   \/ ((forall d, covers d f -> DomainReservedUpstreams uc !! d = None) /\ ups = Upstreams uc)).
Proof.
  intros He. rewrite (getUpstreamsForDomain_first _ _ He). eexists; split; [reflexivity|]. cbn zeta.
  set (f := ToLower fqdn).
  destruct (first_match_spec uc (candidates f)) as [(pre & d & post & l & Hc & Hd & Hp & ->)|[Hn ->]].
  - left. exists d, l. split; [apply covers_candidates; rewrite Hc; apply in_elt|].
    split; [exact Hd|]. split; [destruct l; reflexivity|]. intros d' Hcov [l' Hl'].
    apply covers_candidates in Hcov. rewrite Hc in Hcov. apply in_app_iff in Hcov as [Hpre|Hin].
    + rewrite Forall_forall in Hp. specialize (Hp d' Hpre). cbn in Hp. congruence.
    + destruct (candidates_sorted f pre d post d' Hc Hin) as [->|?]; [|auto].
      left. injection Hc as -> _. reflexivity.
  - right. split; [|reflexivity]. intros d Hcov. apply covers_candidates in Hcov.
    rewrite Forall_forall in Hn. exact (Hn d Hcov).
Qed.

End Specificity.

(** ** Parser facts *)

(** The invariant of the parser. *)
Record parser_inv (p : configParser) : Prop := {
  pi_excl : subdomainsOnlyExclusions p = dom (subdomainsOnlyUpstreams p);
  pi_reserved d : subdomainsOnlyUpstreams p !! d = None ->
    domainReservedUpstreams p !! d = specifiedDomainUpstreams p !! d;
  pi_dot d : d ∈ dom (subdomainsOnlyUpstreams p) -> exists d', d = d' ++ [dot];
}.

(** Hosts as [splitConfigLine] returns them. *)
Definition wf_host (h : bytes) : Prop :=
  h = UnqualifiedNames \/ exists h', h = h' ++ [dot] /\ h' <> [] /\ h' <> str "*".

Section ParserFacts.

Lemma wildcard_dot h t : wf_host h -> wildcard h = Some t -> exists t', t = t' ++ [dot].
Proof.
  unfold wildcard, HasPrefix. intros Hw. case_goal; [|discriminate]. intros [= <-].
  apply bool_decide_eq_true_1 in Heqb. destruct Hw as [->|(h' & -> & Hn & Hs)].
  { exfalso. revert Heqb. vm_compute. discriminate. }
  destruct h' as [|a [|b h']]; [congruence| |].
  - cbn in Heqb. injection Heqb as ->. destruct (Hs eq_refl).
  - exists h'. reflexivity.
Qed.

Lemma exclude_host_inv p h : wf_host h -> parser_inv p -> parser_inv (exclude_host p h).
Proof.
  intros Hw [He Hr Hd]. unfold exclude_host. destruct (wildcard h) as [t|] eqn:Ew; split; cbn.
  - rewrite dom_insert_L, He. reflexivity.
  - intros d. destruct (decide (t = d)) as [->|Hn]; [rewrite lookup_insert_eq; discriminate|].
    rewrite lookup_insert_ne by exact Hn. apply Hr.
  - intros d. rewrite dom_insert, elem_of_union, elem_of_singleton.
    intros [->|Hi]; [eapply wildcard_dot; eauto|apply Hd, Hi].
  - exact He.
  - intros d Hn. destruct (decide (h = d)) as [->|Hne]; [rewrite !lookup_insert_eq; reflexivity|].
    rewrite !lookup_insert_ne by exact Hne. apply Hr, Hn.
  - exact Hd.
Qed.

Lemma include_host_inv u p h : wf_host h -> parser_inv p -> parser_inv (include_host u p h).
Proof.
  intros Hw [He Hr Hd]. unfold include_host, append_to. destruct (wildcard h) as [t|] eqn:Ew; split; cbn.
  - rewrite dom_insert_L, He. reflexivity.
  - intros d. destruct (decide (t = d)) as [->|Hn]; [rewrite lookup_insert_eq; discriminate|].
    rewrite !lookup_insert_ne by exact Hn. apply Hr.
  - intros d. rewrite dom_insert, elem_of_union, elem_of_singleton.
    intros [->|Hi]; [eapply wildcard_dot; eauto|apply Hd, Hi].
  - exact He.
  - intros d Hn. destruct (decide (h = d)) as [->|Hne].
    + rewrite !lookup_insert_eq, (Hr d Hn). reflexivity.
    + rewrite !lookup_insert_ne by exact Hne. apply Hr, Hn.
  - exact Hd.
Qed.

Lemma fold_inv (f : configParser -> bytes -> configParser) p hs :
  (forall p h, wf_host h -> parser_inv p -> parser_inv (f p h)) ->
  Forall wf_host hs -> parser_inv p -> parser_inv (fold_left f hs p).
Proof. intros Hf Hw. revert p. induction Hw; cbn; auto. Qed.

Context (AddressToUpstream : bytes -> result Upstream).
Context (ValidateDomainName : bytes -> option error).
(** A label of a domain name is not an asterisk. *)
Hypothesis validate_star : ValidateDomainName (str "*") <> None.

Lemma split_domains_wf hosts ds :
  split_domains ValidateDomainName hosts = Ok ds -> Forall wf_host ds.
Proof.
  revert ds; induction hosts as [|h hosts IH]; intros ds; cbn [split_domains].
  - intros [= <-]. constructor.
  - intros Hs. inv_bind Hs. inv_bind Hs. injection Hs as <-. constructor; [|apply IH; reflexivity].
    destruct h as [|b h]; [injection E as <-; left; reflexivity|].
    destruct (ValidateDomainName (TrimPrefix (b :: h) _)) eqn:Ev; [discriminate E|].
    assert (a = ToLower ((b :: h) ++ [dot])) as -> by congruence. right.
    exists (ToLower (b :: h)). split; [exact (fmap_app lower_byte (b :: h) [dot])|].
    split; [cbn; discriminate|].
    intros Hstar. assert (b :: h = str "*") as Hbh.
    { change (str "*") with [42] in *. destruct h; [|discriminate]. injection Hstar as Hb. f_equal. revert Hb.
      unfold lower_byte. case_goal; to_prop; lia. }
    rewrite Hbh in Ev. exact (validate_star Ev).
Qed.

Lemma splitConfigLine_wf l us ds :
  splitConfigLine ValidateDomainName l = Ok (us, ds) -> Forall wf_host ds.
Proof.
  unfold splitConfigLine. case_goal; [intros [= <- <-]; constructor|].
  destruct (Cut _ _) as [[dl ul] [|]]; [|discriminate]. destruct ul; [discriminate|].
  intros Hs. inv_bind Hs. injection Hs as _ <-. eapply split_domains_wf, E.
Qed.

Lemma specifyUpstream_inv p ds u :
  Forall wf_host ds -> parser_inv p -> parser_inv (fst (specifyUpstream AddressToUpstream p ds u)).
Proof.
  intros Hw Hp. unfold specifyUpstream.
  assert (Hadd : forall q x, parser_inv q -> parser_inv (match ds with
    | [] => mkParser (upstreamsIndex q) (domainReservedUpstreams q) (specifiedDomainUpstreams q)
              (subdomainsOnlyUpstreams q) (subdomainsOnlyExclusions q) (upstreams q ++ [x])
    | _ => includeToReserved q x ds end)).
  { intros q x Hq. destruct ds; [destruct Hq; split; auto|].
    apply fold_inv; auto. intros; apply include_host_inv; auto. }
  destruct (upstreamsIndex p !! u); [apply Hadd, Hp|].
  destruct (AddressToUpstream u); [|exact Hp]. cbn [fst]. apply Hadd. destruct Hp; split; auto.
Qed.

Lemma parseLine_inv p l p' err :
  parser_inv p -> parseLine AddressToUpstream ValidateDomainName p l = Ret (p', err) -> parser_inv p'.
Proof.
  intros Hp. unfold parseLine. destruct l as [|c l]; [intros [= <- _]; exact Hp|].
  destruct (c =? 35); [intros [= <- _]; exact Hp|].
  destruct (splitConfigLine _ _) as [[us ds]|e] eqn:Es; [|intros [= <- _]; exact Hp].
  apply splitConfigLine_wf in Es. intros Hl. inv_bind Hl.
  destruct (_ && _); [injection Hl as <- _; apply fold_inv; auto using exclude_host_inv|].
  injection Hl as Hl. revert p Hp Hl. clear E. induction us as [|u us IH]; intros p Hp; cbn [specify_all].
  - intros [= <- _]. exact Hp.
  - pose proof (specifyUpstream_inv p ds u Es Hp) as Hs.
    destruct (specifyUpstream _ p ds u) as [p1 [e|]]; [intros [= <- _]; exact Hs|]. apply IH, Hs.
Qed.

Lemma parse_lines_inv p i ls p' errs :
  parser_inv p -> parse_lines AddressToUpstream ValidateDomainName p i ls = Ret (p', errs) ->
  parser_inv p'.
Proof.
  revert p i errs; induction ls as [|l ls IH]; intros p i errs Hp; cbn [parse_lines].
  - intros [= <- _]. exact Hp.
  - intros Hl. inv_bind Hl. destruct a as [p1 e]. inv_bind Hl. destruct a as [p2 es].
    injection Hl as <- _. eapply IH, E0. eapply parseLine_inv; eauto.
Qed.

(** The exact and the wildcard specifications determine a parsed config. *)
Lemma parse_parsed lines uc errs :
  ParseUpstreamsConfig AddressToUpstream ValidateDomainName lines = Ret (uc, errs) ->
  parsed_config uc.
Proof.
  unfold ParseUpstreamsConfig, parse. intros Hp. inv_bind Hp. destruct a as [p es].
  injection Hp as <- _. apply parse_lines_inv in E as [He Hr Hd].
  - exists (subdomainsOnlyUpstreams p). cbn. split; [exact He|]. split; [|exact Hd].
    apply map_eq. intros d. rewrite !lookup_union.
    destruct (subdomainsOnlyUpstreams p !! d) eqn:Ed; [cbn|rewrite (Hr d Ed); reflexivity].
    destruct (domainReservedUpstreams p !! d), (specifiedDomainUpstreams p !! d); reflexivity.
  - split; cbn; [reflexivity|reflexivity|]. intros d. rewrite dom_empty, elem_of_empty. tauto.
Qed.

Lemma IndexByte_last s : exists i, IndexByte (s ++ [dot]) dot = Some i.
Proof.
  induction s as [|b s [i Hi]]; cbn; [eauto|]. destruct (b =? dot); [eauto|]. rewrite Hi. cbn. eauto.
Qed.

(** The choice of upstreams does not panic. *)
Definition conf_total (uc : UpstreamConfig) : Prop :=
  forall fqdn, (exists ups, getUpstreamsForDomain uc fqdn = Ret ups)
               /\ exists ups, getUpstreamsForDS uc fqdn = Ret ups.

Lemma parsed_total uc : parsed_config uc -> conf_total uc.
Proof.
  intros (wild & He & _ & Hd).
  assert (Hdom : forall fqdn, exists ups, getUpstreamsForDomain uc fqdn = Ret ups).
  { intros fqdn. destruct (decide (ToLower fqdn ∈ SubdomainExclusions uc)) as [Hx|Hx];
      [|rewrite getUpstreamsForDomain_first by exact Hx; eauto].
    unfold getUpstreamsForDomain. case_goal; [eauto|].
    rewrite bool_decide_true by exact Hx. unfold lookupSubdomainExclusion.
    rewrite He in Hx. destruct (Hd _ Hx) as (d' & Hd').
    assert (exists a b, SplitAfter2 (ToLower fqdn) dot = [a; b]) as (a & b & ->).
    { unfold SplitAfter2. rewrite Hd'. destruct (IndexByte_last d') as [i ->]. eauto. }
    destruct (SpecifiedDomainUpstreams uc !! _) as [[|x l]|]; cbn [gbind index lookup list_lookup];
      repeat case_goal; eauto. }
  intros fqdn. split; [apply Hdom|]. unfold getUpstreamsForDS. destruct (after_dot fqdn); eauto.
Qed.

(** In a parsed configuration with default upstreams the choice always gives
    upstreams. *)
Lemma parsed_nonempty uc fqdn :
  parsed_config uc -> Upstreams uc <> [] ->
  exists ups, getUpstreamsForDomain uc fqdn = Ret ups /\ ups <> [].
Proof.
  intros (wild & He & _ & Hd) Hu.
  destruct (decide (ToLower fqdn ∈ SubdomainExclusions uc)) as [Hx|Hx].
  - unfold getUpstreamsForDomain. case_goal; [eauto|].
    rewrite bool_decide_true by exact Hx. unfold lookupSubdomainExclusion.
    rewrite He in Hx. destruct (Hd _ Hx) as (d' & Hd').
    assert (exists a b, SplitAfter2 (ToLower fqdn) dot = [a; b]) as (a & b & ->).
    { unfold SplitAfter2. rewrite Hd'. destruct (IndexByte_last d') as [i ->]. eauto. }
    destruct (SpecifiedDomainUpstreams uc !! _) as [[|x l]|];
      try (eexists; split; [reflexivity|discriminate]); cbn [gbind index lookup list_lookup];
      (destruct (DomainReservedUpstreams uc !! b) as [[|y l']|];
        [eauto|eexists; split; [reflexivity|discriminate]|eauto]).
  - rewrite getUpstreamsForDomain_first by exact Hx. eexists; split; [reflexivity|].
    destruct (first_match_spec uc (candidates (ToLower fqdn)))
      as [(pre & d & post & l & _ & _ & _ & ->)|[_ ->]]; [|exact Hu].
    destruct l; [exact Hu|discriminate].
Qed.


(** A line that is parsed and has nothing but space after the domains. *)
Definition blank_line (l : bytes) : Prop :=
  head l <> Some 35 /\ exists ds, splitConfigLine ValidateDomainName l = Ok ([], ds).

Lemma parseLine_panics p l :
  parseLine AddressToUpstream ValidateDomainName p l = Panic <-> blank_line l.
Proof using Type.
  unfold parseLine, blank_line. destruct l as [|c l].
  { split; [discriminate|]. intros [_ (ds & Hs)]. discriminate Hs. }
  destruct (Z.eqb_spec c 35) as [->|Hc]; [split; [discriminate|intros [Hh _]; destruct (Hh eq_refl)]|].
  destruct (splitConfigLine _ _) as [[[|u us] ds]|e].
  - split; [|reflexivity]. intros _. split; [cbn; congruence|eauto].
  - cbn. split; [case_goal; discriminate|]. intros [_ (ds' & [=])].
  - split; [discriminate|]. intros [_ (ds' & [=])].
Qed.

(** when parsing panics.  [ParseUpstreamsConfig] reports malformed lines as
    errors and returns, except for one kind of line: domains followed by
    nothing but white space, on which [upstreams[0]] is out of range. *)
Theorem ParseUpstreamsConfig_panics_iff lines :
  ParseUpstreamsConfig AddressToUpstream ValidateDomainName lines = Panic
  <-> exists l, In l lines /\ blank_line l.
Proof using Type.
  unfold ParseUpstreamsConfig, parse.
  assert (Hl : forall p i, parse_lines AddressToUpstream ValidateDomainName p i lines = Panic
    <-> exists l, In l lines /\ blank_line l).
  { induction lines as [|l ls IH]; intros p i; cbn [parse_lines].
    - split; [discriminate|]. intros (l & [] & _).
    - destruct (parseLine _ _ p l) as [[p1 e]|] eqn:El; cbn [gbind].
      + assert (~ blank_line l) as Hn by (rewrite <- (parseLine_panics p), El; discriminate).
        specialize (IH p1 (S i)). destruct (parse_lines _ _ p1 (S i) ls) as [[p2 es]|]; cbn [gbind].
        * split; [discriminate|]. intros (l' & [->|Hi] & Hb); [destruct (Hn Hb)|].
          destruct IH as [_ IH]. discriminate IH. eauto.
        * split; [|reflexivity]. intros _. destruct (proj1 IH eq_refl) as (l' & Hi & Hb).
          exists l'. split; [right; exact Hi|exact Hb].
      + split; [|reflexivity]. intros _. exists l. split; [left; reflexivity|].
        apply (parseLine_panics p), El. }
  specialize (Hl new_parser O).
  destruct (parse_lines _ _ new_parser 0 lines) as [[p es]|]; cbn [gbind].
  - split; [discriminate|]. intros Hb. apply Hl in Hb. discriminate.
  - split; [intros _; apply Hl; reflexivity|reflexivity].
Qed.

End ParserFacts.

Section PrivateFacts.
Context (ExtractReversedAddr : bytes -> result Prefix).

(** A domain whose network is looked up in the private subnets. *)
Definition subnet_domain (d : bytes) : Prop := exists pref, ExtractReversedAddr d = Ok pref /\ Bits pref <> 0.

(** A domain that private upstreams may be reserved for. *)
Definition private_domain (private : Addr -> bool) (d : bytes) : Prop :=
  exists pref, ExtractReversedAddr d = Ok pref
    /\ (Bits pref = 0 \/ private (Prefix_Addr pref) = true).

Lemma private_domain_error_Ret contains d :
  exists e, private_domain_error ExtractReversedAddr (Some contains) d = Ret e
    /\ (e = None <-> private_domain contains d).
Proof.
  unfold private_domain_error, private_domain. cbn [deref gbind].
  destruct (ExtractReversedAddr d) as [pref|e].
  - destruct (Z.eqb_spec (Bits pref) 0) as [Hz|Hz]; [eexists; split; [reflexivity|split; eauto 6]|].
    eexists; split; [reflexivity|].
    destruct (contains (Prefix_Addr pref)) eqn:Ep; cbn; [split; eauto 6|].
    split; [discriminate|]. intros (? & [= <-] & [?|?]); congruence.
  - eexists; split; [reflexivity|]. split; [discriminate|]. intros (? & [=] & _).
Qed.

Lemma private_errors_Ret contains ds :
  exists es, private_errors ExtractReversedAddr (Some contains) ds = Ret es
    /\ (es = [] <-> Forall (private_domain contains) ds).
Proof.
  induction ds as [|d ds (es & Hes & IH)]; cbn.
  { exists []. split; [reflexivity|]. split; [constructor|reflexivity]. }
  destruct (private_domain_error_Ret contains d) as (e & -> & He). cbn. rewrite Hes. cbn.
  eexists; split; [reflexivity|]. rewrite list.Forall_cons, <- He, <- IH.
  destruct e; cbn; split; try discriminate; tauto || (intros [? _]; discriminate).
Qed.

Lemma private_errors_nil ds :
  private_errors ExtractReversedAddr None ds = Panic <-> Exists subnet_domain ds.
Proof.
  induction ds as [|d ds IH]; cbn; [split; [discriminate|intros H; inversion H]|].
  rewrite Exists_cons. unfold private_domain_error at 1, subnet_domain at 1.
  assert (Htail : forall e, (let! errs := private_errors ExtractReversedAddr None ds in Ret (option_list e ++ errs)) = Panic
    <-> Exists subnet_domain ds).
  { intros e. rewrite <- IH. destruct (private_errors _ _ ds); cbn; split; congruence. }
  destruct (ExtractReversedAddr d) as [pref|e]; cbn [gbind deref].
  - destruct (Z.eqb_spec (Bits pref) 0) as [Hz|Hz]; cbn [gbind].
    + rewrite Htail. split; [tauto|]. intros [(? & [= <-] & ?)|?]; [contradiction|assumption].
    + split; eauto.
  - rewrite Htail. split; [tauto|]. intros [(? & [=] & _)|?]; assumption.
Qed.

Lemma sorted_keys_In (mp : dmap) d : In d (sorted_keys mp) <-> d ∈ dom mp.
Proof. unfold sorted_keys. rewrite <- list_elem_of_In, merge_sort_Permutation. apply elem_of_elements. Qed.

Lemma join_errors_None errs : join_errors errs = None <-> errs = [].
Proof. destruct errs; cbn; split; congruence. Qed.

(** a private upstream configuration is accepted exactly if it has default
    upstreams and every domain that upstreams are reserved for is the reverse
    form of a private address or of the whole address space. *)
Theorem ValidatePrivateConfig_spec private uc :
  ValidatePrivateConfig ExtractReversedAddr (Some private) (Some uc) = Ret None
  <-> Upstreams uc <> []
      /\ forall d, d ∈ dom (DomainReservedUpstreams uc) -> private_domain private d.
Proof.
  unfold ValidatePrivateConfig, validate. destruct (Upstreams uc) as [|u us].
  { case_goal; (split; [discriminate|intros [? _]; congruence]). }
  destruct (private_errors_Ret private (sorted_keys (DomainReservedUpstreams uc))) as (es & -> & Hes). cbn [gbind].
  setoid_rewrite <- sorted_keys_In. rewrite <- List.Forall_forall, <- Hes, <- join_errors_None.
  split; [intros [= ->]; split; [congruence|reflexivity]|intros [_ ->]; reflexivity].
Qed.

End PrivateFacts.

(** ** Concrete runs *)

Module UpstreamExamples.

Definition addr (a : bytes) : result Upstream := Ok (mkUpstream 0 a).
(** Accepts all names but an asterisk. *)
Definition valid (n : bytes) : option error :=
  if bool_decide (n = str "*") then Some (New "bad name") else None.

Definition doc_lines : list bytes :=
  [str "[/host.com/]1.2.3.4"; str "[/www.host.com/]2.3.4.5";
   str "[/maps.host.com/news.host.com/]#"; str "3.4.5.6"].

Definition config (lines : list bytes) : UpstreamConfig :=
  match ParseUpstreamsConfig addr valid lines with
  | Ret (uc, _) => uc
  | Panic => mkUpstreamConfig ∅ ∅ ∅ []
  end.

Definition answer (lines : list bytes) (name : string) : go (list bytes) :=
  let! ups := getUpstreamsForDomain (config lines) (str name) in Ret (Address <$> ups).

(** The example of the documentation of [ParseUpstreamsConfig]. *)
Example doc_example :
  (answer doc_lines "mail.host.com.", answer doc_lines "a.WWW.host.com.",
   answer doc_lines "maps.host.com.", answer doc_lines "a.news.host.com.",
   answer doc_lines "example.org.")
  = (Ret [str "1.2.3.4"], Ret [str "2.3.4.5"], Ret [str "3.4.5.6"], Ret [str "3.4.5.6"],
     Ret [str "3.4.5.6"]).
Proof. vm_compute. reflexivity. Qed.

(** A name that only its subdomains are reserved for is sent to the default
    upstreams although a domain two labels above it is reserved. *)
Example exclusion_skips_grandparent :
  let lines := [str "[/com/]1.1.1.1"; str "[/*.b.c.com/]2.2.2.2"; str "3.3.3.3"] in
  (answer lines "b.c.com.", answer lines "c.com.", answer lines "a.b.c.com.")
  = (Ret [str "3.3.3.3"], Ret [str "1.1.1.1"], Ret [str "2.2.2.2"]).
Proof. vm_compute. reflexivity. Qed.

Example blank_upstreams_panic :
  ParseUpstreamsConfig addr valid [str "[/host.com/] "] = Panic.
Proof. vm_compute. reflexivity. Qed.

End UpstreamExamples.

Lemma getUpstreamsForDomain_most_specific_witness :
  exists ups, getUpstreamsForDomain (UpstreamExamples.config UpstreamExamples.doc_lines)
      (str "mail.host.com.") = Ret ups.
Proof.
  destruct (getUpstreamsForDomain_most_specific
    (UpstreamExamples.config UpstreamExamples.doc_lines) (str "mail.host.com.")) as (ups & H & _).
  - apply (bool_decide_eq_false_1 (_ ∈ _)). vm_compute. reflexivity.
  - exists ups. exact H.
Defined.

