(* ===== verification/Bootstrap.v ===== *)
(** * Resolving the addresses of upstreams (internal/bootstrap, upstream/resolver.go,
      upstream/hostsresolver.go)

    The resolvers of host names that dialing uses: in parallel, one after another,
    from an upstream with or without a cache, and from hosts files; and dialing
    the addresses in their order.  A lookup takes place at a moment whose clock,
    answers and order of completion are arguments. *)

From stdpp Require Import gmap sorting.
From S2P Require Import Prelude DnsMsg RefDns NetIP Wire Upstreams.
#[local] Open Scope Z_scope.

Notation Network := string (only parsing).
Definition NetworkIP : Network := "ip".
Definition NetworkIP4 : Network := "ip4".
Definition NetworkIP6 : Network := "ip6".

(** A resolver at a moment. *)
Definition Resolver : Type := Network -> bytes -> go (result (list Addr)).

Definition ErrNoResolvers : error := New "no resolvers specified".

(** ** Combinations of resolvers *)

Section Combine.
(** [errors.FromRecovered] of the value of a panic. *)
Context (FromRecovered : error).

Definition lookupAsync (r : Resolver) (network : Network) (host : bytes) : result (list Addr) :=
  match r network host with Ret x => x | Panic => Err FromRecovered end.

(** The first success of the results as they arrive, or all errors. *)
Fixpoint receive (results : list (result (list Addr))) (errs : list error) : result (list Addr) :=
  match results with
  | [] => Err (Join errs)
  | Ok addrs :: _ => Ok addrs
  | Err e :: results => receive results (errs ++ [e])
  end.

(** [order] is the order in which the lookups of the resolvers end. *)
Definition ParallelResolver (rs : list Resolver) (order : list nat) : Resolver := fun network host =>
  match rs with
  | [] => Ret (Err ErrNoResolvers)
  | [r] => r network host
  | _ => Ret (receive (omap (fun i => (fun r => lookupAsync r network host) <$> rs !! i) order) [])
  end.

Fixpoint consequent (rs : list Resolver) (network : Network) (host : bytes) (errs : list error) : go (result (list Addr)) :=
  match rs with
  | [] => Ret (match join_errors errs with Some e => Err e | None => Ok [] end)
  | r :: rs =>
      let! x := r network host in
      match x with
      | Ok (a :: addrs) => Ret (Ok (a :: addrs))
      | Ok [] => consequent rs network host errs
      | Err e => consequent rs network host (errs ++ [e])
      end
  end.

Definition ConsequentResolver (rs : list Resolver) : Resolver := fun network host =>
  match rs with [] => Ret (Err ErrNoResolvers) | _ => consequent rs network host [] end.

Definition StaticResolver (addrs : list Addr) : Resolver := fun _ _ => Ret (Ok addrs).

(** [ByName] of the storage of hosts files. *)
Definition HostsResolver (ByName : bytes -> list Addr) : Resolver := fun network host =>
  if String.eqb network NetworkIP4 then Ret (Ok (List.filter Is4 (ByName host)))
  else if String.eqb network NetworkIP6 then Ret (Ok (List.filter Is6 (ByName host)))
  else if String.eqb network NetworkIP then Ret (Ok (ByName host))
  else Ret (Err (New "unsupported network %q")).
End Combine.

(** ** Dialing *)

(** golibs: comparing addresses by preference. *)
Class Preference := {
  PreferIPv4 : Addr -> Addr -> Z;
  PreferIPv6 : Addr -> Addr -> Z;
  SplitHostPort : bytes -> result (bytes * Z);
}.

(** [slices.SortStableFunc], by insertion. *)
Fixpoint insert_by {A} (cmp : A -> A -> Z) (x : A) (l : list A) : list A :=
  match l with
  | [] => [x]
  | y :: l' => if 0 <? cmp x y then y :: insert_by cmp x l' else x :: l
  end.
Definition SortStableFunc {A} (cmp : A -> A -> Z) (l : list A) : list A := foldr (insert_by cmp) [] l.

Section Dial.
Context {PR : Preference}.
Context {C : Type}.

(** [dial i a] is the attempt to dial the address [a] that is the [i]-th. *)
Fixpoint dial_loop (dial : nat -> Addr * Z -> result C) (i : nat) (addrs : list (Addr * Z)) (errs : list error) : result C :=
  match addrs with
  | [] => Err (Join errs)
  | a :: addrs =>
      match dial i a with
      | Ok c => Ok c
      | Err e => dial_loop dial (S i) addrs (errs ++ [e])
      end
  end.

Definition NewDialContext (addrs : list (Addr * Z)) (dial : nat -> Addr * Z -> result C) : result C :=
  match addrs with [] => Err (New "no addresses") | _ => dial_loop dial 0 addrs [] end.

(** The addresses to dial for a host with a port; [r] is nil if [None]. *)
Definition ResolveDialContext (hostport : bytes) (r : option Resolver) (preferV6 : bool) : go (result (list (Addr * Z))) :=
  let dialing x := match x with Err e => Err (Errorf "dialing %q: %w" e) | Ok a => Ok a end in
  match SplitHostPort hostport with
  | Err e => Ret (dialing (Err e))
  | Ok (host, port) =>
      match r with
      | None => Ret (dialing (Err (Errorf "resolver is nil: %w" ErrNoResolvers)))
      | Some r =>
          let! x := r NetworkIP host in
          match x with
          | Err e => Ret (dialing (Err (Errorf "resolving hostname: %w" e)))
          | Ok ips =>
              let ips := SortStableFunc (if preferV6 then PreferIPv6 else PreferIPv4) ips in
              Ret (Ok ((fun ip => (ip, port)) <$> ips))
          end
      end
  end.
End Dial.

(** ** Looking up with an upstream *)

(** A nil slice is [None]; the zero time is [None]. *)
Record ipResult := mkResult { expire : option Time; addrs : option (list Addr) }.

(** Appending to a slice that may be nil. *)
Definition go_append {A} (s : option (list A)) (l : list A) : option (list A) :=
  match l with [] => s | _ => Some (default [] s ++ l) end.

Section UpstreamResolver.
Context {DN : DnsNames}.

(** What happens during a lookup: the clock, the exchanges, the identifiers of the
    requests, and whether the lookup of IPv6 addresses ends first. *)
Record moment := mkMoment {
  now : Time;
  exchange : Msg -> go (option Msg * option error);
  newId : Z -> Z;
  ip6_first : bool;
}.

Definition bootstrap_request (id : Z) (host : bytes) (qtype : Z) : Msg :=
  mkMsg (mkMsgHdr id false 0 false false true false false false false 0) false [mkQ host qtype ClassINET] [] [] [].

(** Whether a response may be trusted. *)
Definition valid_bootstrap (req : Msg) (resp : option Msg) : option Msg :=
  match resp with
  | Some resp =>
      if Response (Hdr resp) && (Id (Hdr resp) =? Id (Hdr req)) && (Opcode (Hdr resp) =? Opcode (Hdr req))
         && bool_decide (Question resp = Question req) && (Rcode (Hdr resp) =? RcodeSuccess)
      then Some resp else None
  | None => None
  end.

(** The addresses of the records of a type, and the least TTL. *)
Definition answer_addr (qtype : Z) (rr : RR) : option Addr :=
  if rrtype rr =? qtype then (let ip := IPFromRR rr in if IsValid ip then Some ip else None) else None.
Definition min_ttl (qtype : Z) (ans : list RR) : Z :=
  foldl (fun t rr => match answer_addr qtype rr with Some _ => Z.min t (ttl_of rr) | None => t end) MaxUint32 ans.

Definition request (mo : moment) (host : bytes) (network : Network) : go (result ipResult) :=
  let! qtype := if String.eqb network NetworkIP4 then Ret TypeA
                else if String.eqb network NetworkIP6 then Ret TypeAAAA else Panic in
  let req := bootstrap_request (newId mo qtype) host qtype in
  let! (resp, err) := exchange mo req in
  match err with
  | Some e => Ret (Err e)
  | None =>
      match valid_bootstrap req resp with
      | None => Ret (Err (New "invalid bootstrap DNS response"))
      | Some resp =>
          Ret (Ok (mkResult (Some (now mo + min_ttl qtype (Answer resp) * Second))
                     (Some (omap (answer_addr qtype) (Answer resp)))))
      end
  end.

(** Adding the result of a family to that of both. *)
Definition add_result (acc : ipResult * list error) (x : result ipResult) : ipResult * list error :=
  let '(r, errs) := acc in
  match x with
  | Err e => (r, errs ++ [e])
  | Ok res =>
      let earlier := match expire r, expire res with
                     | None, _ => true
                     | Some t, Some t' => t' <? t
                     | Some t, None => true
                     end in
      (mkResult (if earlier then expire res else expire r) (go_append (addrs r) (default [] (addrs res))), errs)
  end.

Definition lookupNetIP (mo : moment) (network : Network) (host : bytes) : go (result ipResult) :=
  if String.eqb network NetworkIP4 || String.eqb network NetworkIP6 then request mo host network
  else if String.eqb network NetworkIP then
    let! r4 := request mo host NetworkIP4 in
    let! r6 := request mo host NetworkIP6 in
    let '(res, errs) := foldl add_result (mkResult None None, []) (if ip6_first mo then [r6; r4] else [r4; r6]) in
    Ret (match join_errors errs with Some e => Err e | None => Ok res end)
  else Ret (Err (New "unsupported network %s")).

(** [ctx_err] is [ctx.Err()]. *)
Definition UpstreamResolver_LookupNetIP (mo : moment) (ctx_err : option error) (network : Network) (host : bytes)
    : go (result (list Addr)) :=
  match ctx_err with
  | Some e => Ret (Err e)
  | None =>
      match host with
      | [] => Ret (Ok [])
      | _ =>
          let! x := lookupNetIP mo network (Fqdn (ToLower host)) in
          Ret (match x with Ok res => Ok (default [] (addrs res)) | Err e => Err e end)
      end
  end.

(** ** The cache *)

Definition findCached (cache : gmap bytes ipResult) (host : bytes) (now : Time) : option (list Addr) :=
  match cache !! host with
  | None => None
  | Some res =>
      if match expire res with Some t => t <? now | None => true end then None else addrs res
  end.

Definition setCached (host : bytes) (res : ipResult) (cache : gmap bytes ipResult) : gmap bytes ipResult :=
  <[host := res]> cache.

Definition CachingResolver_LookupNetIP (mo : moment) (network : Network) (host : bytes) (cache : gmap bytes ipResult)
    : go (result (list Addr) * gmap bytes ipResult) :=
  let host := Fqdn (ToLower host) in
  match findCached cache host (now mo) with
  | Some addrs => Ret (Ok addrs, cache)
  | None =>
      let! x := lookupNetIP mo network host in
      match x with
      | Err e => Ret (Err e, cache)
      | Ok res => Ret (Ok (default [] (addrs res)), setCached host res cache)
      end
  end.
End UpstreamResolver.

(** ** Facts *)

Section CombineFacts.
Context (FromRecovered : error).

Lemma receive_spec results : forall errs,
  match receive results errs with
  | Ok a => Ok a ∈ results
  | Err e => exists es, results = Err <$> es /\ e = Join (errs ++ es)
  end.
Proof.
  induction results as [|[a|e] results IH]; intros errs; cbn [receive].
  - exists []. rewrite app_nil_r. auto.
  - left.
  - specialize (IH (errs ++ [e])). destruct (receive results _) as [a|e'].
    + right. exact IH.
    + destruct IH as (es & -> & ->). exists (e :: es). rewrite <- app_assoc. auto.
Qed.

Lemma omap_lookup_seq {A B} (f : A -> B) (pre l : list A) :
  omap (fun i => f <$> (pre ++ l) !! i) (seq (length pre) (length l)) = f <$> l.
Proof.
  revert pre. induction l as [|x l IH]; intros pre; [reflexivity|]. cbn [length seq omap list_omap].
  rewrite list_lookup_middle by reflexivity. cbn. f_equal. rewrite (cons_middle x pre l), app_assoc.
  specialize (IH (pre ++ [x])). rewrite length_app in IH. cbn [length] in IH. rewrite Nat.add_1_r in IH. exact IH.
Qed.

Lemma results_arrive rs order network host : order ≡ₚ seq 0 (length rs) ->
  omap (fun i => (fun r => lookupAsync FromRecovered r network host) <$> rs !! i) order
  ≡ₚ (fun r => lookupAsync FromRecovered r network host) <$> rs.
Proof. intros ->. rewrite (omap_lookup_seq _ [] rs). reflexivity. Qed.

(** Looking up with several resolvers at once succeeds if any of them does, in
    whatever order they end, with the result of one that succeeded, and a
    resolver that panics only fails; otherwise the error is that of all. *)
Theorem parallel_resolves (rs : list Resolver) (order : list nat) (network : Network) (host : bytes)
    (Hn : (2 <= length rs)%nat) (Ho : order ≡ₚ seq 0 (length rs)) :
  exists x, ParallelResolver FromRecovered rs order network host = Ret x
    /\ match x with
       | Ok a => exists r, r ∈ rs /\ r network host = Ret (Ok a)
       | Err e => exists es, e = Join es /\ (Err <$> es) ≡ₚ (fun r => lookupAsync FromRecovered r network host) <$> rs
       end
    /\ ((exists e, x = Err e) <-> Forall (fun r => forall a, r network host <> Ret (Ok a)) rs).
Proof.
  unfold ParallelResolver. destruct rs as [|r1 [|r2 rs]]; [cbn in Hn; lia..|]. set (l := r1 :: r2 :: rs) in *.
  eexists. split; [reflexivity|]. pose proof (results_arrive l order network host Ho) as Hp.
  pose proof (receive_spec (omap (fun i => (fun r => lookupAsync FromRecovered r network host) <$> l !! i) order) []) as Hr.
  destruct (receive _ []) as [a|e].
  - rewrite Hp in Hr. apply list_elem_of_fmap in Hr as (r & Hr & Hin). unfold lookupAsync in Hr.
    assert (Hok : r network host = Ret (Ok a)) by (destruct (r network host) as [[]|]; congruence).
    split; [eauto|]. split; [intros [? ?]; discriminate|]. intros Hf. rewrite list.Forall_forall in Hf. destruct (Hf r Hin a Hok).
  - destruct Hr as (es & Hes & ->). rewrite Hes in Hp. split; [eauto|]. split; [|eauto]. intros _.
    apply list.Forall_forall. intros r Hin a Ha.
    assert (Hok : Ok a ∈ (fun r => lookupAsync FromRecovered r network host) <$> l).
    { apply list_elem_of_fmap. exists r. split; [|exact Hin]. unfold lookupAsync. rewrite Ha. reflexivity. }
    rewrite <- Hp in Hok. apply list_elem_of_fmap in Hok as (e & ? & _). discriminate.
Qed.
End CombineFacts.

(** *** Dialing *)

Class PreferenceLaws `{Preference} := {
  prefer4_total a b : PreferIPv4 a b <= 0 \/ PreferIPv4 b a <= 0;
  prefer4_trans a b c : PreferIPv4 a b <= 0 -> PreferIPv4 b c <= 0 -> PreferIPv4 a c <= 0;
  prefer4_family a b : Is4 a = true -> Is6 b = true -> 0 < PreferIPv4 b a;
  prefer6_total a b : PreferIPv6 a b <= 0 \/ PreferIPv6 b a <= 0;
  prefer6_trans a b c : PreferIPv6 a b <= 0 -> PreferIPv6 b c <= 0 -> PreferIPv6 a c <= 0;
  prefer6_family a b : Is6 a = true -> Is4 b = true -> 0 < PreferIPv6 b a;
}.

Section Sorting.
Context {A : Type} (cmp : A -> A -> Z).

Lemma insert_by_Permutation x l : insert_by cmp x l ≡ₚ x :: l.
Proof.
  induction l as [|y l IH]; cbn; [reflexivity|]. destruct (0 <? cmp x y); [|reflexivity]. rewrite IH. apply Permutation_swap.
Qed.

Lemma SortStableFunc_Permutation l : SortStableFunc cmp l ≡ₚ l.
Proof. induction l as [|x l IH]; cbn; [reflexivity|]. rewrite insert_by_Permutation, IH. reflexivity. Qed.

Hypothesis total : forall a b, cmp a b <= 0 \/ cmp b a <= 0.
Hypothesis trans : forall a b c, cmp a b <= 0 -> cmp b c <= 0 -> cmp a c <= 0.

Lemma insert_by_sorted x l :
  StronglySorted (fun a b => cmp a b <= 0) l -> StronglySorted (fun a b => cmp a b <= 0) (insert_by cmp x l).
Proof using total trans.
  induction 1 as [|y l Hs IH Hy]; cbn; [repeat constructor|].
  destruct (Z.ltb_spec 0 (cmp x y)) as [Hlt|Hle].
  - constructor; [exact IH|]. rewrite insert_by_Permutation. constructor; [|exact Hy]. destruct (total y x); [assumption|lia].
  - constructor; [constructor; assumption|]. constructor; [lia|]. eapply list.Forall_impl; [exact Hy|]. intros z Hz. eapply trans; eauto; lia.
Qed.

Lemma SortStableFunc_sorted l : StronglySorted (fun a b => cmp a b <= 0) (SortStableFunc cmp l).
Proof using total trans. induction l as [|x l IH]; cbn; [constructor|]. apply insert_by_sorted, IH. Qed.
End Sorting.

Lemma StronglySorted_lookup {A} (R : A -> A -> Prop) l i j x y :
  StronglySorted R l -> (i < j)%nat -> l !! i = Some x -> l !! j = Some y -> R x y.
Proof.
  intros Hs. revert i j. induction Hs as [|z l Hs IH Hz]; intros [|i] [|j] Hij Hx Hy; try discriminate; try lia.
  - injection Hx as ->. cbn in Hy. eapply Forall_lookup_1 in Hz; eauto.
  - eapply (IH i j); eauto. lia.
Qed.

Lemma dial_loop_spec {C} (dial : nat -> Addr * Z -> result C) : forall l i errs,
  match dial_loop dial i l errs with
  | Ok c => exists k a, l !! k = Some a /\ dial (i + k)%nat a = Ok c
              /\ forall j b, (j < k)%nat -> l !! j = Some b -> exists e, dial (i + j)%nat b = Err e
  | Err _ => forall j b, l !! j = Some b -> exists e, dial (i + j)%nat b = Err e
  end.
Proof.
  induction l as [|a l IH]; intros i errs; cbn [dial_loop]; [intros j b; rewrite lookup_nil; discriminate|].
  destruct (dial i a) as [c|e] eqn:Ed.
  - exists O, a. rewrite Nat.add_0_r. split; [reflexivity|]. split; [exact Ed|lia].
  - specialize (IH (S i) (errs ++ [e])). destruct (dial_loop dial (S i) l _) as [c|e'].
    + destruct IH as (k & b & Hk & Hd & Hf). exists (S k), b. rewrite <- Nat.add_succ_comm. split; [exact Hk|]. split; [exact Hd|].
      intros [|j] b' Hj Hb; [injection Hb as <-; rewrite Nat.add_0_r; eauto|].
      rewrite <- Nat.add_succ_comm. apply (Hf j b'); [lia|exact Hb].
    + intros [|j] b Hb; [injection Hb as <-; rewrite Nat.add_0_r; eauto|]. rewrite <- Nat.add_succ_comm. apply (IH j b Hb).
Qed.

Section DialFacts.
Context {PR : Preference} {PL : PreferenceLaws} {C : Type}.

(** Addresses of the preferred family come first. *)
Lemma sorted_by_family (preferV6 : bool) (ips : list Addr) i j a b :
  let l := SortStableFunc (if preferV6 then PreferIPv6 else PreferIPv4) ips in
  (i < j)%nat -> l !! i = Some a -> l !! j = Some b ->
  if preferV6 then ~ (Is4 a = true /\ Is6 b = true) else ~ (Is6 a = true /\ Is4 b = true).
Proof using PL.
  cbn. intros Hij Ex Ey. destruct preferV6; intros [H1 H2].
  - pose proof (StronglySorted_lookup _ _ _ _ _ _ (SortStableFunc_sorted _ prefer6_total prefer6_trans ips) Hij Ex Ey).
    pose proof (prefer6_family _ _ H2 H1). cbn in *. lia.
  - pose proof (StronglySorted_lookup _ _ _ _ _ _ (SortStableFunc_sorted _ prefer4_total prefer4_trans ips) Hij Ex Ey).
    pose proof (prefer4_family _ _ H2 H1). cbn in *. lia.
Qed.

(** Dialing an upstream by its name tries every address of the lookup, once
    each, those of the preferred family before the others, and gives the
    connection to the first that can be dialed: an address is dialed only if all
    before it failed, and there is an error only if all did. *)
Theorem dial_order (hostport host : bytes) (port : Z) (r : Resolver) (preferV6 : bool) (ips : list Addr)
    (dial : nat -> Addr * Z -> result C) (Hs : SplitHostPort hostport = Ok (host, port)) (Hr : r NetworkIP host = Ret (Ok ips)) :
  exists addrs, ResolveDialContext hostport (Some r) preferV6 = Ret (Ok addrs)
    /\ addrs ≡ₚ (fun ip => (ip, port)) <$> ips
    /\ (forall i j a b, (i < j)%nat -> addrs !! i = Some a -> addrs !! j = Some b ->
          if preferV6 then ~ (Is4 (fst a) = true /\ Is6 (fst b) = true) else ~ (Is6 (fst a) = true /\ Is4 (fst b) = true))
    /\ match NewDialContext addrs dial with
       | Ok c => exists k a, addrs !! k = Some a /\ dial k a = Ok c
                   /\ forall j b, (j < k)%nat -> addrs !! j = Some b -> exists e, dial j b = Err e
       | Err _ => forall j b, addrs !! j = Some b -> exists e, dial j b = Err e
       end.
Proof using PL.
  unfold ResolveDialContext. rewrite Hs, Hr. cbn [gbind]. eexists. split; [reflexivity|]. split; [|split].
  - rewrite SortStableFunc_Permutation. reflexivity.
  - intros i j a b Hij Ha Hb. rewrite list_lookup_fmap in Ha, Hb.
    destruct (SortStableFunc _ ips !! i) as [x|] eqn:Ex; [|discriminate]. destruct (SortStableFunc _ ips !! j) as [y|] eqn:Ey; [|discriminate].
    injection Ha as <-. injection Hb as <-. apply (sorted_by_family preferV6 ips i j x y Hij Ex Ey).
  - unfold NewDialContext. destruct (_ <$> _) as [|a l]; [intros j b; rewrite lookup_nil; discriminate|]. exact (dial_loop_spec dial (a :: l) 0 []).
Qed.
End DialFacts.

(** *** Lookups with an upstream *)

Section LookupFacts.
Context {DN : DnsNames}.

(** The address [a] is that of a record in a valid response to a query for [host];
    with its TTL it is good until [until]. *)
Definition answered (mo : moment) (host : bytes) (a : Addr) (until : Time) : Prop :=
  exists network qtype resp rr, (network, qtype) ∈ [(NetworkIP4, TypeA); (NetworkIP6, TypeAAAA)]
    /\ exchange mo (bootstrap_request (newId mo qtype) host qtype) = Ret (Some resp, None)
    /\ valid_bootstrap (bootstrap_request (newId mo qtype) host qtype) (Some resp) = Some resp
    /\ rr ∈ Answer resp /\ answer_addr qtype rr = Some a /\ until = now mo + ttl_of rr * Second.

Lemma valid_bootstrap_Some req resp m : valid_bootstrap req resp = Some m -> resp = Some m.
Proof. unfold valid_bootstrap. destruct resp; [|discriminate]. destruct (_ && _); congruence. Qed.

Lemma boot_min_ttl_le qtype ans : forall t,
  foldl (fun t rr => match answer_addr qtype rr with Some _ => Z.min t (ttl_of rr) | None => t end) t ans <= t
  /\ forall rr a, rr ∈ ans -> answer_addr qtype rr = Some a ->
     foldl (fun t rr => match answer_addr qtype rr with Some _ => Z.min t (ttl_of rr) | None => t end) t ans <= ttl_of rr.
Proof.
  induction ans as [|rr ans IH]; intros t; cbn [foldl].
  - split; [lia|]. intros rr a H. inversion H.
  - destruct (IH (match answer_addr qtype rr with Some _ => Z.min t (ttl_of rr) | None => t end)) as [H1 H2]. split.
    + destruct (answer_addr qtype rr); lia.
    + intros rr' a [->|Hin]%elem_of_cons Ha; [rewrite Ha in *; lia|eauto].
Qed.

Lemma request_sound mo host network res :
  request mo host network = Ret (Ok res) ->
  exists t l, expire res = Some t /\ addrs res = Some l /\ forall a, a ∈ l -> exists until, answered mo host a until /\ t <= until.
Proof.
  unfold request. intros H. inv_bind H. rename a into qtype. inv_bind H. destruct a as [resp err]. destruct err; [discriminate|].
  destruct (valid_bootstrap _ resp) as [m|] eqn:Ev; [|discriminate]. injection H as <-. cbn.
  pose proof (valid_bootstrap_Some _ _ _ Ev) as ->. do 2 eexists. split; [reflexivity|]. split; [reflexivity|].
  intros a (rr & Hin & Ha)%list_elem_of_omap. eexists. split.
  - assert (Hnet : (network, qtype) ∈ [(NetworkIP4, TypeA); (NetworkIP6, TypeAAAA)]).
    { destruct (String.eqb_spec network NetworkIP4) as [->|]; [injection E as <-; left|].
      destruct (String.eqb_spec network NetworkIP6) as [->|]; [injection E as <-; right; left|discriminate]. }
    exists network, qtype, m, rr. auto 10.
  - pose proof (proj2 (boot_min_ttl_le qtype (Answer m) MaxUint32) rr a Hin Ha). unfold min_ttl, Second. nia.
Qed.

Lemma go_append_default {A} (s : option (list A)) l : default [] (go_append s l) = default [] s ++ l.
Proof. destruct l; cbn; [rewrite app_nil_r|]; reflexivity. Qed.

Lemma lookupNetIP_sound mo network host res a :
  lookupNetIP mo network host = Ret (Ok res) -> a ∈ default [] (addrs res) ->
  exists t until, expire res = Some t /\ answered mo host a until /\ t <= until.
Proof.
  unfold lookupNetIP. destruct (_ || _).
  { intros H Ha. destruct (request_sound _ _ _ _ H) as (t & l & He & Hl & Hs). rewrite Hl in Ha.
    destruct (Hs a Ha) as (until & ? & ?). eauto. }
  destruct (String.eqb network NetworkIP); [|discriminate]. intros H Ha. inv_bind H. rename a0 into r4. inv_bind H. rename a0 into r6.
  destruct r4 as [r4|e4], r6 as [r6|e6]; [|destruct (ip6_first mo); discriminate..].
  destruct (request_sound _ _ _ _ E) as (t4 & l4 & He4 & Hl4 & Hs4). destruct (request_sound _ _ _ _ E0) as (t6 & l6 & He6 & Hl6 & Hs6).
  assert (Hres : expire res = Some (Z.min t4 t6) /\ (a ∈ l4 \/ a ∈ l6)).
  { destruct (ip6_first mo); injection H as <-; cbn [foldl add_result expire addrs] in Ha |- *;
      rewrite !go_append_default, Hl4, Hl6 in Ha; rewrite He4, He6; cbn [default app] in Ha; apply elem_of_app in Ha;
      (split; [destruct (Z.ltb_spec t4 t6), (Z.ltb_spec t6 t4); f_equal; lia|tauto]). }
  destruct Hres as [He [Hin|Hin]].
  - destruct (Hs4 a Hin) as (until & ? & ?). exists (Z.min t4 t6), until. split; [exact He|]. split; [assumption|lia].
  - destruct (Hs6 a Hin) as (until & ? & ?). exists (Z.min t4 t6), until. split; [exact He|]. split; [assumption|lia].
Qed.

(** A sequence of lookups with one cache. *)
Fixpoint lookups (l : list (moment * Network * bytes)) (cache : gmap bytes ipResult)
    : go (list (result (list Addr)) * gmap bytes ipResult) :=
  match l with
  | [] => Ret ([], cache)
  | (mo, network, host) :: l =>
      let! (x, cache) := CachingResolver_LookupNetIP mo network host cache in
      let! (rs, cache) := lookups l cache in
      Ret (x :: rs, cache)
  end.

(** The entries of the cache are results of the lookups before. *)
Definition from_lookups (before : list (moment * Network * bytes)) (cache : gmap bytes ipResult) : Prop :=
  forall h res, cache !! h = Some res -> exists mo network host, (mo, network, host) ∈ before
    /\ Fqdn (ToLower host) = h /\ lookupNetIP mo network h = Ret (Ok res).

Lemma caching_step before mo network host cache x cache' :
  from_lookups before cache -> CachingResolver_LookupNetIP mo network host cache = Ret (x, cache') ->
  from_lookups (before ++ [(mo, network, host)]) cache'
  /\ forall l a, x = Ok l -> a ∈ l -> exists mo' network' host' until,
       ((mo', network', host') ∈ before /\ now mo <= until \/ mo' = mo /\ network' = network)
       /\ Fqdn (ToLower host') = Fqdn (ToLower host) /\ answered mo' (Fqdn (ToLower host)) a until.
Proof.
  intros Hc. unfold CachingResolver_LookupNetIP.
  assert (Hold : from_lookups (before ++ [(mo, network, host)]) cache).
  { intros h res Hh. destruct (Hc h res Hh) as (m' & n' & h' & Hin & ?). exists m', n', h'. split; [apply elem_of_app; auto|auto]. }
  destruct (findCached cache _ (now mo)) as [l|] eqn:Ef.
  - intros [= <- <-]. split; [exact Hold|]. intros l' a [= <-] Ha. unfold findCached in Ef.
    destruct (cache !! Fqdn (ToLower host)) as [res|] eqn:Eh; [|discriminate].
    destruct (Hc _ _ Eh) as (m' & n' & h' & Hin & Hh & Hl). destruct (expire res) as [t|] eqn:Et; [|discriminate].
    destruct (Z.ltb_spec t (now mo)); [discriminate|].
    destruct (lookupNetIP_sound _ _ _ _ a Hl) as (t' & until & Ht' & Han & Hle); [rewrite Ef; exact Ha|].
    exists m', n', h', until. split; [left; split; [exact Hin|]|auto]. rewrite Et in Ht'. injection Ht' as <-. lia.
  - intros H. inv_bind H. destruct a as [res|e]; injection H as <- <-.
    + split.
      * intros h r. unfold setCached. destruct (decide (h = Fqdn (ToLower host))) as [->|Hne].
        -- rewrite lookup_insert_eq. intros [= <-]. exists mo, network, host. split; [apply elem_of_app; right; left|auto].
        -- rewrite lookup_insert_ne by congruence. apply Hold.
      * intros l a [= <-] Ha. destruct (lookupNetIP_sound _ _ _ _ a E Ha) as (t & until & _ & Han & _).
        exists mo, network, host, until. auto.
    + split; [exact Hold|discriminate].
Qed.

(** C35: The cache of a resolver never makes up or outlives an address: every
    address that a lookup returns was in a valid answer, of this or of an earlier
    lookup, to a query for this very name, and if it is from an earlier one its
    TTL has not passed. *)
Theorem caching_fresh (l : list (moment * Network * bytes)) (rs : list (result (list Addr))) (cache : gmap bytes ipResult)
    (i : nat) (mo : moment) (network : Network) (host : bytes) (addrs : list Addr) (a : Addr)
    (Hl : lookups l ∅ = Ret (rs, cache)) (Hi : l !! i = Some (mo, network, host)) (Hr : rs !! i = Some (Ok addrs)) (Ha : a ∈ addrs) :
  exists mo' network' host' until,
    ((mo', network', host') ∈ take i l /\ now mo <= until \/ mo' = mo /\ network' = network)
    /\ Fqdn (ToLower host') = Fqdn (ToLower host) /\ answered mo' (Fqdn (ToLower host)) a until.
Proof.
  assert (Hgen : forall l before c, from_lookups before c -> lookups l c = Ret (rs, cache) -> l !! i = Some (mo, network, host) ->
    rs !! i = Some (Ok addrs) -> exists mo' network' host' until,
    ((mo', network', host') ∈ before ++ take i l /\ now mo <= until \/ mo' = mo /\ network' = network)
    /\ Fqdn (ToLower host') = Fqdn (ToLower host) /\ answered mo' (Fqdn (ToLower host)) a until).
  { clear l Hl Hi Hr. revert i rs. intros i rs l. revert i rs. induction l as [|[[m n] h] l IH]; intros i rs before c Hc Hx Hi Hr; [discriminate|].
    cbn [lookups] in Hx. inv_bind Hx. destruct a0 as [x c1]. inv_bind Hx. destruct a0 as [rs1 c2]. injection Hx as <- <-.
    destruct (caching_step _ _ _ _ _ _ _ Hc E) as [Hc1 Hx]. destruct i as [|i].
    - injection Hi as -> -> ->. injection Hr as ->. destruct (Hx addrs a eq_refl Ha) as (m' & n' & h' & u & H1 & H2).
      exists m', n', h', u. rewrite app_nil_r. auto.
    - destruct (IH i rs1 _ _ Hc1 E0 Hi Hr) as (m' & n' & h' & u & H1 & H2). exists m', n', h', u. split; [|exact H2].
      rewrite <- app_assoc in H1. exact H1. }
  apply (Hgen l [] ∅); auto. intros h res. rewrite lookup_empty. discriminate.
Qed.
End LookupFacts.

(** The cache does not tell networks apart: what a lookup of one family stored is
    what a lookup of the other gets, as long as it is good. *)
Lemma cache_ignores_network `{DnsNames} mo mo' network network' host res cache :
  cache !! Fqdn (ToLower host) = None ->
  lookupNetIP mo network (Fqdn (ToLower host)) = Ret (Ok res) ->
  (forall t, expire res = Some t -> now mo' <= t) -> expire res <> None -> addrs res <> None ->
  exists cache', CachingResolver_LookupNetIP mo network host cache = Ret (Ok (default [] (addrs res)), cache')
    /\ CachingResolver_LookupNetIP mo' network' host cache' = Ret (Ok (default [] (addrs res)), cache').
Proof.
  intros Hc Hl Ht He Ha. unfold CachingResolver_LookupNetIP, findCached. rewrite Hc, Hl. cbn [gbind].
  eexists. split; [reflexivity|]. unfold setCached. rewrite lookup_insert_eq.
  destruct (expire res) as [t|]; [|congruence]. rewrite (proj2 (Z.ltb_ge _ _)) by auto.
  destruct (addrs res); [reflexivity|congruence].
Qed.

Module BootstrapExamples.
#[export] Instance names : DnsNames := fun s => s ++ [46].
Definition rank (first second : Addr -> bool) (a : Addr) : Z := if first a then 0 else if second a then 1 else 2.
#[export] Instance preference : Preference := {|
  PreferIPv4 a b := rank Is4 Is6 a - rank Is4 Is6 b;
  PreferIPv6 a b := rank Is6 Is4 a - rank Is6 Is4 b;
  SplitHostPort b := Ok (b, 853);
|}.

(** A server with an address of each family for a name, and none for another. *)
Definition answer (q : Question_t) : list RR :=
  if bool_decide (QName q = str "a.") then
    if Qtype q =? TypeA then [mkRR (mkHdr (QName q) TypeA 1 60) (RD_A (Some [192; 0; 2; 1]))]
    else [mkRR (mkHdr (QName q) TypeAAAA 1 300) (RD_AAAA (Some (replicate 15 0 ++ [1])))]
  else [].
Definition at_time (t : Time) : moment :=
  mkMoment t (fun req => Ret (Some (mkMsg (mkMsgHdr (Id (Hdr req)) true 0 false false true true false false false 0) false
                               (Question req) (concat (answer <$> Question req)) [] []), None)) (fun _ => 7) true.

Definition v4 : Addr := Addr4 [192; 0; 2; 1].
Definition v6 : Addr := Addr6 (replicate 15 0 ++ [1]) [].

(** The first lookup asks, the second one takes from the cache, and after the least
    TTL the third one asks again; a lookup of IPv6 addresses gets IPv4 ones. *)
Definition asks : list (moment * string * bytes) :=
  [(at_time 0, NetworkIP, str "A"); (at_time (60 * Second), NetworkIP6, str "a"); (at_time (61 * Second), NetworkIP4, str "a");
   (at_time (62 * Second), NetworkIP6, str "a")].
Example asked_results :
  (let! (rs, _) := lookups asks ∅ in Ret rs) = Ret [Ok [v6; v4]; Ok [v6; v4]; Ok [v4]; Ok [v4]].
Proof. vm_compute. reflexivity. Qed.

(** An answer without addresses stays for 136 years. *)
Example empty_answer :
  (let! (rs, cache) := lookups [(at_time 0, NetworkIP4, str "b")] ∅ in Ret (rs, expire <$> cache !! str "b."))
  = Ret ([Ok []], Some (Some (MaxUint32 * Second))).
Proof. vm_compute. reflexivity. Qed.
End BootstrapExamples.
Import BootstrapExamples.

#[export] Instance preference_laws : PreferenceLaws.
Proof. split; cbn; intros; try lia; unfold rank; destruct a, b; try discriminate; cbn; lia. Qed.

Lemma parallel_resolves_witness :
  exists x, ParallelResolver (New "panic") [StaticResolver [v4]; fun _ _ => Panic] [1%nat; 0%nat] NetworkIP (str "a") = Ret x.
Proof.
  destruct (parallel_resolves (New "panic") [StaticResolver [v4]; fun _ _ => Panic] [1%nat; 0%nat] NetworkIP (str "a"))
    as (x & Hx & _); [cbn; lia|apply Permutation_swap|]. exists x. exact Hx.
Defined.

Lemma dial_order_witness :
  exists addrs, ResolveDialContext (str "a") (Some (StaticResolver [v6; v4])) false = Ret (Ok addrs)
    /\ addrs ≡ₚ [(v6, 853); (v4, 853)].
Proof.
  destruct (dial_order (PR := preference) (C := unit) (str "a") (str "a") 853 (StaticResolver [v6; v4]) false [v6; v4] (fun _ _ => Ok tt) eq_refl eq_refl)
    as (addrs & Hx & Hp & _). exists addrs. split; [exact Hx|exact Hp].
Defined.

Lemma caching_fresh_witness :
  exists mo' network' host' until,
    ((mo', network', host') ∈ take 1 asks /\ 60 * Second <= until \/ mo' = at_time (60 * Second) /\ network' = NetworkIP6)
    /\ Fqdn (ToLower host') = str "a." /\ answered mo' (str "a.") v4 until.
Proof.
  destruct (lookups asks ∅) as [[rs cache]|] eqn:E; [|vm_compute in E; discriminate].
  apply (caching_fresh asks rs cache 1 (at_time (60 * Second)) NetworkIP6 (str "a") [v6; v4] v4 E).
  - reflexivity.
  - vm_compute in E. injection E as <- _. reflexivity.
  - right. left.
Defined.
