(* ===== verification/NetUtil.v ===== *)
(** * The interface of the network helpers

    Functions that dnsproxy imports from [golibs/netutil]: operations, the
    documented behaviour its clients rely on, and an instance. *)

From S2P Require Import Prelude NetIP.

Class NetUtil := {
  (** Whether an address is in a special-purpose registry. *)
  IsSpecialPurpose : Addr -> bool;
  (** The prefix and the address written in an ARPA domain name. *)
  ExtractReversedAddr : bytes -> result Prefix;
  IPFromReversedAddr : bytes -> result Addr;
  (** Conversions of [net.IP]. *)
  IPToAddr4 : IP -> result Addr;
  IPToAddr6 : IP -> result Addr;
  IPToAddrNoMapped : IP -> result Addr;
  (** [netutil.SliceSubnetSet.Contains] *)
  SliceSubnetSet_Contains : list Prefix -> Addr -> bool;
  (** The length limit of domain names. *)
  MaxDomainNameLen : nat;
}.

Class NetUtilLaws `{NetUtil} := {
  IPToAddr4_spec ip : match To4 ip with
    | Some b => IPToAddr4 ip = Ok (Addr4 b)
    | None => exists e, IPToAddr4 ip = Err e
    end;
  IPToAddr6_spec ip : match To16 ip with
    | Some b => IPToAddr6 ip = Ok (Addr6 b [])
    | None => exists e, IPToAddr6 ip = Err e
    end;
  IPToAddrNoMapped_spec ip : match To4 ip with
    | Some b => IPToAddrNoMapped ip = Ok (Addr4 b)
    | None => if (length (slice ip) =? IPv6len)%nat
              then IPToAddrNoMapped ip = Ok (Addr6 (slice ip) [])
              else exists e, IPToAddrNoMapped ip = Err e
    end;
  SliceSubnetSet_spec ps a : SliceSubnetSet_Contains ps a = existsb (fun p => Contains p a) ps;
  MaxDomainNameLen_spec : MaxDomainNameLen = 253%nat;
}.

(** Private and loopback addresses as special-purpose ones, no ARPA names. *)
#[export] Instance refNetUtil : NetUtil := {|
  IsSpecialPurpose a :=
    existsb (fun p => Contains p a)
      [mkPrefix (Addr4 [10; 0; 0; 0]) 8; mkPrefix (Addr4 [127; 0; 0; 0]) 8;
       mkPrefix (Addr4 [192; 168; 0; 0]) 16];
  ExtractReversedAddr _ := Err (New "not a reversed address");
  IPFromReversedAddr _ := Err (New "not a reversed address");
  IPToAddr4 ip := match To4 ip with Some b => Ok (Addr4 b) | None => Err (New "bad ipv4") end;
  IPToAddr6 ip := match To16 ip with Some b => Ok (Addr6 b []) | None => Err (New "bad ipv6") end;
  IPToAddrNoMapped ip :=
    match To4 ip with
    | Some b => Ok (Addr4 b)
    | None => if (length (slice ip) =? IPv6len)%nat then Ok (Addr6 (slice ip) []) else Err (New "bad ip")
    end;
  SliceSubnetSet_Contains ps a := existsb (fun p => Contains p a) ps;
  MaxDomainNameLen := 253;
|}.

#[export] Instance refNetUtil_laws : NetUtilLaws.
Proof.
  split; intros; cbn; try reflexivity; [destruct (To4 ip); eauto|destruct (To16 ip); eauto|].
  destruct (To4 ip); [reflexivity|]. destruct (_ =? _)%nat; eauto.
Qed.
