(* ===== verification/Dns64.v ===== *)
(** * DNS64 (proxy/dns64.go)

    Synthesis of AAAA records from A records.  [exch] stands for
    [exchangeUpstreams], which the proxy calls for the additional request. *)

From S2P Require Import Prelude NetIP DnsMsg NetUtil GlCache.

Section Dns64.
Context {NU : NetUtil}.

Definition maxNAT64PrefixBitLen : Z := 96.
Definition NAT64PrefixLength : nat := IPv6len - IPv4len.
Definition maxDNS64SynTTL : Z := 600.

(** 64:ff9b::/96 *)
Definition dns64WellKnownPref : Prefix :=
  mkPrefix (Addr6 ([0; 100; 255; 155] ++ replicate 12 0) []) 96.

Fixpoint setup_loop (acc prefs : list Prefix) : result (list Prefix) :=
  match prefs with
  | [] => Ok acc
  | pref :: prefs' =>
      if negb (Is6 (Prefix_Addr pref)) then Err (New "prefix at index %d: %q is not an ipv6 prefix")
      else if maxNAT64PrefixBitLen <? Bits pref
      then Err (New "prefix at index %d: %q is too long for dns64")
      else setup_loop (acc ++ [Masked pref]) prefs'
  end.

(** The value of [p.dns64Prefs] after a successful call. *)
Definition setupDNS64 (useDNS64 : bool) (dns64Prefs : list Prefix) : result (list Prefix) :=
  if negb useDNS64 then Ok []
  else match dns64Prefs with
  | [] => Ok [dns64WellKnownPref]
  | _ => setup_loop [] dns64Prefs
  end.

Section Prefs.
(** [p.dns64Prefs] *)
Context (dns64Prefs : list Prefix).

(** Whether [slices.DeleteFunc] deletes a record. *)
Definition nat64_excluded (rr : RR) : bool :=
  match Data rr with
  | RD_AAAA ip =>
      match IPToAddrNoMapped ip with
      | Err _ => true
      | Ok addr => SliceSubnetSet_Contains dns64Prefs addr
      end
  | _ => false
  end.

Definition is_aaaa (rr : RR) : bool := match Data rr with RD_AAAA _ => true | _ => false end.

Fixpoint filterNAT64Answers (rrs : list RR) : list RR * bool :=
  match rrs with
  | [] => ([], false)
  | rr :: rrs' =>
      let '(filtered, hasAnswers) := filterNAT64Answers rrs' in
      if nat64_excluded rr then (filtered, hasAnswers)
      else (rr :: filtered, is_aaaa rr || hasAnswers)
  end.

(** The additional request, if any, and the response with its answers
    filtered.  [id] is what [dns.Id] returns. *)
Definition checkDNS64 (req resp : Msg) (id : Z) : go (option Msg * Msg) :=
  match dns64Prefs with
  | [] => Ret (None, resp)
  | _ =>
      let! q := index (Question req) 0 in
      if negb (Qtype q =? TypeAAAA) || negb (Qclass q =? ClassINET) then Ret (None, resp)
      else if Rcode (Hdr resp) =? RcodeNameError then Ret (None, resp)
      else
        let '(answer, hasAnswers) :=
          if Rcode (Hdr resp) =? RcodeSuccess then filterNAT64Answers (Answer resp)
          else (Answer resp, false) in
        let resp := set_Answer answer resp in
        if hasAnswers then Ret (None, resp)
        else
          let qs := alter (fun q => mkQ (QName q) TypeA (Qclass q)) 0%nat (Question req) in
          Ret (Some (set_Question qs (set_Id id req)), resp)
  end.

Definition mapDNS64 (addr : Addr) : go bytes :=
  let! pref := index dns64Prefs 0 in
  let prefData := As16 (Prefix_Addr pref) in
  let! addrData := As4 addr in
  Ret (take NAT64PrefixLength prefData ++ addrData).

(** [Ret None] is the nil record of an invalid A record. *)
Definition synthRR (rr : RR) (soaTTL : Z) : go (option RR) :=
  match Data rr with
  | RD_A ip =>
      match IPToAddr4 ip with
      | Err _ => Ret None
      | Ok addr =>
          let! mapped := mapDNS64 addr in
          let h := Header rr in
          Ret (Some (mkRR (mkHdr (Name h) TypeAAAA (Class_ h) (Z.min (Ttl h) soaTTL))
                          (RD_AAAA (Some mapped))))
      end
  | _ => Ret (Some rr)
  end.

(** The TTL of the SOA record of the name asked for. *)
Fixpoint soa_ttl (name : bytes) (ns : list RR) : Z :=
  match ns with
  | [] => maxDNS64SynTTL
  | rr :: ns' =>
      if (rrtype rr =? TypeSOA) && bool_decide (Name (Header rr) = name)
      then ttl_of rr else soa_ttl name ns'
  end.

Fixpoint synth_all (rrs : list RR) (soaTTL : Z) : go (option (list RR)) :=
  match rrs with
  | [] => Ret (Some [])
  | rr :: rrs' =>
      let! r := synthRR rr soaTTL in
      match r with
      | None => Ret None
      | Some r =>
          let! rs := synth_all rrs' soaTTL in
          Ret (match rs with Some rs => Some (r :: rs) | None => None end)
      end
  end.

(** The changed original response, or [None] if it is left as it is. *)
Definition synthDNS64 (origReq origResp resp : Msg) : go (option Msg) :=
  match Answer resp with
  | [] => Ret None
  | _ =>
      let! q := index (Question origReq) 0 in
      let! newAns := synth_all (Answer resp) (soa_ttl (QName q) (Ns origResp)) in
      Ret (match newAns with
           | None => None
           | Some newAns => Some (set_Extra (Extra resp) (set_Ns (Ns resp) (set_Answer newAns origResp)))
           end)
  end.

Definition shouldStripDNS64 (req : Msg) : go bool :=
  match dns64Prefs with
  | [] => Ret false
  | _ =>
      let! q := index (Question req) 0 in
      if negb (Qtype q =? TypePTR) then Ret false
      else match IPFromReversedAddr (QName q) with
      | Err _ => Ret false
      | Ok ip => Ret (SliceSubnetSet_Contains dns64Prefs ip || Contains dns64WellKnownPref ip)
      end
  end.

(** [exch] returns the response, the upstream and the error; [W] is the state
    of the rest of the program. *)
Context {U W : Type} (exch : Msg -> W -> go (option Msg * option U * option error * W)).

(** The upstream that was used, the response, and the new state. *)
Definition performDNS64 (origReq : Msg) (origResp : option Msg) (id : Z) (w : W)
    : go (option U * option Msg * W) :=
  match origResp with
  | None => Ret (None, None, w)
  | Some origResp =>
      let! (dns64Req, origResp) := checkDNS64 origReq origResp id in
      match dns64Req with
      | None => Ret (None, Some origResp, w)
      | Some dns64Req =>
          let! (dns64Resp, u, err, w) := exch dns64Req w in
          match err, dns64Resp with
          | None, Some dns64Resp =>
              let! r := synthDNS64 origReq origResp dns64Resp in
              Ret (match r with
                   | Some origResp => (u, Some origResp, w)
                   | None => (None, Some origResp, w)
                   end)
          | _, _ => Ret (None, Some origResp, w)
          end
      end
  end.

End Prefs.
End Dns64.

(** ** Specification *)

(** Prefixes as [setupDNS64] stores them. *)
Definition wf_prefs (prefs : list Prefix) : Prop :=
  Forall (fun p => exists b n, p = mkPrefix (Addr6 (mask_bytes b n) []) n
    /\ length b = IPv6len /\ wf_bytes b /\ 0 <= n <= 96) prefs.

(** [r'] is the AAAA record that RFC 6147 prescribes for the record [r]. *)
Definition synthesized (pref : Prefix) (soaTTL : Z) (r r' : RR) : Prop :=
  match Data r with
  | RD_A ip => exists b4 b16, To4 ip = Some b4
      /\ r' = mkRR (mkHdr (Name (Header r)) TypeAAAA (Class_ (Header r)) (Z.min (ttl_of r) soaTTL))
                   (RD_AAAA (Some b16))
      /\ length b16 = IPv6len /\ drop 12 b16 = b4 /\ Contains pref (Addr6 b16 []) = true
  | _ => r' = r
  end.

Section Facts.
Context {NU : NetUtil} {NL : NetUtilLaws}.

Lemma mask_bytes_app a x n :
  0 <= n <= 8 * len a -> mask_bytes (a ++ x) n = mask_bytes a n ++ replicate (length x) 0.
Proof.
  revert n; induction a as [|b a IH]; intros n Hn; cbn [app].
  - cbn in Hn. replace n with 0 by lia. rewrite mask_bytes_0. reflexivity.
  - cbn [length] in Hn. rewrite !mask_bytes_cons. destruct (Z.leb_spec 8 n).
    + rewrite IH by lia. reflexivity.
    + rewrite IH by lia. reflexivity.
Qed.

(** Two addresses with the same first twelve bytes are in the same prefixes of
    at most 96 bits. *)
Lemma mask_bytes_take12 b b' n :
  length b = IPv6len -> length b' = IPv6len -> take 12 b = take 12 b' -> 0 <= n <= 96 ->
  mask_bytes b n = mask_bytes b' n.
Proof.
  unfold IPv6len. intros Hl Hl' Ht Hn. rewrite <- (take_drop 12 b), <- (take_drop 12 b').
  rewrite !mask_bytes_app by (rewrite length_take; lia).
  rewrite Ht, !length_drop, Hl, Hl'. reflexivity.
Qed.

Lemma setup_loop_wf acc prefs res :
  Forall (fun p => wf_addr (Prefix_Addr p) /\ 0 <= Bits p) prefs ->
  wf_prefs acc -> setup_loop acc prefs = Ok res ->
  wf_prefs res /\ length res = (length acc + length prefs)%nat.
Proof.
  intros Hw; revert acc; induction Hw as [|p ps [Ha Hb] Hw IH]; intros acc Hacc; cbn [setup_loop length].
  - intros [= <-]. split; [exact Hacc|lia].
  - unfold Is6, maxNAT64PrefixBitLen. destruct p as [[|b|b z] n]; try discriminate. cbn in *.
    destruct (Z.ltb_spec 96 n); [discriminate|]. intros Hs. apply IH in Hs as [Hr ->].
    { rewrite length_app. cbn. split; [exact Hr|lia]. }
    apply Forall_app. split; [exact Hacc|]. constructor; [|constructor].
    unfold Masked, Prefix_IsValid. cbn. destruct (Z.leb_spec 0 n), (Z.leb_spec n 128); try lia. cbn.
    destruct Ha. exists b, n. auto.
Qed.

Lemma well_known_wf : wf_prefs [dns64WellKnownPref].
Proof.
  constructor; [|constructor]. exists ([0; 100; 255; 155] ++ replicate 12 0), 96. cbn.
  repeat split; try lia. repeat constructor; discriminate.
Qed.

Lemma Contains_mapped p ps b4 :
  wf_prefs (p :: ps) -> length b4 = IPv4len ->
  Contains p (Addr6 (take 12 (As16 (Prefix_Addr p)) ++ b4) []) = true.
Proof.
  intros Hw Hl. apply Forall_cons_1 in Hw as [(b & n & -> & Hb & Hwb & Hn) _].
  unfold Contains, Prefix_IsValid. cbn.
  destruct (Z.leb_spec 0 n), (Z.leb_spec n 128); try lia. cbn.
  apply bool_decide_eq_true_2. unfold addr_bytes, IPv4len, IPv6len in *. cbn.
  apply mask_bytes_take12.
  - rewrite length_app, length_take, mask_bytes_length, Hb, Hl. reflexivity.
  - rewrite mask_bytes_length. exact Hb.
  - rewrite take_app_length'; [reflexivity|]. rewrite length_take, mask_bytes_length, Hb. reflexivity.
  - exact Hn.
Qed.

Lemma synthRR_spec p ps rr soaTTL :
  wf_prefs (p :: ps) ->
  match synthRR (p :: ps) rr soaTTL with
  | Panic => False
  | Ret None => exists ip, Data rr = RD_A ip /\ To4 ip = None
  | Ret (Some r) => synthesized p soaTTL rr r
  end.
Proof.
  intros Hw. unfold synthRR, synthesized. destruct (Data rr) as [ip| | | | | |]; try reflexivity.
  pose proof (IPToAddr4_spec ip) as Hip. destruct (To4 ip) as [b4|] eqn:E4.
  - rewrite Hip. cbn. exists b4. eexists. split; [reflexivity|]. split; [reflexivity|].
    pose proof (To4_Some_length _ _ E4) as Hl.
    assert (length (As16 (Prefix_Addr p)) = 16%nat) as H16.
    { apply Forall_cons_1 in Hw as [(b & n & -> & Hb & _) _]. cbn. rewrite mask_bytes_length. exact Hb. }
    split; [rewrite length_app, length_take, H16, Hl; reflexivity|].
    split; [rewrite drop_app_length'; [reflexivity|rewrite length_take, H16; reflexivity]|].
    eapply Contains_mapped; eauto.
  - destruct Hip as [e ->]. eauto.
Qed.

Lemma filterNAT64Answers_eq prefs rrs :
  filterNAT64Answers prefs rrs =
  let kept := List.filter (fun r => negb (nat64_excluded prefs r)) rrs in (kept, existsb is_aaaa kept).
Proof.
  induction rrs as [|r rrs IH]; [reflexivity|]. cbn [filterNAT64Answers List.filter]. rewrite IH.
  cbn zeta. destruct (nat64_excluded prefs r); reflexivity.
Qed.

(** The request for A records. *)
Definition a_request (req : Msg) (id : Z) : Msg :=
  set_Question (alter (fun q => mkQ (QName q) TypeA (Qclass q)) 0%nat (Question req)) (set_Id id req).

(** The answers that are not in the NAT64 prefixes. *)
Definition kept_answers (prefs : list Prefix) (m : Msg) : list RR :=
  List.filter (fun r => negb (nat64_excluded prefs r)) (Answer m).

(** The original response after the check. *)
Definition checked_resp (prefs : list Prefix) (m : Msg) : Msg :=
  if Rcode (Hdr m) =? RcodeSuccess then set_Answer (kept_answers prefs m) m else m.

(** DNS64 applies to IN AAAA queries that did not fail with NXDOMAIN and have
    no acceptable address. *)
Definition dns64_wanted (prefs : list Prefix) (q : Question_t) (m : Msg) : bool :=
  (Qtype q =? TypeAAAA) && (Qclass q =? ClassINET) && negb (Rcode (Hdr m) =? RcodeNameError)
  && negb ((Rcode (Hdr m) =? RcodeSuccess) && existsb is_aaaa (kept_answers prefs m)).

Lemma set_Answer_same m : set_Answer (Answer m) m = m.
Proof. destruct m; reflexivity. Qed.

Lemma checkDNS64_eq p ps req q resp id :
  Question req = [q] ->
  checkDNS64 (p :: ps) req resp id =
  Ret (if dns64_wanted (p :: ps) q resp then Some (a_request req id) else None,
       if (Qtype q =? TypeAAAA) && (Qclass q =? ClassINET) && negb (Rcode (Hdr resp) =? RcodeNameError)
       then checked_resp (p :: ps) resp else resp).
Proof.
  intros Hq. unfold checkDNS64, index, dns64_wanted, checked_resp, a_request. rewrite Hq. cbn [gbind lookup list_lookup].
  destruct (Qtype q =? TypeAAAA); cbn [negb orb andb]; [|reflexivity].
  destruct (Qclass q =? ClassINET); cbn [negb orb andb]; [|reflexivity].
  destruct (Rcode (Hdr resp) =? RcodeNameError); cbn [negb andb]; [reflexivity|].
  destruct (Rcode (Hdr resp) =? RcodeSuccess); cbn [andb negb].
  - rewrite filterNAT64Answers_eq. cbn zeta. fold (kept_answers (p :: ps) resp).
    destruct (existsb is_aaaa (kept_answers (p :: ps) resp)); reflexivity.
  - rewrite set_Answer_same. reflexivity.
Qed.

Lemma synth_all_spec p ps rrs soaTTL :
  wf_prefs (p :: ps) ->
  match synth_all (p :: ps) rrs soaTTL with
  | Panic => False
  | Ret None => exists r ip, In r rrs /\ Data r = RD_A ip /\ To4 ip = None
  | Ret (Some rs) => Forall2 (synthesized p soaTTL) rrs rs
  end.
Proof.
  intros Hw. induction rrs as [|r rrs IH]; cbn [synth_all]; [constructor|].
  pose proof (synthRR_spec p ps r soaTTL Hw) as Hr.
  destruct (synthRR (p :: ps) r soaTTL) as [[r'|]|]; [|destruct Hr as (ip & ? & ?); cbn; eauto 6|destruct Hr].
  cbn [gbind]. destruct (synth_all (p :: ps) rrs soaTTL) as [[rs|]|]; [cbn; auto| |destruct IH].
  destruct IH as (r0 & ip & ? & ? & ?). cbn. eauto 6.
Qed.

(** What the additional request does: with prefixes of [setupDNS64], or none,
    [performDNS64] returns if the exchange does, keeps what the exchange keeps,
    and does not change the question of the response. *)
Lemma performDNS64_total {U W} (exch : Msg -> W -> go (option Msg * option U * option error * W))
    (J : W -> Prop) prefs origReq q origResp id w :
  prefs = [] \/ wf_prefs prefs -> Question origReq = [q] -> J w ->
  (forall m w, Question m <> [] -> J w -> exists r u e w', exch m w = Ret (r, u, e, w') /\ J w') ->
  exists u r w', performDNS64 prefs exch origReq origResp id w = Ret (u, r, w') /\ J w'
    /\ (origResp = None -> u = None /\ r = None)
    /\ forall m, origResp = Some m -> exists m', r = Some m' /\ Question m' = Question m.
Proof.
  intros Hp Hq Hw Hx. unfold performDNS64. destruct origResp as [m|].
  2: { exists None, None, w. repeat split; auto. discriminate. }
  destruct prefs as [|p ps].
  { exists None, (Some m), w. repeat split; auto; try discriminate. intros m' [= <-]. eauto. }
  assert (Hwf : wf_prefs (p :: ps)) by (destruct Hp; [discriminate|assumption]).
  rewrite (checkDNS64_eq p ps origReq q m id Hq). cbn [gbind].
  match goal with |- context [if ?b then checked_resp ?x m else m] => set (base := if b then checked_resp x m else m) end.
  assert (Hb : Question base = Question m) by (unfold base, checked_resp; repeat case_goal; reflexivity).
  assert (Hkeep : forall (u : option U) w', J w' -> exists u' r w'', Ret (u, Some base, w') = Ret (u', r, w'') /\ J w''
    /\ (Some m = None -> u' = None /\ r = None) /\ forall m0, Some m = Some m0 -> exists m', r = Some m' /\ Question m' = Question m0).
  { intros u w' Hw'. exists u, (Some base), w'. repeat split; auto; try discriminate. intros m0 [= <-]. eauto. }
  destruct (dns64_wanted (p :: ps) q m); [|auto].
  destruct (Hx (a_request origReq id) w) as (dresp & du & err & w1 & -> & Hw1).
  { unfold a_request. rewrite Hq. discriminate. }
  { exact Hw. }
  cbn [gbind]. destruct err as [e|]; [auto|]. destruct dresp as [dr|]; [|auto].
  unfold synthDNS64. destruct (Answer dr) as [|a l] eqn:Ea; [cbn [gbind]; auto|]. rewrite <- Ea.
  unfold index. rewrite Hq. cbn [lookup list_lookup gbind].
  pose proof (synth_all_spec p ps (Answer dr) (soa_ttl (QName q) (Ns base)) Hwf) as Hs.
  destruct (synth_all _ _ _) as [[rs|]|]; cbn [gbind]; [|auto|destruct Hs].
  eexists du, _, w1. split; [reflexivity|]. repeat split; auto; try discriminate.
  intros m0 [= <-]. eexists. split; [reflexivity|]. exact Hb.
Qed.


End Facts.

Module Dns64Examples.

Definition q : Question_t := mkQ (str "ipv4only.arpa.") TypeAAAA ClassINET.
Definition req : Msg := set_Question [q] empty_msg.
Definition a_rr : RR :=
  mkRR (mkHdr (str "ipv4only.arpa.") TypeA ClassINET 7200) (RD_A (Some [192; 0; 0; 170])).
(** An upstream that has only an A record. *)
Definition exch (m : Msg) (w : nat) : go (option Msg * option Upstream * option error * nat) :=
  Ret (Some (set_Answer [a_rr] m), Some (mkUpstream 1 []), None, S w).

(** 64:ff9b::c000:aa with the TTL of a missing SOA *)
Example synthesizes :
  match performDNS64 [dns64WellKnownPref] exch req (Some req) 7 0%nat with
  | Ret (Some _, Some m, 1%nat) => Answer m
  | _ => []
  end = [mkRR (mkHdr (str "ipv4only.arpa.") TypeAAAA ClassINET 600)
           (RD_AAAA (Some [0; 100; 255; 155; 0; 0; 0; 0; 0; 0; 0; 0; 192; 0; 0; 170]))].
Proof. vm_compute. reflexivity. Qed.

End Dns64Examples.

