(* ===== verification/Receipt.v ===== *)
(** * The decision of an exchange (upstream/receipt.go)

    [ExchangeState] decides the outcome of one exchange: a group may seal or
    abandon it while the protocol reserves, rejects and accepts candidates.
    Each method runs under the mutex of the state, so a run is a sequence of
    atomic operations in any order.  The theorems are about all such runs: the
    decision is made once and never changes, and only a candidate observed
    before the cutoff and before [Expire] can become the answer. *)

From S2P Require Import Prelude DnsMsg.

Definition DeadlineExceeded : error := New "context deadline exceeded".
Definition ErrExchangeAbandoned : error := New "exchange abandoned".
Definition ErrNoReply : error := New "no reply".

Record ExchangeResult := mkResult {
  Response_ : option Msg;
  ReceivedAt : Time;
  Err_ : option error;
}.

Definition zero_result : ExchangeResult := mkResult None 0 None.
Definition err_result (e : error) : ExchangeResult := mkResult None 0 (Some e).

(** [deadline] is [None] for the zero time; [done_closed] tells whether the
    channel [done] is closed. *)
Record ExchangeState := mkState {
  result_ : ExchangeResult;
  deadline : option Time;
  received : Time;
  done_closed : bool;
  ticket_ : Z;
  original : Z;
  started : bool;
  reserved : bool;
  sealed : bool;
  finished : bool;
}.

Definition NewExchangeState (cutoff : option Time) : ExchangeState :=
  mkState zero_result cutoff 0 false 0 0 false false false false.

(** The decision and whether it is available. *)
Definition Result (s : ExchangeState) : ExchangeResult * bool := (result_ s, finished s).

(** Closing a closed channel panics. *)
Definition completeLocked (result : ExchangeResult) (s : ExchangeState) : go ExchangeState :=
  if finished s then Ret s
  else if done_closed s then Panic
  else Ret (mkState result (deadline s) (received s) true (ticket_ s) (original s)
              (started s) false (sealed s) true).

Definition set_sealed (s : ExchangeState) : ExchangeState :=
  mkState (result_ s) (deadline s) (received s) (done_closed s) (ticket_ s) (original s)
    (started s) (reserved s) true (finished s).

Definition set_reserved (v : bool) (s : ExchangeState) : ExchangeState :=
  mkState (result_ s) (deadline s) (received s) (done_closed s) (ticket_ s) (original s)
    (started s) v (sealed s) (finished s).

Definition Expire (s : ExchangeState) : go ExchangeState :=
  let s := set_sealed s in
  if negb (reserved s) then completeLocked (err_result DeadlineExceeded) s else Ret s.

Definition Abandon (s : ExchangeState) : go ExchangeState :=
  completeLocked (err_result ErrExchangeAbandoned) s.

Definition start (id : Z) (s : ExchangeState) : ExchangeState * option error :=
  if started s then (s, Some (New "exchange state reused"))
  else (mkState (result_ s) (deadline s) (received s) (done_closed s) (ticket_ s) id
          true (reserved s) (sealed s) (finished s), None).

(** [!s.deadline.IsZero() && now.After(s.deadline)] *)
Definition past_deadline (s : ExchangeState) (now : Time) : bool :=
  match deadline s with Some d => After now d | None => false end.

Definition reserveCandidate (now : Time) (s : ExchangeState) : go (ExchangeState * Z) :=
  if finished s || sealed s || reserved s then Ret (s, 0)
  else if past_deadline s now then
    let! s := completeLocked (err_result DeadlineExceeded) s in Ret (s, 0)
  else
    let t := uint64 (ticket_ s + 1) in
    Ret (mkState (result_ s) (deadline s) now (done_closed s) t (original s)
           (started s) true (sealed s) (finished s), t).

(** Whether a datagram or frame may be the final response. *)
Definition may_reserve (wire : bytes) (id : Z) (udp : bool) : bool :=
  negb ((length wire <? 12)%nat || negb (be_get (take 2 wire) =? id)
        || (Z.land (default 0 (wire !! 2%nat)) 128 =? 0)
        || (udp && negb (Z.land (default 0 (wire !! 2%nat)) 2 =? 0))).

Definition reserve (wire : bytes) (id : Z) (udp : bool) (now : Time) (s : ExchangeState)
    : go (ExchangeState * Z) :=
  if may_reserve wire id udp then reserveCandidate now s else Ret (s, 0).

Definition reject (ticket : Z) (now : Time) (s : ExchangeState) : go ExchangeState :=
  if ticket =? 0 then Ret s
  else if finished s || negb (reserved s) || negb (ticket =? ticket_ s) then Ret s
  else
    let s := set_reserved false s in
    if sealed s || past_deadline s now
    then completeLocked (err_result DeadlineExceeded) s else Ret s.

Definition accept (ticket : Z) (response : Msg) (s : ExchangeState) : go ExchangeState :=
  if ticket =? 0 then Ret s
  else if negb (finished s) && reserved s && (ticket =? ticket_ s)
  then completeLocked (mkResult (Some (set_Id (original s) response)) (received s) None) s
  else Ret s.

Definition finish (err : option error) (s : ExchangeState) : go ExchangeState :=
  completeLocked (err_result (match err with Some e => e | None => ErrNoReply end)) s.

(** ** Runs *)

Inductive event :=
  | EExpire
  | EAbandon
  | EStart (id : Z)
  | EReserve (now : Time)
  | EReject (ticket : Z) (now : Time)
  | EAccept (ticket : Z) (response : Msg)
  | EFinish (err : option error).

Definition apply (e : event) (s : ExchangeState) : go ExchangeState :=
  match e with
  | EExpire => Expire s
  | EAbandon => Abandon s
  | EStart id => Ret (fst (start id s))
  | EReserve now => let! (s, _) := reserveCandidate now s in Ret s
  | EReject t now => reject t now s
  | EAccept t m => accept t m s
  | EFinish err => finish err s
  end.

(** The states of a run, with its events in reverse order. *)
Inductive run (cutoff : option Time) : list event -> ExchangeState -> Prop :=
  | run_new : run cutoff [] (NewExchangeState cutoff)
  | run_step h s e s' : run cutoff h s -> apply e s = Ret s' -> run cutoff (e :: h) s'.

(** A candidate was observed at the time [t] and got the ticket [k]: no
    [Expire] came before it and the cutoff had not passed. *)
Definition admitted (cutoff : option Time) (h : list event) (t : Time) (k : Z) : Prop :=
  exists h1 h2 s1 s2, h = h2 ++ EReserve t :: h1 /\ run cutoff h1 s1 /\ ~ In EExpire h1
    /\ reserveCandidate t s1 = Ret (s2, k) /\ match cutoff with Some d => t <= d | None => True end.

(** The answer [r] received at [t] is the candidate that was accepted with its
    own ticket, with the identifier of the original request. *)
Definition answered (cutoff : option Time) (h : list event) (t : Time) (r : Msg) : Prop :=
  exists h1 h2 s1 k m, h = h2 ++ EAccept k m :: h1 /\ run cutoff h1 s1 /\ k <> 0
    /\ admitted cutoff h1 t k /\ r = set_Id (original s1) m.

Record state_inv (cutoff : option Time) (h : list event) (s : ExchangeState) : Prop := {
  si_deadline : deadline s = cutoff;
  si_done : done_closed s = finished s;
  si_open : finished s = false -> result_ s = zero_result;
  si_sealed : sealed s = true <-> In EExpire h;
  si_expired : sealed s = true -> reserved s = true \/ finished s = true;
  si_reserved : reserved s = true -> finished s = false /\ admitted cutoff h (received s) (ticket_ s);
  si_ticket : 0 <= ticket_ s <= len h \/ 2 ^ 64 <= len h;
  si_positive : reserved s = true -> 0 < ticket_ s \/ 2 ^ 64 <= len h;
  si_answer : forall r, Response_ (result_ s) = Some r ->
    answered cutoff h (ReceivedAt (result_ s)) r /\ Err_ (result_ s) = None;
}.

Section Runs.
Context (cutoff : option Time).

Lemma admitted_cons h e t k : admitted cutoff h t k -> admitted cutoff (e :: h) t k.
Proof.
  intros (h1 & h2 & s1 & s2 & -> & Hr). exists h1, (e :: h2), s1, s2. split; [reflexivity|exact Hr].
Qed.

Lemma answered_cons h e t r : answered cutoff h t r -> answered cutoff (e :: h) t r.
Proof.
  intros (h1 & h2 & s1 & k & m & -> & Hr). exists h1, (e :: h2), s1, k, m.
  split; [reflexivity|exact Hr].
Qed.

(** Completing keeps the invariant if the new result is an error or an
    admitted answer. *)
Lemma completeLocked_inv h s res s' :
  state_inv cutoff h s -> completeLocked res s = Ret s' ->
  (forall r, finished s = false -> Response_ res = Some r ->
     answered cutoff h (ReceivedAt res) r /\ Err_ res = None) ->
  state_inv cutoff h s' /\ finished s' = true /\ (finished s = false -> result_ s' = res).
Proof.
  intros [] Hc Hres. unfold completeLocked in Hc. destruct (finished s) eqn:Ef.
  - injection Hc as <-. split; [|split; [exact Ef|discriminate]]. split; rewrite ?Ef; auto.
  - rewrite si_done0 in Hc. injection Hc as <-. split; [|auto].
    split; cbn; auto; try discriminate.
Qed.

Lemma completeLocked_total h s res : state_inv cutoff h s -> exists s', completeLocked res s = Ret s'.
Proof. intros []. unfold completeLocked. rewrite si_done0. destruct (finished s); eauto. Qed.

(** An event that does not change the state but the history. *)
Lemma inv_event h s e :
  state_inv cutoff h s -> (e = EExpire -> sealed s = true) -> state_inv cutoff (e :: h) s.
Proof.
  intros [] He. split; auto.
  - rewrite si_sealed0. cbn. split; [auto|]. intros [->|Hi]; [apply si_sealed0; auto|exact Hi].
  - intros Hr. destruct (si_reserved0 Hr). auto using admitted_cons.
  - cbn [length]. lia.
  - intros Hr. destruct (si_positive0 Hr); cbn [length]; lia.
  - intros r Hr. destruct (si_answer0 r Hr). auto using answered_cons.
Qed.

Lemma inv_sealed h s :
  state_inv cutoff h s -> reserved s = true \/ finished s = true ->
  state_inv cutoff (EExpire :: h) (set_sealed s).
Proof.
  intros [] Hrf. split; cbn [set_sealed deadline done_closed finished result_ sealed reserved received ticket_ started original]; auto.
  - cbn. tauto.
  - intros Hr. destruct (si_reserved0 Hr). auto using admitted_cons.
  - cbn [length]. lia.
  - intros Hr. destruct (si_positive0 Hr); cbn [length]; lia.
  - intros r Hr. destruct (si_answer0 r Hr). auto using answered_cons.
Qed.

Lemma inv_unreserved h s e :
  state_inv cutoff h s -> sealed s = false -> e <> EExpire ->
  state_inv cutoff (e :: h) (set_reserved false s).
Proof.
  intros Hi Hs He. apply (inv_event _ _ e) in Hi; [|congruence]. destruct Hi.
  split; cbn [set_reserved deadline done_closed finished result_ sealed reserved received ticket_ started original];
    auto; try discriminate. rewrite Hs. discriminate.
Qed.

Lemma inv_started h s id :
  state_inv cutoff h s -> state_inv cutoff (EStart id :: h) (fst (start id s)).
Proof.
  intros Hi. apply (inv_event _ _ (EStart id)) in Hi; [|discriminate].
  unfold start. destruct (started s); [exact Hi|]. destruct Hi.
  split; cbn [fst deadline done_closed finished result_ sealed reserved received ticket_ started original]; auto.
Qed.

Lemma past_deadline_spec h s now :
  state_inv cutoff h s -> past_deadline s now = false ->
  match cutoff with Some d => now <= d | None => True end.
Proof.
  intros []. unfold past_deadline. rewrite si_deadline0. destruct cutoff; [|auto].
  unfold After. intros. lia.
Qed.

Lemma inv_reserve h s now s' t :
  run cutoff h s -> state_inv cutoff h s -> reserveCandidate now s = Ret (s', t) ->
  state_inv cutoff (EReserve now :: h) s'.
Proof.
  intros Hr Hi. pose proof Hi as Hi'. unfold reserveCandidate.
  destruct (finished s || sealed s || reserved s) eqn:Eg.
  { intros [= <- _]. apply inv_event; [exact Hi|discriminate]. }
  destruct (past_deadline s now) eqn:Ep.
  { intros H. inv_bind H. injection H as <- _. apply inv_event; [|discriminate].
    eapply completeLocked_inv; eauto. cbn. discriminate. }
  apply orb_false_iff in Eg as [Eg Er]. apply orb_false_iff in Eg as [Ef Es].
  intros [= <- _]. apply (inv_event _ _ (EReserve now)) in Hi; [|discriminate]. destruct Hi.
  assert (Ht : (0 <= ticket_ s <= len h \/ 2 ^ 64 <= len h)) by apply Hi'.
  assert (Hu : (0 < uint64 (ticket_ s + 1) <= len (EReserve now :: h)) \/ 2 ^ 64 <= len (EReserve now :: h)).
  { cbn [length]. destruct (Z.le_gt_cases (2 ^ 64) (Z.of_nat (S (length h)))); [lia|left].
    unfold uint64. rewrite Z.mod_small; lia. }
  split; cbn [deadline done_closed finished result_ sealed reserved received ticket_ started original]; auto.
  - intros _. split; [exact Ef|]. exists h, [], s. eexists. repeat split; eauto.
    + intros Hin. apply (si_sealed _ _ _ Hi') in Hin. congruence.
    + unfold reserveCandidate. rewrite Ef, Es, Er, Ep. reflexivity.
    + eapply past_deadline_spec; eauto.
  - lia.
  - intros _. lia.
Qed.

Lemma inv_accept h s k m s' :
  run cutoff h s -> state_inv cutoff h s -> accept k m s = Ret s' ->
  state_inv cutoff (EAccept k m :: h) s'.
Proof.
  intros Hr Hi. pose proof Hi as []. apply (inv_event _ _ (EAccept k m)) in Hi; [|discriminate].
  unfold accept. destruct (Z.eqb_spec k 0) as [|Hk]; [intros [= <-]; exact Hi|].
  destruct (negb (finished s) && reserved s && (k =? ticket_ s)) eqn:Eg; [|intros [= <-]; exact Hi].
  intros Hc. eapply completeLocked_inv; [exact Hi|exact Hc|].
  intros r _ [= <-]. cbn. split; [|reflexivity].
  exists h, [], s, k, m. apply andb_true_iff in Eg as [Eg ->%Z.eqb_eq].
  apply andb_true_iff in Eg as [_ Er]. repeat split; auto. apply si_reserved0, Er.
Qed.

Lemma Expire_idle s :
  reserved s = false ->
  Expire s = let! s' := completeLocked (err_result DeadlineExceeded) s in Ret (set_sealed s').
Proof.
  intros Hr. unfold Expire. cbn [reserved set_sealed]. rewrite Hr. unfold completeLocked.
  cbn [finished done_closed set_sealed negb]. destruct (finished s); [reflexivity|].
  destruct (done_closed s); reflexivity.
Qed.

Lemma inv_expire h s s' :
  state_inv cutoff h s -> Expire s = Ret s' -> state_inv cutoff (EExpire :: h) s'.
Proof.
  intros Hi. destruct (reserved s) eqn:Er.
  - unfold Expire. cbn [reserved set_sealed]. rewrite Er. intros [= <-]. apply inv_sealed; auto.
  - rewrite Expire_idle by exact Er. intros H. inv_bind H. injection H as <-.
    destruct (completeLocked_inv h s (err_result DeadlineExceeded) a) as (Hx & Hf & _); auto.
    { cbn. discriminate. }
    apply inv_sealed; auto.
Qed.

Lemma inv_reject h s k now s' :
  state_inv cutoff h s -> reject k now s = Ret s' -> state_inv cutoff (EReject k now :: h) s'.
Proof.
  intros Hi. pose proof Hi as Hi'. apply (inv_event _ _ (EReject k now)) in Hi; [|discriminate].
  unfold reject. destruct (k =? 0); [intros [= <-]; exact Hi|].
  destruct (finished s || negb (reserved s) || negb (k =? ticket_ s)) eqn:Eg;
    [intros [= <-]; exact Hi|].
  apply orb_false_iff in Eg as [Eg _]. apply orb_false_iff in Eg as [Ef _].
  cbn [sealed set_reserved]. change (past_deadline (set_reserved false s) now) with (past_deadline s now).
  destruct (sealed s) eqn:Es; destruct (past_deadline s now); cbn [orb]; intros Hc.
  4: { injection Hc as <-. apply inv_unreserved; auto; discriminate. }
  all: assert (Hc' : completeLocked (err_result DeadlineExceeded) s = Ret s')
    by (rewrite <- Hc; unfold completeLocked; cbn; rewrite Ef; reflexivity);
    eapply completeLocked_inv; [exact Hi|exact Hc'|cbn; discriminate].
Qed.

Lemma run_inv h s : run cutoff h s -> state_inv cutoff h s.
Proof.
  induction 1 as [|h s e s' Hr IH Hs].
  { split; cbn; auto; try discriminate; try lia. }
  destruct e; cbn [apply] in Hs.
  - eauto using inv_expire.
  - apply (inv_event _ _ EAbandon) in IH; [|discriminate].
    eapply completeLocked_inv; [exact IH|exact Hs|cbn; discriminate].
  - injection Hs as <-. apply inv_started, IH.
  - inv_bind Hs. destruct a as [s1 t]. injection Hs as <-. eauto using inv_reserve.
  - eauto using inv_reject.
  - eauto using inv_accept.
  - apply (inv_event _ _ (EFinish err)) in IH; [|discriminate].
    eapply completeLocked_inv; [exact IH|exact Hs|cbn; discriminate].
Qed.
End Runs.

(** A finished state, once and for all. *)
Lemma finished_stays cutoff h s e s' :
  run cutoff h s -> finished s = true -> apply e s = Ret s' -> result_ s' = result_ s /\ finished s' = true.
Proof.
  intros Hr Hf Ha. pose proof (run_inv _ _ _ Hr) as [].
  assert (Hc : forall r, completeLocked r s = Ret s) by (intros; unfold completeLocked; rewrite Hf; reflexivity).
  assert (Hrv : reserved s = false).
  { destruct (reserved s) eqn:E; [|reflexivity]. destruct si_reserved0; congruence. }
  destruct e; cbn [apply] in Ha; unfold Abandon, finish, start, reserveCandidate, reject, accept in Ha;
    rewrite ?Expire_idle, ?Hc, ?Hf in Ha by exact Hrv; cbn in Ha;
    repeat case_hyp Ha; injection Ha as <-; auto.
Qed.

Lemma apply_total cutoff h s e : run cutoff h s -> exists s', apply e s = Ret s'.
Proof.
  intros Hr. apply run_inv in Hr as [].
  assert (Hc : forall r s1, done_closed s1 = finished s1 -> exists s', completeLocked r s1 = Ret s').
  { intros r s1 H1. unfold completeLocked. rewrite H1. destruct (finished s1); eauto. }
  destruct e; cbn [apply]; unfold Expire, Abandon, finish, reserveCandidate, reject, accept;
    repeat case_goal; eauto.
  match goal with |- context [completeLocked ?r s] => destruct (Hc r s si_done0) as [s1 ->] end.
  cbn. eauto.
Qed.

(** A sequence of operations. *)
Fixpoint steps (es : list event) (s : ExchangeState) : go ExchangeState :=
  match es with
  | [] => Ret s
  | e :: es => let! s := apply e s in steps es s
  end.

Lemma steps_run cutoff es : forall h s, run cutoff h s ->
  exists s', steps es s = Ret s' /\ run cutoff (rev es ++ h) s'.
Proof.
  induction es as [|e es IH]; intros h s Hr; cbn; [eauto|].
  destruct (apply_total cutoff h s e Hr) as [s1 H1]. rewrite H1. cbn.
  destruct (IH (e :: h) s1 (run_step _ _ _ _ _ Hr H1)) as (s2 & H2 & H3).
  exists s2. rewrite <- app_assoc. auto.
Qed.

Lemma steps_finished cutoff es : forall h s s', run cutoff h s -> finished s = true ->
  steps es s = Ret s' -> Result s' = Result s.
Proof.
  induction es as [|e es IH]; intros h s s' Hr Hf; cbn; [congruence|].
  destruct (apply_total cutoff h s e Hr) as [s1 H1]. rewrite H1. cbn. intros Hs.
  destruct (finished_stays _ _ _ _ _ Hr Hf H1) as [He Hf1].
  rewrite (IH (e :: h) s1 s' (run_step _ _ _ _ _ Hr H1) Hf1 Hs). unfold Result. congruence.
Qed.

(** C5: Every sequence of operations on an exchange state, in any order and
    with any tickets, runs without a panic (the channel is closed at most
    once); afterwards the channel is closed exactly when a decision is
    available, and no further sequence of operations changes the decision. *)
Theorem decided_once (cutoff : option Time) (es : list event) :
  exists s, steps es (NewExchangeState cutoff) = Ret s
    /\ done_closed s = snd (Result s)
    /\ forall es', exists s', steps es' s = Ret s' /\ (snd (Result s) = true -> Result s' = Result s).
Proof.
  destruct (steps_run cutoff es [] _ (run_new cutoff)) as (s & Hs & Hr).
  exists s. split; [exact Hs|]. split; [apply (si_done _ _ _ (run_inv _ _ _ Hr))|].
  intros es'. destruct (steps_run cutoff es' _ s Hr) as (s' & Hs' & _). exists s'. split; [exact Hs'|].
  intros Hf. eapply steps_finished; eauto.
Qed.

(** The identifier is that of the first [start]. *)
Lemma original_first cutoff h0 s id :
  run cutoff h0 s -> forall h, h0 = h ++ [EStart id] -> started s = true /\ original s = id.
Proof.
  induction 1 as [|h0 s e s' Hr IH Hs]; intros h Hh; [destruct h; discriminate|].
  destruct h as [|e' h].
  - injection Hh as -> ->. inversion Hr; subst. injection Hs as <-. auto.
  - injection Hh as <- ->. destruct (IH h eq_refl) as [Hst Ho].
    destruct e; cbn [apply] in Hs;
      unfold Expire, Abandon, finish, start, reserveCandidate, reject, accept, completeLocked in Hs;
      repeat (case_hyp Hs; cbn in Hs; try discriminate); injection Hs as <-; auto.
Qed.

(** The answer of an exchange is a candidate accepted with the ticket its
    own reservation returned; that reservation happened before any [Expire] and
    not after the cutoff, its time is the reported time of receipt, and the
    answer carries the identifier the exchange was started with. *)
Theorem answer_admitted (cutoff : option Time) (es : list event) (s : ExchangeState) (r : Msg)
    (Hs : steps es (NewExchangeState cutoff) = Ret s) (Hr : Response_ (fst (Result s)) = Some r) :
  answered cutoff (rev es) (ReceivedAt (fst (Result s))) r
  /\ Err_ (fst (Result s)) = None /\ snd (Result s) = true
  /\ (forall id es', es = EStart id :: es' -> Id (Hdr r) = id).
Proof.
  destruct (steps_run cutoff es [] _ (run_new cutoff)) as (s' & Hs' & Hrun).
  rewrite Hs in Hs'. injection Hs' as <-. rewrite app_nil_r in Hrun.
  pose proof (run_inv _ _ _ Hrun) as []. destruct (si_answer0 r Hr) as [Ha He]. split; [exact Ha|].
  split; [exact He|]. split.
  { cbn. destruct (finished s) eqn:Ef; [reflexivity|]. cbn in Hr. rewrite (si_open0 eq_refl) in Hr. discriminate. }
  intros id es' ->. destruct Ha as (h1 & h2 & s1 & k & m & Hh & Hrun1 & _ & Had & ->). cbn in Hh.
  destruct Had as (h3 & h4 & s3 & s4 & -> & _).
  destruct (exists_last (l := h4 ++ EReserve (ReceivedAt (result_ s)) :: h3)) as (h5 & e & H5).
  { destruct h4; discriminate. }
  change (fst (Result s)) with (result_ s) in *. rewrite H5 in *.
  apply (original_first _ _ _ id Hrun1 h5). do 2 f_equal.
  rewrite app_comm_cons, app_assoc in Hh. apply app_inj_tail in Hh as [_ <-]. reflexivity.
Qed.

(** After [Expire] the exchange is either decided or waits for one reserved
    candidate only: nothing else is admitted, and accepting or rejecting that
    candidate, finishing or abandoning the exchange each decide it at once. *)
Theorem expired_decides (cutoff : option Time) (es : list event) (s : ExchangeState)
    (Hs : steps es (NewExchangeState cutoff) = Ret s) (He : In EExpire es) (Hb : len es < 2 ^ 64) :
  (forall now, reserveCandidate now s = Ret (s, 0))
  /\ (snd (Result s) = false ->
      reserved s = true
      /\ forall e, (exists m, e = EAccept (ticket_ s) m) \/ (exists now, e = EReject (ticket_ s) now)
           \/ (exists err, e = EFinish err) \/ e = EAbandon ->
         exists s', apply e s = Ret s' /\ snd (Result s') = true).
Proof.
  destruct (steps_run cutoff es [] _ (run_new cutoff)) as (s0 & Hs0 & Hrun).
  rewrite Hs in Hs0. injection Hs0 as <-. rewrite app_nil_r in Hrun.
  pose proof (run_inv _ _ _ Hrun) as []. apply in_rev, si_sealed0 in He.
  split; [intros now; unfold reserveCandidate; rewrite He; destruct (finished s); reflexivity|].
  cbn [Result snd]. intros Hf. destruct (si_expired0 He) as [Hres|]; [|congruence]. split; [exact Hres|].
  assert (Hk : ticket_ s =? 0 = false).
  { rewrite length_rev in si_positive0. destruct (si_positive0 Hres); lia. }
  intros e [[m ->]|[[now ->]|[[err ->]| ->]]]; cbn [apply]; unfold accept, reject, finish, Abandon, completeLocked;
    rewrite ?Hk, ?Z.eqb_refl; cbn; rewrite ?Hf, ?Hres, ?He; cbn; rewrite ?Hf, ?si_done0, ?Hf; eexists; split; reflexivity.
Qed.

Module ReceiptExamples.
Definition answer : Msg := mkMsg (mkMsgHdr 77 true 0 false false true true false false false 0) false [] [] [] [].
Definition lateExpire : list event := [EStart 7; EReserve 5; EExpire; EAccept 1 answer; EAbandon].
Definition decided : ExchangeState :=
  match steps lateExpire (NewExchangeState (Some 10)) with Ret s => s | Panic => NewExchangeState None end.
Definition waiting : ExchangeState :=
  match steps [EStart 7; EReserve 5; EExpire] (NewExchangeState (Some 10)) with
  | Ret s => s | Panic => NewExchangeState None end.
End ReceiptExamples.
Import ReceiptExamples.

Lemma answer_admitted_witness :
  answered (Some 10) (rev lateExpire) 5 (set_Id 7 answer) /\ Id (Hdr (set_Id 7 answer)) = 7.
Proof.
  destruct (answer_admitted (Some 10) lateExpire decided (set_Id 7 answer) eq_refl eq_refl) as (Ha & _ & _ & Hid).
  split; [exact Ha|]. exact (Hid 7 _ eq_refl).
Defined.

Lemma expired_decides_witness :
  reserved waiting = true /\ exists s', apply (EAccept 1 answer) waiting = Ret s' /\ finished s' = true.
Proof.
  destruct (expired_decides (Some 10) [EStart 7; EReserve 5; EExpire] waiting eq_refl) as [_ Hw].
  - right; right; left; reflexivity.
  - cbn. lia.
  - destruct (Hw eq_refl) as [Hr He]. split; [exact Hr|]. apply He. left. exists answer. reflexivity.
Defined.
