(* ===== verification/Response.v ===== *)
(** * Reading a response of an upstream (upstream/response.go, and
      [validateResponse] of upstream/upstream.go)

    A connection delivers a finite sequence of complete frames and then an
    error (its deadline at the latest).  The errors of the network are opaque:
    [NetErrors] tells which of them are a [net.Error] and whether they are
    timeouts. *)

From S2P Require Import Prelude DnsMsg Wire Receipt.

(** [net.Error] and its [Timeout] for an error that wraps no other. *)
Class NetErrors := net_error : string -> option bool.

(** [errors.As(err, &netErr)], with [netErr.Timeout()] of the first match. *)
Fixpoint as_net_error `{NetErrors} (e : error) : option bool :=
  match e with
  | New m => net_error m
  | Errorf _ e' => as_net_error e'
  | Join es =>
      (fix first (es : list error) : option bool :=
         match es with
         | [] => None
         | e' :: es => match as_net_error e' with Some b => Some b | None => first es end
         end) es
  end.

(** [fmt.Errorf("%w: %w", a, b)] *)
Definition wrap2 (a b : error) : error := Errorf "%w: %w" (Join [a; b]).

Definition deadline_text : string := "context deadline exceeded".
Definition errDNSProtocol : error := New "invalid DNS response".
Definition errQuestion_text : string := "bad question section".
Definition errQuestion : error := New errQuestion_text.
Definition ErrId : error := New "dns: id mismatch".
Definition short_read_text : string := "dns: short read".

Definition isExchangeTimeout `{NetErrors} (err : option error) : bool :=
  match err with
  | None => false
  | Some e => errors_Is e deadline_text || (match as_net_error e with Some t => t | None => false end)
  end.

Definition validateResponse (req resp : Msg) : go (option error) :=
  if negb (length (Question resp) =? 1)%nat
  then Ret (Some (Errorf "%w: only 1 question allowed; got %d" errQuestion))
  else
    let! reqQ := index (Question req) 0 in
    let! respQ := index (Question resp) 0 in
    if negb (Qtype reqQ =? Qtype respQ) then Ret (Some (Errorf "%w: mismatched type %s" errQuestion))
    else if negb (EqualFold (QName reqQ) (QName respQ))
    then Ret (Some (Errorf "%w: mismatched name %q" errQuestion))
    else Ret None.

(** The methods of a [*ExchangeState] that may be nil. *)
Definition state := option ExchangeState.

Definition on_state (f : ExchangeState -> go ExchangeState) (s : state) : go state :=
  match s with None => Ret None | Some s => let! s := f s in Ret (Some s) end.

Definition state_reserve (wire : bytes) (id : Z) (udp : bool) (now : Time) (s : state) : go (state * Z) :=
  match s with
  | None => Ret (None, 0)
  | Some s => let! (s, t) := reserve wire id udp now s in Ret (Some s, t)
  end.

Definition state_start (id : Z) (s : state) : state * option error :=
  match s with
  | None => (None, None)
  | Some s => let '(s, e) := start id s in (Some s, e)
  end.

(** A frame with the clock at its observation and at its rejection, if it
    comes to that. *)
Record frame := mkFrame {
  f_wire : bytes;
  f_observed : Time;
  f_rejected : Time;
}.

(** What the outside does with one connection: setting its deadline, writing
    the request, the frames it delivers, the error that ends it, and closing
    it. *)
Record connection := mkConn {
  c_deadline : option error;
  c_write : option error;
  c_frames : list frame;
  c_end : error;
  c_close : option error;
}.

(** [IsTsig] and [TsigVerifyWithProvider] with the provider that has no key. *)
Class TsigLib := {
  IsTsig : Msg -> bool;
  TsigVerify : bytes -> option error;
}.

Section Read.
Context {DL : DnsLib} {TL : TsigLib}.

(** [err] of decoding a frame. *)
Definition decode (wire : bytes) : Msg * option error :=
  let '(response, err) := Unpack wire in
  match err with
  | Some e => (response, Some e)
  | None => (response, if IsTsig response then TsigVerify wire else None)
  end.

Fixpoint read_loop (frames : list frame) (ending : error) (req : Msg) (st : state)
    (udp checkQuestion : bool) : go (option Msg * option error * state) :=
  match frames with
  | [] =>
      Ret (None, Some (if errors_Is ending short_read_text then wrap2 errDNSProtocol ending else ending), st)
  | f :: frames =>
      let! (st, ticket) := state_reserve (f_wire f) (Id (Hdr req)) udp (f_observed f) st in
      let '(response, err) := decode (f_wire f) in
      match err with
      | Some e =>
          let! st := on_state (reject ticket (f_rejected f)) st in
          Ret (Some response, Some (wrap2 errDNSProtocol e), st)
      | None =>
          if negb (Id (Hdr response) =? Id (Hdr req)) then
            let! st := on_state (reject ticket (f_rejected f)) st in
            if udp then read_loop frames ending req st udp checkQuestion
            else Ret (Some response, Some (wrap2 errDNSProtocol ErrId), st)
          else
            let! verr := if checkQuestion then validateResponse req response else Ret None in
            match verr with
            | Some e =>
                let! st := on_state (reject ticket (f_rejected f)) st in
                Ret (Some response, Some (wrap2 errDNSProtocol e), st)
            | None =>
                let! st := on_state (accept ticket response) st in
                Ret (Some response, None, st)
            end
      end
  end.

Definition readDNSResponse (conn : connection) (req : Msg) (st : state) (udp checkQuestion : bool)
    : go (option Msg * option error * state) :=
  read_loop (c_frames conn) (c_end conn) req st udp checkQuestion.
End Read.

(** ** Facts *)

Section ReadFacts.
Context {DL : DnsLib} {TL : TsigLib}.

(** [m] has one question, of the type and, but for the case of letters, the name
    of the first question of [req]. *)
Definition repeats_question (req m : Msg) : Prop :=
  exists q qs q', Question req = q :: qs /\ Question m = [q'] /\ Qtype q' = Qtype q
    /\ EqualFold (QName q) (QName q') = true.

Lemma validateResponse_repeats req m : validateResponse req m = Ret None -> repeats_question req m.
Proof.
  unfold validateResponse. destruct (Question m) as [|q' [|]] eqn:Em; cbn [length Nat.eqb negb]; try discriminate.
  intros H. inv_bind H. unfold index in E. destruct (Question req) as [|q qs] eqn:Er; [discriminate|].
  injection E as <-. cbn in H. destruct (Z.eqb_spec (Qtype q) (Qtype q')) as [Ht|]; [|discriminate]. cbn in H.
  destruct (EqualFold (QName q) (QName q')) eqn:Ef; [|discriminate]. exists q, qs, q'. rewrite Er. auto.
Qed.

(** The first response that [readDNSResponse] returns without an error. *)
Definition good_frame (req m : Msg) (checkQuestion : bool) (f : frame) : Prop :=
  Unpack (f_wire f) = (m, None) /\ Id (Hdr m) = Id (Hdr req)
  /\ (checkQuestion = true -> repeats_question req m).

Lemma decode_Ok wire m : decode wire = (m, None) -> Unpack wire = (m, None).
Proof. unfold decode. destruct (Unpack wire) as [m' [e|]]; [discriminate|]. congruence. Qed.

Lemma read_loop_good frames ending req udp cq : forall st r st',
  read_loop frames ending req st udp cq = Ret (r, None, st') ->
  exists m f, r = Some m /\ In f frames /\ good_frame req m cq f.
Proof.
  induction frames as [|f frames IH]; intros st r st'; cbn [read_loop]; [discriminate|].
  intros H. inv_bind H. destruct a as [st1 t]. destruct (decode (f_wire f)) as [m [e|]] eqn:Ed.
  { inv_bind H. discriminate H. }
  destruct (Z.eqb_spec (Id (Hdr m)) (Id (Hdr req))) as [Hid|Hid]; cbn [negb] in H.
  - inv_bind H. destruct a; [inv_bind H; discriminate H|]. inv_bind H. injection H as <- <-.
    exists m, f. split; [reflexivity|]. split; [left; reflexivity|].
    split; [apply decode_Ok, Ed|]. split; [exact Hid|]. intros ->. apply validateResponse_repeats, E0.
  - inv_bind H. destruct udp; [|discriminate H].
    destruct (IH _ _ _ H) as (m' & f' & ? & ? & ?). exists m', f'. cbn. auto.
Qed.

(** A started state that has no candidate and nothing to stop one. *)
Record idle (s : ExchangeState) : Prop := {
  idle_deadline : deadline s = None;
  idle_done : done_closed s = false;
  idle_reserved : reserved s = false;
  idle_sealed : sealed s = false;
  idle_finished : finished s = false;
  idle_ticket : 0 <= ticket_ s;
}.

Definition published (s : ExchangeState) (m : Msg) : Prop :=
  finished s = true /\ Response_ (result_ s) = Some m /\ Err_ (result_ s) = None.

(** Whether a message may be the final response: a response, and not a
    truncated datagram. *)
Definition publishable (udp : bool) (m : Msg) : bool :=
  Response (Hdr m) && negb (udp && Truncated (Hdr m)).

Lemma may_reserve_publishable {DLaws : DnsLaws} wire m udp :
  Unpack wire = (m, None) -> may_reserve wire (Id (Hdr m)) udp = publishable udp m.
Proof.
  intros Hu. destruct (unpack_header wire m Hu) as (Hl & -> & Hr & Ht).
  unfold may_reserve, publishable. rewrite Z.eqb_refl, Hr, Ht.
  replace (length wire <? 12)%nat with false by (symmetry; apply Nat.ltb_ge; lia).
  destruct (Z.land _ 128 =? 0), (Z.land _ 2 =? 0), udp; reflexivity.
Qed.

(** Observing a frame with no candidate pending: either the frame is not one
    and the state is as it was, or rejecting it makes the state idle again and
    accepting it publishes it. *)
Lemma reserve_idle wire id udp now s :
  idle s -> ticket_ s + 1 < 2 ^ 64 ->
  exists s1 t, reserve wire id udp now s = Ret (s1, t)
    /\ (forall now', exists s2, reject t now' s1 = Ret s2 /\ idle s2 /\ original s2 = original s
          /\ ticket_ s2 <= ticket_ s + 1)
    /\ (forall m, exists s2, accept t m s1 = Ret s2 /\ original s2 = original s
          /\ ticket_ s2 <= ticket_ s + 1
          /\ if may_reserve wire id udp then published s2 (set_Id (original s) m) else idle s2).
Proof.
  intros [] Ht. unfold reserve, reserveCandidate, past_deadline. destruct (may_reserve wire id udp).
  - rewrite idle_finished0, idle_sealed0, idle_reserved0, idle_deadline0. cbn [orb].
    replace (uint64 (ticket_ s + 1)) with (ticket_ s + 1) by (unfold uint64; rewrite Z.mod_small; lia).
    eexists _, _. split; [reflexivity|].
    assert (Hz : (ticket_ s + 1 =? 0) = false) by lia.
    unfold reject, accept, completeLocked, past_deadline. rewrite Hz, idle_done0. cbn. rewrite Z.eqb_refl. cbn.
    split; intros; eexists; (split; [reflexivity|]); cbn;
      [split; [split; cbn; auto; lia|auto with lia]|].
    split; [reflexivity|]. split; [lia|]. split; auto.
  - exists s, 0. split; [reflexivity|]. split; intros; exists s; cbn; (split; [reflexivity|]);
      (split; [split; auto|]) || split; auto with lia; split; [lia|split; auto].
Qed.

(** What reading a response does to an idle state: a failed reading leaves it
    idle, and a response is published exactly when it may be. *)
Definition read_outcome (oid bound : Z) (udp : bool) (r : option Msg) (err : option error) (st : state) : Prop :=
  exists s, st = Some s /\ original s = oid /\ ticket_ s <= bound
    /\ match err with
       | Some _ => idle s
       | None => exists m, r = Some m
                   /\ if publishable udp m then published s (set_Id oid m) else idle s
       end.

Lemma read_loop_state {DLaws : DnsLaws} ending req udp cq : forall frames s r err st',
  idle s -> ticket_ s + len frames < 2 ^ 64 ->
  read_loop frames ending req (Some s) udp cq = Ret (r, err, st') ->
  read_outcome (original s) (ticket_ s + len frames) udp r err st'.
Proof.
  induction frames as [|f frames IH]; intros s r err st' Hi Hb; cbn [read_loop].
  { intros [= <- <- <-]. exists s. cbn. repeat split; auto; try lia; apply Hi. }
  cbn [length] in Hb. unfold state_reserve.
  destruct (reserve_idle (f_wire f) (Id (Hdr req)) udp (f_observed f) s Hi) as (s1 & t & -> & Hrej & Hacc);
    [lia|]. cbn [gbind].
  destruct (Hrej (f_rejected f)) as (s2 & Hs2 & Hi2 & Ho2 & Ht2).
  assert (Hbad : forall e, read_outcome (original s) (ticket_ s + len (f :: frames)) udp r (Some e) (Some s2)).
  { intros e. exists s2. cbn [length]. repeat split; auto; try lia; apply Hi2. }
  unfold on_state. rewrite Hs2. cbn [gbind].
  destruct (decode (f_wire f)) as [m [e|]] eqn:Ed; [intros [= <- <- <-]; apply Hbad|].
  destruct (Z.eqb_spec (Id (Hdr m)) (Id (Hdr req))) as [Hid|Hid]; cbn [negb].
  - intros H. inv_bind H. destruct a as [e|]; [injection H as <- <- <-; apply Hbad|].
    destruct (Hacc m) as (s3 & Hs3 & Ho3 & Ht3 & Hp). rewrite Hs3 in H. injection H as <- <- <-.
    exists s3. cbn [length]. repeat split; auto; [lia|]. exists m. split; [reflexivity|].
    rewrite <- Hid, (may_reserve_publishable _ m) in Hp by (apply decode_Ok, Ed). exact Hp.
  - destruct udp; [|intros [= <- <- <-]; apply Hbad].
    intros H. apply IH in H; [|exact Hi2|lia]. rewrite Ho2 in H.
    destruct H as (s4 & ? & ? & ? & ?). exists s4. cbn [length]. repeat split; auto. lia.
Qed.

(** The operations on a state do not panic. *)
Definition state_ok (st : state) : Prop :=
  match st with Some s => done_closed s = finished s | None => True end.

Lemma completeLocked_ok r s : done_closed s = finished s ->
  exists s', completeLocked r s = Ret s' /\ done_closed s' = finished s'.
Proof. intros Hs. unfold completeLocked. rewrite Hs. destruct (finished s) eqn:E; eauto; exists s; rewrite E; auto. Qed.

Lemma state_reserve_ok wire id udp now st : state_ok st ->
  exists st' t, state_reserve wire id udp now st = Ret (st', t) /\ state_ok st'.
Proof.
  destruct st as [s|]; cbn; [|eauto]. intros Hs. unfold reserve, reserveCandidate.
  repeat case_goal; eauto.
  destruct (completeLocked_ok (err_result DeadlineExceeded) s Hs) as (s' & -> & ?). eauto.
Qed.

Lemma reject_ok t now st : state_ok st -> exists st', on_state (reject t now) st = Ret st' /\ state_ok st'.
Proof.
  destruct st as [s|]; cbn [on_state state_ok]; [|eauto]. intros Hs. unfold reject. repeat case_goal; eauto.
  destruct (completeLocked_ok (err_result DeadlineExceeded) (set_reserved false s) Hs) as (s' & -> & ?). eauto.
Qed.

Lemma accept_ok t m st : state_ok st -> exists st', on_state (accept t m) st = Ret st' /\ state_ok st'.
Proof.
  destruct st as [s|]; cbn [on_state state_ok]; [|eauto]. intros Hs. unfold accept. repeat case_goal; eauto.
  match goal with |- context [completeLocked ?r s] => destruct (completeLocked_ok r s Hs) as (s' & -> & ?) end. eauto.
Qed.

Lemma state_start_ok id st : state_ok st -> exists st' err, state_start id st = (st', err) /\ state_ok st'.
Proof.
  destruct st as [s|]; cbn [state_start state_ok]; [|eauto]. intros Hs. unfold start. repeat case_goal; eauto.
Qed.

Lemma finish_ok e st : state_ok st -> exists st', on_state (finish e) st = Ret st' /\ state_ok st'.
Proof.
  destruct st as [s|]; cbn [on_state state_ok]; [|eauto]. intros Hs. unfold finish.
  match goal with |- context [completeLocked ?r s] => destruct (completeLocked_ok r s Hs) as (s' & -> & ?) end. eauto.
Qed.

Lemma validateResponse_total req m : Question req <> [] -> exists e, validateResponse req m = Ret e.
Proof.
  intros Hq. unfold validateResponse. destruct (Question m) as [|q [|]]; cbn; eauto.
  destruct (Question req); [destruct (Hq eq_refl)|]. cbn. repeat case_goal; eauto.
Qed.

Lemma read_loop_total ending req udp cq : Question req <> [] -> forall frames st, state_ok st ->
  exists r err st', read_loop frames ending req st udp cq = Ret (r, err, st') /\ state_ok st'.
Proof.
  intros Hq. induction frames as [|f frames IH]; intros st Hst; cbn [read_loop]; [eauto|].
  destruct (state_reserve_ok (f_wire f) (Id (Hdr req)) udp (f_observed f) st Hst) as (s1 & t & -> & H1).
  cbn [gbind]. destruct (reject_ok t (f_rejected f) s1 H1) as (s2 & -> & H2). cbn [gbind].
  destruct (decode (f_wire f)) as [m [e|]]; [eauto 6|].
  destruct (negb (Id (Hdr m) =? Id (Hdr req))); [destruct udp; eauto 6|].
  destruct (accept_ok t m s1 H1) as (s3 & -> & H3).
  destruct cq; [destruct (validateResponse_total req m Hq) as [[e|] ->]|]; cbn [gbind]; eauto 6.
Qed.
End ReadFacts.
