(* ===== verification/Plain.v ===== *)
(** * Plain DNS upstream (upstream/plain.go)

    One call of [Exchange] dials, writes and reads; the outside is a function
    [dial] that tells what the n-th dialing of the call gives.  The world keeps
    the number of dialings, the requests written and the decision state. *)

From S2P Require Import Prelude DnsMsg RefDns Wire Receipt Response.

Inductive network := networkUDP | networkTCP.

#[export] Instance network_eq_dec : EqDecision network.
Proof. solve_decision. Defined.

Record plainDNS := mkPlain {
  net : network;
  timeout : Duration;
  bootstrap : bool;
}.

(** A request written to a connection, with the size of the receive buffer and
    the time the connection is given. *)
Record request := mkRequest {
  r_net : network;
  r_size : Z;
  r_timeout : Duration;
  r_msg : Msg;
}.

Record world := mkWorld {
  dialed : nat;
  sent : list request;
  w_state : state;
}.

Definition set_state (s : state) (w : world) : world := mkWorld (dialed w) (sent w) s.

(** [errors.WithDeferred] of golibs. *)
Class WithDeferredLib := WithDeferred : option error -> option error -> option error.
Class WithDeferredLaws `{WithDeferredLib} := {
  withDeferred_none e : WithDeferred e None = e;
  withDeferred_some e d : is_Some e \/ is_Some d -> is_Some (WithDeferred e d);
}.

Section Plain.
Context {DL : DnsLib} {TL : TsigLib} {NE : NetErrors} {WD : WithDeferredLib}.
(** What dialing gives, the dialer itself and the random identifiers. *)
Context (dial : nat -> network -> result connection).
Context (getDialer : option error).
Context (newId : nat -> Z).

Definition isExpectedConnErr (err : option error) : bool :=
  match err with
  | None => false
  | Some e => negb (isExchangeTimeout (Some e))
              && (match as_net_error e with Some _ => true | None => errors_Is e "EOF" end)
  end.

(** The request to send and the size of the receive buffer. *)
Definition setRequestForNetwork (orig : Msg) (n : network) (w : world) : Msg * Z :=
  match n with
  | networkTCP => (orig, 0)
  | networkUDP =>
      (if Id (Hdr orig) =? 0 then set_Id (newId (dialed w)) orig else orig, MinMsgSize)
  end.

Definition exchangeWithConn (p : plainDNS) (req : Msg) (size : Z) (conn : connection) (n : network)
    (w : world) : go (option Msg * option error * world) :=
  let size :=
    match opt_of req with
    | Some opt => if MinMsgSize <=? UDPSize opt then UDPSize opt else size
    | None => size
    end in
  let timeout := if timeout p =? 0 then 2 * Second else timeout p in
  match c_deadline conn with
  | Some err => Ret (None, Some err, w)
  | None =>
      let w := mkWorld (dialed w) (sent w ++ [mkRequest n size timeout req]) (w_state w) in
      match c_write conn with
      | Some err => Ret (None, Some err, w)
      | None =>
          let! (resp, err, st) :=
            readDNSResponse conn req (w_state w) (bool_decide (n = networkUDP)) (negb (bootstrap p)) in
          Ret (resp, err, set_state st w)
      end
  end.

Definition dial_next (n : network) (w : world) : result connection * world :=
  (dial (dialed w) n, mkWorld (S (dialed w)) (sent w) (w_state w)).

Definition dialExchange (p : plainDNS) (n : network) (req : Msg) (w : world)
    : go (option Msg * option error * world) :=
  let '(upstreamReq, size) := setRequestForNetwork req n w in
  (* the deferred [resp.Id = req.Id] *)
  let done (resp : option Msg) (err : option error) (w : world) :=
    Ret (set_Id (Id (Hdr req)) <$> resp, err, w) in
  let '(conn, w) := dial_next n w in
  match conn with
  | Err e => done None (Some (Errorf "dialing %s over %s: %w" e)) w
  | Ok conn =>
      let! (resp, err, w) := exchangeWithConn p upstreamReq size conn n w in
      if negb (bootstrap p) && isExpectedConnErr err then
        let '(conn2, w) := dial_next n w in
        match conn2 with
        | Err e => done None (WithDeferred (Some (Errorf "dialing %s over %s again: %w" e)) (c_close conn)) w
        | Ok conn2 =>
            let! (resp, err, w) := exchangeWithConn p upstreamReq size conn2 n w in
            let err := Errorf "exchanging with %s over %s: %w" <$> err in
            done resp (WithDeferred (WithDeferred err (c_close conn2)) (c_close conn)) w
        end
      else
        let err := Errorf "exchanging with %s over %s: %w" <$> err in
        done resp (WithDeferred err (c_close conn)) w
  end.

(** The body of [Exchange] after the state is started. *)
Definition exchange_body (p : plainDNS) (req : Msg) (w : world) : go (option Msg * option error * world) :=
  match getDialer with
  | Some err => Ret (None, Some err, w)
  | None =>
      let! (resp, err, w) := dialExchange p (net p) req w in
      if bootstrap p && (match err with Some _ => true | None => false end) then Ret (resp, err, w)
      else if negb (bool_decide (net p = networkUDP)) then Ret (resp, err, w)
      else match resp with
      | None => Ret (None, err, w)
      | Some m =>
          if negb (bootstrap p)
             && (match err with Some e => errors_Is e errQuestion_text | None => false end)
          then dialExchange p networkTCP req w
          else if Truncated (Hdr m) then
            let! _ := index (Question req) 0 in
            dialExchange p networkTCP req w
          else Ret (resp, err, w)
      end
  end.

Definition Exchange (p : plainDNS) (req : Msg) (w : world) : go (option Msg * option error * world) :=
  let '(st, err) := state_start (Id (Hdr req)) (w_state w) in
  match err with
  | Some e => Ret (None, Some e, set_state st w)
  | None =>
      let! (resp, err, w) := exchange_body p req (set_state st w) in
      let! st := on_state (finish err) (w_state w) in
      Ret (resp, err, set_state st w)
  end.

(** ** Bounds *)

(** The number of dialings over one network. *)
Definition max_dials (p : plainDNS) : nat := if bootstrap p then 1 else 2.

(** Requests written over the network [n] for the client's request [req]. *)
Definition requests (n : network) (req : Msg) (l : list request) : Prop :=
  Forall (fun q => r_net q = n /\ set_Id (Id (Hdr req)) (r_msg q) = req) l.

Lemma set_Id_twice a b m : set_Id a (set_Id b m) = set_Id a m.
Proof. reflexivity. Qed.

Lemma set_Id_self m : set_Id (Id (Hdr m)) m = m.
Proof. destruct m as [[]]. reflexivity. Qed.

Lemma setRequestForNetwork_id n req w : set_Id (Id (Hdr req)) (fst (setRequestForNetwork req n w)) = req.
Proof. unfold setRequestForNetwork. repeat case_goal; cbn [fst]; rewrite ?set_Id_twice; apply set_Id_self. Qed.

Lemma setRequestForNetwork_question n req w :
  Question (fst (setRequestForNetwork req n w)) = Question req.
Proof. unfold setRequestForNetwork. repeat case_goal; reflexivity. Qed.

Lemma exchangeWithConn_total p req size c n w :
  Question req <> [] -> state_ok (w_state w) ->
  exists r err w' l, exchangeWithConn p req size c n w = Ret (r, err, w') /\ state_ok (w_state w')
    /\ dialed w' = dialed w /\ sent w' = sent w ++ l /\ (length l <= 1)%nat
    /\ Forall (fun q => r_net q = n /\ r_msg q = req) l.
Proof.
  intros Hq Hs. unfold exchangeWithConn. destruct (c_deadline c) as [e|].
  { exists None, (Some e), w, []. rewrite app_nil_r. repeat split; auto. }
  destruct (c_write c) as [e|].
  { eexists _, _, _, [_]. repeat split; cbn; auto. }
  unfold readDNSResponse. cbn [w_state].
  destruct (read_loop_total (c_end c) req (bool_decide (n = networkUDP)) (negb (bootstrap p)) Hq
    (c_frames c) (w_state w) Hs) as (r & err & st & -> & Hst).
  eexists _, _, _, [_]. repeat split; cbn; auto.
Qed.

Lemma requests_of n req up l :
  set_Id (Id (Hdr req)) up = req -> Forall (fun q => r_net q = n /\ r_msg q = up) l -> requests n req l.
Proof. intros Hu. apply Forall_impl. intros q [? ->]. auto. Qed.

Lemma dialExchange_total p n req w :
  Question req <> [] -> state_ok (w_state w) ->
  exists r err w' l, dialExchange p n req w = Ret (r, err, w') /\ state_ok (w_state w')
    /\ (dialed w < dialed w' <= dialed w + max_dials p)%nat
    /\ sent w' = sent w ++ l /\ (length l <= max_dials p)%nat /\ requests n req l.
Proof.
  intros Hq Hs. unfold dialExchange, max_dials.
  pose proof (setRequestForNetwork_id n req w) as Hid.
  pose proof (setRequestForNetwork_question n req w) as Hqu.
  destruct (setRequestForNetwork req n w) as [up size]. cbn [fst] in Hid, Hqu. rewrite <- Hqu in Hq.
  cbn [dial_next]. destruct (dial (dialed w) n) as [c|e].
  2: { eexists _, _, _, []. rewrite app_nil_r. repeat split; cbn; auto; try case_goal; try lia. constructor. }
  set (w1 := mkWorld (S (dialed w)) (sent w) (w_state w)).
  destruct (exchangeWithConn_total p up size c n w1 Hq Hs) as (r & err & w2 & l & -> & Hs2 & Hd & Hl & Hl1 & Hf).
  cbn [gbind]. cbn in Hd, Hl. apply (requests_of n req up) in Hf; [|exact Hid].
  destruct (bootstrap p); cbn [negb andb].
  { eexists _, _, _, l. repeat split; cbn; auto; lia. }
  destruct (isExpectedConnErr err).
  2: { eexists _, _, _, l. repeat split; cbn; auto; lia. }
  destruct (dial (dialed w2) n) as [c2|e].
  2: { eexists _, _, _, l. repeat split; cbn; auto; lia. }
  set (w3 := mkWorld (S (dialed w2)) (sent w2) (w_state w2)).
  destruct (exchangeWithConn_total p up size c2 n w3 Hq Hs2) as (r' & err' & w4 & l' & -> & Hs4 & Hd4 & Hl4 & Hl41 & Hf4).
  cbn [gbind]. cbn in Hd4, Hl4. apply (requests_of n req up) in Hf4; [|exact Hid].
  eexists _, _, _, (l ++ l'). rewrite length_app, Hl4, Hl, app_assoc.
  repeat split; auto; try lia. apply Forall_app; auto.
Qed.

(** What an exchange does at most: dials and writes the request over its own
    network, and then over TCP if that network is UDP. *)
Definition within (p : plainDNS) (req : Msg) (w w' : world) : Prop :=
  (dialed w' <= dialed w + 2 * max_dials p)%nat
  /\ exists l1 l2, sent w' = sent w ++ l1 ++ l2 /\ requests (net p) req l1 /\ requests networkTCP req l2
    /\ (length l1 <= max_dials p /\ length l2 <= max_dials p)%nat
    /\ (l2 <> [] -> net p = networkUDP).

Lemma within_same p req w : within p req w w.
Proof.
  split; [lia|]. exists [], []. rewrite !app_nil_r. repeat split; try apply List.Forall_nil; try apply Nat.le_0_l.
  intros []. reflexivity.
Qed.

Lemma exchange_body_total p req w :
  Question req <> [] -> state_ok (w_state w) ->
  exists r err w', exchange_body p req w = Ret (r, err, w') /\ state_ok (w_state w') /\ within p req w w'.
Proof.
  intros Hq Hs. unfold exchange_body. destruct getDialer as [e|]; [eauto 9 using within_same|].
  destruct (dialExchange_total p (net p) req w Hq Hs) as (r & err & w1 & l & -> & Hs1 & Hd & Hl & Hll & Hr).
  cbn [gbind].
  assert (Hw1 : within p req w w1).
  { split; [lia|]. exists l, []. rewrite app_nil_r. repeat split; auto; try apply List.Forall_nil; try apply Nat.le_0_l.
    intros []. reflexivity. }
  destruct (bootstrap p && _); [eauto 9|].
  destruct (bool_decide_reflect (net p = networkUDP)) as [Hn|Hn]; cbn [negb]; [|eauto 9].
  destruct r as [m|]; [|eauto 9].
  destruct (dialExchange_total p networkTCP req w1 Hq Hs1) as (r2 & err2 & w2 & l2 & -> & Hs2 & Hd2 & Hl2 & Hll2 & Hr2).
  assert (Hw2 : within p req w w2).
  { split; [lia|]. exists l, l2. rewrite Hl2, Hl, <- app_assoc. repeat split; auto. }
  destruct (negb (bootstrap p) && _); [eauto 9|]. destruct (Truncated (Hdr m)); [|eauto 9].
  destruct (Question req) as [|q l0]; [destruct (Hq eq_refl)|]. change (index (q :: l0) 0) with (Ret q). cbn [gbind]. eauto 9.
Qed.

(** C34: An exchange with a request that has a question returns, whatever the
    network does, after at most two dialings over its network and two over TCP
    (one each for a bootstrap server); over TCP it goes on only from UDP, and
    every request written is the client's one up to its identifier. *)
Theorem Exchange_bounded (p : plainDNS) (req : Msg) (w : world)
    (Hq : Question req <> []) (Hs : state_ok (w_state w)) :
  exists r err w', Exchange p req w = Ret (r, err, w') /\ state_ok (w_state w') /\ within p req w w'.
Proof.
  unfold Exchange. destruct (state_start _ (w_state w)) as [st err] eqn:Es.
  assert (Hst : state_ok st).
  { destruct (w_state w) as [s|]; cbn in *; [|injection Es as <- <-; exact I].
    unfold start in Es. destruct (started s); injection Es as <- <-; exact Hs. }
  destruct err as [e|].
  { do 3 eexists. split; [reflexivity|]. split; [exact Hst|exact (within_same p req w)]. }
  destruct (exchange_body_total p req (set_state st w) Hq Hst) as (r & err & w' & -> & Hs' & Hw).
  cbn [gbind]. destruct (finish_ok err _ Hs') as (st' & -> & Hst'). cbn [gbind].
  do 3 eexists. split; [reflexivity|]. split; [exact Hst'|exact Hw].
Qed.

(** ** Responses *)

(** [m] is what a connection over [n], dialed between the worlds [w] and
    [w'], delivered for a request with the question of [req] written before
    [w']: the frame decodes to it, it carries the identifier of that request,
    and, but for a bootstrap server, it repeats its question. *)
Definition delivered (p : plainDNS) (req : Msg) (n : network) (w w' : world) (m : Msg) : Prop :=
  exists i c f q, (dialed w <= i < dialed w')%nat /\ dial i n = Ok c /\ In f (c_frames c)
    /\ In q (sent w') /\ r_net q = n /\ Question (r_msg q) = Question req
    /\ good_frame (r_msg q) m (negb (bootstrap p)) f.

Lemma exchangeWithConn_good p req size c n w r w' :
  exchangeWithConn p req size c n w = Ret (r, None, w') ->
  exists m f q, r = Some m /\ In f (c_frames c) /\ In q (sent w') /\ r_net q = n /\ r_msg q = req
    /\ good_frame (r_msg q) m (negb (bootstrap p)) f.
Proof.
  unfold exchangeWithConn. destruct (c_deadline c); [discriminate|]. destruct (c_write c); [discriminate|].
  intros H. inv_bind H. destruct a as [[r' e'] st']. injection H as <- -> <-.
  destruct (read_loop_good _ _ _ _ _ _ _ _ E) as (m & f & -> & Hf & Hg).
  exists m, f. eexists. split; [reflexivity|]. split; [exact Hf|].
  split; [apply in_or_app; right; left; reflexivity|]. auto.
Qed.

Lemma exchangeWithConn_dialed p req size c n w r err w' :
  exchangeWithConn p req size c n w = Ret (r, err, w') -> dialed w' = dialed w.
Proof.
  unfold exchangeWithConn. destruct (c_deadline c); [congruence|]. destruct (c_write c); [intros [= <- <- <-]; reflexivity|].
  intros H. inv_bind H. destruct a as [[r' e'] st']. injection H as <- <- <-. reflexivity.
Qed.

Lemma dialExchange_dialed p n req w r err w' :
  dialExchange p n req w = Ret (r, err, w') -> (dialed w < dialed w')%nat.
Proof.
  unfold dialExchange. destruct (setRequestForNetwork req n w) as [up size].
  cbn [dial_next]. destruct (dial (dialed w) n) as [c|e]; [|intros [= <- <- <-]; cbn; lia].
  intros H. inv_bind H. destruct a as [[r1 e1] w1]. apply exchangeWithConn_dialed in E. cbn in E.
  destruct (negb (bootstrap p) && _).
  - destruct (dial (dialed w1) n) as [c2|e2].
    + inv_bind H. destruct a as [[r2 e2] w2]. apply exchangeWithConn_dialed in E0. cbn in E0.
      injection H as <- <- <-. lia.
    + injection H as <- <- <-. cbn. lia.
  - injection H as <- <- <-. lia.
Qed.

Lemma delivered_earlier p req n w0 w w' m :
  (dialed w0 <= dialed w)%nat -> delivered p req n w w' m -> delivered p req n w0 w' m.
Proof. intros Hd (i & c & f & q & Hi & Hr). exists i, c, f, q. split; [lia|exact Hr]. Qed.

Context {WDL : WithDeferredLaws}.

Lemma withDeferred_inv e d : WithDeferred e d = None -> e = None /\ d = None.
Proof using WDL.
  intros H. destruct e as [e|], d as [d|]; auto;
    (edestruct withDeferred_some as [x Hx]; [|rewrite H in Hx; discriminate]); eauto.
Qed.

Lemma dialExchange_good p n req w r w' :
  dialExchange p n req w = Ret (r, None, w') ->
  exists m, r = Some (set_Id (Id (Hdr req)) m) /\ delivered p req n w w' m.
Proof using WDL.
  unfold dialExchange. destruct (setRequestForNetwork req n w) as [up size] eqn:Es.
  assert (Hup : Question up = Question req).
  { unfold setRequestForNetwork in Es. destruct n; injection Es as <- _; [case_goal|]; reflexivity. }
  cbn [dial_next]. destruct (dial (dialed w) n) as [c|e] eqn:Ec; [|discriminate].
  assert (Hend : forall i c r1 w1 w2, dial i n = Ok c -> (dialed w <= i < dialed w1)%nat ->
    exchangeWithConn p up size c n w1 = Ret (r1, None, w2) ->
    exists m, set_Id (Id (Hdr req)) <$> r1 = Some (set_Id (Id (Hdr req)) m) /\ delivered p req n w w2 m).
  { intros i c' r1 w1 w2 Hc Hi Hx. pose proof (exchangeWithConn_dialed _ _ _ _ _ _ _ _ _ Hx) as Hd.
    destruct (exchangeWithConn_good _ _ _ _ _ _ _ _ Hx) as (m & f & q & -> & Hf & Hq & Hn & Hm & Hg).
    exists m. split; [reflexivity|]. exists i, c', f, q. rewrite Hd, Hm. rewrite Hm in Hg. auto 10. }
  intros H. inv_bind H. destruct a as [[r1 e1] w1].
  pose proof (exchangeWithConn_dialed _ _ _ _ _ _ _ _ _ E) as Hd. cbn in Hd.
  destruct (negb (bootstrap p) && _) eqn:Er.
  - destruct (dial (dialed w1) n) as [c2|e2] eqn:Ec2.
    + inv_bind H. destruct a as [[r2 e2] w2]. injection H as <- [He _]%withDeferred_inv <-.
      apply withDeferred_inv in He as [He _]. destruct e2; [discriminate|].
      eapply Hend; [exact Ec2| |exact E0]. cbn. lia.
    + injection H as _ [He _]%withDeferred_inv _. discriminate.
  - injection H as <- [He _]%withDeferred_inv <-. destruct e1; [discriminate|].
    eapply Hend; [exact Ec| |exact E]. cbn. lia.
Qed.

(** C33: A response that an exchange returns without an error was delivered, as
    a complete message, by a connection the exchange dialed: it has the
    identifier the request was written with, it repeats the question of the
    request unless the server is a bootstrap one, it is given the identifier of
    the client's request, and a truncated datagram is never returned. *)
Theorem Exchange_response_valid (p : plainDNS) (req : Msg) (w : world) (r : option Msg) (w' : world)
    (Hx : Exchange p req w = Ret (r, None, w')) :
  exists n m, r = Some (set_Id (Id (Hdr req)) m) /\ delivered p req n w w' m
    /\ (n = net p \/ net p = networkUDP /\ n = networkTCP)
    /\ (n = networkUDP -> Truncated (Hdr m) = false).
Proof using WDL.
  unfold Exchange in Hx. destruct (state_start _ _) as [st [e|]]; [discriminate|].
  inv_bind Hx. destruct a as [[r1 e1] w1]. inv_bind Hx. injection Hx as <- -> <-.
  change (delivered p req ?n w (set_state a w1)) with (delivered p req n (set_state st w) w1).
  unfold exchange_body in E. destruct getDialer; [discriminate|].
  inv_bind E. destruct a0 as [[r2 e2] w2]. destruct (bootstrap p && _) eqn:Eb.
  { injection E as <- -> <-. rewrite andb_false_r in Eb. discriminate. }
  pose proof (dialExchange_dialed _ _ _ _ _ _ _ E1) as Hd2.
  assert (Htcp : forall r3 w4, net p = networkUDP -> dialExchange p networkTCP req w2 = Ret (r3, None, w4) ->
    exists n m, r3 = Some (set_Id (Id (Hdr req)) m) /\ delivered p req n (set_state st w) w4 m
      /\ (n = net p \/ net p = networkUDP /\ n = networkTCP) /\ (n = networkUDP -> Truncated (Hdr m) = false)).
  { intros r3 w4 Hn Hd. destruct (dialExchange_good _ _ _ _ _ _ Hd) as (m & -> & Hm).
    exists networkTCP, m. repeat split; auto; [|discriminate]. eapply delivered_earlier; [|exact Hm]. lia. }
  destruct (bool_decide_reflect (net p = networkUDP)) as [Hn|Hn]; cbn [negb] in E.
  - destruct r2 as [m2|].
    + destruct (negb (bootstrap p) && _); [eauto|]. destruct (Truncated (Hdr m2)) eqn:Et; [inv_bind E; eauto|].
      injection E as <- -> <-. destruct (dialExchange_good _ _ _ _ _ _ E1) as (m & [= ->] & Hm).
      exists (net p), m. repeat split; auto.
    + injection E as <- -> <-. destruct (dialExchange_good _ _ _ _ _ _ E1) as (m & ? & _). discriminate.
  - injection E as <- -> <-. destruct (dialExchange_good _ _ _ _ _ _ E1) as (m & -> & Hm).
    exists (net p), m. repeat split; auto. intros; contradiction.
Qed.

(** ** The decision *)

Section Decision.
Context {DLaws : DnsLaws}.
(** Closing a connection does not fail, and one connection delivers a bounded
    number of frames. *)
Hypothesis dial_close : forall i n c, dial i n = Ok c -> c_close c = None.
Hypothesis dial_frames : forall i n c, dial i n = Ok c -> len (c_frames c) < 2 ^ 60.

(** The state after [k] connections were read. *)
Definition outcome (oid k : Z) (udp : bool) (r : option Msg) (err : option error) (w : world) : Prop :=
  read_outcome oid (k * 2 ^ 60) udp r err (w_state w).

Lemma exchangeWithConn_outcome p req size i c n w r err w' oid k s :
  dial i n = Ok c -> 0 <= k <= 8 -> w_state w = Some s -> idle s -> original s = oid -> ticket_ s <= k * 2 ^ 60 ->
  exchangeWithConn p req size c n w = Ret (r, err, w') ->
  outcome oid (k + 1) (bool_decide (n = networkUDP)) r err w'.
Proof using DLaws dial_frames.
  intros Hc Hk Hw Hi Ho Ht. apply dial_frames in Hc. unfold exchangeWithConn, outcome.
  assert (Hfail : forall e w1, w_state w1 = w_state w ->
    read_outcome oid ((k + 1) * 2 ^ 60) (bool_decide (n = networkUDP)) None (Some e) (w_state w1)).
  { intros e w1 ->. exists s. rewrite Hw. repeat split; try apply Hi; auto; lia. }
  destruct (c_deadline c); [intros [= <- <- <-]; auto|].
  destruct (c_write c); [intros [= <- <- <-]; auto|].
  intros H. inv_bind H. destruct a as [[r1 e1] st1]. injection H as <- <- <-.
  cbn [w_state] in E. rewrite Hw in E. apply read_loop_state in E; [|exact Hi|lia].
  destruct E as (s' & -> & Ho' & Ht' & Hr). exists s'. rewrite <- Ho. repeat split; auto. lia.
Qed.

Lemma outcome_idle oid k udp r e w : outcome oid k udp r (Some e) w ->
  exists s, w_state w = Some s /\ idle s /\ original s = oid /\ ticket_ s <= k * 2 ^ 60.
Proof. intros (s & ? & ? & ? & ?). eauto. Qed.

Lemma outcome_more oid k k' udp r err w : outcome oid k udp r err w -> k <= k' -> outcome oid k' udp r err w.
Proof. intros (s & ? & ? & ? & ?) Hk. exists s. repeat split; auto. lia. Qed.

Lemma outcome_err oid k udp r r' e e' w : outcome oid k udp r (Some e) w -> outcome oid k udp r' (Some e') w.
Proof. intros (s & ? & ? & ? & ?). exists s. auto. Qed.

(** A restored identifier does not matter. *)
Lemma outcome_id id oid k udp r err w :
  outcome oid k udp r err w -> outcome oid k udp (set_Id id <$> r) err w.
Proof.
  intros (s & ? & ? & ? & Hr). exists s. repeat split; auto. destruct err; [exact Hr|].
  destruct Hr as (m & -> & Hm). exists (set_Id id m). split; [reflexivity|]. exact Hm.
Qed.

Lemma outcome_wrap f oid k udp r err w : outcome oid k udp r err w -> outcome oid k udp r (Errorf f <$> err) w.
Proof. destruct err; [apply outcome_err|]. auto. Qed.

Lemma dialExchange_outcome p n req w r err w' oid k s :
  0 <= k <= 6 -> w_state w = Some s -> idle s -> original s = oid -> ticket_ s <= k * 2 ^ 60 ->
  dialExchange p n req w = Ret (r, err, w') ->
  outcome oid (k + 2) (bool_decide (n = networkUDP)) r err w'.
Proof using DLaws WDL dial_frames dial_close.
  intros Hk Hw Hi Ho Ht. unfold dialExchange. destruct (setRequestForNetwork req n w) as [up size].
  cbn [dial_next]. destruct (dial (dialed w) n) as [c|e] eqn:Ec.
  2: { intros [= <- <- <-]. exists s. rewrite <- Ho. repeat split; auto; try apply Hi. lia. }
  rewrite (dial_close _ _ _ Ec). intros H. inv_bind H. destruct a as [[r1 e1] w1].
  apply (exchangeWithConn_outcome _ _ _ _ _ _ _ _ _ _ oid k s Ec) in E; auto; [|lia].
  destruct (negb (bootstrap p) && isExpectedConnErr e1) eqn:Er.
  - apply andb_true_iff in Er as [_ He1]. destruct e1 as [e1|]; [|discriminate].
    destruct (dial (dialed w1) n) as [c2|e2] eqn:Ec2.
    + inv_bind H. destruct a as [[r2 e2] w2]. rewrite (dial_close _ _ _ Ec2), !withDeferred_none in H.
      injection H as <- <- <-. destruct (outcome_idle _ _ _ _ _ _ E) as (s1 & Hw1 & Hi1 & Ho1 & Ht1).
      apply (exchangeWithConn_outcome _ _ _ _ _ _ _ _ _ _ oid (k + 1) s1 Ec2) in E0; auto; [|lia].
      apply outcome_id, outcome_wrap. eapply outcome_more; [exact E0|lia].
    + rewrite withDeferred_none in H. injection H as <- <- <-.
      eapply outcome_more; [exact (outcome_err _ _ _ r1 None e1 e1 _ E)|lia].
  - rewrite withDeferred_none in H. injection H as <- <- <-.
    apply outcome_id, outcome_wrap. eapply outcome_more; [exact E|lia].
Qed.

Lemma exchange_body_outcome p req w r err w' s oid :
  w_state w = Some s -> idle s -> ticket_ s = 0 -> original s = oid ->
  exchange_body p req w = Ret (r, err, w') -> outcome oid 4 false r err w'.
Proof using DLaws WDL dial_frames dial_close.
  intros Hw Hi Ht Ho. unfold exchange_body. destruct getDialer as [e|].
  { intros [= <- <- <-]. exists s. rewrite <- Ho. repeat split; auto; try apply Hi. lia. }
  intros H. inv_bind H. destruct a as [[r1 e1] w1].
  apply (dialExchange_outcome _ _ _ _ _ _ _ oid 0 s) in E; auto; [|lia|lia].
  assert (Hfail : forall e, e1 = Some e -> outcome oid 4 false r1 e1 w1).
  { intros e ->. apply (outcome_more oid (0 + 2)); [exact E|lia]. }
  destruct (bootstrap p && _) eqn:Eb.
  { injection H as <- <- <-. destruct e1; [eauto|]. rewrite andb_false_r in Eb. discriminate. }
  destruct (bool_decide_reflect (net p = networkUDP)) as [Hn|Hn]; cbn [negb] in H.
  2: { injection H as <- <- <-. eapply outcome_more; [exact E|lia]. }
  destruct r1 as [m|].
  2: { injection H as <- <- <-. destruct e1; [eauto|]. destruct E as (? & _ & _ & _ & ? & [=] & _). }
  assert (Htcp : forall s1, w_state w1 = Some s1 -> idle s1 -> original s1 = oid -> ticket_ s1 <= 2 * 2 ^ 60 ->
    dialExchange p networkTCP req w1 = Ret (r, err, w') -> outcome oid 4 false r err w').
  { intros s1 Hw1 Hi1 Ho1 Ht1 Hd. apply (dialExchange_outcome _ _ _ _ _ _ _ oid 2 s1) in Hd; auto. lia. }
  destruct e1 as [e1|].
  - destruct (outcome_idle _ _ _ _ _ _ E) as (s1 & Hw1 & Hi1 & Ho1 & Ht1).
    destruct (negb (bootstrap p) && _); [eauto|]. destruct (Truncated (Hdr m)); [inv_bind H; eauto|].
    injection H as <- <- <-. eauto.
  - rewrite andb_false_r in H. destruct E as (s1 & Hw1 & Ho1 & Ht1 & m' & [= <-] & Hp). unfold publishable in Hp.
    destruct (Truncated (Hdr m)) eqn:Et; cbn [andb negb] in Hp.
    + inv_bind H. rewrite andb_false_r in Hp. eauto.
    + injection H as <- <- <-. exists s1. repeat split; auto; [lia|]. exists m.
      split; [reflexivity|]. unfold publishable. exact Hp.
Qed.

(** An exchange on a fresh decision state always leaves a decision that
    agrees with what it returns: the error it returned, or the very response it
    returned, if that message is a response at all, and no reply otherwise. *)
Theorem Exchange_decides (p : plainDNS) (req : Msg) (n : nat) (r : option Msg) (err : option error) (w' : world)
    (Hx : Exchange p req (mkWorld n [] (Some (NewExchangeState None))) = Ret (r, err, w')) :
  exists s, w_state w' = Some s /\ snd (Result s) = true
    /\ match err with
       | Some e => fst (Result s) = err_result e
       | None => exists m, r = Some m
           /\ if Response (Hdr m)
              then Response_ (fst (Result s)) = Some (set_Id (Id (Hdr req)) m) /\ Err_ (fst (Result s)) = None
              else fst (Result s) = err_result ErrNoReply
       end.
Proof using DLaws WDL dial_frames dial_close.
  unfold Exchange in Hx. cbn [w_state state_start start started NewExchangeState] in Hx.
  inv_bind Hx. destruct a as [[r1 e1] w1].
  eapply (exchange_body_outcome _ _ _ _ _ _ _ (Id (Hdr req))) in E;
    [|reflexivity|split; cbn; auto; lia|reflexivity|reflexivity].
  destruct E as (s & Hw & Ho & _ & Hr). rewrite Hw in Hx. cbn [on_state] in Hx.
  unfold finish, completeLocked in Hx.
  assert (Hidle : idle s -> finished s = false /\ done_closed s = false) by (intros []; auto).
  destruct e1 as [e1|].
  - destruct (Hidle Hr) as [Hf Hd]. rewrite Hf, Hd in Hx. injection Hx as <- <- <-.
    eexists. split; [reflexivity|]. cbn. auto.
  - destruct Hr as (m & -> & Hp). unfold publishable in Hp. cbn [andb negb] in Hp. rewrite andb_true_r in Hp.
    destruct (Response (Hdr m)) eqn:Em.
    + destruct Hp as (Hf & Hresp & He). rewrite Hf in Hx. injection Hx as <- <- <-.
      exists s. cbn. repeat split; auto. exists m. rewrite Em. auto.
    + destruct (Hidle Hp) as [Hf Hd]. rewrite Hf, Hd in Hx. injection Hx as <- <- <-.
      eexists. split; [reflexivity|]. cbn. split; [reflexivity|]. exists m. rewrite Em. auto.
Qed.
End Decision.
End Plain.

(** ** Examples *)

Module PlainExamples.
#[export] Instance noTsig : TsigLib := {| IsTsig _ := false; TsigVerify _ := None |}.
#[export] Instance netErrors : NetErrors := fun m =>
  if String.eqb m "i/o timeout" then Some true
  else if String.eqb m "connection reset by peer" then Some false else None.
#[export] Instance withDeferred : WithDeferredLib := fun e d =>
  match e, d with
  | _, None => e
  | None, Some d => Some (Errorf "deferred: %w" d)
  | Some e, Some d => Some (Errorf "pair" e)
  end.
#[export] Instance withDeferred_laws : WithDeferredLaws.
Proof. split; [intros []; reflexivity|]. intros [e|] [d|] [[]|[]]; cbn; eauto; discriminate. Qed.

Definition req : Msg :=
  mkMsg (mkMsgHdr 0 false 0 false false true false false false false 0) false [mkQ (str "a.test.") 1 1] [] [] [].
Definition reply (id : Z) (tc : bool) : Msg :=
  mkMsg (mkMsgHdr id true 0 false tc true true false false false 0) false [mkQ (str "A.TEST.") 1 1] [] [] [].
Definition wire_of (m : Msg) : bytes := match Pack m with Ok b => b | Err _ => [] end.
Definition conn_of (ms : list Msg) : connection :=
  mkConn None None ((fun m => mkFrame (wire_of m) 1 2) <$> ms) (New "i/o timeout") None.

(** The first connection is reset, the second one delivers a foreign datagram
    and a truncated reply, and the one over TCP the whole reply. *)
Definition dial (i : nat) (n : network) : result connection :=
  match n, i with
  | networkUDP, O => Ok (mkConn None None [] (New "connection reset by peer") None)
  | networkUDP, _ => Ok (conn_of [reply 9 false; reply 77 true])
  | networkTCP, _ => Ok (conn_of [reply 0 false])
  end.
Definition newId (_ : nat) : Z := 77.
Definition udp : plainDNS := mkPlain networkUDP 0 false.
Definition start_world : world := mkWorld 0 [] (Some (NewExchangeState None)).
Definition result_world : world :=
  match Exchange dial None newId udp req start_world with Ret (_, _, w) => w | Panic => start_world end.
End PlainExamples.
Import PlainExamples.

Lemma Exchange_bounded_witness :
  exists r err w', Exchange dial None newId udp req start_world = Ret (r, err, w')
    /\ state_ok (w_state w') /\ within udp req start_world w'.
Proof.
  pose proof (Exchange_bounded dial None newId udp req start_world ltac:(discriminate) eq_refl) as H. exact H.
Defined.

Lemma example_run :
  Exchange dial None newId udp req start_world = Ret (Some (reply 0 false), None, result_world).
Proof. vm_compute. reflexivity. Qed.

Lemma Exchange_response_valid_witness :
  exists n m, reply 0 false = set_Id 0 m /\ delivered dial udp req n start_world result_world m.
Proof.
  pose proof (Exchange_response_valid dial None newId udp req start_world (Some (reply 0 false)) result_world
    example_run) as (n & m & Hm & Hd & _).
  exists n, m. split; [exact (f_equal (default req) Hm)|exact Hd].
Defined.

Lemma dial_closes i n c : dial i n = Ok c -> c_close c = None.
Proof. destruct n, i; intros [= <-]; reflexivity. Qed.

Lemma dial_bounded i n c : dial i n = Ok c -> len (c_frames c) < 2 ^ 60.
Proof. destruct n, i; intros [= <-]; vm_compute; reflexivity. Qed.

Lemma Exchange_decides_witness :
  exists s, w_state result_world = Some s /\ snd (Result s) = true
    /\ Response_ (fst (Result s)) = Some (reply 0 false).
Proof.
  destruct (Exchange_decides dial None newId dial_closes dial_bounded udp req 0 (Some (reply 0 false)) None
    result_world example_run) as (s & Hs & Hf & m & Hm & Hr).
  assert (m = reply 0 false) as -> by congruence. exists s. split; [exact Hs|]. split; [exact Hf|]. exact (proj1 Hr).
Defined.
