(* ===== verification/Datagram.v ===== *)
(** * Datagrams and their addresses (internal/netutil: udp.go, udp_unix.go,
      udp_windows.go, udpoob_darwin.go, udpoob_others.go, listenconfig_unix.go,
      datagram.go)

    The local address of a datagram, which comes as out-of-band data of the socket,
    and its way back into the response; the options of listening sockets; and
    connected sockets that are used as packet connections.  Sockets are functions
    of the environment. *)

From stdpp Require Import gmap.
From S2P Require Import Prelude NetIP NetUtil Plain.
#[local] Open Scope Z_scope.

(** golang.org/x/net: the destination that [Parse] of a [ControlMessage] of ipv6 or
    ipv4 finds, nil if there is none, and [Marshal] of one with a source. *)
Class ControlMessages := {
  parse6 : bytes -> result IP;
  parse4 : bytes -> result IP;
  marshal6 : IP -> bytes;
  marshal4 : IP -> bytes;
  (** The lengths of empty messages with the flags of the proxy. *)
  oob_len6 : Z;
  oob_len4 : Z;
}.

Inductive os := Windows | Darwin | OtherUnix.
#[export] Instance os_eq_dec : EqDecision os.
Proof. solve_decision. Defined.

Section Datagram.
Context {NU : NetUtil} {CM : ControlMessages}.

(** ** Reading and writing *)

Definition udpGetOOBSize (o : os) : Z := match o with Windows => 0 | _ => Z.max oob_len4 oob_len6 end.

Definition udpSetOptions (o : os) (err6 err4 : option error) : option error :=
  match o with
  | Windows => None
  | _ => match err6, err4 with
         | Some _, Some _ => Some (New "failed to call SetControlMessage: ipv4: %v; ipv6: %v")
         | _, _ => None
         end
  end.

Definition udpGetDstFromOOB (oob : bytes) : result Addr :=
  match parse6 oob with
  | Ok (Some dst) => IPToAddrNoMapped (Some dst)
  | _ =>
      match parse4 oob with
      | Ok (Some dst) => IPToAddr4 (Some dst)
      | _ => Ok AddrZero
      end
  end.

(** What a socket gives: the bytes, the out-of-band data, the remote address. *)
Record udp_message := mkUDPMessage { m_data : bytes; m_oob : bytes; m_remote : Addr }.

(** [buf] and [udpOOBSize] are the sizes of the buffers, which cut what is longer. *)
Definition udpRead (o : os) (buf udpOOBSize : Z) (r : result udp_message) : Z * Addr * option Addr * option error :=
  match o, r with
  | Windows, Ok m => (Z.min buf (len (m_data m)), AddrZero, Some (m_remote m), None)
  | Windows, Err e => (0, AddrZero, None, Some e)
  | _, Err e => (-1, AddrZero, None, Some e)
  | _, Ok m =>
      match udpGetDstFromOOB (take (Z.to_nat udpOOBSize) (m_oob m)) with
      | Err e => (-1, AddrZero, None, Some e)
      | Ok localIP => (Z.min buf (len (m_data m)), localIP, Some (m_remote m), None)
      end
  end.

Definition udpMakeOOBWithSrc (o : os) (ip : Addr) : bytes :=
  if Is4 ip then match o with Darwin => [] | _ => marshal4 (AsSlice ip) end
  else marshal6 (AsSlice ip).

(** What is given to the socket: the bytes, the out-of-band data and the address. *)
Definition udpWrite (o : os) (data : bytes) (remoteAddr localIP : Addr) : bytes * bytes * Addr :=
  match o with
  | Windows => (data, [], remoteAddr)
  | _ => (data, udpMakeOOBWithSrc o localIP, remoteAddr)
  end.

(** ** Options of listening sockets *)

(** [defaultListenControl] on Unix, with the outcomes of the two options and of
    [Control]; the function is not run if [Control] fails before. *)
Definition defaultListenControl {WD : WithDeferredLib} (runs : bool) (reuseaddr reuseport control_err : option error) : option error :=
  let opErr :=
    if negb runs then None
    else match reuseaddr with
    | Some e => Some (Errorf "setting SO_REUSEADDR: %w" e)
    | None =>
        match reuseport with
        | Some e => if errors_Is e "protocol not available" then None else Some (Errorf "setting SO_REUSEPORT: %w" e)
        | None => None
        end
    end in
  WithDeferred opErr control_err.

(** ** Connected sockets *)

(** An address as a network and a text. *)
Definition net_addr : Type := bytes * bytes.

(** [ConnectedDatagram], with what [Read] and [Write] of the connection answer. *)
Definition ReadFrom (remote : net_addr) (read : Z * option error) : Z * net_addr * option error :=
  (fst read, remote, snd read).
(** The bytes that are written, if any. *)
Definition WriteTo (remote : net_addr) (b : bytes) (addr : option net_addr) (write : bytes -> Z * option error)
    : Z * option error * option bytes :=
  match addr with
  | Some a =>
      if negb (bool_decide (fst a = fst remote)) || negb (bool_decide (snd a = snd remote))
      then (0, Some (New "connected UDP destination differs from configured route"), None)
      else (write b, Some b)
  | None => (0, Some (New "connected UDP destination differs from configured route"), None)
  end.
End Datagram.

(** ** Facts *)

(** What the system does with out-of-band data: [sent_from] is the source address that
    a message asks for, and [received_at] the data of a datagram that was sent to an
    address, over IPv4 or IPv6. *)
Class Kernel `{ControlMessages} := {
  sent_from : bytes -> option Addr;
  received_at : Addr -> bytes -> Prop;
}.

Class KernelLaws `{Kernel} := {
  sent_from4 b : length b = 4%nat -> sent_from (marshal4 (Some b)) = Some (Addr4 b);
  sent_from6 b : length b = 16%nat -> sent_from (marshal6 (Some b)) = Some (Addr6 b []);
  sent_from_none : sent_from [] = None;
  (** An IPv4 destination is told as such, or mapped on a socket of both families. *)
  received_at4 b oob : received_at (Addr4 b) oob -> length b = 4%nat /\
    (parse6 oob = Ok (Some (v4InV6Prefix ++ b)) \/ (parse6 oob = Ok None /\ parse4 oob = Ok (Some b)));
  received_at6 b z oob : received_at (Addr6 b z) oob -> length b = 16%nat /\ parse6 oob = Ok (Some b);
}.

Lemma To4_mapped b : length b = 4%nat -> To4 (Some (v4InV6Prefix ++ b)) = Some b.
Proof.
  intros H. unfold To4. cbn [slice default]. do 4 (destruct b as [|? b]; [discriminate|]). destruct b; [|discriminate].
  cbn. rewrite bool_decide_true by reflexivity. reflexivity.
Qed.

Section DatagramFacts.
Context {NU : NetUtil} {NL : NetUtilLaws} `{KL : KernelLaws}.

Lemma dst_from_oob dst oob : received_at dst oob -> dst <> AddrZero -> udpGetDstFromOOB oob = Ok (Unmap (match dst with Addr6 b _ => Addr6 b [] | a => a end)).
Proof using NL KL.
  intros Hr Hd. unfold udpGetDstFromOOB. destruct dst as [|b|b z]; [contradiction| |].
  - destruct (received_at4 _ _ Hr) as [Hl [-> | [-> ->]]]; cbn [Unmap].
    + pose proof (IPToAddrNoMapped_spec (Some (v4InV6Prefix ++ b))) as Hsp. rewrite To4_mapped in Hsp by exact Hl. exact Hsp.
    + pose proof (IPToAddr4_spec (Some b)) as Hsp. unfold To4 in Hsp. change (slice (Some b)) with b in Hsp. rewrite Hl in Hsp. exact Hsp.
  - destruct (received_at6 _ _ _ Hr) as [Hl ->]. pose proof (IPToAddrNoMapped_spec (Some b)) as Hsp.
    unfold To4 in Hsp. change (slice (Some b)) with b in Hsp. rewrite Hl in Hsp. cbn [Nat.eqb IPv4len IPv6len andb] in Hsp. cbn [Unmap].
    case_bool_decide; exact Hsp.
Qed.

(** A response leaves from the address that its query was sent to.  Except on Windows,
    and for IPv4 on Darwin, where the system chooses the source, the out-of-band data
    of the response asks for the address that the datagram of the query was sent to,
    if the buffer for that data was large enough. *)
Lemma reply_source o dst data oob remote buf n : o <> Windows -> (o = Darwin -> Is4 (Unmap dst) = false) ->
  received_at dst oob -> dst <> AddrZero -> len oob <= n ->
  exists localIP, udpRead o buf n (Ok (mkUDPMessage data oob remote)) = (Z.min buf (len data), localIP, Some remote, None)
    /\ forall resp, sent_from (snd (fst (udpWrite o resp remote localIP))) = Some (Unmap (match dst with Addr6 b _ => Addr6 b [] | a => a end)).
Proof using NL KL.
  intros Ho Hdw Hr Hd Hn. pose proof (dst_from_oob dst oob Hr Hd) as Hx.
  set (a := Unmap (match dst with Addr6 b _ => Addr6 b [] | a => a end)) in *. exists a. split.
  { unfold udpRead. cbn [m_oob m_data m_remote]. rewrite take_ge by lia. rewrite Hx. destruct o; [contradiction|reflexivity..]. }
  assert (Hs : forall resp, sent_from (snd (fst (udpWrite o resp remote a))) = sent_from (udpMakeOOBWithSrc o a)) by (intros resp; destruct o; [contradiction|reflexivity..]).
  intros resp. rewrite Hs. subst a. unfold udpMakeOOBWithSrc. destruct dst as [|b|b z]; [contradiction| |]; cbn [Unmap].
  - destruct (received_at4 _ _ Hr) as [Hl _]. cbn. destruct o; [contradiction|discriminate (Hdw eq_refl)|apply sent_from4, Hl].
  - destruct (received_at6 _ _ _ Hr) as [Hl _]. cbn [Unmap] in Hdw. case_bool_decide; cbn; [|apply sent_from6, Hl].
    destruct o; [contradiction|discriminate (Hdw eq_refl)|]. apply sent_from4. rewrite length_drop. lia.
Qed.
End DatagramFacts.

(** A connected socket used as a packet connection sends only to its own remote
    address, and says that what it reads comes from there. *)
Lemma WriteTo_remote remote b addr write n e w : WriteTo remote b addr write = (n, e, Some w) ->
  addr = Some remote /\ w = b /\ (n, e) = write b.
Proof.
  unfold WriteTo. destruct addr as [[net txt]|]; [|discriminate]. destruct remote as [rnet rtxt]. cbn.
  destruct (bool_decide _) eqn:E1; cbn; [|discriminate]. destruct (bool_decide (txt = _)) eqn:E2; cbn; [|discriminate].
  apply bool_decide_eq_true in E1 as ->, E2 as ->. destruct (write b). intros [= <- <- <-]. auto.
Qed.

Module DatagramExamples.

(** Messages are their addresses after a byte for the family. *)
#[export] Instance messages : ControlMessages := {|
  parse6 oob := match oob with 6 :: b => Ok (Some b) | _ => Ok None end;
  parse4 oob := match oob with 4 :: b => Ok (Some b) | _ => Ok None end;
  marshal6 ip := match ip with Some b => 6 :: b | None => [] end;
  marshal4 ip := match ip with Some b => 4 :: b | None => [] end;
  oob_len6 := 17;
  oob_len4 := 5;
|}.

#[export] Instance kernel : Kernel := {|
  sent_from oob := match oob with 4 :: b => Some (Addr4 b) | 6 :: b => Some (Addr6 b []) | _ => None end;
  received_at a oob :=
    match a with
    | AddrZero => False
    | Addr4 b => length b = 4%nat /\ (oob = 4 :: b \/ oob = 6 :: v4InV6Prefix ++ b)
    | Addr6 b _ => length b = 16%nat /\ oob = 6 :: b
    end;
|}.

#[export] Instance kernel_laws : KernelLaws.
Proof.
  split; try reflexivity.
  - intros b oob [Hl [-> | ->]]; (split; [exact Hl|]); [right; split|left]; reflexivity.
  - intros b z oob [Hl ->]. auto.
Qed.

End DatagramExamples.
Import DatagramExamples.

(** A client of a socket of both families, with the mapped destination. *)
Example reply_source_example : exists localIP,
  udpRead OtherUnix 512 (udpGetOOBSize OtherUnix) (Ok (mkUDPMessage [1; 2] (6 :: v4InV6Prefix ++ [192; 0; 2; 1]) (Addr4 [192; 0; 2; 7])))
    = (2, localIP, Some (Addr4 [192; 0; 2; 7]), None)
  /\ forall resp, sent_from (snd (fst (udpWrite OtherUnix resp (Addr4 [192; 0; 2; 7]) localIP))) = Some (Addr4 [192; 0; 2; 1]).
Proof.
  apply (reply_source OtherUnix (Addr4 [192; 0; 2; 1])); try discriminate.
  split; [reflexivity|right; reflexivity].
Qed.
