(* ===== verification/Dot.v ===== *)
(** * The DNS-over-TLS upstream (upstream/dot.go)

    A pool of connections that exchanges take from and give back to.  What a
    connection does when it is used is the environment's, for each moment; a
    connection is named by the moment it was opened. *)

From stdpp Require Import gmap.
From S2P Require Import Prelude DnsMsg RefDns Wire Upstreams Receipt Response Plain.
#[local] Open Scope Z_scope.

(** What the outside does at a moment. *)
Record env := mkEnv {
  getDialer_err : nat -> option error;
  ctx_err : nat -> option error;
  (** Whether the deadline of the exchange has passed. *)
  late : nat -> bool;
  dial_err : nat -> option error;
  handshake_err : nat -> option error;
  (** Setting a deadline, writing, reading and closing. *)
  use : nat -> connection;
}.

(** [wrote] are the connections that queries were written to. *)
Record world := mkWorld {
  w_time : nat;
  live : gset nat;
  conns : list nat;
  wrote : list nat;
  w_state : state;
}.

Definition tick (w : world) : world := mkWorld (S (w_time w)) (live w) (conns w) (wrote w) (w_state w).
Definition set_live (l : gset nat) (w : world) : world := mkWorld (w_time w) l (conns w) (wrote w) (w_state w).
Definition set_conns (l : list nat) (w : world) : world := mkWorld (w_time w) (live w) l (wrote w) (w_state w).
Definition set_state (s : state) (w : world) : world := mkWorld (w_time w) (live w) (conns w) (wrote w) s.
Definition log_write (c : nat) (w : world) : world := mkWorld (w_time w) (live w) (conns w) (wrote w ++ [c]) (w_state w).

Section Dot.
Context {DL : DnsLib} {TL : TsigLib} {NE : NetErrors} {WD : WithDeferredLib}.
Context (ev : env).

Definition conn_Close (c : nat) (w : world) : option error * world :=
  (c_close (use ev (w_time w)), set_live (live w ∖ {[c]}) (tick w)).

Definition tlsDial (w : world) : result nat * world :=
  let t := w_time w in
  let w := tick w in
  match ctx_err ev t with
  | Some err => (Err err, w)
  | None =>
      match dial_err ev t with
      | Some err => (Err err, w)
      | None =>
          let w := set_live ({[t]} ∪ live w) w in
          let close err := let '(cerr, w) := conn_Close t w in
                           (Err (default err (WithDeferred (Some err) cerr)), w) in
          match c_deadline (use ev t) with
          | Some err => close err
          | None => match handshake_err ev t with Some err => close err | None => (Ok t, w) end
          end
      end
  end.

(** The last connection of the pool, or else a new one. *)
Definition conn (w : world) : result (nat * bool) * world :=
  let dial w :=
    let '(r, w) := tlsDial w in
    (match r with Ok c => Ok (c, false) | Err e => Err (Errorf "connecting to %s: %w" e) end, w) in
  match rev (conns w) with
  | [] => dial w
  | c :: rest =>
      let t := w_time w in
      let w := tick (set_conns (rev rest) w) in
      match c_deadline (use ev t) with
      | Some _ => let '(_, w) := conn_Close c w in dial w
      | None => (Ok (c, true), w)
      end
  end.

Definition putBack (c : nat) (w : world) : world := set_conns (conns w ++ [c]) w.

Definition exchangeWithConn (c : nat) (req : Msg) (w : world) : go (option Msg * option error * world) :=
  let u := use ev (w_time w) in
  let w := log_write c (tick w) in
  match c_write u with
  | Some e => Ret (None, Some (Errorf "sending request to %s: %w" e), w)
  | None =>
      let! (reply, err, st) := readDNSResponse u req (w_state w) false true in
      let w := set_state st w in
      match err with
      | Some e => Ret (None, Some (Errorf "reading response from %s: %w" e), w)
      | None => Ret (reply, None, w)
      end
  end.

(** After an error of the first connection: whether to give up, and the error. *)
Definition drop_conn (cached : bool) (err : error) (w : world) : option error * world :=
  if negb cached || errors_Is err "invalid DNS response" then (Some err, w)
  else
    let t := w_time w in
    let w := tick w in
    match ctx_err ev t with
    | Some e => (Some (Join [err; e]), w)
    | None => (if late ev t then Some (Join [err; DeadlineExceeded]) else None, w)
    end.

Definition retry (req : Msg) (w : world) : go (option Msg * option error * world) :=
  let '(r, w) := tlsDial w in
  match r with
  | Err e => Ret (None, Some (Errorf "dialing %s: connecting to %s: %w" e), w)
  | Ok c =>
      let! (reply, err, w) := exchangeWithConn c req w in
      match err with
      | Some e => let '(cerr, w) := conn_Close c w in Ret (reply, WithDeferred (Some e) cerr, w)
      | None => Ret (reply, None, putBack c w)
      end
  end.

(** The body of [Exchange] after the state is started. *)
Definition exchange_body (req : Msg) (w : world) : go (option Msg * option error * world) :=
  let t := w_time w in
  let w := tick w in
  match getDialer_err ev t with
  | Some e => Ret (None, Some (Errorf "getting conn to %s: %w" e), w)
  | None =>
      let '(r, w) := conn w in
      match r with
      | Err e => Ret (None, Some (Errorf "getting conn to %s: %w" e), w)
      | Ok (c, cached) =>
          let! (reply, err, w) := exchangeWithConn c req w in
          match err with
          | None => Ret (reply, None, putBack c w)
          | Some e =>
              let '(cerr, w) := conn_Close c w in
              let e := default e (WithDeferred (Some e) cerr) in
              let '(stop, w) := drop_conn cached e w in
              match stop with Some e => Ret (None, Some e, w) | None => retry req w end
          end
      end
  end.

Definition Exchange (req : Msg) (w : world) : go (option Msg * option error * world) :=
  let '(st, err) := state_start (Id (Hdr req)) (w_state w) in
  match err with
  | Some e => Ret (None, Some e, set_state st w)
  | None =>
      let! (resp, err, w) := exchange_body req (set_state st w) in
      let! st := on_state (finish err) (w_state w) in
      Ret (resp, err, set_state st w)
  end.

(** [isConnBroken] of dot_unix.go. *)
Definition isConnBroken (err : error) : bool := errors_Is err "broken pipe" || errors_Is err "connection timed out".

Definition isCriticalTCP (err : error) : bool :=
  if match as_net_error err with Some t => t | None => false end then false
  else negb (errors_Is err "EOF" || errors_Is err "use of closed network connection"
             || errors_Is err "i/o timeout" || isConnBroken err).

Fixpoint close_all (cs : list nat) (w : world) : list error * world :=
  match cs with
  | [] => ([], w)
  | c :: cs =>
      let '(err, w) := conn_Close c w in
      let '(errs, w) := close_all cs w in
      (match err with Some e => if isCriticalTCP e then e :: errs else errs | None => errs end, w)
  end.

Definition Close (w : world) : option error * world :=
  let '(errs, w) := close_all (conns w) w in (join_errors errs, w).
End Dot.

(** ** Facts *)

Section DotFacts.
Context {DL : DnsLib} {TL : TsigLib} {NE : NetErrors} {WD : WithDeferredLib} {WDL : WithDeferredLaws}.
Context (ev : env).

(** The open connections are those of the pool and [mine], each once. *)
Record pool_ok (mine : list nat) (w : world) : Prop := {
  po_nodup : NoDup (mine ++ conns w);
  po_live : live w = list_to_set (mine ++ conns w);
  po_past : Forall (fun c => (c < w_time w)%nat) (mine ++ conns w);
}.

Lemma pool_tick mine w : pool_ok mine w -> pool_ok mine (tick w).
Proof. intros [? ? Hp]. split; auto. cbn. eapply list.Forall_impl; [exact Hp|]. cbn. lia. Qed.

Lemma pool_close c w : pool_ok [c] w -> pool_ok [] (snd (conn_Close ev c w)).
Proof.
  intros [Hn Hl Hp]. apply list.NoDup_cons in Hn as [Hc Hn]. apply Forall_cons_1 in Hp as [_ Hp]. split; cbn.
  - exact Hn.
  - rewrite Hl. cbn. apply set_eq. intros x. rewrite elem_of_difference, elem_of_union, elem_of_singleton, elem_of_list_to_set.
    split; [tauto|]. intros Hx. split; [auto|]. intros ->. contradiction.
  - eapply list.Forall_impl; [exact Hp|]. cbn. lia.
Qed.

Lemma pool_putBack c w : pool_ok [c] w -> pool_ok [] (putBack c w).
Proof.
  intros [Hn Hl Hp]. split; cbn in *.
  - rewrite Permutation_app_comm. exact Hn.
  - rewrite Hl. rewrite list_to_set_app_L. cbn. rewrite union_empty_r_L. apply union_comm_L.
  - apply Forall_app. apply Forall_cons_1 in Hp as [Hc Hp]. repeat constructor; auto.
Qed.

Lemma tlsDial_ok w :
  pool_ok [] w -> exists r w', tlsDial ev w = (r, w') /\ wrote w' = wrote w /\ w_state w' = w_state w
    /\ match r with
       | Ok c => pool_ok [c] w' /\ (w_time w <= c)%nat
       | Err _ => pool_ok [] w'
       end.
Proof.
  intros Hw. pose proof (pool_tick _ _ Hw) as Ht. unfold tlsDial.
  destruct (ctx_err ev (w_time w)); [eauto 8|]. destruct (dial_err ev (w_time w)); [eauto 8|].
  assert (Hnew : pool_ok [w_time w] (set_live ({[w_time w]} ∪ live (tick w)) (tick w))).
  { destruct Hw as [Hn Hl Hp]. split; cbn in *.
    - apply list.NoDup_cons. split; [|exact Hn]. intros Hin. eapply list.Forall_forall in Hp; [|exact Hin]. cbn in Hp. lia.
    - rewrite Hl. reflexivity.
    - constructor; [lia|]. eapply list.Forall_impl; [exact Hp|]. cbn. lia. }
  pose proof (pool_close _ _ Hnew) as Hc.
  destruct (c_deadline _); [do 2 eexists; split; [reflexivity|]; auto|].
  destruct (handshake_err _ _); [do 2 eexists; split; [reflexivity|]; auto|].
  do 2 eexists. split; [reflexivity|]. repeat (split; [solve [auto]|]). auto.
Qed.

Lemma pool_take c rest w : rev (conns w) = c :: rest -> pool_ok [] w -> pool_ok [c] (set_conns (rev rest) w).
Proof.
  intros Hr [Hn Hl Hp]. assert (Hc : conns w = rev rest ++ [c]) by (rewrite <- (rev_involutive (conns w)), Hr; reflexivity).
  cbn [app] in *. rewrite Hc in *. assert (Hperm : rev rest ++ [c] ≡ₚ c :: rev rest) by (rewrite Permutation_app_comm; reflexivity).
  split; cbn.
  - rewrite <- Hperm. exact Hn.
  - rewrite Hl, list_to_set_app_L. cbn. rewrite union_empty_r_L. apply union_comm_L.
  - rewrite <- Hperm. exact Hp.
Qed.

Lemma conn_ok w :
  pool_ok [] w -> exists r w', conn ev w = (r, w') /\ wrote w' = wrote w /\ w_state w' = w_state w
    /\ match r with
       | Ok (c, cached) => pool_ok [c] w' /\ (cached = true -> c ∈ conns w)
       | Err _ => pool_ok [] w'
       end.
Proof.
  intros Hw. unfold conn.
  assert (Hdial : forall w1, pool_ok [] w1 -> wrote w1 = wrote w -> w_state w1 = w_state w ->
    exists r w', (let '(r, w) := tlsDial ev w1 in
      (match r with Ok c => Ok (c, false) | Err e => Err (Errorf "connecting to %s: %w" e) end, w)) = (r, w')
      /\ wrote w' = wrote w /\ w_state w' = w_state w
      /\ match r with
         | Ok (c, cached) => pool_ok [c] w' /\ (cached = true -> c ∈ conns w)
         | Err _ => pool_ok [] w'
         end).
  { intros w1 H1 Hwr Hst. destruct (tlsDial_ok w1 H1) as (r & w' & -> & Hwr' & Hst' & Hr).
    do 2 eexists. split; [reflexivity|]. rewrite Hwr', Hst'. split; [exact Hwr|]. split; [exact Hst|].
    destruct r as [c|e]; [|exact Hr]. split; [apply Hr|discriminate]. }
  destruct (rev (conns w)) as [|c rest] eqn:Er; [auto|].
  pose proof (pool_tick _ _ (pool_take c rest w Er Hw)) as Ht. destruct (c_deadline _).
  - pose proof (pool_close _ _ Ht) as Hc. destruct (conn_Close ev c _) as [ce w1] eqn:Ec.
    injection Ec as _ <-. apply Hdial; auto.
  - do 2 eexists. split; [reflexivity|]. cbn. split; [reflexivity|]. split; [reflexivity|]. split; [exact Ht|]. intros _.
    rewrite <- (rev_involutive (conns w)), Er. apply list_elem_of_In, in_rev. rewrite rev_involutive. left. reflexivity.
Qed.

(** A response that a connection delivered, with the identifier and the question of
    the request. *)
Definition delivered (req : Msg) (r : option Msg) : Prop :=
  exists m f t, r = Some m /\ In f (c_frames (use ev t)) /\ good_frame req m true f.

Lemma exchangeWithConn_ok c req w :
  Question req <> [] -> state_ok (w_state w) -> pool_ok [c] w ->
  exists r err w', exchangeWithConn ev c req w = Ret (r, err, w') /\ pool_ok [c] w' /\ state_ok (w_state w')
    /\ wrote w' = wrote w ++ [c] /\ (w_time w <= w_time w')%nat
    /\ match err with Some _ => r = None | None => delivered req r end.
Proof.
  intros Hq Hs Hw. pose proof (pool_tick _ _ Hw) as [Hn Hl Hp]. unfold exchangeWithConn. cbn [w_state log_write tick].
  destruct (c_write _).
  { do 3 eexists. split; [reflexivity|]. split; [split; auto|]. cbn. auto. }
  destruct (read_loop_total (c_end (use ev (w_time w))) req false true Hq (c_frames (use ev (w_time w))) _ Hs)
    as (r & err & st & Hr & Hst).
  unfold readDNSResponse. rewrite Hr. cbn [gbind]. destruct err as [e|].
  { do 3 eexists. split; [reflexivity|]. split; [split; auto|]. cbn. auto. }
  do 3 eexists. split; [reflexivity|]. split; [split; auto|]. cbn. split; [exact Hst|]. split; [reflexivity|]. split; [lia|].
  destruct (read_loop_good _ _ _ _ _ _ _ _ Hr) as (m & f & ? & ? & ?). exists m, f, (w_time w). auto.
Qed.

(** What an exchange may do: it keeps the pool and writes the query at most twice,
    to different connections of which the first was pooled. *)
Definition exchanged (req : Msg) (w : world) (x : go (option Msg * option error * world)) : Prop :=
  exists r err w' l, x = Ret (r, err, w') /\ pool_ok [] w' /\ state_ok (w_state w')
    /\ wrote w' = wrote w ++ l /\ (length l <= 2)%nat /\ NoDup l
    /\ (forall c c', l = [c; c'] -> c ∈ conns w)
    /\ match err with Some _ => r = None | None => delivered req r end.

Lemma exchanged_none req w err w' :
  pool_ok [] w' -> state_ok (w_state w') -> wrote w' = wrote w -> exchanged req w (Ret (None, Some err, w')).
Proof.
  intros. exists None, (Some err), w', []. rewrite app_nil_r.
  split; [reflexivity|]. do 3 (split; [assumption|]). split; [cbn; lia|]. split; [apply NoDup_nil_2|]. split; [discriminate|reflexivity].
Qed.

Lemma retry_ok req w0 c w :
  Question req <> [] -> pool_ok [] w -> state_ok (w_state w) -> (c < w_time w)%nat -> wrote w = wrote w0 ++ [c] -> c ∈ conns w0 ->
  exchanged req w0 (retry ev req w).
Proof using WDL.
  intros Hq Hw Hs Hc Hwr Hin. unfold retry. destruct (tlsDial_ok w Hw) as (r & w1 & -> & Hwr1 & Hst1 & Hr).
  destruct r as [c2|e].
  2: { exists None, (Some (Errorf "dialing %s: connecting to %s: %w" e)), w1, [c]. rewrite Hwr1, Hst1.
       split; [reflexivity|]. do 3 (split; [assumption|]). split; [cbn; lia|]. split; [apply NoDup_singleton|]. split; [discriminate|reflexivity]. }
  destruct Hr as [Hp Hnew]. rewrite <- Hst1 in Hs.
  destruct (exchangeWithConn_ok c2 req w1 Hq Hs Hp) as (r & err & w2 & -> & Hp2 & Hs2 & Hwr2 & _ & Hr). cbn [gbind].
  assert (Hl : wrote w2 = wrote w0 ++ [c; c2]) by (rewrite Hwr2, Hwr1, Hwr, <- app_assoc; reflexivity).
  assert (Hnd : NoDup [c; c2]).
  { apply list.NoDup_cons. split; [|apply NoDup_singleton]. rewrite list_elem_of_singleton. lia. }
  destruct err as [e|].
  - pose proof (pool_close _ _ Hp2) as Hc2. destruct (conn_Close ev c2 w2) as [ce w3] eqn:E. injection E as _ <-. cbn [snd] in Hc2.
    destruct (withDeferred_some (Some e) ce) as [e' He']; [left; eauto|]. rewrite He'.
    do 4 eexists. split; [reflexivity|]. split; [exact Hc2|]. split; [exact Hs2|]. split; [exact Hl|].
    split; [reflexivity|]. split; [exact Hnd|]. split; [intros ? ? [= <- _]; exact Hin|exact Hr].
  - do 4 eexists. split; [reflexivity|]. split; [apply pool_putBack, Hp2|]. split; [exact Hs2|]. split; [exact Hl|].
    split; [reflexivity|]. split; [exact Hnd|]. split; [intros ? ? [= <- _]; exact Hin|exact Hr].
Qed.

Lemma dot_exchange_body_ok req w :
  Question req <> [] -> pool_ok [] w -> state_ok (w_state w) -> exchanged req w (exchange_body ev req w).
Proof using WDL.
  intros Hq Hw Hs. unfold exchange_body. pose proof (pool_tick _ _ Hw) as Ht. destruct (getDialer_err ev (w_time w)).
  { apply exchanged_none; auto. }
  destruct (conn_ok _ Ht) as (r & w1 & -> & Hwr1 & Hst1 & Hr). destruct r as [[c cached]|e]; [destruct Hr as [Hr Hcd]|].
  2: { apply exchanged_none; [exact Hr| |exact Hwr1]. rewrite Hst1. exact Hs. }
  change (w_state (tick w)) with (w_state w) in Hst1. rewrite <- Hst1 in Hs. change (wrote (tick w)) with (wrote w) in Hwr1.
  destruct (exchangeWithConn_ok c req w1 Hq Hs Hr) as (reply & err & w2 & -> & Hp2 & Hs2 & Hwr2 & _ & Hd). cbn [gbind].
  rewrite Hwr1 in Hwr2. destruct err as [e|].
  2: { exists reply, None, (putBack c w2), [c]. split; [reflexivity|]. split; [apply pool_putBack, Hp2|].
       split; [exact Hs2|]. split; [exact Hwr2|]. split; [cbn; lia|]. split; [apply NoDup_singleton|]. split; [discriminate|exact Hd]. }
  pose proof (pool_close _ _ Hp2) as Hc. pose proof (proj1 (Forall_cons_1 _ _ _ (po_past _ _ Hp2))) as Hlt.
  destruct (conn_Close ev c w2) as [ce w3] eqn:E. injection E as _ <-. cbn [snd] in Hc. set (e' := default e _). unfold drop_conn.
  assert (Hstop : forall e2 w4, pool_ok [] w4 -> w_state w4 = w_state w2 -> wrote w4 = wrote w2 ->
    exchanged req w (Ret (None, Some e2, w4))).
  { intros e2 w4 H4 Hst4 Hwr4. exists None, (Some e2), w4, [c]. rewrite Hst4, Hwr4.
    split; [reflexivity|]. do 3 (split; [assumption|]). split; [cbn; lia|]. split; [apply NoDup_singleton|]. split; [discriminate|reflexivity]. }
  destruct cached; cbn [negb orb]; [|apply Hstop; auto]. destruct (errors_Is _ _); [apply Hstop; auto|]. pose proof (pool_tick _ _ Hc) as Hct.
  destruct (ctx_err ev _); [apply Hstop; auto|]. destruct (late ev _); [apply Hstop; auto|].
  pose proof (Hcd eq_refl) as Hin. apply (retry_ok req w c); auto; cbn; lia.
Qed.

Lemma dot_Exchange_ok req w :
  Question req <> [] -> pool_ok [] w -> state_ok (w_state w) -> exchanged req w (Exchange ev req w).
Proof using WDL.
  intros Hq Hw Hs. unfold Exchange.
  destruct (state_start_ok (Id (Hdr req)) (w_state w) Hs) as (st & err & -> & Hst).
  assert (Hw' : pool_ok [] (set_state st w)) by (destruct Hw; split; auto).
  destruct err; [apply exchanged_none; auto|].
  destruct (dot_exchange_body_ok req (set_state st w) Hq Hw' Hst) as (r & err & w1 & l & -> & Hp1 & Hs1 & Hwr & Hl & Hn & Hf & Hr).
  cbn [gbind]. destruct (finish_ok err (w_state w1) Hs1) as (st' & -> & Hst'). cbn [gbind].
  exists r, err, (set_state st' w1), l. split; [reflexivity|]. split; [destruct Hp1; split; auto|]. auto 10.
Qed.

(** *** Sequences of exchanges *)

Fixpoint exchange_all (reqs : list (Msg * state)) (w : world) : go (list (option Msg * option error) * world) :=
  match reqs with
  | [] => Ret ([], w)
  | (req, st) :: reqs =>
      let! (r, err, w) := Exchange ev req (set_state st w) in
      let! (rs, w) := exchange_all reqs w in
      Ret ((r, err) :: rs, w)
  end.

Definition new_world : world := mkWorld 0 ∅ [] [] None.

Lemma close_all_live cs : forall w, live (snd (close_all ev cs w)) = live w ∖ list_to_set cs.
Proof.
  induction cs as [|c cs IH]; intros w; cbn [close_all]; [cbn; rewrite difference_empty_L; reflexivity|].
  destruct (conn_Close ev c w) as [e w1] eqn:E. injection E as _ <-.
  specialize (IH (set_live (live w ∖ {[c]}) (tick w))). destruct (close_all ev cs _) as [errs w2]. cbn [snd] in *.
  rewrite IH. cbn. rewrite difference_difference_l_L. reflexivity.
Qed.

End DotFacts.

Module DotExamples.
Import PlainExamples.

(** The reply comes on the first connection and on the third; the second use, of the
    pooled connection, meets a closed one. *)
Definition server : env :=
  mkEnv (fun _ => None) (fun _ => None) (fun _ => false) (fun _ => None) (fun _ => None)
    (fun t => if bool_decide (t = 5%nat) then mkConn None None [] (New "EOF") None else conn_of [reply 0 false]).

Example pooled :
  (let! (rs, w) := exchange_all server [(req, None); (req, None)] new_world in Ret (snd <$> rs, conns w, wrote w))
  = Ret ([None; None], [8%nat], [1%nat; 1%nat; 8%nat]).
Proof. vm_compute. reflexivity. Qed.
End DotExamples.
Import PlainExamples.

