(* ===== verification/DoQClient.v ===== *)
(** * The DNS-over-QUIC upstream (upstream/doq.go, upstream/network_quic.go)

    One shared connection that is opened when it is needed, a stream for each
    query, and the framing of the response.  What the outside does is the
    environment's, for each moment; a connection is named by the moment it was
    opened, with the packet connection that it closes. *)

From stdpp Require Import gmap.
From S2P Require Import Prelude DnsMsg RefDns Wire Receipt Response Plain.
#[local] Open Scope Z_scope.

(** A stream of a connection: opening it, its deadline, writing to it, the data that
    it delivers and how it ends, and the clock at the response. *)
Record quic_stream := mkStream {
  q_open : option error;
  q_deadline : option error;
  q_write : option error;
  q_data : bytes;
  q_end : error;
  q_observed : Time;
  q_rejected : Time;
}.

Record env := mkEnv {
  (** [p.networkDialer] is not nil; what it gives: whether there is a packet
      connection and a destination. *)
  custom : bool;
  DialPacket : nat -> result (bool * bool);
  getDialer_err : nat -> option error;
  raw_err : nat -> option error;
  raw_is_udp : nat -> bool;
  quic_err : nat -> option error;
  stream : nat -> quic_stream;
}.

(** [tokens] counts the token stores; [asked] are the connections of the queries, and
    [codes] the codes that connections were closed with. *)
Record world := mkWorld {
  w_time : nat;
  live : gset nat;
  q_conn : option nat;
  tokens : nat;
  asked : list nat;
  codes : list (nat * Z);
  w_state : state;
}.

Definition tick (w : world) : world := mkWorld (S (w_time w)) (live w) (q_conn w) (tokens w) (asked w) (codes w) (w_state w).
Definition set_live (l : gset nat) (w : world) : world := mkWorld (w_time w) l (q_conn w) (tokens w) (asked w) (codes w) (w_state w).
Definition set_conn (c : option nat) (w : world) : world := mkWorld (w_time w) (live w) c (tokens w) (asked w) (codes w) (w_state w).
Definition set_state (s : state) (w : world) : world := mkWorld (w_time w) (live w) (q_conn w) (tokens w) (asked w) (codes w) s.
Definition log_query (c : nat) (w : world) : world :=
  mkWorld (w_time w) (live w) (q_conn w) (tokens w) (asked w ++ [c]) (codes w) (w_state w).
Definition resetQUICConfig (w : world) : world :=
  mkWorld (w_time w) (live w) (q_conn w) (S (tokens w)) (asked w) (codes w) (w_state w).

Definition log_close (c : nat) (code : Z) (w : world) : world :=
  mkWorld (w_time w) (live w) (q_conn w) (tokens w) (asked w) (codes w ++ [(c, code)]) (w_state w).

Definition QUICCodeNoError : Z := 0.
Definition QUICCodeInternalError : Z := 1.
Definition QUICCodeProtocolError : Z := 2.

Definition errDoQProtocol_text : string := "invalid DoQ response".
Definition errDoQProtocol : error := New errDoQProtocol_text.

(** ** Reading a response *)

(** [io.ReadFull] from a stream with its end. *)
Definition read_full (data : bytes) (fin : error) (n : nat) : result (bytes * bytes) :=
  if (n <=? length data)%nat then Ok (take n data, drop n data)
  else if errors_Is fin "EOF" then (if (length data =? 0)%nat then Err fin else Err io_ErrUnexpectedEOF)
  else Err fin.

Definition is_eof (e : error) : bool := errors_Is e "EOF" || errors_Is e "unexpected EOF".

(** The frame of the response: exactly one, and then the end of the stream. *)
Definition read_frame (data : bytes) (fin : error) : result bytes :=
  match read_full data fin 2 with
  | Err e => Err (if is_eof e then wrap2 errDoQProtocol (Errorf "reading response length: %w" e) else Errorf "reading response length: %w" e)
  | Ok (lenBuf, data) =>
      let msgLen := be_get lenBuf in
      if msgLen =? 0 then Err (Errorf "%w: zero response length" errDoQProtocol)
      else match read_full data fin (Z.to_nat msgLen) with
      | Err e => Err (if is_eof e then wrap2 errDoQProtocol (Errorf "reading response body: %w" e) else e)
      | Ok (respBuf, data) =>
          if negb (length data =? 0)%nat then Err (Errorf "%w: extra data after frame" errDoQProtocol)
          else if negb (errors_Is fin "EOF") then Err (Errorf "reading DoQ response FIN: %w" fin)
          else Ok respBuf
      end
  end.

Section DoQClient.
Context {DL : DnsLib} {NE : NetErrors}.
Context (ev : env) (timeout : Duration).

Definition readMsg (s : quic_stream) (req : Msg) (st : state) : go (option Msg * option error * state) :=
  let from e := Errorf "from %s: %w" e in
  match read_frame (q_data s) (q_end s) with
  | Err e => Ret (None, Some (from e), st)
  | Ok respBuf =>
      let! (st, ticket) := state_reserve respBuf 0 false (q_observed s) st in
      let fail e := let! st := on_state (reject ticket (q_rejected s)) st in Ret (None, Some (from e), st) in
      match Unpack respBuf with
      | (_, Some e) => fail (wrap2 errDoQProtocol (Errorf "unpacking: %w" e))
      | (m, None) =>
          if negb (Id (Hdr m) =? 0) then fail (wrap2 errDoQProtocol ErrId)
          else
            let! verr := validateResponse req m in
            match verr with
            | Some e => fail (wrap2 errDoQProtocol e)
            | None => let! st := on_state (accept ticket m) st in Ret (Some m, None, st)
            end
      end
  end.

(** ** Connections *)

Definition dialQUIC (w : world) : result nat * world :=
  let t := w_time w in
  let w := tick w in
  let open := set_live ({[t]} ∪ live w) w in
  let dial := match quic_err ev t with
              | Some e => (Err e, set_live (live open ∖ {[t]}) open)
              | None => (Ok t, open)
              end in
  if negb (custom ev) then match quic_err ev t with Some e => (Err e, w) | None => (Ok t, open) end
  else match DialPacket ev t with
  | Err e => (Err e, w)
  | Ok (true, true) => dial
  | Ok (packet, _) =>
      (Err (New "network dialer returned an incomplete packet connection"),
       if packet then set_live (live open ∖ {[t]}) open else w)
  end.

Definition openConnection (w : world) : result nat * world :=
  if custom ev then dialQUIC w
  else
    let t := w_time w in
    match getDialer_err ev t with
    | Some e => (Err (Errorf "bootstrapping %s: %w" e), tick w)
    | None =>
        match raw_err ev t with
        | Some e => (Err (Errorf "dialing raw connection to %s: %w" e), tick w)
        | None =>
            (* the raw connection is opened and closed *)
            let w := set_live (({[t]} ∪ live w) ∖ {[t]}) (tick w) in
            if negb (raw_is_udp ev t) then (Err (New "unexpected type %T of connection; should be %T"), w)
            else
              let '(r, w) := dialQUIC w in
              (match r with Err e => Err (Errorf "dialing quic connection to %s: %w" e) | Ok c => Ok c end, w)
        end
    end.

Definition getConnection (w : world) : result (nat * bool) * world :=
  match q_conn w with
  | Some c => (Ok (c, true), w)
  | None =>
      let '(r, w) := openConnection w in
      match r with
      | Err e => (Err e, w)
      | Ok c => (Ok (c, false), set_conn (Some c) w)
      end
  end.

Definition closeConnWithError (c : nat) (err : error) (w : world) : world :=
  let code := if errors_Is err errDoQProtocol_text then QUICCodeProtocolError else QUICCodeInternalError in
  let w := if errors_Is err "0-RTT rejected" then resetQUICConfig w else w in
  let w := log_close c code (set_live (live w ∖ {[c]}) (tick w)) in
  if bool_decide (q_conn w = Some c) then set_conn None w else w.

(** ** Exchanges *)

Definition exchangeQUIC (req : Msg) (c : nat) (w : world) : go (option Msg * option error * world) :=
  let fail err := Ret (None, Some err, w) in
  match Pack req with
  | Err e => fail (Errorf "failed to pack DNS message for DoQ: %w" e)
  | Ok buf =>
      match LengthPrefix (len buf) with
      | Err e => fail e
      | Ok prefix =>
          let s := stream ev (w_time w) in
          let w := log_query c (tick w) in
          let fail err := Ret (None, Some err, w) in
          match q_open s with
          | Some e => fail (Errorf "opening stream: %w" (Errorf "failed to open a QUIC stream: %w" e))
          | None =>
              match (if 0 <? timeout then q_deadline s else None) with
              | Some e => fail (Errorf "setting deadline: %w" e)
              | None =>
                  match q_write s with
                  | Some e => fail (Errorf "failed to write to a QUIC stream: %w" e)
                  | None =>
                      let! (m, err, st) := readMsg s req (w_state w) in
                      Ret (m, err, set_state st w)
                  end
              end
          end
      end
  end.

(** Whether to try a new connection after an error of a cached one. *)
Definition should_retry (cached : bool) (err : option error) : bool :=
  match err with
  | None => false
  | Some e => cached && negb (errors_Is e errDoQProtocol_text) && negb (isExchangeTimeout err)
  end.

Definition finish_exchange (c : nat) (x : option Msg * option error * world) : option Msg * option error * world :=
  let '(resp, err, w) := x in
  (resp, err, match err with Some e => closeConnWithError c e w | None => w end).

(** The body of [Exchange] after the state is started, for the request with the
    identifier zero. *)
Definition exchange_body (req : Msg) (w : world) : go (option Msg * option error * world) :=
  let '(r, w) := getConnection w in
  match r with
  | Err e => Ret (None, Some (Errorf "getting conn: %w" e), w)
  | Ok (c, cached) =>
      let! (resp, err, w) := exchangeQUIC req c w in
      if should_retry cached err then
        let w := match err with Some e => closeConnWithError c e w | None => w end in
        let '(r, w) := getConnection w in
        match r with
        | Err e => Ret (None, Some (Errorf "getting new conn: %w" e), w)
        | Ok (c, _) =>
            let! x := exchangeQUIC req c w in Ret (finish_exchange c x)
        end
      else Ret (finish_exchange c (resp, err, w))
  end.

Definition Exchange (req : Msg) (w : world) : go (option Msg * option error * world) :=
  let '(st, err) := state_start (Id (Hdr req)) (w_state w) in
  match err with
  | Some e => Ret (None, Some e, set_state st w)
  | None =>
      let! (resp, err, w) := exchange_body (set_Id 0 req) (set_state st w) in
      let! st := on_state (finish err) (w_state w) in
      Ret (set_Id (Id (Hdr req)) <$> resp, err, set_state st w)
  end.

(** [Close]; the result of closing is that of the connection. *)
Definition Close (w : world) : world :=
  match q_conn w with
  | Some c => log_close c QUICCodeNoError (set_live (live w ∖ {[c]}) (tick w))
  | None => w
  end.
End DoQClient.

(** ** Facts *)

Lemma read_full_Ok data fin n b rest : read_full data fin n = Ok (b, rest) -> data = b ++ rest /\ length b = n.
Proof.
  unfold read_full. destruct (Nat.leb_spec n (length data)); [|repeat case_goal; discriminate].
  intros [= <- <-]. split; [symmetry; apply take_drop|]. rewrite length_take. lia.
Qed.

Lemma read_full_app b rest fin : read_full (b ++ rest) fin (length b) = Ok (b, rest).
Proof.
  unfold read_full. destruct (Nat.leb_spec (length b) (length (b ++ rest))) as [_|H]; [|rewrite length_app in H; lia].
  rewrite take_app_length, drop_app_length. reflexivity.
Qed.

(** A response is read from a stream exactly if the stream is one frame of at least
    a byte and then ends. *)
Lemma read_frame_Ok data fin b : wf_bytes data ->
  (read_frame data fin = Ok b <->
   data = be_put 2 (len b) ++ b /\ 0 < len b <= MaxUint16 /\ errors_Is fin "EOF" = true).
Proof.
  intros Hwf. unfold read_frame, MaxUint16. split.
  - destruct (read_full data fin 2) as [[l d1]|] eqn:E1; [|discriminate]. apply read_full_Ok in E1 as [-> Hl].
    apply Forall_app in Hwf as [Hwl Hwf]. destruct (Z.eqb_spec (be_get l) 0) as [|Hz]; [discriminate|].
    destruct (read_full d1 fin _) as [[r d2]|] eqn:E2; [|discriminate]. apply read_full_Ok in E2 as [-> Hr].
    destruct d2; cbn [length Nat.eqb negb]; [|discriminate]. destruct (errors_Is fin "EOF"); cbn [negb]; [|discriminate].
    intros [= <-]. pose proof (be_get_bound l Hwl) as Hb. rewrite Hl in Hb. rewrite app_nil_r.
    rewrite Hr, Z2Nat.id, <- Hl, be_put_get by (auto; lia). change (256 ^ Z.of_nat 2) with 65536 in Hb. split; [reflexivity|]. split; [lia|reflexivity].
  - intros (-> & Hb & Hf). change 2%nat with (length (be_put 2 (len b))) at 1. rewrite read_full_app.
    rewrite be_get_put_small by (cbn; lia). rewrite (proj2 (Z.eqb_neq _ _)) by lia. rewrite Nat2Z.id.
    rewrite <- (app_nil_r b) at 1. rewrite read_full_app, Hf. reflexivity.
Qed.

Section DoQClientFacts.
Context {DL : DnsLib} {NE : NetErrors}.
Context (ev : env) (timeout : Duration).

(** The open connection is the shared one. *)
Definition conn_set (c : option nat) : gset nat := match c with Some c => {[c]} | None => ∅ end.
Record quic_ok (w : world) : Prop := {
  qo_live : live w = conn_set (q_conn w);
  qo_past : forall c, q_conn w = Some c -> (c < w_time w)%nat;
}.

(** A response that came as the only frame of a stream, with the identifier zero and
    the question of the request. *)
Definition delivered (req : Msg) (r : option Msg) : Prop :=
  exists m b t, r = Some m /\ read_frame (q_data (stream ev t)) (q_end (stream ev t)) = Ok b
    /\ Unpack b = (m, None) /\ Id (Hdr m) = 0 /\ repeats_question req m.

Lemma dialQUIC_ok w : live w = ∅ -> exists r w', dialQUIC ev w = (r, w')
  /\ w_time w' = S (w_time w) /\ q_conn w' = q_conn w /\ asked w' = asked w /\ w_state w' = w_state w
  /\ match r with Ok c => c = w_time w /\ live w' = {[c]} | Err _ => live w' = ∅ end.
Proof.
  intros Hl. assert (Hd : ({[w_time w]} ∪ live w) ∖ {[w_time w]} = ∅ :> gset nat) by (rewrite Hl; set_solver).
  unfold dialQUIC. destruct (custom ev); cbn [negb].
  - destruct (DialPacket ev (w_time w)) as [[[] []]|e]; [destruct (quic_err ev _)|..];
      do 2 eexists; (split; [reflexivity|]); cbn; rewrite ?Hd, ?Hl, ?union_empty_r_L; auto 10.
  - destruct (quic_err ev _); do 2 eexists; (split; [reflexivity|]); cbn; rewrite ?Hl, ?union_empty_r_L; auto 10.
Qed.

Lemma openConnection_ok w : live w = ∅ -> exists r w', openConnection ev w = (r, w')
  /\ (w_time w < w_time w')%nat /\ q_conn w' = q_conn w /\ asked w' = asked w /\ w_state w' = w_state w
  /\ match r with Ok c => (w_time w <= c < w_time w')%nat /\ live w' = {[c]} | Err _ => live w' = ∅ end.
Proof.
  intros Hl. unfold openConnection. destruct (custom ev).
  - destruct (dialQUIC_ok w Hl) as (r & w' & -> & Ht & ? & ? & ? & Hr). exists r, w'. rewrite Ht.
    repeat (split; [solve [auto with lia]|]). destruct r; [|exact Hr]. destruct Hr as [-> Hr]. auto with lia.
  - destruct (getDialer_err ev _); [do 2 eexists; split; [reflexivity|]; cbn; auto 10 with lia|].
    destruct (raw_err ev _); [do 2 eexists; split; [reflexivity|]; cbn; auto 10 with lia|].
    assert (Hd : ({[w_time w]} ∪ live w) ∖ {[w_time w]} = ∅ :> gset nat) by (rewrite Hl; set_solver).
    destruct (raw_is_udp ev _); cbn [negb]; [|do 2 eexists; split; [reflexivity|]; cbn; rewrite Hd; auto 10 with lia].
    destruct (dialQUIC_ok (set_live (({[w_time w]} ∪ live w) ∖ {[w_time w]}) (tick w)) Hd)
      as (r & w' & -> & Ht & ? & ? & ? & Hr). cbn in Ht.
    do 2 eexists. split; [reflexivity|]. rewrite Ht. repeat (split; [solve [auto with lia]|]).
    destruct r; [|exact Hr]. destruct Hr as [-> Hr]. cbn in *. auto with lia.
Qed.

Lemma getConnection_ok w : quic_ok w -> exists r w', getConnection ev w = (r, w') /\ quic_ok w'
  /\ asked w' = asked w /\ w_state w' = w_state w
  /\ match r with
     | Ok (c, cached) => q_conn w' = Some c /\ if cached then q_conn w = Some c else q_conn w = None /\ (w_time w <= c)%nat
     | Err _ => q_conn w' = None
     end.
Proof.
  intros [Hl Hp]. unfold getConnection. destruct (q_conn w) as [c|] eqn:E.
  - do 2 eexists. split; [reflexivity|]. split; [split; rewrite E; auto|]. rewrite E. auto.
  - destruct (openConnection_ok w Hl) as (r & w' & -> & Ht & Hq & Ha & Hs & Hr). destruct r as [c|e].
    + do 2 eexists. split; [reflexivity|]. destruct Hr as [Hc Hr]. split; [split; cbn; [exact Hr|intros ? [= <-]; lia]|].
      cbn. auto with lia.
    + do 2 eexists. split; [reflexivity|]. rewrite E in Hq. split; [split; rewrite Hq; [exact Hr|discriminate]|]. auto.
Qed.

Lemma closeConnWithError_ok c e w : quic_ok w -> q_conn w = Some c ->
  let w' := closeConnWithError c e w in
  quic_ok w' /\ q_conn w' = None /\ asked w' = asked w /\ w_state w' = w_state w /\ (w_time w < w_time w')%nat.
Proof.
  intros [Hl Hp] Hc. unfold closeConnWithError. destruct (errors_Is e "0-RTT rejected"); cbn; rewrite Hc, bool_decide_true by reflexivity;
    (split; [split; cbn; [rewrite Hl, Hc; cbn; apply difference_diag_L|discriminate]|]); cbn; auto with lia.
Qed.

Lemma readMsg_ok t req st : Question req <> [] -> state_ok st ->
  exists r err st', readMsg (stream ev t) req st = Ret (r, err, st') /\ state_ok st'
    /\ match err with Some _ => r = None | None => delivered req r end.
Proof.
  intros Hq Hs. unfold readMsg. destruct (read_frame _ _) as [b|e] eqn:Ef; [|eauto 6].
  destruct (state_reserve_ok b 0 false (q_observed (stream ev t)) st Hs) as (s1 & tk & -> & H1). cbn [gbind].
  destruct (reject_ok tk (q_rejected (stream ev t)) s1 H1) as (s2 & Hrej & H2).
  destruct (Unpack b) as [m [e|]] eqn:Eu; [rewrite Hrej; cbn; eauto 6|].
  destruct (Z.eqb_spec (Id (Hdr m)) 0) as [Hid|]; cbn [negb]; [|rewrite Hrej; cbn; eauto 6].
  destruct (validateResponse_total req m Hq) as [[e|] Hv]; rewrite Hv; cbn [gbind]; [rewrite Hrej; cbn; eauto 6|].
  destruct (accept_ok tk m s1 H1) as (s3 & -> & H3). cbn [gbind]. do 3 eexists. split; [reflexivity|]. split; [exact H3|].
  exists m, b, t. repeat (split; [solve [auto]|]). apply validateResponse_repeats, Hv.
Qed.

(** A query over [c], or none if it cannot be packed. *)
Definition asked_once (req : Msg) (c : nat) (w : world) (x : go (option Msg * option error * world)) : Prop :=
  exists r err w' l, x = Ret (r, err, w') /\ quic_ok w' /\ state_ok (w_state w')
    /\ q_conn w' = q_conn w /\ asked w' = asked w ++ l /\ (l = [] \/ l = [c]) /\ (w_time w <= w_time w')%nat
    /\ match err with Some _ => r = None | None => delivered req r end.

Lemma exchangeQUIC_ok req c w :
  Question req <> [] -> state_ok (w_state w) -> quic_ok w -> asked_once req c w (exchangeQUIC ev timeout req c w).
Proof.
  intros Hq Hs Hw. pose proof Hw as [Hl Hp]. unfold exchangeQUIC.
  assert (Hpack : forall e, asked_once req c w (Ret (None, Some e, w))).
  { intros e. exists None, (Some e), w, []. rewrite app_nil_r. auto 10. }
  destruct (Pack req); [|apply Hpack]. destruct (LengthPrefix _); [|apply Hpack].
  set (w1 := log_query c (tick w)).
  assert (Hw1 : quic_ok w1) by (split; [exact Hl|]; intros x Hx; specialize (Hp x Hx); cbn; lia).
  assert (Hrest : forall (r : option Msg) (err : option error) st, state_ok st -> match err with Some _ => r = None | None => delivered req r end ->
    asked_once req c w (Ret (r, err, set_state st w1))).
  { intros r err st Hst Hr. exists r, err, (set_state st w1), [c]. split; [reflexivity|].
    split; [destruct Hw1; split; auto|]. cbn. auto 10. }
  assert (Hfail : forall e, asked_once req c w (Ret (None, Some e, w1))) by (intros e; exact (Hrest None (Some e) (w_state w) Hs eq_refl)).
  destruct (q_open _); [apply Hfail|]. destruct (if 0 <? timeout then _ else _); [apply Hfail|]. destruct (q_write _); [apply Hfail|].
  destruct (readMsg_ok (w_time w) req (w_state w) Hq Hs) as (r & err & st & Hx & Hst & Hr).
  change (w_state w1) with (w_state w). rewrite Hx. cbn [gbind]. apply Hrest; auto.
Qed.

(** What an exchange may do: at most two queries, the second over a new connection
    and only after the shared one failed. *)
Definition exchanged (req : Msg) (w : world) (x : go (option Msg * option error * world)) : Prop :=
  exists r err w' l, x = Ret (r, err, w') /\ quic_ok w' /\ state_ok (w_state w')
    /\ asked w' = asked w ++ l /\ (length l <= 2)%nat /\ (forall c c', l = [c; c'] -> q_conn w = Some c /\ c' <> c)
    /\ match err with Some _ => r = None /\ q_conn w' = None | None => delivered req r end.

(** The end of an exchange over the shared connection [c]. *)
Lemma finish_exchange_ok req c w0 w x l0 :
  asked w = asked w0 ++ l0 -> q_conn w = Some c -> asked_once req c w x ->
  (length l0 <= 1)%nat -> (forall c0, l0 = [c0] -> q_conn w0 = Some c0 /\ c <> c0) ->
  exchanged req w0 (let! y := x in Ret (finish_exchange c y)).
Proof.
  intros Ha Hc (r & err & w' & l & -> & Hw' & Hs' & Hq' & Ha' & Hl & _ & Hr) Hl0 Hne. cbn [gbind finish_exchange].
  rewrite Ha, <- app_assoc in Ha'. rewrite Hc in Hq'.
  assert (Hlen : (length (l0 ++ l) <= 2)%nat) by (rewrite length_app; destruct Hl as [->| ->]; cbn; lia).
  assert (Hfirst : forall c1 c2, l0 ++ l = [c1; c2] -> q_conn w0 = Some c1 /\ c2 <> c1).
  { intros c1 c2 H. destruct l0 as [|c0 [|]]; [destruct Hl as [->| ->]; discriminate| |cbn in Hl0; lia].
    destruct Hl as [->| ->]; [discriminate|]. injection H as <- <-. apply Hne. reflexivity. }
  destruct err as [e|].
  - destruct (closeConnWithError_ok c e w' Hw' Hq') as (Hw2 & Hq2 & Ha2 & Hs2 & _).
    do 3 eexists. exists (l0 ++ l). split; [reflexivity|]. rewrite Ha2, Hs2. auto 10.
  - do 3 eexists. exists (l0 ++ l). split; [reflexivity|]. auto 10.
Qed.

Lemma doq_exchange_body_ok req w :
  Question req <> [] -> quic_ok w -> state_ok (w_state w) -> exchanged req w (exchange_body ev timeout req w).
Proof.
  intros Hq Hw Hs. unfold exchange_body. destruct (getConnection_ok w Hw) as (r & w1 & -> & Hw1 & Ha1 & Hs1 & Hr).
  rewrite <- Hs1 in Hs. destruct r as [[c cached]|e].
  2: { exists None, (Some (Errorf "getting conn: %w" e)), w1, []. rewrite app_nil_r. split; [reflexivity|].
       do 3 (split; [assumption|]). split; [cbn; lia|]. split; [discriminate|auto]. }
  destruct Hr as [Hc Hcd]. pose proof (exchangeQUIC_ok req c w1 Hq Hs Hw1) as Hx.
  pose proof (finish_exchange_ok req c w w1 _ [] ltac:(rewrite app_nil_r; exact Ha1) Hc Hx ltac:(cbn; lia) ltac:(discriminate)) as Hfin.
  destruct Hx as (reply & err & w2 & l & Hx & Hw2 & Hs2 & Hq2 & Ha2 & Hl & Ht2 & Hr). rewrite Hx in *. cbn [gbind] in *.
  destruct (should_retry cached err) eqn:Er; [|exact Hfin]. destruct err as [e|]; [|discriminate].
  destruct cached; [|discriminate]. rewrite Hc in Hq2.
  destruct (closeConnWithError_ok c e w2 Hw2 Hq2) as (Hw3 & Hq3 & Ha3 & Hs3 & Ht3).
  destruct (getConnection_ok _ Hw3) as (r & w4 & -> & Hw4 & Ha4 & Hs4 & Hr4).
  assert (Ha : asked w4 = asked w ++ l) by (rewrite Ha4, Ha3, Ha2, Ha1; reflexivity).
  assert (Hs5 : state_ok (w_state w4)) by (rewrite Hs4, Hs3; exact Hs2).
  assert (Hl1 : (length l <= 1)%nat) by (destruct Hl as [->| ->]; cbn; lia).
  destruct r as [[c' cached']|e'].
  2: { exists None, (Some (Errorf "getting new conn: %w" e')), w4, l. split; [reflexivity|].
       do 3 (split; [assumption|]). split; [lia|]. split; [|auto]. intros c1 c2 ->. cbn in Hl1. lia. }
  destruct Hr4 as [Hc4 Hcd4]. apply (finish_exchange_ok req c' w w4 _ l); auto.
  { apply exchangeQUIC_ok; auto. }
  intros c0 ->. destruct Hl as [?|[= ->]]; [discriminate|]. split; [exact Hcd|]. intros ->.
  destruct cached'; [congruence|]. destruct Hcd4 as [_ Hle]. pose proof (qo_past _ Hw2 c Hq2). lia.
Qed.

Lemma doq_Exchange_ok req w :
  Question req <> [] -> quic_ok w -> state_ok (w_state w) ->
  exists r err w' l, Exchange ev timeout req w = Ret (set_Id (Id (Hdr req)) <$> r, err, w') /\ quic_ok w'
    /\ asked w' = asked w ++ l /\ (length l <= 2)%nat /\ (forall c c', l = [c; c'] -> q_conn w = Some c /\ c' <> c)
    /\ match err with Some _ => r = None | None => delivered req r end.
Proof.
  intros Hq Hw Hs. unfold Exchange. destruct (state_start_ok (Id (Hdr req)) (w_state w) Hs) as (st & err & -> & Hst).
  assert (Hw' : quic_ok (set_state st w)) by (destruct Hw; split; auto).
  destruct err as [e|].
  { exists None, (Some e), (set_state st w), []. rewrite app_nil_r. split; [reflexivity|]. split; [exact Hw'|].
    split; [reflexivity|]. split; [cbn; lia|]. split; [discriminate|reflexivity]. }
  destruct (doq_exchange_body_ok (set_Id 0 req) (set_state st w) Hq Hw' Hst) as (r & err & w1 & l & -> & Hw1 & Hs1 & Ha & Hl & Hf & Hr).
  cbn [gbind]. destruct (finish_ok err (w_state w1) Hs1) as (st' & -> & Hst'). cbn [gbind].
  exists r, err, (set_state st' w1), l. split; [reflexivity|]. split; [destruct Hw1; split; auto|].
  do 3 (split; [assumption|]). destruct err; [apply Hr|exact Hr].
Qed.

(** *** Sequences of exchanges *)

Fixpoint exchange_all (reqs : list (Msg * state)) (w : world) : go (list (option Msg * option error) * world) :=
  match reqs with
  | [] => Ret ([], w)
  | (req, st) :: reqs =>
      let! (r, err, w) := Exchange ev timeout req (set_state st w) in
      let! (rs, w) := exchange_all reqs w in
      Ret ((r, err) :: rs, w)
  end.

Definition new_world : world := mkWorld 0 ∅ None 1 [] [] None.

End DoQClientFacts.

Module DoQClientExamples.
Import PlainExamples.

(** The shared connection is lost after the first exchange, and the server rejects
    its early data. *)
Definition server : env :=
  mkEnv true (fun _ => Ok (true, true)) (fun _ => None) (fun _ => None) (fun _ => true) (fun _ => None)
    (fun t => if bool_decide (t = 2%nat) then mkStream (Some (New "0-RTT rejected")) None None [] io_EOF 0 0
              else let b := wire_of (reply 0 false) in mkStream None None None (be_put 2 (len b) ++ b) io_EOF 1 2).
Definition req9 : Msg := set_Id 9 req.

Example reconnects :
  (let! (rs, w) := exchange_all server Second [(req9, None); (req9, None)] new_world in Ret (rs, q_conn w, asked w, tokens w))
  = Ret ([(Some (reply 9 false), None); (Some (reply 9 false), None)], Some 4%nat, [0%nat; 0%nat; 4%nat], 2%nat).
Proof. vm_compute. reflexivity. Qed.

(** Streams of the closed connection cannot be opened: an exchange after [Close], or one
    that [Close] interrupts, opens a connection that nothing closes. *)
Definition closed_server : env :=
  mkEnv true (fun _ => Ok (true, true)) (fun _ => None) (fun _ => None) (fun _ => true) (fun _ => None)
    (fun t => if bool_decide (t = 3%nat) then mkStream (Some (New "Application error 0x0 (local)")) None None [] io_EOF 0 0
              else let b := wire_of (reply 0 false) in mkStream None None None (be_put 2 (len b) ++ b) io_EOF 1 2).
Example reopened_after_close :
  (let! (_, w) := exchange_all closed_server Second [(req9, None)] new_world in
   let! (rs, w') := exchange_all closed_server Second [(req9, None)] (Close w) in
   Ret (live (Close w), snd <$> rs, live w', codes w'))
  = Ret (∅, [None], {[5%nat]}, [(0%nat, 0); (0%nat, 1)]).
Proof. vm_compute. reflexivity. Qed.
End DoQClientExamples.
Import PlainExamples.

