(* ===== verification/Parallel.v ===== *)
(** * Exchanging with several upstreams (upstream/parallel.go)

    [ex] is the method [Exchange] of the upstreams, on a state [W] of the
    outside.  Each upstream is asked from a goroutine of its own; [arrival] is
    the order in which their results arrive on the channel, a permutation of
    the upstreams that the scheduler chooses. *)

From S2P Require Import Prelude DnsMsg Receipt.

Definition ErrNoUpstreams : error := New "no upstream specified".
Definition no_reply_text : string := "no reply".

Section Parallel.
Context {U W : Type}.
Context (ex : U -> Msg -> W -> option Msg * option error * W).
Context (arrival : list U -> W -> list U).

Record ExchangeAllResult := mkAll { Resp : option Msg; AUpstream : U }.

(** What a goroutine sends on the channel. *)
Inductive sent_result := SErr (e : error) | SRes (r : ExchangeAllResult).

Definition exchangeAsync (u : U) (req : Msg) (w : W) : sent_result * W :=
  let '(reply, err, w) := ex u req w in
  (match err with Some e => SErr e | None => SRes (mkAll reply u) end, w).

Definition receiveAsyncResult (r : sent_result) : result (Msg * U) :=
  match r with
  | SErr e => Err e
  | SRes r => match Resp r with None => Err ErrNoReply | Some m => Ok (m, AUpstream r) end
  end.

Definition exchangeSingle (u : U) (req : Msg) (w : W) : option Msg * option U * option error * W :=
  let '(resp, err, w) := ex u req w in
  match err with
  | Some e => (None, None, Some e, w)
  | None => (resp, Some u, None, w)
  end.

(** The loop of [ExchangeParallel] over the results in order of arrival. *)
Fixpoint receive_first (order : list U) (req : Msg) (errs : list error) (w : W)
    : option Msg * option U * option error * W :=
  match order with
  | [] =>
      (None, None,
       Some (match errs with [] => New "none of upstream servers responded" | _ => Join errs end), w)
  | u :: order =>
      let '(r, w) := exchangeAsync u req w in
      match receiveAsyncResult r with
      | Err err =>
          receive_first order req (if errors_Is err no_reply_text then errs else errs ++ [err]) w
      | Ok (m, u) => (Some m, Some u, None, w)
      end
  end.

Definition ExchangeParallel (ups : list U) (req : Msg) (w : W) : option Msg * option U * option error * W :=
  match ups with
  | [] => (None, None, Some ErrNoUpstreams, w)
  | [u] => exchangeSingle u req w
  | _ => receive_first (arrival ups w) req [] w
  end.

(** The loop of [ExchangeAll]. *)
Fixpoint receive_all (order : list U) (req : Msg) (res : list (Msg * U)) (errs : list error) (w : W)
    : list (Msg * U) * list error * W :=
  match order with
  | [] => (res, errs, w)
  | u :: order =>
      let '(r, w) := exchangeAsync u req w in
      match receiveAsyncResult r with
      | Err err => receive_all order req res (errs ++ [err]) w
      | Ok mu => receive_all order req (res ++ [mu]) errs w
      end
  end.

Definition ExchangeAll (ups : list U) (req : Msg) (w : W) : result (list (Msg * U)) * W :=
  match ups with
  | [] => (Err ErrNoUpstreams, w)
  | [u] =>
      let '(reply, err, w) := ex u req w in
      (match err, reply with
       | Some e, _ => Err e
       | None, None => Err ErrNoReply
       | None, Some m => Ok [(m, u)]
       end, w)
  | _ =>
      let '(res, errs, w) := receive_all (arrival ups w) req [] [] w in
      (if (length errs =? length ups)%nat then Err (Errorf "all upstreams failed: %w" (Join errs)) else Ok res, w)
  end.

(** ** Facts *)

(** The error of an exchange, if it gives no response. *)
Definition failure (r : option Msg * option error) : option error :=
  match r with (_, Some e) => Some e | (None, None) => Some ErrNoReply | (Some _, None) => None end.

(** All of [l] are asked, one after the other, and fail with the errors. *)
Inductive all_fail (req : Msg) : list U -> W -> list error -> W -> Prop :=
  | all_fail_nil w : all_fail req [] w [] w
  | all_fail_cons u l w r err e w1 errs w2 :
      ex u req w = (r, err, w1) -> failure (r, err) = Some e -> all_fail req l w1 errs w2 ->
      all_fail req (u :: l) w (e :: errs) w2.

Lemma receive_step u req w :
  let '(r, err, w1) := ex u req w in
  exists s, exchangeAsync u req w = (s, w1)
  /\ receiveAsyncResult s =
     match failure (r, err), r with
     | Some e, _ => Err e | None, Some m => Ok (m, u) | None, None => Err ErrNoReply end.
Proof. unfold exchangeAsync. destruct (ex u req w) as [[[m|] [e|]] w1]; eexists; split; reflexivity. Qed.

Definition reported (errs : list error) : list error :=
  base.filter (fun e => errors_Is e no_reply_text = false) errs.

Definition parallel_error (errs : list error) : error :=
  match errs with [] => New "none of upstream servers responded" | _ => Join errs end.

Lemma receive_first_spec req : forall order errs0 w r u err w',
  receive_first order req errs0 w = (r, u, err, w') ->
  match err with
  | None => exists l1 l2 u0 m errs w1, order = l1 ++ u0 :: l2 /\ all_fail req l1 w errs w1
              /\ ex u0 req w1 = (Some m, None, w') /\ r = Some m /\ u = Some u0
  | Some e => exists errs, all_fail req order w errs w' /\ r = None /\ u = None
              /\ e = parallel_error (errs0 ++ reported errs)
  end.
Proof.
  induction order as [|u0 order IH]; intros errs0 w r u err w'; cbn [receive_first].
  { intros [= <- <- <- <-]. exists []. rewrite app_nil_r. repeat split. constructor. }
  pose proof (receive_step u0 req w) as Hs. destruct (ex u0 req w) as [[r0 e0] w1] eqn:Ex.
  destruct Hs as (s & -> & ->). destruct (failure (r0, e0)) as [e|] eqn:Ef.
  - intros H. apply IH in H. destruct err as [e'|].
    + destruct H as (errs & Ha & Hr0 & Hu0 & He). exists (e :: errs). repeat split; auto; [econstructor; eauto|].
      rewrite He. unfold reported. rewrite filter_cons. destruct (errors_Is e no_reply_text) eqn:Ei.
      * rewrite decide_False by congruence. reflexivity.
      * rewrite decide_True by reflexivity. rewrite <- app_assoc. reflexivity.
    + destruct H as (l1 & l2 & u1 & m & errs & w2 & -> & Ha & Hx & Hm & Hu).
      exists (u0 :: l1), l2, u1, m, (e :: errs), w2. repeat split; auto. econstructor; eauto.
  - destruct r0 as [m|], e0; try discriminate Ef. intros [= <- <- <- <-].
    exists [], order, u0, m, [], w. repeat split; auto. constructor.
Qed.

Lemma receive_all_spec req : forall order res0 errs0 w res errs w',
  receive_all order req res0 errs0 w = (res, errs, w') ->
  exists got failed, res = res0 ++ got /\ errs = errs0 ++ failed
    /\ (length got + length failed = length order)%nat
    /\ Forall (fun mu => exists w1 w2, In (snd mu) order /\ ex (snd mu) req w1 = (Some (fst mu), None, w2)) got.
Proof.
  induction order as [|u0 order IH]; intros res0 errs0 w res errs w'; cbn [receive_all].
  { intros [= <- <- <-]. exists [], []. rewrite !app_nil_r. repeat split. constructor. }
  pose proof (receive_step u0 req w) as Hs. destruct (ex u0 req w) as [[r0 e0] w1] eqn:Ex.
  destruct Hs as (s & -> & ->).
  assert (Hin : forall got,
    Forall (fun mu => exists w1 w2, In (snd mu) order /\ ex (snd mu) req w1 = (Some (fst mu), None, w2)) got ->
    Forall (fun mu => exists w1 w2, In (snd mu) (u0 :: order) /\ ex (snd mu) req w1 = (Some (fst mu), None, w2)) got).
  { intros got. apply Forall_impl. intros mu (a & b & ? & ?). exists a, b. cbn. auto. }
  destruct (failure (r0, e0)) as [e|] eqn:Ef; [|destruct r0 as [m|]; [|destruct e0; discriminate Ef]].
  - intros H. destruct (IH _ _ _ _ _ _ H) as (got & failed & -> & -> & Hl & Hf).
    exists got, (e :: failed). rewrite <- app_assoc. cbn [length]. repeat split; auto. lia.
  - intros H. destruct (IH _ _ _ _ _ _ H) as (got & failed & -> & -> & Hl & Hf).
    exists ((m, u0) :: got), failed. rewrite <- app_assoc. cbn [length]. repeat split; auto; [lia|].
    constructor; [|auto]. exists w, w1. cbn. destruct e0; [discriminate Ef|]. auto.
Qed.

(** What [ExchangeAll] returns without an error: some responses, each the one
    of its upstream. *)
Lemma ExchangeAll_ok ups req w res w' :
  arrival ups w ≡ₚ ups -> ExchangeAll ups req w = (Ok res, w') ->
  res <> [] /\ Forall (fun mu => exists w1 w2, In (snd mu) ups /\ ex (snd mu) req w1 = (Some (fst mu), None, w2)) res.
Proof.
  intros Hp. unfold ExchangeAll. destruct ups as [|u [|u' ups]]; [discriminate| |].
  - destruct (ex u req w) as [[[m|] [e|]] w1] eqn:Ex; try discriminate. intros [= <- <-].
    split; [discriminate|]. constructor; [|constructor]. exists w, w1. cbn. auto.
  - destruct (receive_all _ _ _ _ _) as [[got errs] w1] eqn:Er.
    destruct (receive_all_spec _ _ _ _ _ _ _ _ Er) as (g & f & Hg & Hf & Hl & Hall). cbn in Hg, Hf. subst g f.
    destruct (Nat.eqb_spec (length errs) (length (u :: u' :: ups))) as [He|He]; [discriminate|].
    intros [= <- <-]. split.
    + intros ->. rewrite Hp in Hl. cbn in Hl, He. lia.
    + eapply Forall_impl; [|exact Hall]. intros mu (a & b & Hi & Hx). exists a, b. split; [|exact Hx].
      rewrite <- list_elem_of_In in Hi |- *. rewrite <- Hp. exact Hi.
Qed.

(** What every exchange keeps, the whole keeps. *)
Section Keeps.
Context (ups : list U) (I : W -> Prop).
Hypothesis ex_keeps : forall u m w, In u ups -> I w -> I (snd (ex u m w)).
Hypothesis arrival_in : forall w u, In u (arrival ups w) -> In u ups.

Lemma exchangeAsync_keeps u m w : In u ups -> I w -> I (snd (exchangeAsync u m w)).
Proof using ex_keeps.
  intros Hu Hw. pose proof (ex_keeps u m w Hu Hw). unfold exchangeAsync. destruct (ex u m w) as [[r e] w'].
  assumption.
Qed.

Lemma receive_first_keeps m order : (forall u, In u order -> In u ups) ->
  forall errs w, I w -> I (snd (receive_first order m errs w)).
Proof using ex_keeps.
  induction order as [|u order IH]; intros Ho errs w Hw; [exact Hw|]. cbn [receive_first].
  pose proof (exchangeAsync_keeps u m w (Ho u (or_introl eq_refl)) Hw) as Hx.
  destruct (exchangeAsync u m w) as [r w1]. destruct (receiveAsyncResult r) as [[m' u']|e]; [exact Hx|].
  apply IH; [|exact Hx]. intros v Hv. apply Ho. right. exact Hv.
Qed.

Lemma receive_all_keeps m order : (forall u, In u order -> In u ups) ->
  forall res errs w, I w -> I (snd (receive_all order m res errs w)).
Proof using ex_keeps.
  induction order as [|u order IH]; intros Ho res errs w Hw; [exact Hw|]. cbn [receive_all].
  pose proof (exchangeAsync_keeps u m w (Ho u (or_introl eq_refl)) Hw) as Hx.
  destruct (exchangeAsync u m w) as [r w1].
  destruct (receiveAsyncResult r); (apply IH; [|exact Hx]; intros v Hv; apply Ho; right; exact Hv).
Qed.

Lemma ExchangeParallel_keeps m w : I w -> I (snd (ExchangeParallel ups m w)).
Proof using ex_keeps arrival_in.
  intros Hw. pose proof (receive_first_keeps m _ (arrival_in w) [] w Hw) as Hk.
  pose proof ex_keeps as Hex. unfold ExchangeParallel. destruct ups as [|u [|v l]]; [exact Hw| |exact Hk].
  pose proof (Hex u m w (or_introl eq_refl) Hw) as Hx. unfold exchangeSingle.
  destruct (ex u m w) as [[r [e|]] w']; exact Hx.
Qed.

Lemma ExchangeAll_keeps m w : I w -> I (snd (ExchangeAll ups m w)).
Proof using ex_keeps arrival_in.
  intros Hw. pose proof (receive_all_keeps m _ (arrival_in w) [] [] w Hw) as Hk.
  pose proof ex_keeps as Hex. unfold ExchangeAll. destruct ups as [|u [|v l]]; [exact Hw| |].
  - pose proof (Hex u m w (or_introl eq_refl) Hw) as Hx. destruct (ex u m w) as [[r e] w']; exact Hx.
  - destruct (receive_all _ m [] [] w) as [[res errs] w']. exact Hk.
Qed.
End Keeps.

(** With two or more upstreams, whatever the order in which their results
    arrive, [ExchangeParallel] returns the response and the upstream of the
    first exchange that gave one, all results before it being failures; it
    fails exactly when every upstream did, with the errors of those that did
    not just stay silent. *)
Theorem ExchangeParallel_first (ups : list U) (req : Msg) (w : W) (r : option Msg) (u : option U)
    (err : option error) (w' : W)
    (Hp : arrival ups w ≡ₚ ups) (Hn : (2 <= length ups)%nat)
    (Hx : ExchangeParallel ups req w = (r, u, err, w')) :
  match err with
  | None => exists l1 l2 u0 m errs w1, ups ≡ₚ l1 ++ u0 :: l2 /\ all_fail req l1 w errs w1
              /\ ex u0 req w1 = (Some m, None, w') /\ r = Some m /\ u = Some u0
  | Some e => exists order errs, order ≡ₚ ups /\ all_fail req order w errs w' /\ r = None /\ u = None
              /\ e = parallel_error (reported errs)
  end.
Proof.
  unfold ExchangeParallel in Hx. destruct ups as [|a [|b ups]]; cbn in Hn; try lia.
  apply receive_first_spec in Hx. destruct err as [e|].
  - destruct Hx as (errs & Ha & Hr & Hu & He). exists (arrival (a :: b :: ups) w), errs. auto.
  - destruct Hx as (l1 & l2 & u0 & m & errs & w1 & Ho & Hr). exists l1, l2, u0, m, errs, w1.
    split; [|exact Hr]. rewrite <- Hp, Ho. reflexivity.
Qed.
End Parallel.

Module ParallelExamples.
Definition ex (u : nat) (req : Msg) (w : nat) : option Msg * option error * nat :=
  match u with
  | O => (None, Some (New "refused"), S w)
  | 1%nat => (None, None, S w)
  | _ => (Some req, None, S w)
  end.
Definition last_first (l : list nat) (_ : nat) : list nat := rev l.
End ParallelExamples.

(** The third of four results to arrive is the first response. *)
Lemma ExchangeParallel_first_witness :
  exists l1 l2 u0 m errs w1, [2; 5; 0; 1]%nat ≡ₚ l1 ++ u0 :: l2
    /\ all_fail ParallelExamples.ex empty_msg l1 0%nat errs w1
    /\ ParallelExamples.ex u0 empty_msg w1 = (Some m, None, 3%nat) /\ Some empty_msg = Some m /\ Some 5%nat = Some u0.
Proof.
  apply (ExchangeParallel_first ParallelExamples.ex ParallelExamples.last_first [2; 5; 0; 1]%nat empty_msg 0%nat
    (Some empty_msg) (Some 5%nat) None 3%nat).
  - symmetry. apply Permutation_rev.
  - cbn. lia.
  - reflexivity.
Defined.
