(* ===== verification/Fastip.v ===== *)
(** * The fastest address (fastip/)

    The cache of ping results, the choice of the fastest address among the
    replies of all upstreams, and the response reduced to it.  Pinging runs in
    goroutines: [results] are the results that arrive before the timeout, in
    order of arrival, and [values] is the iteration order of the set of
    addresses. *)

From S2P Require Import Prelude NetIP DnsMsg GlCache NetUtil Receipt Parallel.

Definition fastestAddrCacheTTLSec : Z := 10 * 60.
Definition pingPorts : list Z := [80; 443].

(** ** The cache of ping results (fastip/cache.go) *)

Record cacheEntry := mkEntry { latencyMsec : Z; failed : bool }.

Definition packCacheEntry (ent : cacheEntry) (ttl : Z) (now : Z) : bytes :=
  let expire := int64 (now + ttl) in
  be_put 8 (uint64 expire) ++ [if failed ent then 1 else 0] ++ be_put 8 (uint64 (latencyMsec ent)).

Definition unpackCacheEntry (data : bytes) (now : Z) : option cacheEntry :=
  if negb (length data =? 17)%nat || (1 <? default 0 (data !! 8%nat)) then None
  else
    let expire := int64 (be_get (take 8 data)) in
    if expire <=? now then None
    else
      let latency := int64 (be_get (drop 9 data)) in
      Some (mkEntry latency (default 0 (data !! 8%nat) =? 1)).

Record pingResult := mkPing { ping_addr : Addr; ping_port : Z; latency : Z; success : bool }.

Section Fastip.
Context {GC : GlCache} {NU : NetUtil}.

Definition cacheFind (ip : Addr) (now : Z) (g : glc) : option cacheEntry * glc :=
  let '(val, g) := glc_Get g (addr_bytes ip) in
  (match val with None => None | Some v => unpackCacheEntry v now end, g).

Definition cacheAdd (ent : cacheEntry) (ip : Addr) (ttl now : Z) (g : glc) : glc :=
  glc_Set g (addr_bytes ip) (packCacheEntry ent ttl now).

Definition cacheAddFailure (ip : Addr) (now : Z) (g : glc) : glc :=
  let '(cached, g) := cacheFind ip now g in
  match cached with
  | None => cacheAdd (mkEntry 0 true) ip fastestAddrCacheTTLSec now g
  | Some _ => g
  end.

Definition cacheAddSuccessful (ip : Addr) (lat now : Z) (g : glc) : glc :=
  let '(cached, g) := cacheFind ip now g in
  if (match cached with
      | None => true
      | Some entCached => failed entCached || (lat <? latencyMsec entCached)
      end)
  then cacheAdd (mkEntry lat false) ip fastestAddrCacheTTLSec now g
  else g.

(** ** Pinging (fastip/ping.go) *)

(** What [pingDoTCP] sends and stores when dialing ends after [elapsed]
    milliseconds. *)
Definition pingDoTCP (ip : Addr) (port : Z) (ok : bool) (elapsed now : Z) (g : glc) : pingResult * glc :=
  let addr := Unmap ip in
  (mkPing ip port elapsed ok,
   if ok then cacheAddSuccessful addr elapsed now g else cacheAddFailure addr now g).

(** The cached result and the address-port pairs that are pinged. *)
Fixpoint schedulePings (ips : list Addr) (now : Z) (pr : option pingResult) (scheduled : list (Addr * Z))
    (g : glc) : option pingResult * list (Addr * Z) * glc :=
  match ips with
  | [] => (pr, scheduled, g)
  | ip :: ips =>
      let '(cached, g) := cacheFind ip now g in
      match cached with
      | None => schedulePings ips now pr (scheduled ++ ((fun port => (ip, port)) <$> pingPorts)) g
      | Some c =>
          let better := match pr with None => true | Some p => latencyMsec c <? latency p end in
          let pr := if negb (failed c) && better then Some (mkPing ip 0 (latencyMsec c) true) else pr in
          schedulePings ips now pr scheduled g
      end
  end.

(** The first successful result that arrives before the timeout. *)
Definition firstSuccessRes (results : list pingResult) : option pingResult :=
  match base.filter (fun r => success r = true) results with [] => None | r :: _ => Some r end.

(** [ping] runs the scheduled pings: the results in time and the cache they
    leave. *)
Definition pingAll (ips : list Addr) (now : Z) (ping : list (Addr * Z) -> glc -> list pingResult * glc) (g : glc)
    : option pingResult * glc :=
  match ips with
  | [] => (None, g)
  | [ip] => (Some (mkPing ip 0 0 true), g)
  | _ =>
      let '(pr, scheduled, g) := schedulePings ips now None [] g in
      match scheduled with
      | [] => (pr, g)
      | _ =>
          let '(results, g) := ping scheduled g in
          (match firstSuccessRes results with
           | None => pr
           | Some res =>
               match pr with
               | None => Some res
               | Some p => if latency res <=? latency p then Some res else pr
               end
           end, g)
      end
  end.

(** ** The reply (fastip/fastest.go) *)

Definition ipFromRR (rr : RR) : Addr :=
  match Data rr with
  | RD_A a => match IPToAddr4 a with Ok ip => ip | Err _ => AddrZero end
  | RD_AAAA a => match IPToAddr6 a with Ok ip => ip | Err _ => AddrZero end
  | _ => AddrZero
  end.

Definition hasInAns (m : Msg) (ip : Addr) : bool :=
  existsb (fun rr => bool_decide (ipFromRR rr = ip)) (Answer m).

Definition keep_answer (ip : Addr) (rr : RR) : bool :=
  match Data rr with
  | RD_A a => IP_Equal a (AsSlice ip)
  | RD_AAAA a => IP_Equal a (AsSlice ip)
  | _ => true
  end.

Definition filterResponseAnswer (resp : Msg) (ip : Addr) : Msg :=
  set_Answer (base.filter (fun rr => keep_answer ip rr = true) (Answer resp)) resp.

(** [replies[0]] *)
Definition first_reply {U} (replies : list (Msg * U)) : go (option Msg * option U * option error) :=
  let! (m, u) := index replies 0 in Ret (Some m, Some u, None).

Definition prepareReply {U} (res : pingResult) (replies : list (Msg * U))
    : go (option Msg * option U * option error) :=
  let ip := ping_addr res in
  match List.find (fun mu => hasInAns (fst mu) ip) replies with
  | Some (m, u) => Ret (Some (filterResponseAnswer m ip), Some u, None)
  | None => first_reply replies
  end.

(** The addresses of the replies that are pinged. *)
Definition reply_addrs {U} (replies : list (Msg * U)) : list Addr :=
  base.filter (fun ip => IsValid ip && negb (IsUnspecified ip) = true)
    (replies ≫= fun mu => ipFromRR <$> Answer (fst mu)).

Section Exchange.
Context {U W : Type}.
Context (ex : U -> Msg -> W -> option Msg * option error * W).
Context (arrival : list U -> W -> list U).
Context (values : list Addr -> list Addr).
Context (ping : list (Addr * Z) -> glc -> list pingResult * glc).

Definition ExchangeFastest (req : Msg) (ups : list U) (now : Z) (w : W) (g : glc)
    : go (option Msg * option U * option error * W * glc) :=
  let '(replies, w) := ExchangeAll ex arrival ups req w in
  match replies with
  | Err e => Ret (None, None, Some e, w, g)
  | Ok replies =>
      let ips := values (reply_addrs replies) in
      let! _ := index (Question req) 0 in
      let '(pingRes, g) := pingAll ips now ping g in
      let! r := match pingRes with
                | Some res => prepareReply res replies
                | None => first_reply replies
                end in
      let '(m, u, e) := r in
      Ret (m, u, e, w, g)
  end.
End Exchange.
End Fastip.

(** ** Facts *)

Lemma int64_small z : - 2 ^ 63 <= z < 2 ^ 63 -> int64 z = z.
Proof. intros Hz. rewrite <- (int64_uint64 z Hz) at 2. unfold int64, uint64. rewrite Z.mod_mod by lia. reflexivity. Qed.

Lemma uint64_range z : 0 <= uint64 z < 256 ^ Z.of_nat 8.
Proof. unfold uint64. change (256 ^ Z.of_nat 8) with (2 ^ 64). apply Z.mod_pos_bound. lia. Qed.

(** A ping result stored for [ttl] seconds is read back with its latency
    and status until its time is over, and is not found afterwards. *)
Theorem unpack_packCacheEntry (ent : cacheEntry) (ttl now now' : Z)
    (Hl : - 2 ^ 63 <= latencyMsec ent < 2 ^ 63) (He : - 2 ^ 63 <= now + ttl < 2 ^ 63) :
  unpackCacheEntry (packCacheEntry ent ttl now) now' = if now' <? now + ttl then Some ent else None.
Proof.
  unfold unpackCacheEntry. remember (packCacheEntry ent ttl now) as d eqn:Hd.
  assert (Ht : take 8 d = be_put 8 (uint64 (int64 (now + ttl)))) by (subst d; reflexivity).
  assert (Hs : d !! 8%nat = Some (if failed ent then 1 else 0)) by (subst d; reflexivity).
  assert (Hr : drop 9 d = be_put 8 (uint64 (latencyMsec ent))) by (subst d; reflexivity).
  assert (Hn : length d = 17%nat) by (subst d; reflexivity).
  rewrite Hn, Hs, Ht, Hr, !be_get_put_small by apply uint64_range. cbn [Nat.eqb negb orb default].
  rewrite (int64_small (now + ttl)), !int64_uint64 by lia.
  destruct (Z.leb_spec (now + ttl) now'), (Z.ltb_spec now' (now + ttl)); try lia;
    destruct ent as [l []]; reflexivity.
Qed.

Section FastipFacts.
Context {GC : GlCache} {NU : NetUtil} {NL : NetUtilLaws}.

Lemma IP_Equal_refl b : IP_Equal (Some b) (Some b) = true.
Proof. unfold IP_Equal. cbn. rewrite Nat.eqb_refl. apply bool_decide_eq_true_2. reflexivity. Qed.

Lemma IP_Equal_To4 a b : To4 a = Some b -> IP_Equal a (Some b) = true.
Proof.
  unfold To4, IP_Equal. destruct a as [a|]; cbn; [|discriminate].
  destruct (Nat.eqb_spec (length a) IPv4len) as [H4|H4].
  { intros [= <-]. rewrite Nat.eqb_refl. apply bool_decide_eq_true_2. reflexivity. }
  destruct (Nat.eqb_spec (length a) IPv6len) as [H6|H6]; cbn [andb]; [|discriminate].
  case_bool_decide as Hp; [|discriminate]. intros [= <-].
  rewrite length_drop, H6. cbn. rewrite !bool_decide_eq_true_2 by auto. reflexivity.
Qed.

Lemma IP_Equal_To16 a b : To16 a = Some b -> IP_Equal a (Some b) = true.
Proof.
  unfold To16, IP_Equal. destruct a as [a|]; [|discriminate]. change (slice (Some a)) with a.
  destruct (Nat.eqb_spec (length a) IPv4len) as [H4|H4].
  - intros Hb. assert (b = v4InV6Prefix ++ a) as -> by congruence.
    change (slice (Some (v4InV6Prefix ++ a))) with (v4InV6Prefix ++ a).
    rewrite length_app, H4, take_app_length', drop_app_length' by reflexivity.
    change (length v4InV6Prefix + IPv4len)%nat with IPv6len.
    change (IPv4len =? IPv6len)%nat with false. cbv iota.
    rewrite !bool_decide_eq_true_2 by reflexivity. reflexivity.
  - destruct (length a =? IPv6len)%nat; [|discriminate]. intros [= <-]. rewrite Nat.eqb_refl.
    apply bool_decide_eq_true_2. reflexivity.
Qed.

(** The record an address was taken from is kept for that address. *)
Lemma ipFromRR_kept rr : IsValid (ipFromRR rr) = true -> keep_answer (ipFromRR rr) rr = true.
Proof using NL.
  unfold ipFromRR, keep_answer. destruct (Data rr) as [a|aaaa| | | | |]; try discriminate.
  - pose proof (IPToAddr4_spec a) as Hs. destruct (To4 a) as [b|] eqn:E.
    + rewrite Hs. cbn. intros _. apply IP_Equal_To4, E.
    + destruct Hs as [e ->]. discriminate.
  - pose proof (IPToAddr6_spec aaaa) as Hs. destruct (To16 aaaa) as [b|] eqn:E.
    + rewrite Hs. cbn. intros _. apply IP_Equal_To16, E.
    + destruct Hs as [e ->]. discriminate.
Qed.

Lemma schedulePings_in ips now : forall pr sched g pr' sched' g',
  schedulePings ips now pr sched g = (pr', sched', g') ->
  (forall a p, In (a, p) sched' -> In (a, p) sched \/ In a ips)
  /\ (forall r, pr' = Some r -> pr = Some r \/ In (ping_addr r) ips /\ success r = true).
Proof.
  induction ips as [|ip ips IH]; intros pr sched g pr' sched' g'; cbn [schedulePings].
  { intros [= <- <- <-]. auto. }
  destruct (cacheFind ip now g) as [[c|] g1]; intros H; apply IH in H as [Hs Hp]; split.
  - intros a p Hin. destruct (Hs a p Hin); cbn; auto.
  - intros r Hr. destruct (Hp r Hr) as [Hpr|[? ?]]; [|cbn; auto].
    destruct (negb (failed c) && _); [|auto]. injection Hpr as <-. right. cbn. auto.
  - intros a p Hin. destruct (Hs a p Hin) as [Ha|Ha]; [|cbn; auto].
    apply in_app_or in Ha as [Ha|Ha]; [auto|]. right. left.
    cbn in Ha. destruct Ha as [[= <- _]|[[= <- _]|[]]]; reflexivity.
  - intros r Hr. destruct (Hp r Hr) as [?|[? ?]]; cbn; auto.
Qed.

(** The results that arrive are those of the pings that were started. *)
Definition pings_answer (ping : list (Addr * Z) -> glc -> list pingResult * glc) : Prop :=
  forall sched g r, In r (fst (ping sched g)) -> In (ping_addr r, ping_port r) sched.

Lemma pingAll_in ips now ping g r g' :
  pings_answer ping -> pingAll ips now ping g = (Some r, g') -> In (ping_addr r) ips /\ success r = true.
Proof.
  intros Hping. unfold pingAll. destruct ips as [|a [|b ips]]; [discriminate| |].
  { intros [= <- _]. cbn. auto. }
  destruct (schedulePings (a :: b :: ips) now None [] g) as [[pr sched] g1] eqn:Es.
  apply schedulePings_in in Es as [Hs Hp].
  assert (Hpr : forall r, pr = Some r -> In (ping_addr r) (a :: b :: ips) /\ success r = true).
  { intros r1 Hr1. destruct (Hp r1 Hr1) as [?|?]; [discriminate|auto]. }
  destruct sched as [|s0 sched]; [intros [= -> _]; auto|].
  specialize (Hping (s0 :: sched) g1). destruct (ping (s0 :: sched) g1) as [results g2]. cbn [fst] in Hping.
  destruct (firstSuccessRes results) as [res|] eqn:Ef; [|intros [= -> _]; auto].
  assert (Hres : In (ping_addr res) (a :: b :: ips) /\ success res = true).
  { unfold firstSuccessRes in Ef. destruct (base.filter _ results) as [|x l] eqn:El; [discriminate|].
    injection Ef as ->. assert (Hin : res ∈ base.filter (fun r => success r = true) results) by (rewrite El; left).
    apply list_elem_of_filter in Hin as [Hsuc Hin]. split; [|exact Hsuc].
    apply list_elem_of_In in Hin. destruct (Hs _ _ (Hping res Hin)) as [[]|Hi]. exact Hi. }
  destruct pr as [p|]; [destruct (latency res <=? latency p)|]; intros [= <- _]; auto.
Qed.

Lemma reply_addrs_in {U} (replies : list (Msg * U)) ip :
  In ip (reply_addrs replies) ->
  IsValid ip = true /\ exists mu, In mu replies /\ hasInAns (fst mu) ip = true.
Proof.
  intros Hin. apply list_elem_of_In in Hin. unfold reply_addrs in Hin.
  apply list_elem_of_filter in Hin as [Hv Hin]. apply andb_true_iff in Hv as [Hv _]. split; [exact Hv|].
  apply list_elem_of_bind in Hin as (mu & Hip & Hmu). exists mu. split; [apply list_elem_of_In, Hmu|].
  apply list_elem_of_fmap in Hip as (rr & -> & Hrr). apply existsb_exists. exists rr.
  split; [apply list_elem_of_In, Hrr|]. apply bool_decide_eq_true_2. reflexivity.
Qed.

(** [r] is the message [m] with the single address [ip]. *)
Definition reduced_to (ip : Addr) (m r : Msg) : Prop :=
  hasInAns m ip = true /\ hasInAns r ip = true /\ Answer r `sublist_of` Answer m
  /\ Forall (fun rr => keep_answer ip rr = true) (Answer r)
  /\ (forall rr, In rr (Answer m) -> keep_answer ip rr = true -> In rr (Answer r))
  /\ set_Answer (Answer m) r = m.

Lemma filterResponseAnswer_reduced m ip :
  IsValid ip = true -> hasInAns m ip = true -> reduced_to ip m (filterResponseAnswer m ip).
Proof using NL.
  intros Hv Hin. unfold filterResponseAnswer, reduced_to. cbn [Answer set_Answer].
  split; [exact Hin|]. split; [|split; [|split; [|split]]].
  - apply existsb_exists in Hin as (rr & Hrr & Hip). apply existsb_exists. exists rr. split; [|exact Hip].
    apply list_elem_of_In, list_elem_of_filter. split; [|apply list_elem_of_In, Hrr].
    apply bool_decide_eq_true in Hip. subst ip. apply ipFromRR_kept, Hv.
  - apply sublist_filter.
  - apply list.Forall_forall. intros rr Hrr. apply list_elem_of_filter in Hrr as [? _]. assumption.
  - intros rr Hrr Hk. apply list_elem_of_In, list_elem_of_filter. split; [exact Hk|apply list_elem_of_In, Hrr].
  - destruct m. reflexivity.
Qed.

Lemma ExchangeFastest_total {U W : Type} (ex : U -> Msg -> W -> option Msg * option error * W)
    (arrival : list U -> W -> list U) (values : list Addr -> list Addr)
    (ping : list (Addr * Z) -> glc -> list pingResult * glc)
    (req : Msg) (ups : list U) (now : Z) (w : W) (g : glc)
    (Ha : forall l w, arrival l w ≡ₚ l) (Hv : forall l ip, In ip (values l) -> In ip l)
    (Hp : pings_answer ping) (Hq : Question req <> []) :
  exists r u err w' g', ExchangeFastest ex arrival values ping req ups now w g = Ret (r, u, err, w', g')
    /\ match err with
       | Some _ => r = None /\ u = None
       | None => exists u0 m w1 w2, u = Some u0 /\ In u0 ups /\ ex u0 req w1 = (Some m, None, w2)
                   /\ (r = Some m \/ exists ip m', r = Some m' /\ reduced_to ip m m')
       end.
Proof using NL.
  unfold ExchangeFastest. destruct (ExchangeAll ex arrival ups req w) as [[replies|e] w1] eqn:Ee.
  2: { do 5 eexists. split; [reflexivity|split; reflexivity]. }
  apply ExchangeAll_ok in Ee as [Hne Hall]; [|apply Ha].
  destruct (Question req) as [|q qs]; [destruct (Hq eq_refl)|]. change (index (q :: qs) 0) with (Ret q). cbn [gbind].
  rewrite List.Forall_forall in Hall.
  assert (Hfirst : exists m u, first_reply replies = Ret (Some m, Some u, None) /\ In (m, u) replies).
  { destruct replies as [|[m u] replies]; [destruct (Hne eq_refl)|]. exists m, u. cbn. auto. }
  destruct Hfirst as (m0 & u0 & Hf & Hin0).
  destruct (pingAll (values (reply_addrs replies)) now ping g) as [[res|] g1] eqn:Epa.
  - apply pingAll_in in Epa as [Hip _]; [|exact Hp]. apply Hv, reply_addrs_in in Hip as (Hval & mu & Hmu & Hhas).
    unfold prepareReply. destruct (List.find _ replies) as [[m u]|] eqn:Efind.
    + apply find_some in Efind as [Hin Hh]. cbn [fst] in Hh. cbn [gbind].
      do 5 eexists. split; [reflexivity|]. destruct (Hall _ Hin) as (wa & wb & Hu & Hx). cbn in Hu, Hx.
      exists u, m, wa, wb. repeat split; auto. right. eexists _, _. split; [reflexivity|].
      apply filterResponseAnswer_reduced; auto.
    + pose proof (find_none _ _ Efind mu Hmu) as Hno. cbv beta in Hno. congruence.
  - rewrite Hf. cbn [gbind]. do 5 eexists. split; [reflexivity|].
    destruct (Hall _ Hin0) as (wa & wb & Hu & Hx). cbn in Hu, Hx. exists u0, m0, wa, wb. auto.
Qed.
Lemma ExchangeFastest_keeps {U W : Type} (ex : U -> Msg -> W -> option Msg * option error * W)
    (arrival : list U -> W -> list U) values ping (ups : list U) (I : W -> Prop) req now w g r u e w' g' :
  (forall u m w, In u ups -> I w -> I (snd (ex u m w))) ->
  (forall w u, In u (arrival ups w) -> In u ups) ->
  ExchangeFastest ex arrival values ping req ups now w g = Ret (r, u, e, w', g') -> I w -> I w'.
Proof.
  intros Hex Ha Hx Hw. unfold ExchangeFastest in Hx.
  pose proof (ExchangeAll_keeps ex arrival ups I Hex Ha req w Hw) as Hk.
  destruct (ExchangeAll ex arrival ups req w) as [[replies|err] w1]; [|injection Hx as _ _ _ <- _; exact Hk].
  inv_bind Hx. destruct (pingAll _ _ _ _) as [pr g1]. inv_bind Hx. destruct a0 as [[m0 u0] e0].
  injection Hx as _ _ _ <- _. exact Hk.
Qed.

(** [ExchangeFastest] of a request with a question returns: either the error
    of all upstreams, or the response of one of them, as it is if no address
    was reached, and otherwise reduced to one address, which that response
    contains: all its other address records, and no other record, are removed. *)
Theorem ExchangeFastest_reduces {U W : Type} (ex : U -> Msg -> W -> option Msg * option error * W)
    (arrival : list U -> W -> list U) (values : list Addr -> list Addr)
    (ping : list (Addr * Z) -> glc -> list pingResult * glc)
    (req : Msg) (ups : list U) (now : Z) (w : W) (g : glc)
    (Ha : forall l w, arrival l w ≡ₚ l) (Hv : forall l ip, In ip (values l) -> In ip l)
    (Hp : pings_answer ping) (Hq : Question req <> []) :
  exists r u err w' g', ExchangeFastest ex arrival values ping req ups now w g = Ret (r, u, err, w', g')
    /\ match err with
       | Some _ => r = None /\ u = None
       | None => exists u0 m w1 w2, u = Some u0 /\ In u0 ups /\ ex u0 req w1 = (Some m, None, w2)
                   /\ (r = Some m \/ exists ip m', r = Some m' /\ reduced_to ip m m')
       end.
Proof using NL. exact (ExchangeFastest_total ex arrival values ping req ups now w g Ha Hv Hp Hq). Qed.
End FastipFacts.

Module FastipExamples.
Definition a_rr (n : bytes) (last : Z) : RR := mkRR (mkHdr n 1 1 60) (RD_A (Some [192; 0; 2; last])).
Definition req : Msg :=
  mkMsg (mkMsgHdr 1 false 0 false false true false false false false 0) false [mkQ (str "a.test.") 1 1] [] [] [].
Definition ex (u : nat) (m : Msg) (w : unit) : option Msg * option error * unit :=
  (Some (set_Answer [a_rr (str "a.test.") (Z.of_nat u); a_rr (str "a.test.") (Z.of_nat u + 1)] m), None, w).
(** The second scheduled address answers. *)
Definition ping (sched : list (Addr * Z)) (g : glc) : list pingResult * glc :=
  ((fun '(a, p) => mkPing a p 3 true) <$> take 1 (drop 2 sched), g).
Definition response : option Msg :=
  match ExchangeFastest ex (fun l _ => l) id ping req [1; 5]%nat 0 tt [] with
  | Ret (r, _, _, _, _) => r | Panic => None end.
End FastipExamples.

Lemma unpack_packCacheEntry_witness :
  unpackCacheEntry (packCacheEntry (mkEntry 12 false) 600 1000) 1599 = Some (mkEntry 12 false).
Proof.
  pose proof (unpack_packCacheEntry (mkEntry 12 false) 600 1000 1599) as H. cbn [latencyMsec] in H.
  rewrite H by lia. reflexivity.
Defined.

Lemma ExchangeFastest_reduces_witness :
  exists u0 m w1 w2, In u0 [1; 5]%nat /\ FastipExamples.ex u0 FastipExamples.req w1 = (Some m, None, w2)
    /\ (FastipExamples.response = Some m
        \/ exists ip m', FastipExamples.response = Some m' /\ reduced_to ip m m').
Proof.
  destruct (ExchangeFastest_reduces FastipExamples.ex (fun l _ => l) id FastipExamples.ping FastipExamples.req
    [1; 5]%nat 0 tt []) as (r & u & err & w' & g' & Hx & Hr).
  - reflexivity.
  - auto.
  - intros sched g r Hr. cbn in Hr. destruct sched as [|? [|? [|[a p] s]]]; cbn in Hr; try contradiction.
    destruct Hr as [<-|[]]. cbn. auto.
  - discriminate.
  - assert (err = None /\ r = FastipExamples.response) as [-> ->].
    { vm_compute in Hx. injection Hx as <- <- <- <- <-. split; vm_compute; reflexivity. }
    destruct Hr as (u0 & m & w1 & w2 & _ & Hu & Hx2 & Hr). exists u0, m, w1, w2. auto.
Defined.
