(* ===== verification/Exchange.v ===== *)
(** * Exchanging a request with the upstreams (proxy/exchange.go and
      proxy/upstreammode.go)

    [ex] is the method [Exchange] of the upstreams on the state [N] of the
    outside and [Now] its clock.  [take_order ws n] are the indices that the
    weighted sampler gives for the weights [ws] until it is empty.  The sums of
    round-trip times are integers, which [float64] represents exactly up to
    2^53 microseconds; the weights are their exact quotients. *)

From Stdlib Require Import QArith.
From S2P Require Import Prelude NetIP DnsMsg GlCache NetUtil Receipt Parallel Fastip.
#[local] Open Scope Z_scope.

Definition UpstreamModeLoadBalance : bytes := str "load_balance".
Definition UpstreamModeParallel : bytes := str "parallel".
Definition UpstreamModeFastestAddr : bytes := str "fastest_addr".

Definition UnmarshalText (b : bytes) : result bytes :=
  if bool_decide (b = UpstreamModeLoadBalance) || bool_decide (b = UpstreamModeParallel)
     || bool_decide (b = UpstreamModeFastestAddr)
  then Ok b
  else Err (New "invalid upstream mode %q, supported: %q, %q, %q").

Definition MarshalText (m : bytes) : bytes := m.

Definition defaultTimeout : Duration := 10 * Second.

(** ** Round-trip times *)

Record upstreamRTTStats := mkRTT { rttSum : Z; reqNum : Z }.

Definition zero_rtt : upstreamRTTStats := mkRTT 0 0.

Definition Microseconds (d : Duration) : Z := Z.quot d 1000.

Definition update (stats : upstreamRTTStats) (rtt : Duration) : upstreamRTTStats :=
  mkRTT (rttSum stats + Microseconds rtt) (reqNum stats + 1).

(** The map of statistics; a missing key is the zero value. *)
Definition rtt_map := list (bytes * upstreamRTTStats).

Fixpoint rtt_get (m : rtt_map) (address : bytes) : upstreamRTTStats :=
  match m with
  | [] => zero_rtt
  | (a, s) :: m => if bool_decide (a = address) then s else rtt_get m address
  end.

Fixpoint rtt_set (m : rtt_map) (address : bytes) (s : upstreamRTTStats) : rtt_map :=
  match m with
  | [] => [(address, s)]
  | (a, s') :: m => if bool_decide (a = address) then (a, s) :: m else (a, s') :: rtt_set m address s
  end.

Definition updateRTT (m : rtt_map) (address : bytes) (rtt : Duration) : rtt_map :=
  rtt_set m address (update (rtt_get m address) rtt).

Definition weight (stat : upstreamRTTStats) : Q :=
  if (rttSum stat =? 0) || (reqNum stat =? 0) then 1%Q
  else (1 / (inject_Z (rttSum stat) / inject_Z (reqNum stat)))%Q.

Section Exchange.
Context {GC : GlCache} {NU : NetUtil}.
Context {U N : Type}.
Context (ex : U -> Msg -> N -> option Msg * option error * N).
Context (Address : U -> bytes) (Now : N -> Time).
Context (arrival : list U -> N -> list U).
Context (take_order : list Q -> N -> list nat).
Context (values : list Addr -> list Addr).
Context (ping : list (Addr * Z) -> glc -> list pingResult * glc).
Context (upstreamMode : bytes).

(** The state that exchanging changes. *)
Record exchange_state := mkEx { x_rtt : rtt_map; x_ip : glc; x_net : N }.

Definition calcWeights (m : rtt_map) (ups : list U) : list Q :=
  (fun u => weight (rtt_get m (Address u))) <$> ups.

(** [p.exchange]: the logging looks at the question of the request. *)
Definition exchange (u : U) (req : Msg) (n : N) : go (option Msg * Duration * option error * N) :=
  let startTime := Now n in
  let '(resp, err, n) := ex u req n in
  let dur := Now n - startTime in
  let! _ := index (Question req) 0 in
  Ret (resp, dur, err, n).

Fixpoint take_loop (order : list nat) (ups : list U) (req : Msg) (errs : list error) (s : exchange_state)
    : go (option Msg * option U * option error * exchange_state) :=
  match order with
  | [] => Ret (None, None, Some (Errorf "all upstreams failed to exchange request: %w" (Join errs)), s)
  | i :: order =>
      let! u := index ups i in
      let! (resp, elapsed, err, n) := exchange u req (x_net s) in
      match err with
      | None => Ret (resp, Some u, None, mkEx (updateRTT (x_rtt s) (Address u) elapsed) (x_ip s) n)
      | Some e =>
          take_loop order ups req (errs ++ [e])
            (mkEx (updateRTT (x_rtt s) (Address u) defaultTimeout) (x_ip s) n)
      end
  end.

Definition load_balance (req : Msg) (ups : list U) (s : exchange_state)
    : go (option Msg * option U * option error * exchange_state) :=
  match ups with
  | [u] =>
      let! (resp, _, err, n) := exchange u req (x_net s) in
      let s := mkEx (x_rtt s) (x_ip s) n in
      match err with
      | Some e => Ret (None, None, Some e, s)
      | None => Ret (resp, Some u, None, s)
      end
  | _ => take_loop (take_order (calcWeights (x_rtt s) ups) (x_net s)) ups req [] s
  end.

Definition exchangeUpstreams (req : Msg) (ups : list U) (s : exchange_state)
    : go (option Msg * option U * option error * exchange_state) :=
  if bool_decide (upstreamMode = UpstreamModeParallel) then
    let '(r, u, e, n) := ExchangeParallel ex arrival ups req (x_net s) in
    Ret (r, u, e, mkEx (x_rtt s) (x_ip s) n)
  else if bool_decide (upstreamMode = UpstreamModeFastestAddr) then
    let! q := index (Question req) 0 in
    if (Qtype q =? TypeA) || (Qtype q =? TypeAAAA) then
      let! (r, u, e, n, g) :=
        ExchangeFastest ex arrival values ping req ups (Unix (Now (x_net s))) (x_net s) (x_ip s) in
      Ret (r, u, e, mkEx (x_rtt s) g n)
    else load_balance req ups s
  else load_balance req ups s.

(** ** Facts *)

Definition stats_ok (s : upstreamRTTStats) : Prop := 0 <= rttSum s /\ 0 <= reqNum s.
Definition rtt_ok (m : rtt_map) : Prop := Forall (fun e => stats_ok (snd e)) m.

Lemma rtt_get_ok m a : rtt_ok m -> stats_ok (rtt_get m a).
Proof.
  induction 1 as [|[k s] m Hs Hm IH]; cbn; [split; cbn; lia|]. case_bool_decide; auto.
Qed.

Lemma rtt_set_ok m a s : rtt_ok m -> stats_ok s -> rtt_ok (rtt_set m a s).
Proof.
  intros Hm Hs. induction Hm as [|[k s'] m Hk Hm IH]; cbn; [repeat constructor; apply Hs|].
  case_bool_decide; constructor; auto.
Qed.

Lemma updateRTT_ok m a d : rtt_ok m -> 0 <= d -> rtt_ok (updateRTT m a d).
Proof.
  intros Hm Hd. apply rtt_set_ok; [exact Hm|]. destruct (rtt_get_ok m a Hm).
  assert (0 <= Z.quot d 1000) by (apply Z.quot_pos; lia). split; cbn; unfold Microseconds; lia.
Qed.

(** The default weight and the measured ones are positive. *)
Lemma weight_pos s : stats_ok s -> (0 < weight s)%Q.
Proof.
  destruct s as [sum num]. intros [H1 H2]. cbn in H1, H2. unfold weight. cbn [rttSum reqNum].
  destruct (Z.eqb_spec sum 0), (Z.eqb_spec num 0); try reflexivity. cbn [orb].
  apply Qlt_shift_div_l; [apply Qlt_shift_div_l|]; unfold inject_Z, Qlt, Qmult; cbn; lia.
Qed.

Lemma calcWeights_pos m ups : rtt_ok m -> Forall (fun w => (0 < w)%Q) (calcWeights m ups).
Proof.
  intros Hm. unfold calcWeights. apply Forall_fmap, list.Forall_forall.
  intros u _. apply weight_pos, rtt_get_ok, Hm.
Qed.

(** All of [l] are asked one after the other and fail, and the time-out is
    added to the statistics of each. *)
Inductive lb_fail (req : Msg) : list U -> exchange_state -> list error -> exchange_state -> Prop :=
  | lb_fail_nil s : lb_fail req [] s [] s
  | lb_fail_cons u l s r e n errs s' :
      ex u req (x_net s) = (r, Some e, n) ->
      lb_fail req l (mkEx (updateRTT (x_rtt s) (Address u) defaultTimeout) (x_ip s) n) errs s' ->
      lb_fail req (u :: l) s (e :: errs) s'.

(** [u] is asked and answers, and the time it took is added. *)
Definition lb_answer (req : Msg) (u : U) (s : exchange_state) (r : option Msg) (s' : exchange_state) : Prop :=
  exists n, ex u req (x_net s) = (r, None, n)
    /\ s' = mkEx (updateRTT (x_rtt s) (Address u) (Now n - Now (x_net s))) (x_ip s) n.

Lemma take_loop_spec req q qs ups : Question req = q :: qs -> forall l order errs0 s,
  Forall2 (fun i u => ups !! i = Some u) order l ->
  exists r u err s', take_loop order ups req errs0 s = Ret (r, u, err, s')
    /\ match err with
       | None => exists l1 l2 u0 errs s1, l = l1 ++ u0 :: l2 /\ lb_fail req l1 s errs s1
                   /\ lb_answer req u0 s1 r s' /\ u = Some u0
       | Some e => exists errs, lb_fail req l s errs s' /\ r = None /\ u = None
                   /\ e = Errorf "all upstreams failed to exchange request: %w" (Join (errs0 ++ errs))
       end.
Proof.
  intros Hq. induction l as [|u0 l IH]; intros order errs0 s Hf; inversion Hf as [|i ? order' ? Hi Hf']; subst;
    cbn [take_loop].
  { do 4 eexists. split; [reflexivity|]. cbv beta iota. exists []. rewrite app_nil_r. repeat split. constructor. }
  unfold index at 1. rewrite Hi. cbn [gbind]. unfold exchange. rewrite Hq.
  destruct (ex u0 req (x_net s)) as [[r0 [e|]] n] eqn:Ex; cbn [index lookup list_lookup gbind].
  - destruct (IH order' (errs0 ++ [e]) (mkEx (updateRTT (x_rtt s) (Address u0) defaultTimeout) (x_ip s) n) Hf')
      as (r & u & err & s' & -> & Hr).
    exists r, u, err, s'. split; [reflexivity|]. destruct err as [e'|].
    + destruct Hr as (errs & Ha & Hr & Hu & He). exists (e :: errs). rewrite <- app_assoc in He.
      repeat split; auto. econstructor; eauto.
    + destruct Hr as (l1 & l2 & u1 & errs & s1 & -> & Ha & Hr). exists (u0 :: l1), l2, u1, (e :: errs), s1.
      split; [reflexivity|]. split; [econstructor; eauto|exact Hr].
  - do 4 eexists. split; [reflexivity|]. cbv beta iota. exists [], l, u0, [], s. repeat split; [constructor|].
    exists n. auto.
Qed.

Lemma order_upstreams (ups : list U) order :
  order ≡ₚ seq 0 (length ups) ->
  exists l, Forall2 (fun i u => ups !! i = Some u) order l /\ l ≡ₚ ups.
Proof.
  intros Hp. assert (Hseq : Forall2 (fun i u => ups !! i = Some u) (seq 0 (length ups)) ups).
  { apply Forall2_same_length_lookup. split; [apply length_seq|]. intros i j u Hi Hu.
    apply lookup_seq in Hi as [-> _]. exact Hu. }
  destruct (Permutation_Forall2 (Permutation_sym Hp) Hseq) as (l & Hl & Hf).
  exists l. split; [exact Hf|]. symmetry. exact Hl.
Qed.

Section Keeps.
Context (ups : list U) (I : N -> Prop).
Hypothesis ex_keeps : forall u m n, In u ups -> I n -> I (snd (ex u m n)).
Hypothesis arrival_in : forall n u, In u (arrival ups n) -> In u ups.

Lemma exchange_keeps u m n r dur e n' :
  In u ups -> exchange u m n = Ret (r, dur, e, n') -> I n -> I n'.
Proof using ex_keeps.
  intros Hu Hx Hn. pose proof (ex_keeps u m n Hu Hn) as Hk. unfold exchange in Hx.
  destruct (ex u m n) as [[r0 e0] n0]. inv_bind Hx. injection Hx as _ _ _ <-. exact Hk.
Qed.

Lemma take_loop_keeps m order : forall errs s r u e s',
  take_loop order ups m errs s = Ret (r, u, e, s') -> I (x_net s) -> I (x_net s').
Proof using ex_keeps.
  induction order as [|i order IH]; intros errs s r u e s'; cbn [take_loop]; [congruence|].
  intros Hx Hs. inv_bind Hx. inv_bind Hx. destruct a0 as [[[r0 dur] e0] n0].
  assert (Hin : In a ups).
  { unfold index in E. destruct (ups !! i) eqn:Ei; [|discriminate]. injection E as <-.
    apply list_elem_of_In. eapply list_elem_of_lookup_2, Ei. }
  pose proof (exchange_keeps _ _ _ _ _ _ _ Hin E0 Hs) as Hk.
  destruct e0; [eapply IH; [exact Hx|exact Hk]|]. injection Hx as _ _ _ <-. exact Hk.
Qed.

Lemma load_balance_keeps m s r u e s' :
  load_balance m ups s = Ret (r, u, e, s') -> I (x_net s) -> I (x_net s').
Proof using ex_keeps arrival_in.
  unfold load_balance. intros Hx Hs. pose proof (take_loop_keeps m) as Ht. pose proof exchange_keeps as He.
  destruct ups as [|a [|b l]]; try (eapply Ht; [exact Hx|exact Hs]).
  inv_bind Hx. destruct a0 as [[[r0 dur] e0] n0].
  assert (Hk : I n0) by (eapply (He a); [left; reflexivity|exact E|exact Hs]).
  destruct e0; injection Hx as _ _ _ <-; exact Hk.
Qed.

Lemma exchangeUpstreams_keeps m s r u e s' :
  exchangeUpstreams m ups s = Ret (r, u, e, s') -> I (x_net s) -> I (x_net s').
Proof using ex_keeps arrival_in.
  unfold exchangeUpstreams. intros Hx Hs. case_bool_decide.
  { pose proof (ExchangeParallel_keeps ex arrival ups I ex_keeps arrival_in m (x_net s) Hs) as Hk.
    destruct (ExchangeParallel _ _ _ _ _) as [[[r0 u0] e0] n0]. injection Hx as _ _ _ <-. exact Hk. }
  case_bool_decide; [|eapply load_balance_keeps; eauto].
  inv_bind Hx. destruct (_ || _); [|eapply load_balance_keeps; eauto].
  inv_bind Hx. destruct a0 as [[[[r0 u0] e0] n0] g0]. injection Hx as _ _ _ <-.
  eapply ExchangeFastest_keeps; eauto.
Qed.
End Keeps.

Section LoadBalance.
(** The sampler takes each item of positive weight exactly once, and the clock
    does not run backwards. *)
Hypothesis take_order_spec : forall ws n,
  Forall (fun w => (0 < w)%Q) ws -> take_order ws n ≡ₚ seq 0 (length ws).
Hypothesis clock_monotone : forall u req n r e n', ex u req n = (r, e, n') -> Now n <= Now n'.

Lemma lb_fail_rtt req l s errs s' : lb_fail req l s errs s' -> rtt_ok (x_rtt s) -> rtt_ok (x_rtt s').
Proof. induction 1; intros Hs; [exact Hs|]. apply IHlb_fail. cbn. apply updateRTT_ok; [exact Hs|discriminate]. Qed.

Lemma load_balance_total req ups s :
  Question req <> [] -> rtt_ok (x_rtt s) -> (length ups <> 1)%nat ->
  exists r u err s', load_balance req ups s = Ret (r, u, err, s') /\ rtt_ok (x_rtt s')
    /\ match err with
       | None => exists l1 l2 u0 errs s1, ups ≡ₚ l1 ++ u0 :: l2 /\ lb_fail req l1 s errs s1
                   /\ lb_answer req u0 s1 r s' /\ u = Some u0
       | Some e => exists l errs, l ≡ₚ ups /\ lb_fail req l s errs s' /\ r = None /\ u = None
                   /\ e = Errorf "all upstreams failed to exchange request: %w" (Join errs)
       end.
Proof using clock_monotone take_order_spec.
  intros Hq Hr Hn. unfold load_balance.
  pose proof (take_order_spec _ (x_net s) (calcWeights_pos (x_rtt s) ups Hr)) as Ho.
  unfold calcWeights in Ho at 2. rewrite length_fmap in Ho.
  destruct (order_upstreams ups _ Ho) as (l & Hl & Hp).
  destruct (Question req) as [|q qs] eqn:Eq; [destruct (Hq eq_refl)|].
  destruct (take_loop_spec req q qs ups Eq l _ [] s Hl) as (r & u & err & s' & Ht & Hres).
  exists r, u, err, s'. split.
  { destruct ups as [|a [|b ups]]; auto. destruct (Hn eq_refl). }
  destruct err as [e|].
  - destruct Hres as (errs & Hf & Hrest). split; [eauto using lb_fail_rtt|]. exists l, errs. auto.
  - destruct Hres as (l1 & l2 & u0 & errs & s1 & -> & Hf & (n & Hx & ->) & Hu). split.
    + apply updateRTT_ok; [eauto using lb_fail_rtt|]. pose proof (clock_monotone _ _ _ _ _ _ Hx). lia.
    + exists l1, l2, u0, errs, s1. rewrite Hp. repeat split; auto. exists n. auto.
Qed.

(** With a number of upstreams other than one, load balancing asks them one
    at a time, none twice, and stops at the first that answers, returning its
    response and adding the time it took to its statistics; each that failed
    before has the time-out added instead.  It fails only after asking every
    upstream, with the errors of all.  The statistics stay non-negative, so
    every weight given to the sampler is positive. *)
Theorem load_balance_spec (req : Msg) (ups : list U) (s : exchange_state)
    (Hq : Question req <> []) (Hr : rtt_ok (x_rtt s)) (Hn : length ups <> 1%nat) :
  exists r u err s', load_balance req ups s = Ret (r, u, err, s') /\ rtt_ok (x_rtt s')
    /\ Forall (fun w => (0 < w)%Q) (calcWeights (x_rtt s') ups)
    /\ match err with
       | None => exists l1 l2 u0 errs s1, ups ≡ₚ l1 ++ u0 :: l2 /\ lb_fail req l1 s errs s1
                   /\ lb_answer req u0 s1 r s' /\ u = Some u0
       | Some e => exists l errs, l ≡ₚ ups /\ lb_fail req l s errs s' /\ r = None /\ u = None
                   /\ e = Errorf "all upstreams failed to exchange request: %w" (Join errs)
       end.
Proof using clock_monotone take_order_spec.
  destruct (load_balance_total req ups s Hq Hr Hn) as (r & u & err & s' & Hx & Hr' & Hres).
  exists r, u, err, s'. auto using calcWeights_pos.
Qed.

(** ** All modes *)

Context {NL : NetUtilLaws}.
Hypothesis arrival_perm : forall l n, arrival l n ≡ₚ l.
Hypothesis values_in : forall l ip, In ip (values l) -> In ip l.
Hypothesis ping_answers : pings_answer ping.

(** [r] is what the upstream [u] answered to [req], possibly reduced to one
    address. *)
Definition answered_by (req : Msg) (u : U) (r : option Msg) : Prop :=
  exists r0 n1 n2, ex u req n1 = (r0, None, n2)
    /\ (r = r0 \/ exists ip m m', r0 = Some m /\ r = Some m' /\ reduced_to ip m m').

Definition exchange_post (req : Msg) (ups : list U) (r : option Msg) (u : option U) (err : option error) : Prop :=
  match err with
  | Some _ => r = None /\ u = None
  | None => exists u0, u = Some u0 /\ In u0 ups /\ answered_by req u0 r
  end.

Lemma single_post req u s :
  Question req <> [] ->
  exists r u' err s', load_balance req [u] s = Ret (r, u', err, s') /\ x_rtt s' = x_rtt s
    /\ exchange_post req [u] r u' err.
Proof.
  intros Hq. unfold load_balance, exchange. destruct (ex u req (x_net s)) as [[r0 e0] n] eqn:Ex.
  destruct (Question req) as [|q qs]; [destruct (Hq eq_refl)|]. cbn [index lookup list_lookup gbind].
  destruct e0 as [e|]; do 4 eexists; (split; [reflexivity|split; [reflexivity|]]); [split; reflexivity|].
  exists u. split; [reflexivity|]. split; [left; reflexivity|]. exists r0, (x_net s), n. auto.
Qed.

Lemma load_balance_post req ups s :
  Question req <> [] -> rtt_ok (x_rtt s) ->
  exists r u err s', load_balance req ups s = Ret (r, u, err, s') /\ rtt_ok (x_rtt s')
    /\ exchange_post req ups r u err.
Proof using clock_monotone take_order_spec.
  intros Hq Hr. destruct ups as [|a [|b ups]].
  2: { destruct (single_post req a s Hq) as (r & u & err & s' & Hx & Hr' & Hp).
       exists r, u, err, s'. rewrite Hr'. auto. }
  all: edestruct (load_balance_total req) as (r & u & err & s' & Hx & Hr' & Hres); [exact Hq|exact Hr| |];
    [|exists r, u, err, s'; split; [exact Hx|]; split; [exact Hr'|]; destruct err as [e|]]; try discriminate.
  all: try (destruct Hres as (l & errs & _ & _ & -> & -> & _); split; reflexivity).
  all: destruct Hres as (l1 & l2 & u0 & errs & s1 & Hp & _ & (n & Hx0 & _) & ->).
  all: exists u0; split; [reflexivity|]; split; [|exists r, (x_net s1), n; auto].
  all: apply list_elem_of_In; rewrite Hp; apply elem_of_app; right; left.
Qed.

Lemma parallel_post req ups n r u err n' :
  ExchangeParallel ex arrival ups req n = (r, u, err, n') -> exchange_post req ups r u err.
Proof using arrival_perm.
  unfold ExchangeParallel. destruct ups as [|a [|b ups]].
  - intros [= <- <- <- <-]. split; reflexivity.
  - unfold exchangeSingle. destruct (ex a req n) as [[r0 [e|]] n1] eqn:Ex; intros [= <- <- <- <-];
      [split; reflexivity|]. exists a. split; [reflexivity|]. split; [left; reflexivity|]. exists r0, n, n1. auto.
  - intros Hx. apply receive_first_spec in Hx. destruct err as [e|].
    + destruct Hx as (errs & _ & -> & -> & _). split; reflexivity.
    + destruct Hx as (l1 & l2 & u0 & m & errs & n1 & Ho & _ & Hx & -> & ->). exists u0.
      split; [reflexivity|]. split; [|exists (Some m), n1, n'; auto].
      apply list_elem_of_In. rewrite <- (arrival_perm (a :: b :: ups) n), Ho. apply elem_of_app. right. left.
Qed.

(** Exchanging in any mode returns, and a response is the answer of one of the
    upstreams. *)
Lemma exchangeUpstreams_post req ups s :
  Question req <> [] -> rtt_ok (x_rtt s) ->
  exists r u err s', exchangeUpstreams req ups s = Ret (r, u, err, s') /\ rtt_ok (x_rtt s')
    /\ exchange_post req ups r u err.
Proof using arrival_perm clock_monotone take_order_spec values_in ping_answers NL.
  intros Hq Hr. unfold exchangeUpstreams. case_bool_decide.
  { destruct (ExchangeParallel ex arrival ups req (x_net s)) as [[[r u] e] n] eqn:Ex.
    do 4 eexists. split; [reflexivity|]. split; [exact Hr|]. eauto using parallel_post. }
  case_bool_decide; [|auto using load_balance_post].
  destruct (Question req) as [|q qs] eqn:Eq; [destruct (Hq eq_refl)|]. rewrite <- Eq in Hq.
  change (index (q :: qs) 0) with (Ret q). cbn [gbind].
  destruct ((Qtype q =? TypeA) || (Qtype q =? TypeAAAA)); [|auto using load_balance_post].
  destruct (ExchangeFastest_total ex arrival values ping req ups (Unix (Now (x_net s))) (x_net s) (x_ip s)
    arrival_perm values_in ping_answers Hq) as (r & u & err & n & g & -> & Hres).
  cbn [gbind]. do 4 eexists. split; [reflexivity|]. split; [exact Hr|].
  destruct err as [e|]; [exact Hres|]. destruct Hres as (u0 & m & n1 & n2 & -> & Hin & Hx & Hr0).
  exists u0. split; [reflexivity|]. split; [exact Hin|]. exists (Some m), n1, n2. split; [exact Hx|].
  destruct Hr0 as [->|(ip & m' & -> & Hm)]; [left; reflexivity|]. right. eauto 6.
Qed.
End LoadBalance.
End Exchange.

Module ExchangeExamples.
Definition req : Msg := FastipExamples.req.
(** The upstream 0 fails after 3 ms, the others answer after 2 ms. *)
Definition ex (u : nat) (m : Msg) (n : Time) : option Msg * option error * Time :=
  match u with
  | O => (None, Some (New "refused"), n + 3 * Millisecond)
  | _ => (Some m, None, n + 2 * Millisecond)
  end.
Definition addr (u : nat) : bytes := str "192.0.2." ++ [48 + Z.of_nat u].
Definition last_first (ws : list Q) (_ : Time) : list nat := rev (seq 0 (length ws)).
Definition start : exchange_state (GC := refGlc) := mkEx [] [] 0.
End ExchangeExamples.

Lemma load_balance_spec_witness :
  exists r u err s', load_balance ExchangeExamples.ex ExchangeExamples.addr (fun n => n)
      ExchangeExamples.last_first ExchangeExamples.req [2; 1; 0]%nat ExchangeExamples.start = Ret (r, u, err, s')
    /\ u = Some 1%nat /\ rtt_get (x_rtt s') (ExchangeExamples.addr 0) = mkRTT 10000000 1
    /\ rtt_get (x_rtt s') (ExchangeExamples.addr 1) = mkRTT 2000 1 /\ rtt_ok (x_rtt s').
Proof.
  destruct (load_balance_spec ExchangeExamples.ex ExchangeExamples.addr (fun n => n)
    ExchangeExamples.last_first) with (req := ExchangeExamples.req) (ups := [2; 1; 0]%nat)
    (s := ExchangeExamples.start) as (r & u & err & s' & Hx & Hr & _).
  - intros ws n _. symmetry. apply Permutation_rev.
  - intros [|u] m n r e n' [= _ _ <-]; unfold Millisecond; lia.
  - discriminate.
  - constructor.
  - discriminate.
  - exists r, u, err, s'. split; [exact Hx|]. vm_compute in Hx. injection Hx as <- <- <- <-.
    split; [reflexivity|]. split; [reflexivity|]. split; [reflexivity|exact Hr].
Defined.
