(* ===== verification/Messages.v ===== *)
(** * Responses the proxy makes itself (internal/dnsmsg/constructor.go)

    The interface [MessageConstructor] with what the rest of the proxy relies
    on, and the default implementation. *)

From S2P Require Import Prelude DnsMsg RefDns.

Class MessageConstructor := {
  NewMsgNXDOMAIN : Msg -> Msg;
  NewMsgSERVFAIL : Msg -> Msg;
  NewMsgNOTIMPLEMENTED : Msg -> Msg;
  NewMsgNODATA : Msg -> go Msg;
  NewMsgFORMERR : Msg -> Msg;
}.

(** [r] is a response to the request [req] with the code [c]. *)
Definition replies (req r : Msg) (c : Z) : Prop :=
  Rcode (Hdr r) = c /\ Id (Hdr r) = Id (Hdr req) /\ Response (Hdr r) = true
  /\ (length (Question req) = 1%nat -> Question r = Question req) /\ Answer r = [].

Class MessageLaws `{MessageConstructor} := {
  nxdomain_replies req : replies req (NewMsgNXDOMAIN req) RcodeNameError;
  servfail_replies req : replies req (NewMsgSERVFAIL req) RcodeServerFailure;
  notimpl_replies req : replies req (NewMsgNOTIMPLEMENTED req) RcodeNotImplemented;
  formerr_replies req : replies req (NewMsgFORMERR req) RcodeFormatError;
  nxdomain_typed req : typed_msg (NewMsgNXDOMAIN req);
  servfail_typed req : typed_msg (NewMsgSERVFAIL req);
}.

Section Default.
Context {DL : DnsLib}.

Definition reply (req : Msg) (code : Z) : Msg :=
  set_RecursionAvailable true (SetRcode empty_msg req code).

Definition maxUDPPayload : Z := 1452.

Definition not_implemented (req : Msg) : Msg :=
  SetEdns0 (reply req RcodeNotImplemented) maxUDPPayload false.

(** The SOA record of a negative answer: the name server, the mailbox and the
    other fields of the record. *)
Definition soa_record (zone : bytes) : RR :=
  let mbox := str "hostmaster." in
  mkRR (mkHdr zone TypeSOA ClassINET 10)
    (RD_SOA (str "fake-for-negative-caching.adguard.com.")
       (if HasPrefix zone (str ".") then mbox else mbox ++ zone) [100500; 1800; 60; 604800; 86400]).

Definition no_data (req : Msg) : go Msg :=
  let resp := reply req RcodeSuccess in
  let! q := index (Question req) 0 in
  Ret (set_Ns (Ns resp ++ [soa_record (QName q)]) resp).

#[export] Instance DefaultMessageConstructor : MessageConstructor := {|
  NewMsgNXDOMAIN req := reply req RcodeNameError;
  NewMsgSERVFAIL req := reply req RcodeServerFailure;
  NewMsgNOTIMPLEMENTED := not_implemented;
  NewMsgNODATA := no_data;
  NewMsgFORMERR req := reply req RcodeFormatError;
|}.

Context {DLaws : DnsLaws}.

Lemma reply_replies req c : replies req (reply req c) c.
Proof using DLaws.
  destruct (setrcode_spec empty_msg req c) as (Hc & Hid & Hr & Hq & Ha & _). unfold replies, reply. cbn. auto 10.
Qed.

Lemma reply_typed req c : typed_msg (reply req c).
Proof using DLaws.
  destruct (setrcode_spec empty_msg req c) as (_ & _ & _ & _ & Ha & Hn & He).
  unfold typed_msg, reply. cbn. rewrite Ha, Hn, He. constructor.
Qed.

#[export] Instance default_laws : MessageLaws.
Proof using DLaws.
  split; intros req; cbn; try apply reply_replies; try apply reply_typed.
  unfold not_implemented. destruct (reply_replies req RcodeNotImplemented) as (Hc & Hid & Hr & Hq & Ha).
  destruct (setedns0_extra (reply req RcodeNotImplemented) maxUDPPayload false) as (o & -> & _).
  unfold replies. cbn. auto 10.
Qed.
End Default.
