(* ===== verification/Stats.v ===== *)
(** * Statistics of a query (proxy/stats.go)

    The wrappers that [upstreamsWithStats] makes are shared objects which
    [Exchange] changes: a wrapper is its position in an arena that holds the
    error and the duration of its last exchange. *)

From S2P Require Import Prelude DnsMsg GlCache Receipt Parallel Fastip Exchange.

Record upstreamWithStats := mkWrapped { ws_id : nat; ws_upstream : Upstream }.

Definition ws_Address (u : upstreamWithStats) : bytes := Address (ws_upstream u).

(** [err] and [queryDuration] of each wrapper. *)
Definition arena := list (option error * Duration).

Fixpoint wrap_from (k : nat) (ups : list Upstream) : list upstreamWithStats :=
  match ups with
  | [] => []
  | u :: ups => mkWrapped k u :: wrap_from (S k) ups
  end.

(** New wrappers, and the arena with their zero values. *)
Definition upstreamsWithStats (ups : list Upstream) (a : arena) : list upstreamWithStats * arena :=
  (wrap_from (length a) ups, a ++ replicate (length ups) (None, 0)).

Section Exchange.
Context {N : Type} (ex : Upstream -> Msg -> N -> option Msg * option error * N) (Now : N -> Time).

(** [upstreamWithStats.Exchange] *)
Definition ws_Exchange (u : upstreamWithStats) (req : Msg) (s : arena * N)
    : option Msg * option error * (arena * N) :=
  let '(a, n) := s in
  let start := Now n in
  let '(resp, err, n) := ex (ws_upstream u) req n in
  (resp, err, (<[ws_id u := (err, Now n - start)]> a, n)).
End Exchange.

Record UpstreamStatistics := mkUS {
  us_Error : option error;
  us_Address : bytes;
  us_QueryDuration : Duration;
  us_IsCached : bool;
}.

Record QueryStatistics := mkQS { qs_main : list UpstreamStatistics; qs_fallback : list UpstreamStatistics }.

Definition cachedQueryStatistics (addr : bytes) : QueryStatistics := mkQS [mkUS None addr 0 true] [].

Definition collectUpstreamStats (a : arena) (ups : list upstreamWithStats) : list UpstreamStatistics :=
  (fun u => let '(err, dur) := default (None, 0) (a !! ws_id u) in mkUS err (ws_Address u) dur false) <$> ups.

Definition collectQueryStats (mode : bytes) (resolver : option upstreamWithStats)
    (upstreams fallbacks : list upstreamWithStats) (a : arena) : option Upstream * QueryStatistics :=
  match resolver with
  | None => (None, mkQS (collectUpstreamStats a upstreams) (collectUpstreamStats a fallbacks))
  | Some wrapped =>
      let unwrapped := Some (ws_upstream wrapped) in
      if bool_decide (mode = UpstreamModeFastestAddr) && (length fallbacks =? 0)%nat
      then (unwrapped, mkQS (collectUpstreamStats a upstreams) [])
      else if (0 <? length fallbacks)%nat
      then (unwrapped, mkQS (collectUpstreamStats a upstreams) (collectUpstreamStats a [wrapped]))
      else (unwrapped, mkQS (collectUpstreamStats a [wrapped]) [])
  end.

(** ** Facts *)

Lemma wrap_from_upstreams ups : forall k, ws_upstream <$> wrap_from k ups = ups.
Proof. induction ups as [|u ups IH]; intros k; cbn; [reflexivity|]. f_equal. apply IH. Qed.

Lemma wrap_from_in ups : forall k u, In u (wrap_from k ups) -> In (ws_upstream u) ups.
Proof. intros k u Hu. rewrite <- (wrap_from_upstreams ups k). apply (in_map ws_upstream), Hu. Qed.

Lemma wrap_from_length ups k : length (wrap_from k ups) = length ups.
Proof. revert k; induction ups; intros k; cbn; auto. Qed.
