(* ===== verification/Context.v ===== *)
(** * The context of a request (proxy/dnscontext.go)

    [DNSContext] with the fields the resolving reads or sets; the connections
    and HTTP objects are only used to write the response.  The theorem about
    [scrub] bounds the size of a response over UDP and shows when it has an OPT
    record. *)

From S2P Require Import Prelude NetIP DnsMsg RefDns GlCache Cache Upstreams Parallel Exchange Stats.

(** [ProtoNone] is the zero value. *)
Inductive Proto := ProtoNone | ProtoUDP | ProtoTCP | ProtoTLS | ProtoHTTPS | ProtoQUIC | ProtoDNSCrypt.

#[export] Instance Proto_eq_dec : EqDecision Proto.
Proof. solve_decision. Defined.

(** [netip.Prefix{}] *)
Definition zero_prefix : Prefix := mkPrefix AddrZero 0.

Definition defaultUDPBufSize : Z := 2048.

Section Context.
Context {DL : DnsLib} {GC : GlCache}.

Record CustomUpstreamConfig := mkCustom {
  cu_upstream : option UpstreamConfig;
  cu_cache : option cache;
}.

Record DNSContext := mkCtx {
  d_Upstream : option Upstream;
  ReqECS : option IPNet;
  d_Custom : option CustomUpstreamConfig;
  queryStatistics : option QueryStatistics;
  Req : option Msg;
  Res : option Msg;
  d_Proto : Proto;
  RequestedPrivateRDNS : Prefix;
  ClientAddr : Addr;
  RequestID : Z;
  udpSize : Z;
  IsPrivateClient : bool;
  adBit : bool;
  hasEDNS0 : bool;
  doBit : bool;
}.

Definition set_ReqECS (v : option IPNet) (d : DNSContext) : DNSContext :=
  mkCtx (d_Upstream d) v (d_Custom d) (queryStatistics d) (Req d) (Res d) (d_Proto d)
    (RequestedPrivateRDNS d) (ClientAddr d) (RequestID d) (udpSize d) (IsPrivateClient d) (adBit d)
    (hasEDNS0 d) (doBit d).
Definition set_Custom (v : option CustomUpstreamConfig) (d : DNSContext) : DNSContext :=
  mkCtx (d_Upstream d) (ReqECS d) v (queryStatistics d) (Req d) (Res d) (d_Proto d)
    (RequestedPrivateRDNS d) (ClientAddr d) (RequestID d) (udpSize d) (IsPrivateClient d) (adBit d)
    (hasEDNS0 d) (doBit d).
Definition set_Upstream (v : option Upstream) (d : DNSContext) : DNSContext :=
  mkCtx v (ReqECS d) (d_Custom d) (queryStatistics d) (Req d) (Res d) (d_Proto d)
    (RequestedPrivateRDNS d) (ClientAddr d) (RequestID d) (udpSize d) (IsPrivateClient d) (adBit d)
    (hasEDNS0 d) (doBit d).
Definition set_stats (v : option QueryStatistics) (d : DNSContext) : DNSContext :=
  mkCtx (d_Upstream d) (ReqECS d) (d_Custom d) v (Req d) (Res d) (d_Proto d)
    (RequestedPrivateRDNS d) (ClientAddr d) (RequestID d) (udpSize d) (IsPrivateClient d) (adBit d)
    (hasEDNS0 d) (doBit d).
Definition set_Req (v : option Msg) (d : DNSContext) : DNSContext :=
  mkCtx (d_Upstream d) (ReqECS d) (d_Custom d) (queryStatistics d) v (Res d) (d_Proto d)
    (RequestedPrivateRDNS d) (ClientAddr d) (RequestID d) (udpSize d) (IsPrivateClient d) (adBit d)
    (hasEDNS0 d) (doBit d).
Definition set_Res (v : option Msg) (d : DNSContext) : DNSContext :=
  mkCtx (d_Upstream d) (ReqECS d) (d_Custom d) (queryStatistics d) (Req d) v (d_Proto d)
    (RequestedPrivateRDNS d) (ClientAddr d) (RequestID d) (udpSize d) (IsPrivateClient d) (adBit d)
    (hasEDNS0 d) (doBit d).
Definition set_RDNS (v : Prefix) (d : DNSContext) : DNSContext :=
  mkCtx (d_Upstream d) (ReqECS d) (d_Custom d) (queryStatistics d) (Req d) (Res d) (d_Proto d)
    v (ClientAddr d) (RequestID d) (udpSize d) (IsPrivateClient d) (adBit d) (hasEDNS0 d) (doBit d).
Definition set_private (v : bool) (d : DNSContext) : DNSContext :=
  mkCtx (d_Upstream d) (ReqECS d) (d_Custom d) (queryStatistics d) (Req d) (Res d) (d_Proto d)
    (RequestedPrivateRDNS d) (ClientAddr d) (RequestID d) (udpSize d) v (adBit d) (hasEDNS0 d) (doBit d).
Definition set_flags (size : Z) (ad edns do_ : bool) (d : DNSContext) : DNSContext :=
  mkCtx (d_Upstream d) (ReqECS d) (d_Custom d) (queryStatistics d) (Req d) (Res d) (d_Proto d)
    (RequestedPrivateRDNS d) (ClientAddr d) (RequestID d) size (IsPrivateClient d) ad edns do_.

(** The zero value but for the fields [newDNSContext] sets; [id] is the value
    of the request counter. *)
Definition newDNSContext (proto : Proto) (req : option Msg) (addr : Addr) (id : Z) : DNSContext :=
  mkCtx None None None None req None proto zero_prefix addr id 0 false false false false.

Definition calcFlagsAndSize (d : DNSContext) : DNSContext :=
  if negb (udpSize d =? 0) then d
  else match Req d with
  | None => d
  | Some req =>
      match opt_of req with
      | Some o => set_flags (UDPSize o) (AuthenticatedData (Hdr req)) true (Do o) d
      | None => set_flags defaultUDPBufSize (AuthenticatedData (Hdr req)) (hasEDNS0 d) (doBit d) d
      end
  end.

Definition dnsSize (isUDP : bool) (r : Msg) : Z :=
  if negb isUDP then MaxMsgSize
  else
    let size16 := match opt_of r with Some o => UDPSize o | None => 0 end in
    Z.max MinMsgSize size16.

Definition scrub (d : DNSContext) : DNSContext :=
  match Res d, Req d with
  | Some res, Some req =>
      let d := calcFlagsAndSize d in
      let res :=
        if hasEDNS0 d && (match IsEdns0 res with None => true | Some _ => false end)
        then SetEdns0 res (udpSize d) (doBit d) else res in
      let res := Truncate res (dnsSize (bool_decide (d_Proto d = ProtoUDP)) req) in
      set_Res (Some (set_Compress true res)) d
  | _, _ => d
  end.

Definition NewCustomUpstreamConfig (u : option UpstreamConfig) (cacheEnabled : bool) (cacheSize : Z)
    (enableEDNSClientSubnet : bool) : CustomUpstreamConfig :=
  mkCustom u
    (if cacheEnabled then Some (newCache (mkCacheConfig cacheSize 0 0 enableEDNSClientSubnet false)) else None).

Definition custom_ClearCache (c : CustomUpstreamConfig) : go CustomUpstreamConfig :=
  match cu_cache c with
  | None => Ret c
  | Some ch =>
      let! ch := clearItems ch in
      let! ch := clearItemsWithSubnet ch in
      Ret (mkCustom (cu_upstream c) (Some ch))
  end.
End Context.

(** ** Facts *)

Section ContextFacts.
Context {DL : DnsLib} {DLaws : DnsLaws} {GC : GlCache}.

(** The flags of the request as the client sent it. *)
Definition flags_of (d : DNSContext) (req : Msg) : Prop :=
  adBit d = AuthenticatedData (Hdr req)
  /\ hasEDNS0 d = (match opt_of req with Some _ => true | None => false end)
  /\ doBit d = msg_do req
  /\ udpSize d = (match opt_of req with Some o => UDPSize o | None => defaultUDPBufSize end).

Lemma calcFlagsAndSize_fresh d req :
  udpSize d = 0 -> hasEDNS0 d = false -> doBit d = false -> Req d = Some req ->
  flags_of (calcFlagsAndSize d) req.
Proof.
  intros Hs He Hd Hr. unfold calcFlagsAndSize, flags_of, msg_do. rewrite Hs, Hr. cbn.
  destruct (opt_of req); cbn; auto.
Qed.

(** Only the flags change. *)
Lemma calcFlagsAndSize_same d :
  Req (calcFlagsAndSize d) = Req d /\ Res (calcFlagsAndSize d) = Res d /\ d_Proto (calcFlagsAndSize d) = d_Proto d
  /\ ReqECS (calcFlagsAndSize d) = ReqECS d /\ d_Custom (calcFlagsAndSize d) = d_Custom d
  /\ RequestedPrivateRDNS (calcFlagsAndSize d) = RequestedPrivateRDNS d
  /\ IsPrivateClient (calcFlagsAndSize d) = IsPrivateClient d
  /\ ClientAddr (calcFlagsAndSize d) = ClientAddr d.
Proof. unfold calcFlagsAndSize. repeat case_goal; auto 10. Qed.

(** [r'] is [r] with some of its records left out, and then truncated. *)
Definition shortened (r r' : Msg) : Prop :=
  Question r' = Question r /\ Rcode (Hdr r') = Rcode (Hdr r)
  /\ Answer r' `sublist_of` Answer r /\ Ns r' `sublist_of` Ns r /\ Extra r' ⊆+ Extra r
  /\ Truncated (Hdr r') = Truncated (Hdr r) || negb (rr_count r' =? rr_count r)%nat.

Lemma truncate_shortened r n : shortened r (set_Compress true (Truncate r n)).
Proof using DLaws.
  destruct (truncate_sub r n) as (Ha & Hn & He). unfold shortened. cbn.
  rewrite truncate_question, truncate_rcode. repeat split; auto. apply truncate_tc.
Qed.

(** The response with the OPT record [scrub] adds to it. *)
Definition with_opt (d : DNSContext) (res : Msg) : Msg :=
  if hasEDNS0 (calcFlagsAndSize d) && (match IsEdns0 res with None => true | Some _ => false end)
  then SetEdns0 res (udpSize (calcFlagsAndSize d)) (doBit (calcFlagsAndSize d)) else res.

Lemma scrub_eq d req res :
  Req d = Some req -> Res d = Some res ->
  scrub d = set_Res (Some (set_Compress true (Truncate (with_opt d res)
              (dnsSize (bool_decide (d_Proto d = ProtoUDP)) req)))) (calcFlagsAndSize d).
Proof.
  intros Hq Hr. unfold scrub, with_opt. rewrite Hq, Hr.
  destruct (calcFlagsAndSize_same d) as (_ & _ & Hp & _). rewrite Hp. reflexivity.
Qed.

Lemma with_opt_spec d res :
  Hdr (with_opt d res) = Hdr res /\ Question (with_opt d res) = Question res
  /\ Answer (with_opt d res) = Answer res /\ Ns (with_opt d res) = Ns res
  /\ if hasEDNS0 (calcFlagsAndSize d) then opt_of (with_opt d res) <> None else with_opt d res = res.
Proof using DLaws.
  unfold with_opt. destruct (hasEDNS0 (calcFlagsAndSize d)); cbn [andb]; [|auto 10].
  destruct (IsEdns0 res) as [i|] eqn:Ei.
  - repeat split. destruct (isedns0_some res i Ei) as (r & Hr & _). unfold opt_of. rewrite Ei. cbn. congruence.
  - destruct (setedns0_extra res (udpSize (calcFlagsAndSize d)) (doBit (calcFlagsAndSize d)))
      as (o & -> & Ht & _). repeat split.
    rewrite (opt_of_append res (set_Extra (Extra res ++ [o]) res) o Ei Ht eq_refl). discriminate.
Qed.

(** The response [scrub] leaves in the context is the given one with an OPT
    record if the request had one, compressed, and shortened to what the client
    takes: over UDP a packed response has at most the size of the OPT record of
    the request, or 512 bytes without one, and over the other protocols 65535;
    TC is set when a record had to be left out; and no OPT record is added if
    the request had none. *)
Theorem scrub_spec (d : DNSContext) (req res : Msg) (Hq : Req d = Some req) (Hr : Res d = Some res) :
  exists r r', Res (scrub d) = Some r' /\ shortened r r' /\ Compress r' = true
    /\ Hdr r = Hdr res /\ Question r = Question res /\ Answer r = Answer res /\ Ns r = Ns res
    /\ (if hasEDNS0 (calcFlagsAndSize d) then opt_of r <> None else r = res)
    /\ forall b, Pack r' = Ok b ->
         len b <= if bool_decide (d_Proto d = ProtoUDP)
                  then Z.max 512 (match opt_of req with Some o => UDPSize o | None => 512 end) else 65535.
Proof using DLaws.
  destruct (with_opt_spec d res) as (Hh & Hqu & Ha & Hn & Ho).
  rewrite (scrub_eq d req res Hq Hr). cbn [Res set_Res].
  exists (with_opt d res). eexists. split; [reflexivity|]. split; [apply truncate_shortened|].
  split; [reflexivity|]. repeat split; auto. intros b Hb. apply truncate_size in Hb. revert Hb.
  unfold dnsSize, MinMsgSize, MaxMsgSize. destruct (bool_decide _); cbn [negb]; [|lia].
  destruct (opt_of req); lia.
Qed.
End ContextFacts.

Lemma scrub_spec_witness :
  let q := mkMsg (mkMsgHdr 1 false 0 false false true false false false false 0) false [mkQ (str "a.") 1 1] [] []
             [mkRR (mkHdr (str ".") TypeOPT 1400 0) (RD_OPT [])] in
  let d := set_Res (Some (SetRcode empty_msg q 0)) (newDNSContext ProtoUDP (Some q) (Addr4 [192; 0; 2; 1]) 1) in
  exists r r', Res (scrub d) = Some r' /\ shortened r r' /\ opt_of r <> None
    /\ forall b, Pack r' = Ok b -> len b <= 1400.
Proof.
  intros q d. destruct (scrub_spec d q (SetRcode empty_msg q 0) eq_refl eq_refl)
    as (r & r' & Hr & Hs & _ & _ & _ & _ & _ & Ho & Hb).
  exists r, r'. split; [exact Hr|]. split; [exact Hs|]. split; [exact Ho|]. exact Hb.
Defined.
