(* ===== verification/Recursion.v ===== *)
(** * Detection of recursion (proxy/recursiondetector.go)

    Requests sent to private upstreams are remembered for a short time; a
    request that comes back is recognised by its signature.  The theorem shows
    that only such requests are recognised. *)

From S2P Require Import Prelude NetIP DnsMsg RefDns GlCache NetUtil.

Definition uint16sz : nat := 2.
Definition uint64sz : nat := 8.
Definition recursionTTL : Duration := 1 * Second.
Definition cachedRecurrentReqNum : Z := 1000.

Section Recursion.
Context {GC : GlCache} {NU : NetUtil}.

Record recursionDetector := mkRD { recentRequests : glc; rd_ttl : Duration }.

Definition msgToSignature (msg : Msg) : go bytes :=
  let sig := make_bytes (uint16sz * 2 + MaxDomainNameLen) in
  let sig := copy_at 0 (be_put 2 (Id (Hdr msg))) sig in
  let! q := index (Question msg) 0 in
  let sig := copy_at uint16sz (be_put 2 (Qtype q)) sig in
  Ret (copy_at (2 * uint16sz) (QName q) sig).

(** [binary.BigEndian.Uint64], which panics on less than eight bytes. *)
Definition Uint64 (b : bytes) : go Z :=
  if (length b <? 8)%nat then Panic else Ret (be_get (take 8 b)).

Definition check (rd : recursionDetector) (now : Time) (msg : Msg) : go (bool * recursionDetector) :=
  match Question msg with
  | [] => Ret (false, rd)
  | _ =>
      let! key := msgToSignature msg in
      let '(expireData, g) := glc_Get (recentRequests rd) key in
      let rd := mkRD g (rd_ttl rd) in
      match expireData with
      | None => Ret (false, rd)
      | Some data =>
          let! v := Uint64 data in
          let expire := int64 v in
          Ret (now <? expire, rd)
      end
  end.

Definition add (rd : recursionDetector) (now : Time) (msg : Msg) : go recursionDetector :=
  match Question msg with
  | [] => Ret rd
  | _ =>
      let! key := msgToSignature msg in
      let expire64 := uint64 (now + rd_ttl rd) in
      Ret (mkRD (glc_Set (recentRequests rd) key (be_put uint64sz expire64)) (rd_ttl rd))
  end.

Definition clear (rd : recursionDetector) : recursionDetector :=
  mkRD (glc_Clear (recentRequests rd)) (rd_ttl rd).

Definition newRecursionDetector (ttl : Duration) (suspectsNum : Z) : recursionDetector :=
  mkRD (glc_New suspectsNum true) ttl.

(** ** Facts *)

(** The part of a request that its signature keeps. *)
Definition sig_name (name : bytes) : bytes :=
  let n := take MaxDomainNameLen name in n ++ replicate (MaxDomainNameLen - length n) 0.

Definition same_signature (m m' : Msg) : Prop :=
  Id (Hdr m) = Id (Hdr m')
  /\ exists q qs q' qs', Question m = q :: qs /\ Question m' = q' :: qs'
       /\ Qtype q = Qtype q' /\ sig_name (QName q) = sig_name (QName q').

Lemma msgToSignature_eq m q qs :
  Question m = q :: qs ->
  msgToSignature m = Ret (be_put 2 (Id (Hdr m)) ++ be_put 2 (Qtype q) ++ sig_name (QName q)).
Proof.
  intros Hq. unfold msgToSignature, index. rewrite Hq. cbn [lookup list_lookup gbind]. f_equal.
  unfold make_bytes, uint16sz, sig_name. cbn [Nat.mul Nat.add].
  set (M := MaxDomainNameLen). unfold copy_at.
  generalize (be_put_length 2 (Id (Hdr m))), (be_put_length 2 (Qtype q)).
  destruct (be_put 2 (Id (Hdr m))) as [|a [|b [|]]]; try discriminate.
  destruct (be_put 2 (Qtype q)) as [|c [|d [|]]]; try discriminate. intros _ _. cbn.
  rewrite !length_replicate, !Nat.sub_0_r, ?take_nil, ?drop_0. cbn [app].
  rewrite !length_replicate, ?Nat.sub_0_r, ?take_0. cbn [app]. do 4 f_equal.
  rewrite drop_replicate. do 2 f_equal. rewrite length_take. lia.
Qed.

Definition u16_msg (m : Msg) : Prop :=
  0 <= Id (Hdr m) <= MaxUint16 /\ Forall (fun q => 0 <= Qtype q <= MaxUint16) (Question m).

Lemma msgToSignature_inj m m' k :
  u16_msg m -> u16_msg m' -> msgToSignature m = Ret k -> msgToSignature m' = Ret k -> same_signature m m'.
Proof.
  intros [Hi Hf] [Hi' Hf'] Hm Hm'.
  destruct (Question m) as [|q qs] eqn:Eq; [unfold msgToSignature in Hm; rewrite Eq in Hm; discriminate|].
  destruct (Question m') as [|q' qs'] eqn:Eq'; [unfold msgToSignature in Hm'; rewrite Eq' in Hm'; discriminate|].
  rewrite (msgToSignature_eq m q qs Eq) in Hm. rewrite (msgToSignature_eq m' q' qs' Eq') in Hm'.
  assert (He : be_put 2 (Id (Hdr m)) ++ be_put 2 (Qtype q) ++ sig_name (QName q)
    = be_put 2 (Id (Hdr m')) ++ be_put 2 (Qtype q') ++ sig_name (QName q')) by congruence.
  apply app_inj_1 in He as [H1 He]; [|rewrite !be_put_length; reflexivity].
  apply app_inj_1 in He as [H2 He]; [|rewrite !be_put_length; reflexivity].
  apply Forall_cons_1 in Hf as [Hf _]. apply Forall_cons_1 in Hf' as [Hf' _].
  unfold MaxUint16 in *. apply be_put_inj in H1; [|change (256 ^ Z.of_nat 2) with 65536; lia..].
  apply be_put_inj in H2; [|change (256 ^ Z.of_nat 2) with 65536; lia..].
  split; [exact H1|]. exists q, qs, q', qs'. auto.
Qed.

(** ** Runs *)

Inductive rd_op := RAdd (now : Time) (msg : Msg) | RCheck (now : Time) (msg : Msg) | RClear.

Definition rd_apply (o : rd_op) (rd : recursionDetector) : go recursionDetector :=
  match o with
  | RAdd now msg => add rd now msg
  | RCheck now msg => let! (_, rd) := check rd now msg in Ret rd
  | RClear => Ret (clear rd)
  end.

(** The states of a detector, with its operations in reverse order. *)
Inductive rd_run (ttl : Duration) (n : Z) : list rd_op -> recursionDetector -> Prop :=
  | rd_new : rd_run ttl n [] (newRecursionDetector ttl n)
  | rd_step h rd o rd' : rd_run ttl n h rd -> rd_apply o rd = Ret rd' -> rd_run ttl n (o :: h) rd'.

Context {GLaws : GlCacheLaws}.

Definition remembered (ttl : Duration) (h : list rd_op) (k v : bytes) : Prop :=
  exists now msg, In (RAdd now msg) h /\ msgToSignature msg = Ret k /\ v = be_put uint64sz (uint64 (now + ttl)).

Lemma remembered_cons ttl h o k v : remembered ttl h k v -> remembered ttl (o :: h) k v.
Proof. intros (now & msg & Hin & Hr). exists now, msg. split; [right; exact Hin|exact Hr]. Qed.

Lemma rd_run_inv ttl n h rd : rd_run ttl n h rd ->
  rd_ttl rd = ttl /\ forall k v, glc_find (recentRequests rd) k = Some v -> remembered ttl h k v.
Proof using GLaws.
  induction 1 as [|h rd o rd' Hr [Ht IH] Ho].
  { split; [reflexivity|]. intros k v. cbn. rewrite find_New. discriminate. }
  destruct o as [now msg|now msg|]; cbn [rd_apply] in Ho.
  - unfold add in Ho. destruct (Question msg) eqn:Eq; [injection Ho as <-; eauto using remembered_cons|].
    inv_bind Ho. injection Ho as <-. split; [exact Ht|]. cbn [recentRequests]. intros k v Hf.
    apply find_Set in Hf as [[-> ->]|Hf]; [|eauto using remembered_cons].
    exists now, msg. rewrite Ht. repeat split; auto. left. reflexivity.
  - inv_bind Ho. destruct a as [b rd1]. injection Ho as <-. unfold check in E.
    destruct (Question msg); [injection E as _ <-; eauto using remembered_cons|].
    inv_bind E. destruct (glc_Get (recentRequests rd) a) as [d g] eqn:Eg.
    assert (Hg : forall k v, glc_find g k = Some v -> remembered ttl (RCheck now msg :: h) k v).
    { intros k v Hf. apply remembered_cons, IH. rewrite <- (find_Get (recentRequests rd) a k), Eg. exact Hf. }
    destruct d as [data|]; [inv_bind E|]; injection E as _ <-; auto.
  - injection Ho as <-. split; [exact Ht|]. cbn. intros k v. rewrite find_Clear. discriminate.
Qed.

(** What a lookup finds. *)
Lemma check_eq ttl n h rd now msg k :
  rd_run ttl n h rd -> msgToSignature msg = Ret k ->
  exists rd', check rd now msg = Ret
    (match glc_find (recentRequests rd) k with Some v => now <? int64 (be_get v) | None => false end, rd').
Proof using GLaws.
  intros Hr Hk. unfold check. destruct (Question msg) as [|q qs] eqn:Eq.
  { unfold msgToSignature in Hk. rewrite Eq in Hk. discriminate. }
  rewrite Hk. cbn [gbind]. destruct (glc_Get (recentRequests rd) k) as [d g] eqn:Eg.
  pose proof (Get_find (recentRequests rd) k) as Hd. rewrite Eg in Hd. cbn in Hd. rewrite <- Hd.
  destruct d as [v|]; [|eauto]. destruct (rd_run_inv _ _ _ _ Hr) as [_ Hi].
  destruct (Hi k v (eq_sym Hd)) as (t & m & _ & _ & ->). unfold Uint64.
  rewrite be_put_length, take_ge by (rewrite be_put_length; unfold uint64sz; lia). cbn [Nat.ltb Nat.leb uint64sz gbind]. eauto.
Qed.

(** A detector that only its operations changed. *)
Definition rec_ok (rd : recursionDetector) : Prop := exists ttl n h, rd_run ttl n h rd.

Lemma rec_ok_new ttl n : rec_ok (newRecursionDetector ttl n).
Proof. exists ttl, n, []. constructor. Qed.

Lemma check_total rd now msg : rec_ok rd -> exists b rd', check rd now msg = Ret (b, rd') /\ rec_ok rd'.
Proof using GLaws.
  intros (ttl & n & h & Hr). assert (Hc : exists b rd', check rd now msg = Ret (b, rd')).
  { destruct (Question msg) as [|q qs] eqn:Eq; [unfold check; rewrite Eq; eauto|].
    destruct (check_eq _ _ _ _ now msg _ Hr (msgToSignature_eq msg q qs Eq)) as [rd' ->]. eauto. }
  destruct Hc as (b & rd' & Hc). exists b, rd'. split; [exact Hc|]. exists ttl, n, (RCheck now msg :: h).
  eapply rd_step; [exact Hr|]. cbn. rewrite Hc. reflexivity.
Qed.

Lemma add_total rd now msg : rec_ok rd -> exists rd', add rd now msg = Ret rd' /\ rec_ok rd'.
Proof.
  intros (ttl & n & h & Hr). assert (Ha : exists rd', add rd now msg = Ret rd').
  { unfold add. destruct (Question msg) as [|q qs] eqn:E; [eauto|]. rewrite (msgToSignature_eq msg q qs E). cbn. eauto. }
  destruct Ha as [rd' Ha]. exists rd'. split; [exact Ha|]. exists ttl, n, (RAdd now msg :: h).
  eapply rd_step; [exact Hr|exact Ha].
Qed.

(** After any sequence of operations on a recursion detector, looking up a
    request with a question does not panic, and it is reported exactly if a
    request with the same identifier, type and name (as far as the signature
    keeps it) was added before, is still stored, and its time is not over. *)
Theorem check_spec (ttl : Duration) (n : Z) (h : list rd_op) (rd : recursionDetector) (now : Time) (msg : Msg)
    (Hr : rd_run ttl n h rd) (Hm : u16_msg msg) (Hq : Question msg <> [])
    (Hadd : forall t m, In (RAdd t m) h -> u16_msg m /\ - 2 ^ 63 <= t + ttl < 2 ^ 63) :
  exists b rd', check rd now msg = Ret (b, rd')
    /\ (b = true <-> exists t m, In (RAdd t m) h /\ same_signature m msg /\ now < t + ttl
          /\ forall k, msgToSignature m = Ret k ->
               glc_find (recentRequests rd) k = Some (be_put uint64sz (uint64 (t + ttl)))).
Proof using GLaws.
  destruct (Question msg) as [|q qs] eqn:Eq; [destruct (Hq eq_refl)|].
  pose proof (msgToSignature_eq msg q qs Eq) as Hk.
  destruct (check_eq ttl n h rd now msg _ Hr Hk) as [rd' Hc].
  eexists _, rd'. split; [exact Hc|].
  assert (Hval : forall t m, In (RAdd t m) h -> int64 (be_get (be_put uint64sz (uint64 (t + ttl)))) = t + ttl).
  { intros t m Hin. unfold uint64sz. rewrite be_get_put_small; [apply int64_uint64; eapply Hadd, Hin|].
    unfold uint64. change (256 ^ Z.of_nat 8) with (2 ^ 64). apply Z.mod_pos_bound. lia. }
  split.
  - destruct (glc_find _ _) as [v|] eqn:Ef; [|discriminate]. intros Hlt%Z.ltb_lt.
    destruct (rd_run_inv _ _ _ _ Hr) as [_ Hi]. destruct (Hi _ _ Ef) as (t & m & Hin & Hs & ->).
    rewrite (Hval t m Hin) in Hlt. exists t, m. split; [exact Hin|].
    split; [|split; [exact Hlt|]].
    + eapply msgToSignature_inj; [apply (Hadd t m Hin)|exact Hm|exact Hs|exact Hk].
    + intros k Hk'. rewrite Hs in Hk'. injection Hk' as <-. exact Ef.
  - intros (t & m & Hin & (Hid & q1 & qs1 & q2 & qs2 & Hq1 & Hq2 & Ht & Hn) & Hlt & Hst).
    rewrite Eq in Hq2. injection Hq2 as <- <-.
    pose proof (msgToSignature_eq m q1 qs1 Hq1) as Hk1. rewrite Hid, Ht, Hn in Hk1.
    rewrite (Hst _ Hk1), (Hval t m Hin). apply Z.ltb_lt. exact Hlt.
Qed.
End Recursion.

Lemma check_spec_witness :
  let m := mkMsg (mkMsgHdr 7 false 0 false false true false false false false 0) false [mkQ (str "a.") 12 1] [] [] [] in
  let h := [RAdd 5 m] in
  let rd := match rd_apply (RAdd 5 m) (newRecursionDetector 100 10) with Ret rd => rd | Panic => newRecursionDetector 0 0 end in
  exists b rd', check rd 104 m = Ret (b, rd')
    /\ (b = true <-> exists t m', In (RAdd t m') h /\ same_signature m' m /\ 104 < t + 100
          /\ forall k, msgToSignature m' = Ret k ->
               glc_find (recentRequests rd) k = Some (be_put uint64sz (uint64 (t + 100)))).
Proof.
  intros m h rd. apply (check_spec 100 10 h rd 104 m).
  - apply (rd_step _ _ [] (newRecursionDetector 100 10)); [constructor|reflexivity].
  - split; [cbn; unfold MaxUint16; lia|]. constructor; [|constructor]. cbn. unfold MaxUint16. lia.
  - discriminate.
  - intros t m' [[= <- <-]|[]]. split; [|lia]. split; [cbn; unfold MaxUint16; lia|].
    constructor; [|constructor]. cbn. unfold MaxUint16. lia.
Defined.
