(* ===== verification/ProxyCache.v ===== *)
(** * The cache as the proxy uses it (proxy/proxycache.go, [processECS] and
      [cacheWorks] of proxy/proxy.go)

    Which cache a request uses, looking it up, storing the response for the
    scope the upstream gave it, and the subnet sent to upstreams. *)

From S2P Require Import Prelude NetIP DnsMsg RefDns GlCache NetUtil Cache CacheFacts CacheSpec Ecs Upstreams.
From S2P Require Import Parallel Exchange Stats Context.

Section ProxyCache.
Context {DL : DnsLib} {GC : GlCache} {NU : NetUtil}.
(** The setting [p.enableEDNSClientSubnet]. *)
Context (enableEDNSClientSubnet : bool).

(** [pc] is [p.cache]. *)
Definition cacheForContext (pc : option cache) (d : DNSContext) : option cache :=
  match d_Custom d with
  | Some cu => match cu_cache cu with Some c => Some c | None => pc end
  | None => pc
  end.

(** The changed cache in its place. *)
Definition put_cache (c : cache) (pc : option cache) (d : DNSContext) : option cache * DNSContext :=
  match d_Custom d with
  | Some cu =>
      match cu_cache cu with
      | Some _ => (pc, set_Custom (Some (mkCustom (cu_upstream cu) (Some c))) d)
      | None => (Some c, d)
      end
  | None => (Some c, d)
  end.

Definition cloneIPNet (n : option IPNet) : option IPNet :=
  match n with
  | None => None
  | Some n => Some (mkIPNet (IPNet_IP n) (IPNet_Mask n))
  end.

(** The reduced clone that the optimistic resolver works on. *)
Definition minCtxClone (d : DNSContext) : DNSContext :=
  mkCtx None (cloneIPNet (ReqECS d)) (d_Custom d) None (Req d) None ProtoNone zero_prefix AddrZero 0 0
    (IsPrivateClient d) false false false.

(** Whether the response comes from the cache, the context and the cache after
    the lookup, and the context and key of the background refresh, if one is
    started. *)
Definition replyFromCache (pc : option cache) (now : Time) (d : DNSContext)
    : go (bool * DNSContext * option cache * option (DNSContext * bytes)) :=
  let! c := deref (cacheForContext pc d) in
  let! (lk, c') :=
    match enableEDNSClientSubnet, ReqECS d with
    | true, Some ecs => getWithSubnet c now (Req d) (Some ecs)
    | _, _ => get c now (Req d)
    end in
  let '(pc, d) := put_cache c' pc d in
  match lk_item lk with
  | None => Ret (false, d, pc, None)
  | Some ci =>
      let d := set_stats (Some (cachedQueryStatistics (ci_u ci))) (set_Res (Some (ci_m ci)) d) in
      let refresh := if optimistic c && lk_expired lk then Some (minCtxClone d, default [] (lk_key lk)) else None in
      Ret (true, d, pc, refresh)
  end.

Definition cacheResp (pc : option cache) (now : Time) (d : DNSContext) : go (option cache * DNSContext) :=
  let! c := deref (cacheForContext pc d) in
  let! req := deref (Req d) in
  let! c' :=
    if negb enableEDNSClientSubnet then set c now req (Res d) (d_Upstream d)
    else
      let! res := deref (Res d) in
      match ecsFromMsg res, ReqECS d with
      | Some (ecs, scope), Some reqECS =>
          let '(ones, bits) := Mask_Size (IPNet_Mask ecs) in
          let '(reqOnes, _) := Mask_Size (IPNet_Mask reqECS) in
          if negb (IP_Equal (IP_Mask (IPNet_IP ecs) (IPNet_Mask ecs))
                     (IP_Mask (IPNet_IP reqECS) (IPNet_Mask reqECS)))
             || negb (ones =? reqOnes)
          then Ret c
          else
            let ecs :=
              if scope <? reqOnes then
                let mask := CIDRMask scope bits in mkIPNet (IP_Mask (IPNet_IP ecs) mask) mask
              else ecs in
            setWithSubnet c now req (Res d) (d_Upstream d) (Some ecs)
      | None, Some _ => setWithSubnet c now req (Res d) (d_Upstream d) (Some (mkIPNet None None))
      | _, None => set c now req (Res d) (d_Upstream d)
      end in
  Ret (put_cache c' pc d).

Definition ClearCache (pc : option cache) : go (option cache) :=
  match pc with
  | None => Ret None
  | Some c =>
      let! c := clearItems c in
      let! c := clearItemsWithSubnet c in
      Ret (Some c)
  end.

Definition cacheWorks (pc : option cache) (d : DNSContext) : go bool :=
  let custom_cache := match d_Custom d with Some cu => cu_cache cu | None => None end in
  match d_Custom d, custom_cache with
  | Some _, None => Ret false
  | _, _ =>
      match pc, custom_cache with
      | None, None => Ret false
      | _, _ =>
          if negb (bool_decide (RequestedPrivateRDNS d = zero_prefix)) then Ret false
          else let! req := deref (Req d) in Ret (negb (CheckingDisabled (Hdr req)))
      end
  end.

(** [cliIP] is [p.ednsAddr]. *)
Definition processECS (cliIP : IP) (d : DNSContext) : go DNSContext :=
  let! req := deref (Req d) in
  let pass :=
    match ecsFromMsg req with
    | Some (ecs, _) => if negb (fst (Mask_Size (IPNet_Mask ecs)) =? 0) then Some ecs else None
    | None => None
    end in
  match pass with
  | Some ecs => Ret (set_ReqECS (Some ecs) d)
  | None =>
      let '(cliAddr, cliIP) :=
        match cliIP with
        | None => (ClientAddr d, AsSlice (ClientAddr d))
        | Some b => (AddrFromSlice b, cliIP)
        end in
      if negb (IsSpecialPurpose cliAddr) then
        let '(subnet, req) := setECS req cliIP 0 in
        Ret (set_ReqECS (Some subnet) (set_Req (Some req) d))
      else Ret d
  end.
End ProxyCache.

(** ** Facts *)

(** [net] is the network of the first [m] bits of [a]. *)
Definition denotes (net : IPNet) (a : bytes) (m : Z) : Prop :=
  IPNet_Mask net = CIDRMask m (8 * len a) /\ length (slice (IPNet_IP net)) = length a
  /\ mask_bytes (slice (IPNet_IP net)) m = mask_bytes a m.

Definition ip_length (a : bytes) : Prop := length a = 4%nat \/ length a = 16%nat.

Section ProxyCacheFacts.
Context {DL : DnsLib} {DLaws : DnsLaws} {GC : GlCache} {NU : NetUtil}.

Lemma IP_Equal_same_length a b :
  length a = length b -> IP_Equal (Some a) (Some b) = bool_decide (a = b).
Proof. intros Hl. unfold IP_Equal. rewrite !slice_Some, Hl, Nat.eqb_refl. reflexivity. Qed.

Lemma CIDRMask_ip a n :
  ip_length a -> 0 <= n <= 8 * len a -> CIDRMask n (8 * len a) = Some (cidr_loop (length a) n).
Proof. intros Hl Hn. apply CIDRMask_slice; [exact Hl|exact Hn]. Qed.

Lemma Mask_Size_ip a n :
  ip_length a -> 0 <= n <= 8 * len a -> Mask_Size (CIDRMask n (8 * len a)) = (n, 8 * len a).
Proof. intros Hl Hn. apply Mask_Size_CIDR; [|exact Hn]. destruct Hl as [-> | ->]; auto. Qed.

(** A response is cached only for the network its upstream answered for.
    With client subnets on, for a request with the subnet [a/n] whose response
    has a subnet option of the same family, the response is stored for the
    network of the first [min scope n] bits of [a], if the option repeats the
    subnet of the request, and is not stored at all otherwise. *)
Theorem cacheResp_scope (pc : option cache) (now : Time) (d : DNSContext) (c : cache) (req res : Msg)
    (a a' : bytes) (n n' scope : Z)
    (Hc : cacheForContext pc d = Some c) (Hreq : Req d = Some req) (Hres : Res d = Some res)
    (Hecs : ReqECS d = Some (mkIPNet (Some a) (CIDRMask n (8 * len a))))
    (Hopt : ecsFromMsg res = Some (mkIPNet (Some a') (CIDRMask n' (8 * len a')), scope))
    (Ha : ip_length a) (Ha' : length a' = length a) (Hw : wf_bytes a) (Hw' : wf_bytes a')
    (Hn : 0 <= n <= 8 * len a) (Hn' : 0 <= n' <= 8 * len a) (Hs : 0 <= scope) :
  if bool_decide (mask_bytes a' n' = mask_bytes a n /\ n' = n)
  then exists net, denotes net a (Z.min scope n)
       /\ cacheResp true pc now d
          = let! c' := setWithSubnet c now req (Some res) (d_Upstream d) (Some net) in Ret (put_cache c' pc d)
  else cacheResp true pc now d = Ret (put_cache c pc d).
Proof.
  unfold cacheResp. rewrite Hc, Hreq, Hres. cbn [deref gbind negb]. rewrite Hopt, Hecs. cbn [IPNet_IP IPNet_Mask].
  assert (Hl' : ip_length a') by (unfold ip_length; rewrite Ha'; exact Ha).
  rewrite (Mask_Size_ip a n), (Mask_Size_ip a' n') by (auto; rewrite ?Ha'; auto).
  rewrite !IP_Mask_cidr_eq by (auto; rewrite ?Ha'; auto).
  rewrite IP_Equal_same_length by (rewrite !mask_bytes_length; exact Ha').
  destruct (bool_decide_reflect (mask_bytes a' n' = mask_bytes a n)) as [He|He]; cbn [negb orb].
  2: { rewrite bool_decide_false by tauto. reflexivity. }
  destruct (Z.eqb_spec n' n) as [->|Hne]; cbn [negb].
  2: { rewrite bool_decide_false by tauto. reflexivity. }
  rewrite bool_decide_true by tauto. destruct (Z.ltb_spec scope n) as [Hlt|Hge].
  - rewrite Z.min_l by lia. eexists. split; [|reflexivity]. cbn [IPNet_IP IPNet_Mask].
    rewrite IP_Mask_cidr_eq by (auto; rewrite ?Ha'; lia). unfold denotes. cbn [IPNet_IP IPNet_Mask].
    rewrite slice_Some, mask_bytes_length, Ha'. split; [reflexivity|]. split; [reflexivity|].
    rewrite mask_bytes_twice by (auto; lia). rewrite <- (mask_bytes_twice a' n scope), He by (auto; lia).
    apply mask_bytes_twice; auto; lia.
  - rewrite Z.min_r by lia. eexists. split; [|reflexivity]. unfold denotes. cbn [IPNet_IP IPNet_Mask].
    rewrite slice_Some, Ha'. auto.
Qed.

(** The context with another client. *)
Definition with_client (a : Addr) (d : DNSContext) : DNSContext :=
  mkCtx (d_Upstream d) (ReqECS d) (d_Custom d) (queryStatistics d) (Req d) (Res d) (d_Proto d)
    (RequestedPrivateRDNS d) a (RequestID d) (udpSize d) (IsPrivateClient d) (adBit d) (hasEDNS0 d) (doBit d).

(** Two addresses in the same network: the first 24 bits of IPv4 addresses and
    the first 56 bits of IPv6 addresses. *)
Definition same_network (a1 a2 : Addr) : Prop :=
  wf_ip (AsSlice a1) /\ wf_ip (AsSlice a2)
  /\ let '(b1, n1) := ecs_prefix (AsSlice a1) in
     let '(b2, n2) := ecs_prefix (AsSlice a2) in
     n1 = n2 /\ mask_bytes b1 n1 = mask_bytes b2 n2.

(** [setECS] in terms of the bits it sends. *)
Lemma setECS_eq m ip scope :
  wf_ip ip ->
  let '(b, n) := ecs_prefix ip in
  setECS m ip scope
  = (mkIPNet (Some (mask_bytes b n)) (CIDRMask n (8 * len b)),
     insert_option (EDNS0_SUBNET EDNS0SUBNET (if n =? 24 then 1 else 2) n scope (Some (mask_bytes b n))) m).
Proof.
  intros [Hw Hl]. unfold setECS, ecs_prefix, defaultECSv4, defaultECSv6, IPv4BitLen, IPv6BitLen.
  destruct (To4 ip) as [ip4|] eqn:E4.
  - pose proof (To4_Some_length _ _ E4) as H4. change 32 with (8 * Z.of_nat 4).
    rewrite <- H4, IP_Mask_cidr_eq by lia. reflexivity.
  - destruct ip as [b|]; [|cbn in Hl; lia]. rewrite slice_Some in *.
    assert (length b = 16%nat) as H16.
    { unfold To4 in E4. rewrite slice_Some in E4. destruct Hl as [Hl|Hl]; [|exact Hl]. rewrite Hl in E4. discriminate. }
    change 128 with (8 * Z.of_nat 16). rewrite <- H16, IP_Mask_cidr_eq by lia. reflexivity.
Qed.

Lemma setECS_network m scope a1 a2 :
  same_network a1 a2 -> setECS m (AsSlice a1) scope = setECS m (AsSlice a2) scope.
Proof.
  intros (H1 & H2 & He). pose proof (setECS_eq m _ scope H1) as E1. pose proof (setECS_eq m _ scope H2) as E2.
  assert (Hlen : forall ip b n, wf_ip ip -> ecs_prefix ip = (b, n) -> len b = if n =? 24 then 4 else 16).
  { intros ip b n [_ Hl]. unfold ecs_prefix. destruct (To4 ip) as [ip4|] eqn:E4; intros [= <- <-]; cbn.
    - rewrite (To4_Some_length _ _ E4). reflexivity.
    - unfold To4 in E4. destruct Hl as [Hl|Hl]; rewrite Hl in *; [|reflexivity].
      cbn in E4. subst ip. discriminate Hl. }
  pose proof (Hlen (AsSlice a1)) as L1. pose proof (Hlen (AsSlice a2)) as L2.
  destruct (ecs_prefix (AsSlice a1)) as [b1 n1], (ecs_prefix (AsSlice a2)) as [b2 n2].
  destruct He as [<- Hm]. rewrite E1, E2, Hm, (L1 b1 n1 H1 eq_refl), (L2 b2 n1 H2 eq_refl). reflexivity.
Qed.

(** What the proxy sends upstream about the client tells nothing but its
    network: the request and the subnet after [processECS] are the same for any
    two client addresses in the same /24 (IPv4) or /56 (IPv6) that are not
    special-purpose, and for a special-purpose address, or when the client gave
    a subnet of its own, the request is not changed at all. *)
Theorem processECS_discloses_network (d : DNSContext) (req : Msg) (a1 a2 : Addr)
    (Hreq : Req d = Some req) (Hn : same_network a1 a2)
    (Hs : IsSpecialPurpose a1 = IsSpecialPurpose a2) :
  exists d1 d2, processECS None (with_client a1 d) = Ret d1 /\ processECS None (with_client a2 d) = Ret d2
    /\ Req d1 = Req d2 /\ ReqECS d1 = ReqECS d2
    /\ (IsSpecialPurpose a1 = true \/ (exists ecs s, ecsFromMsg req = Some (ecs, s) /\ fst (Mask_Size (IPNet_Mask ecs)) <> 0)
        -> Req d1 = Some req).
Proof.
  unfold processECS. cbn [with_client Req ClientAddr]. rewrite Hreq. cbn [deref gbind].
  destruct (ecsFromMsg req) as [[ecs s]|].
  - destruct (Z.eqb_spec (fst (Mask_Size (IPNet_Mask ecs))) 0) as [Hz|Hz]; cbn [negb].
    + rewrite <- Hs, (setECS_network req 0 a1 a2 Hn). destruct (IsSpecialPurpose a1); cbn [negb].
      * do 2 eexists. do 2 (split; [reflexivity|]). cbn. rewrite Hreq. auto.
      * destruct (setECS req (AsSlice a2) 0) as [subnet req'].
        do 2 eexists. do 2 (split; [reflexivity|]). cbn. split; [reflexivity|]. split; [reflexivity|].
        intros [|(ecs' & s' & [= <- <-] & ?)]; [discriminate|contradiction].
    + do 2 eexists. do 2 (split; [reflexivity|]). cbn. auto.
  - rewrite <- Hs, (setECS_network req 0 a1 a2 Hn). destruct (IsSpecialPurpose a1); cbn [negb].
    + do 2 eexists. do 2 (split; [reflexivity|]). cbn. auto.
    + destruct (setECS req (AsSlice a2) 0) as [subnet req'].
      do 2 eexists. do 2 (split; [reflexivity|]). cbn. split; [reflexivity|]. split; [reflexivity|].
      intros [|(ecs' & s' & ? & _)]; discriminate.
Qed.
End ProxyCacheFacts.

Module ProxyCacheExamples.
Definition q : Msg :=
  mkMsg (mkMsgHdr 1 false 0 false false true false false false false 0) false [mkQ (str "a.") 1 1] [] [] [].
Definition ctx : DNSContext :=
  set_ReqECS (Some (mkIPNet (Some [198; 51; 100; 0]) (CIDRMask 24 32)))
    (set_Req (Some q) (newDNSContext ProtoUDP None (Addr4 [198; 51; 100; 7]) 1)).
(** A response for the /20 of the client. *)
Definition answer : Msg :=
  insert_option (EDNS0_SUBNET EDNS0SUBNET 1 24 20 (Some [198; 51; 100; 0])) (SetRcode empty_msg q 0).
Definition pc : option cache := Some (newCache (mkCacheConfig 0 0 0 true false)).
End ProxyCacheExamples.
Import ProxyCacheExamples.

Lemma cacheResp_scope_witness :
  exists net, denotes net [198; 51; 100; 0] 20
    /\ cacheResp true pc 0 (set_Res (Some answer) ctx)
       = let! c' := setWithSubnet (newCache (mkCacheConfig 0 0 0 true false)) 0 q (Some answer) None (Some net) in
         Ret (put_cache c' pc (set_Res (Some answer) ctx)).
Proof.
  pose proof (cacheResp_scope pc 0 (set_Res (Some answer) ctx) (newCache (mkCacheConfig 0 0 0 true false)) q answer
    [198; 51; 100; 0] [198; 51; 100; 0] 24 24 20 eq_refl eq_refl eq_refl eq_refl eq_refl (or_introl eq_refl) eq_refl) as H.
  apply H; [repeat constructor; discriminate|repeat constructor; discriminate|cbn; lia|cbn; lia|lia].
Defined.

Lemma processECS_discloses_network_witness :
  exists d1 d2, processECS None (with_client (Addr4 [198; 51; 100; 7]) ctx) = Ret d1
    /\ processECS None (with_client (Addr4 [198; 51; 100; 200]) ctx) = Ret d2
    /\ Req d1 = Req d2 /\ ReqECS d1 = ReqECS d2.
Proof.
  destruct (processECS_discloses_network ctx q (Addr4 [198; 51; 100; 7]) (Addr4 [198; 51; 100; 200]))
    as (d1 & d2 & H1 & H2 & Hr & He & _).
  - reflexivity.
  - repeat split; try (repeat constructor; discriminate); left; reflexivity.
  - reflexivity.
  - exists d1, d2. auto.
Defined.
