(* ===== verification/ResolveCache.v ===== *)
(** * The cache under resolving

    What the proxy stores stays within what the theorems about the cache are
    about: if the messages of the outside have fields in range, every cache of
    the proxy is reachable by well-formed operations, so lookups and stores of
    later requests return. *)

From S2P Require Import Prelude NetIP DnsMsg RefDns GlCache NetUtil Wire Cache CacheFacts CacheSpec Ecs.
From S2P Require Import Upstreams Dns64 Receipt Parallel Fastip Exchange Messages Stats Context Recursion.
From S2P Require Import ProxyCache.

(** ** Messages with fields in range *)

Lemma typed_msg_sections m :
  typed_msg m <-> Forall typed_rr (Answer m) /\ Forall typed_rr (Ns m) /\ Forall typed_rr (Extra m).
Proof. unfold typed_msg, msg_rrs. rewrite !Forall_app. tauto. Qed.

Lemma typed_msg_ttls m : typed_msg m -> wf_ttls m.
Proof. apply Forall_impl. intros r []. assumption. Qed.

Lemma cidr_byte_is_byte n : 0 <= n <= 8 -> is_byte (cidr_byte n).
Proof.
  intros Hn. unfold cidr_byte, is_byte.
  assert (Hd : n = 0 \/ n = 1 \/ n = 2 \/ n = 3 \/ n = 4 \/ n = 5 \/ n = 6 \/ n = 7 \/ n = 8) by lia.
  repeat destruct Hd as [->|Hd]; try (vm_compute; split; [discriminate|reflexivity]).
  subst n. vm_compute. split; [discriminate|reflexivity].
Qed.

Lemma CIDRMask_wf ones bits : wf_bytes (slice (CIDRMask ones bits)).
Proof.
  assert (Hl : forall l n, 0 <= n -> wf_bytes (cidr_loop l n)).
  { induction l as [|l IH]; intros n Hn; cbn [cidr_loop]; [constructor|].
    case_goal; to_prop; constructor; try apply IH; try lia; [unfold is_byte; lia|apply cidr_byte_is_byte; lia]. }
  unfold CIDRMask. repeat case_goal; cbn [slice default]; try constructor. apply Hl.
  to_prop. repeat match goal with H : (_ || _) = false |- _ => apply orb_false_iff in H as [? ?] end. to_prop. lia.
Qed.

Lemma ecs_loop_wf os n s : Forall typed_option os -> ecs_loop os = Some (n, s) -> wf_net n.
Proof.
  induction 1 as [|o os Ho Hf IH]; cbn [ecs_loop]; [discriminate|].
  destruct o as [c f nm sc a|c b]; [|exact IH].
  destruct (f =? 1); [|destruct (f =? 2); [|exact IH]]; intros [= <- <-]; split; cbn [IPNet_IP IPNet_Mask];
    try apply CIDRMask_wf; [apply To4_wf|]; exact Ho.
Qed.

Section Typed.
Context {DL : DnsLib} {DLaws : DnsLaws}.

Lemma opt_of_typed m o : typed_msg m -> opt_of m = Some o -> typed_rr o.
Proof.
  intros (_ & _ & He)%typed_msg_sections. unfold opt_of.
  destruct (IsEdns0 m) as [i|]; [|discriminate]. cbn. intros Hi.
  rewrite Forall_lookup in He. exact (He i o Hi).
Qed.

Lemma ecsFromMsg_wf m n s : typed_msg m -> ecsFromMsg m = Some (n, s) -> wf_net n.
Proof.
  intros Ht. unfold ecsFromMsg. destruct (opt_of m) as [o|] eqn:Eo; [|discriminate].
  destruct (opt_of_typed m o Ht Eo) as [_ Hd]. unfold opt_options. destruct (Data o); try discriminate.
  apply ecs_loop_wf, Hd.
Qed.
End Typed.

(** ** Caches of the proxy *)

Section Caches.
Context {DL : DnsLib} {DLaws : DnsLaws} {GC : GlCache} {GLaws : GlCacheLaws} {NU : NetUtil}.

(** A cache reachable by well-formed operations, which has a store for subnets
    if client subnets are on. *)
Definition cache_fine (ecs : bool) (c : cache) : Prop :=
  exists conf h, reachable conf h c /\ Forall wf_op h /\ (ecs = true -> cc_withECS conf = true).

Lemma cache_fine_new ecs conf : (ecs = true -> cc_withECS conf = true) -> cache_fine ecs (newCache conf).
Proof. intros He. exists conf, []. split; [constructor|]. split; [constructor|exact He]. Qed.

Lemma cache_fine_step ecs c op c' :
  cache_fine ecs c -> wf_op op -> apply_op c op = Ret c' -> cache_fine ecs c'.
Proof.
  intros (conf & h & Hr & Hw & He) Hop Ha. exists conf, (op :: h).
  split; [econstructor; eauto|]. split; [constructor; auto|exact He].
Qed.

Lemma unpackItem_question c now data req ci e :
  length (Question req) = 1%nat -> unpackItem c now data req = Ret (Some ci, e) -> Question (ci_m ci) = Question req.
Proof.
  intros Hl. unfold unpackItem. case_goal; [discriminate|]. case_goal; [discriminate|]. case_goal; [discriminate|].
  destruct (Unpack _) as [m [err|]]; [discriminate|]. intros H. inv_bind H. injection H as <- _.
  unfold filterMsg in E. inv_bind E. injection E as <-. cbn.
  destruct (setrcode_spec empty_msg req (Rcode (Hdr m))) as (_ & _ & _ & Hq & _). apply Hq, Hl.
Qed.

Lemma get_fine ecs c now req :
  cache_fine ecs c -> length (Question req) = 1%nat ->
  exists lk c', get c now (Some req) = Ret (lk, c') /\ cache_fine ecs c'
    /\ forall ci, lk_item lk = Some ci -> Question (ci_m ci) = Question req.
Proof.
  intros Hf Hl. pose proof Hf as (conf & h & Hr & Hw & _).
  destruct (lookups_total conf h c now (Some req) None Hr Hw ltac:(discriminate)) as [[[lk c'] Hg] _].
  exists lk, c'. split; [exact Hg|]. split.
  - apply (cache_fine_step _ c (OpGet now (Some req))); [exact Hf|exact I|]. cbn [apply_op]. rewrite Hg. reflexivity.
  - intros ci Hci. unfold get in Hg. case_hyp Hg; [injection Hg as <- _; discriminate|].
    inv_bind Hg. inv_bind Hg. destruct a0 as [[data|] g]; [|injection Hg as <- _; discriminate].
    inv_bind Hg. destruct a0 as [ci' e]. inv_bind Hg. injection Hg as <- _. cbn in Hci. subst ci'.
    eapply unpackItem_question; eauto.
Qed.

Lemma getWithSubnet_fine ecs c now req n :
  cache_fine ecs c -> length (Question req) = 1%nat -> wf_net n ->
  exists lk c', getWithSubnet c now (Some req) (Some n) = Ret (lk, c') /\ cache_fine ecs c'
    /\ forall ci, lk_item lk = Some ci -> Question (ci_m ci) = Question req.
Proof.
  intros Hf Hl Hn. pose proof Hf as (conf & h & Hr & Hw & _).
  destruct (lookups_total conf h c now (Some req) (Some n) Hr Hw) as [_ [[lk c'] Hg]]; [intros n' [= <-]; exact Hn|].
  exists lk, c'. split; [exact Hg|]. split.
  - apply (cache_fine_step _ c (OpGetSubnet now (Some req) (Some n))); [exact Hf|exact I|]. cbn [apply_op]. rewrite Hg. reflexivity.
  - intros ci Hci. unfold getWithSubnet in Hg. case_hyp Hg; [injection Hg as <- _; discriminate|].
    destruct (cacheSubnet (Some n)) as [[ip p]|]; [|injection Hg as <- _; discriminate].
    inv_bind Hg. inv_bind Hg. destruct a0 as [d g]. inv_bind Hg. destruct a0 as [[k [data|]] g'];
      [|injection Hg as <- _; discriminate].
    inv_bind Hg. destruct a0 as [ci' e]. inv_bind Hg. injection Hg as <- _. cbn in Hci. subst ci'.
    eapply unpackItem_question; eauto.
Qed.

Lemma set_fine ecs c t req m u :
  cache_fine ecs c -> wf_store t req m -> exists c', set c t req m u = Ret c' /\ cache_fine ecs c'.
Proof.
  intros Hf Hw. pose proof Hf as (conf & h & Hr & Hh & _). pose proof (reachable_inv _ _ _ Hr Hh) as Hinv.
  assert (Hs : exists c', set c t req m u = Ret c').
  { unfold set. destruct (respToItem m u) as [item|]; [|eauto]. destruct Hw as [[q Hq] _].
    rewrite (msgToKey_eq req q [] (wf_question _ _ Hq)). cbn [gbind]. destruct (pack item t); [|eauto].
    destruct (inv_some _ _ _ Hinv) as [g ->]. cbn. eauto. }
  destruct Hs as [c' Hs]. exists c'. split; [exact Hs|].
  eapply (cache_fine_step _ c (OpSet t req m u)); eauto.
Qed.

Lemma setWithSubnet_fine c t req m u n :
  cache_fine true c -> wf_store t req m -> wf_net n ->
  exists c', setWithSubnet c t req m u (Some n) = Ret c' /\ cache_fine true c'.
Proof.
  intros Hf Hw Hn. pose proof Hf as (conf & h & Hr & Hh & He). pose proof (reachable_inv _ _ _ Hr Hh) as Hinv.
  assert (Hs : exists c', setWithSubnet c t req m u (Some n) = Ret c').
  { unfold setWithSubnet. destruct (respToItem m u) as [item|]; [|eauto]. destruct Hw as [[q Hq] _].
    destruct (cacheSubnet (Some n)) as [[ip p]|]; [|eauto].
    rewrite (msgToKeyWithSubnet_eq req q [] _ _ (wf_question _ _ Hq)). cbn [gbind]. destruct (pack item t); [|eauto].
    destruct (proj2 (inv_ecs _ _ _ Hinv) (He eq_refl)) as [g ->]. cbn. eauto. }
  destruct Hs as [c' Hs]. exists c'. split; [exact Hs|].
  eapply (cache_fine_step _ c (OpSetSubnet t req m u (Some n))); eauto.
  split; [exact Hw|]. intros n' [= <-]. exact Hn.
Qed.
End Caches.

(** ** The cache of a request *)

Lemma zip_land_wf a b : wf_bytes a -> wf_bytes b -> wf_bytes (zip_with Z.land a b).
Proof.
  intros Ha. revert b. induction Ha as [|x a Hx Ha IH]; intros b Hb; [constructor|].
  destruct Hb as [|y b Hy Hb]; [constructor|]. cbn. constructor; [apply land_byte, Hx|apply IH, Hb].
Qed.

Lemma IP_Mask_wf ip mask : wf_bytes (slice ip) -> wf_bytes (slice mask) -> wf_bytes (slice (IP_Mask ip mask)).
Proof.
  intros Hi Hm. unfold IP_Mask. cbv zeta.
  repeat case_goal; try (constructor; fail); apply zip_land_wf; auto; apply Forall_drop; assumption.
Qed.

Section RequestCache.
Context {DL : DnsLib} {DLaws : DnsLaws} {GC : GlCache} {GLaws : GlCacheLaws} {NU : NetUtil}.

(** What resolving keeps of the context of a request: everything but the
    response, the upstream, the statistics and the custom cache. *)
Record kept (d d' : DNSContext) : Prop := {
  k_Req : Req d' = Req d;
  k_ECS : ReqECS d' = ReqECS d;
  k_custom : option_map cu_upstream (d_Custom d') = option_map cu_upstream (d_Custom d);
  k_rdns : RequestedPrivateRDNS d' = RequestedPrivateRDNS d;
  k_private : IsPrivateClient d' = IsPrivateClient d;
  k_Proto : d_Proto d' = d_Proto d;
  k_addr : ClientAddr d' = ClientAddr d;
  k_size : udpSize d' = udpSize d;
  k_ad : adBit d' = adBit d;
  k_do : doBit d' = doBit d;
  k_edns : hasEDNS0 d' = hasEDNS0 d \/ hasEDNS0 d' = false;
}.

#[global] Instance kept_refl : Reflexive kept.
Proof. intros d. split; auto. Qed.

#[global] Instance kept_trans : Transitive kept.
Proof.
  intros d1 d2 d3 [] []. split; try congruence.
  match goal with H : hasEDNS0 d3 = _ \/ _ |- _ => destruct H as [-> | ->] end; auto.
Qed.

Definition caches_fine (ecs : bool) (pc : option cache) (d : DNSContext) : Prop :=
  (forall c, pc = Some c -> cache_fine ecs c)
  /\ (forall cu c, d_Custom d = Some cu -> cu_cache cu = Some c -> cache_fine ecs c).

Definition ecs_fine (d : DNSContext) : Prop := forall n, ReqECS d = Some n -> wf_net n.

Lemma caches_fine_context ecs pc d c : caches_fine ecs pc d -> cacheForContext pc d = Some c -> cache_fine ecs c.
Proof.
  intros [Hp Hd]. unfold cacheForContext. destruct (d_Custom d) as [cu|] eqn:E; [|apply Hp].
  destruct (cu_cache cu) as [c0|] eqn:Ec; [|apply Hp]. intros [= <-]. eapply Hd; eauto.
Qed.

Lemma put_cache_fine ecs c pc d :
  caches_fine ecs pc d -> cache_fine ecs c ->
  exists pc' d', put_cache c pc d = (pc', d') /\ caches_fine ecs pc' d' /\ kept d d' /\ Res d' = Res d
    /\ hasEDNS0 d' = hasEDNS0 d /\ cacheForContext pc' d' = Some c.
Proof.
  intros [Hp Hd] Hc. unfold put_cache, cacheForContext. destruct (d_Custom d) as [cu|] eqn:E; [destruct (cu_cache cu) as [c0|] eqn:Ec|];
    do 2 eexists; (split; [reflexivity|]); (split; [split|split; [split; cbn; rewrite ?E; auto|cbn; rewrite ?E, ?Ec; auto]]); cbn;
    try (intros ? [= <-]; exact Hc); try exact Hp; try exact Hd.
  - intros cu' c' [= <-] [= <-]. exact Hc.
  - intros cu' c'. rewrite E. intros [= <-]. congruence.
  - intros cu' c'. congruence.
Qed.

Lemma caches_fine_custom ecs pc d d' : d_Custom d' = d_Custom d -> caches_fine ecs pc d -> caches_fine ecs pc d'.
Proof. unfold caches_fine. intros ->. auto. Qed.

Lemma replyFromCache_fine ecs pc now d req c :
  caches_fine ecs pc d -> ecs_fine d -> cacheForContext pc d = Some c -> Req d = Some req ->
  length (Question req) = 1%nat ->
  exists hit d' pc' rf, replyFromCache ecs pc now d = Ret (hit, d', pc', rf)
    /\ caches_fine ecs pc' d' /\ kept d d' /\ hasEDNS0 d' = hasEDNS0 d /\ cacheForContext pc' d' <> None
    /\ (hit = true -> exists res, Res d' = Some res /\ Question res = Question req).
Proof.
  intros Hf He Hc Hr Hl. unfold replyFromCache. rewrite Hc, Hr. cbn [deref gbind].
  assert (Hlk : exists lk c', match ecs, ReqECS d with
      | true, Some n => getWithSubnet c now (Some req) (Some n)
      | _, _ => get c now (Some req) end = Ret (lk, c') /\ cache_fine ecs c'
      /\ forall ci, lk_item lk = Some ci -> Question (ci_m ci) = Question req).
  { pose proof (caches_fine_context _ _ _ _ Hf Hc) as Hcf. pose proof (get_fine ecs c now req Hcf Hl) as Hg.
    destruct ecs; [|exact Hg]. destruct (ReqECS d) as [n|] eqn:En; [|exact Hg].
    apply getWithSubnet_fine; auto. }
  destruct Hlk as (lk & c' & -> & Hc' & Hq). cbn [gbind].
  destruct (put_cache_fine ecs c' pc d Hf Hc') as (pc' & d' & -> & Hf' & Hk & _ & Hh & Hcc).
  destruct (lk_item lk) as [ci|] eqn:Ei; do 4 eexists; (split; [reflexivity|]).
  - split; [eapply caches_fine_custom; [|exact Hf']; reflexivity|].
    split; [destruct Hk; split; cbn; auto|]. split; [exact Hh|].
    split; [change (cacheForContext pc' d' <> None); congruence|]. eauto.
  - split; [exact Hf'|]. split; [exact Hk|]. split; [exact Hh|]. split; [congruence|discriminate].
Qed.

Lemma cacheResp_fine ecs pc now d req res c :
  caches_fine ecs pc d -> ecs_fine d -> cacheForContext pc d = Some c -> Req d = Some req -> Res d = Some res ->
  wf_store now req (Some res) -> typed_msg res ->
  exists pc' d', cacheResp ecs pc now d = Ret (pc', d') /\ caches_fine ecs pc' d' /\ kept d d' /\ Res d' = Some res
    /\ hasEDNS0 d' = hasEDNS0 d.
Proof.
  intros Hf He Hc Hr Hres Hw Ht. unfold cacheResp. rewrite Hc, Hr, Hres. cbn [deref gbind].
  match goal with |- context [gbind ?m _] => assert (Hs : exists c', m = Ret c' /\ cache_fine ecs c') end.
  { pose proof (caches_fine_context _ _ _ _ Hf Hc) as Hcf. pose proof (set_fine ecs c now req (Some res) (d_Upstream d) Hcf Hw) as Hset.
    destruct ecs; [|exact Hset]. cbn [negb deref gbind].
    destruct (ecsFromMsg res) as [[n scope]|] eqn:En; (destruct (ReqECS d) as [rn|] eqn:Ern; [|exact Hset]).
    - pose proof (ecsFromMsg_wf _ _ _ Ht En) as Hn.
      destruct (Mask_Size (IPNet_Mask n)) as [ones bits], (Mask_Size (IPNet_Mask rn)) as [rones rbits].
      case_goal; [eauto|]. apply setWithSubnet_fine; auto. case_goal; [|exact Hn].
      split; cbn [IPNet_IP IPNet_Mask]; [apply IP_Mask_wf; [apply Hn|]|]; apply CIDRMask_wf.
    - apply setWithSubnet_fine; auto. split; constructor. }
  destruct Hs as (c' & -> & Hc'). cbn [gbind].
  destruct (put_cache_fine ecs c' pc d Hf Hc') as (pc' & d' & -> & Hf' & Hk & Hres' & Hh & _).
  exists pc', d'. split; [reflexivity|]. rewrite Hres'. auto.
Qed.
End RequestCache.

(** ** Messages on the way to the cache *)

Lemma typed_intro a n e m :
  Forall typed_rr a -> Forall typed_rr n -> Forall typed_rr e -> Answer m = a -> Ns m = n -> Extra m = e -> typed_msg m.
Proof. intros. subst. apply typed_msg_sections. auto. Qed.

Section TypedOps.
Context {DL : DnsLib} {GC : GlCache} {NU : NetUtil}.

Lemma filterNAT64Answers_sub prefs rrs : fst (filterNAT64Answers prefs rrs) `sublist_of` rrs.
Proof.
  induction rrs as [|r rrs IH]; cbn [filterNAT64Answers]; [constructor|].
  destruct (filterNAT64Answers prefs rrs) as [f h]. case_goal; cbn in *; constructor; exact IH.
Qed.

Lemma typed_sub a b : a `sublist_of` b -> Forall typed_rr b -> Forall typed_rr a.
Proof. intros Hs Hb. rewrite list.Forall_forall in *. intros x Hx. apply Hb. eapply elem_of_submseteq; [exact Hx|]. apply sublist_submseteq, Hs. Qed.

Lemma checkDNS64_typed prefs req m id r m' :
  checkDNS64 prefs req m id = Ret (r, m') -> typed_msg m -> typed_msg m'.
Proof.
  unfold checkDNS64. destruct prefs as [|p ps]; [congruence|]. intros H Hm. inv_bind H.
  case_hyp H; [congruence|]. case_hyp H; [congruence|].
  pose proof Hm as (Ha & Hn & He)%typed_msg_sections.
  pose proof (filterNAT64Answers_sub (p :: ps) (Answer m)) as Hs.
  destruct (Rcode (Hdr m) =? RcodeSuccess).
  - destruct (filterNAT64Answers (p :: ps) (Answer m)) as [f h]. cbn in Hs.
    assert (typed_msg (set_Answer f m)) by (eapply typed_intro; [eapply typed_sub; eauto|exact Hn|exact He|..]; reflexivity).
    case_hyp H; injection H as _ <-; assumption.
  - injection H as _ <-. eapply typed_intro; [exact Ha|exact Hn|exact He|..]; reflexivity.
Qed.

Lemma synth_all_typed prefs rrs soa rs :
  0 <= soa <= MaxUint32 -> Forall typed_rr rrs -> synth_all prefs rrs soa = Ret (Some rs) -> Forall typed_rr rs.
Proof.
  intros Hs Hf. revert rs. induction Hf as [|r rrs [Ht Hd] Hf IH]; cbn [synth_all]; intros rs H.
  - injection H as <-. constructor.
  - inv_bind H. destruct a as [r'|]; [|discriminate]. inv_bind H. destruct a as [rs'|]; [|discriminate].
    injection H as <-. constructor; [|eauto]. unfold synthRR in E. destruct (Data r) eqn:Ed; try (injection E as <-; split; [exact Ht|rewrite Ed; exact Hd]).
    destruct (IPToAddr4 _); [|discriminate]. inv_bind E. injection E as <-. split; cbn; [lia|exact I].
Qed.

Lemma soa_ttl_typed name ns : Forall typed_rr ns -> 0 <= soa_ttl name ns <= MaxUint32.
Proof.
  induction 1 as [|r ns [Ht _] Hf IH]; cbn [soa_ttl]; [unfold maxDNS64SynTTL, MaxUint32; lia|]. case_goal; assumption.
Qed.

Lemma performDNS64_typed {U W} (exch : Msg -> W -> go (option Msg * option U * option error * W)) (J : W -> Prop)
    prefs req m id w u r w' :
  typed_msg m -> J w -> Question req <> [] ->
  (forall m w r u w', Question m <> [] -> J w -> exch m w = Ret (Some r, u, None, w') -> typed_msg r) ->
  performDNS64 prefs exch req (Some m) id w = Ret (u, Some r, w') -> typed_msg r.
Proof.
  intros Hm Hw Hq Hx H. unfold performDNS64 in H. inv_bind H. destruct a as [[dreq|] m'];
    pose proof (checkDNS64_typed _ _ _ _ _ _ E Hm) as Hm'; [|injection H as _ <- _; exact Hm'].
  assert (Hdq : Question dreq <> []).
  { unfold checkDNS64 in E. destruct prefs; [discriminate|]. inv_bind E. repeat case_hyp E; try discriminate.
    all: try (destruct (filterNAT64Answers _ _) as [f []] eqn:Ef; cbn in E); try discriminate.
    all: injection E as <- _; cbn; destruct (Question req); [destruct (Hq eq_refl)|discriminate]. }
  inv_bind H. destruct a as [[[dr du] err] w1]. destruct err as [e|]; [injection H as _ <- _; exact Hm'|].
  destruct dr as [dr|]; [|injection H as _ <- _; exact Hm'].
  pose proof (Hx _ _ _ _ _ Hdq Hw E0) as Hdr. inv_bind H. destruct a as [m2|]; injection H as _ <- _; [|exact Hm'].
  unfold synthDNS64 in E1. destruct (Answer dr) as [|x l] eqn:Ea; [discriminate|]. rewrite <- Ea in E1.
  inv_bind E1. inv_bind E1. destruct a0 as [rs|]; [|discriminate]. injection E1 as <-.
  apply typed_msg_sections in Hdr as (Ha & Hn & He). apply typed_msg_sections in Hm' as (_ & Hn' & _).
  eapply typed_intro; [|exact Hn|exact He|..]; try reflexivity. cbn.
  eapply synth_all_typed; [|exact Ha|exact E3]. apply soa_ttl_typed, Hn'.
Qed.

Lemma reduced_typed ip m m' : reduced_to ip m m' -> typed_msg m -> typed_msg m'.
Proof.
  intros (_ & _ & Hs & _ & _ & He) (Ha & Hn & Hx)%typed_msg_sections.
  eapply typed_intro; [eapply typed_sub; eauto|exact Hn|exact Hx|reflexivity|exact (f_equal Ns He)|exact (f_equal Extra He)].
Qed.
End TypedOps.
