(* ===== verification/Pending.v ===== *)
(** * Identical requests in progress (proxy/pending.go and
      proxy/optimisticresolver.go)

    [queue] lets the first of several identical requests go on and makes the
    others wait for its result; [resolveOnce] refreshes an expired item at most
    once at a time.  The requests run concurrently: the operations on the
    storage and on a channel are atomic, and a run interleaves them in any
    order.  The theorems are about all runs. *)

From stdpp Require Import gmap.
From S2P Require Import Prelude NetIP DnsMsg RefDns GlCache NetUtil Cache Upstreams Parallel Exchange Stats.
From S2P Require Import Context ProxyCache.

Section Pending.
Context {DL : DnsLib} {GC : GlCache}.

(** The result of a finished request: the part of its context that is cloned,
    and its error. *)
Record pendingResult := mkPR {
  pr_Upstream : option Upstream;
  pr_stats : option QueryStatistics;
  pr_Res : option Msg;
  pr_err : option error;
}.

(** A request in progress is its number; its channel is closed when its result
    is there. *)
Record defaultPendingRequests := mkDP {
  storage : gmap bytes nat;
  pendings : list (option pendingResult);
}.

Definition newDefaultPendingRequests : defaultPendingRequests := mkDP ∅ [].

(** The key of a request; [None] if its subnet is not valid. *)
Definition pending_key (d : DNSContext) : go (option bytes) :=
  let! req := deref (Req d) in
  match ReqECS d with
  | Some ecs =>
      match cacheSubnet (Some ecs) with
      | None => Ret None
      | Some (ip, ones) => let! k := msgToKeyWithSubnet req ip ones in Ret (Some k)
      end
  | None => let! k := msgToKey req in Ret (Some k)
  end.

(** What [queue] finds: nothing in progress that it could wait for, or the
    request to wait for. *)
Inductive queued := Untracked | Owner (pid : nat) | Wait (pid : nat).

Definition queue (d : DNSContext) (pr : defaultPendingRequests) : go (queued * defaultPendingRequests) :=
  let! key := pending_key d in
  match key with
  | None => Ret (Untracked, pr)
  | Some key =>
      match storage pr !! key with
      | Some pid => Ret (Wait pid, pr)
      | None =>
          let pid := length (pendings pr) in
          Ret (Owner pid, mkDP (<[key := pid]> (storage pr)) (pendings pr ++ [None]))
      end
  end.

(** [queue] after the channel is closed. *)
Definition queue_resume (d : DNSContext) (res : pendingResult) : go (DNSContext * option error) :=
  let d := set_Upstream (pr_Upstream res) (set_stats (pr_stats res) d) in
  match pr_Res res with
  | None => Ret (d, pr_err res)
  | Some m => let! req := deref (Req d) in Ret (set_Res (Some (SetReply m req)) d, pr_err res)
  end.

Definition result_of (d : DNSContext) (err : option error) : pendingResult :=
  mkPR (d_Upstream d) (queryStatistics d) (Res d) err.

(** It panics if the request is not stored or its channel is closed already. *)
Definition done (d : DNSContext) (err : option error) (pr : defaultPendingRequests) : go defaultPendingRequests :=
  let! key := pending_key d in
  match key with
  | None => Ret pr
  | Some key =>
      match storage pr !! key with
      | None => Panic
      | Some pid =>
          match pendings pr !! pid with
          | Some None =>
              Ret (mkDP (delete key (storage pr)) (<[pid := Some (result_of d err)]> (pendings pr)))
          | _ => Panic
          end
      end
  end.

(** The interface of the proxy and its two implementations; the second one, for a
    configuration that disables tracking, keeps nothing and lets every request go. *)
Record pendingRequests := mkPending {
  pending_state : Type;
  pending_queue : DNSContext -> pending_state -> go (queued * pending_state);
  pending_done : DNSContext -> option error -> pending_state -> go pending_state;
}.
Definition tracking : pendingRequests := mkPending defaultPendingRequests queue done.
Definition emptyPendingRequests : pendingRequests :=
  mkPending unit (fun _ s => Ret (Untracked, s)) (fun _ _ s => Ret s).

(** ** Runs *)

(** A request of a run: it is resolving as the owner of a pending request, is
    waiting for one, or is finished with what it got. *)
Inductive thread :=
  | Running (d : DNSContext) (key : bytes) (pid : nat)
  | Waiting (d : DNSContext) (pid : nat)
  | Finished (pid : nat) (res : pendingResult).

(** A new request is queued; the owner of a pending request is done, with a
    context that has the same key; a waiting request resumes. *)
Inductive step : defaultPendingRequests * list thread -> defaultPendingRequests * list thread -> Prop :=
  | step_own d key pid pr pr' ts :
      pending_key d = Ret (Some key) -> queue d pr = Ret (Owner pid, pr') ->
      step (pr, ts) (pr', ts ++ [Running d key pid])
  | step_wait d pid pr pr' ts :
      queue d pr = Ret (Wait pid, pr') -> step (pr, ts) (pr', ts ++ [Waiting d pid])
  | step_done i d d' key pid err pr pr' ts :
      ts !! i = Some (Running d key pid) -> pending_key d' = Ret (Some key) -> done d' err pr = Ret pr' ->
      step (pr, ts) (pr', <[i := Finished pid (result_of d' err)]> ts)
  | step_resume i d pid res pr ts :
      ts !! i = Some (Waiting d pid) -> pendings pr !! pid = Some (Some res) ->
      step (pr, ts) (pr, <[i := Finished pid res]> ts).

Inductive reachable_pending : defaultPendingRequests * list thread -> Prop :=
  | rp_init : reachable_pending (newDefaultPendingRequests, [])
  | rp_step s s' : reachable_pending s -> step s s' -> reachable_pending s'.

Record pending_inv (pr : defaultPendingRequests) (ts : list thread) : Prop := {
  (** a stored request is in progress and has exactly one owner *)
  pi_stored key pid : storage pr !! key = Some pid ->
    pendings pr !! pid = Some None /\ exists i d, ts !! i = Some (Running d key pid);
  pi_running i d key pid : ts !! i = Some (Running d key pid) -> storage pr !! key = Some pid;
  pi_owner i j d d' key key' pid :
    ts !! i = Some (Running d key pid) -> ts !! j = Some (Running d' key' pid) -> i = j;
  pi_waiting i d pid : ts !! i = Some (Waiting d pid) ->
    (exists res, pendings pr !! pid = Some (Some res)) \/ exists j d' key, ts !! j = Some (Running d' key pid);
  pi_finished i pid res : ts !! i = Some (Finished pid res) -> pendings pr !! pid = Some (Some res);
}.

Lemma queue_Owner d key pid pr pr' :
  pending_key d = Ret (Some key) -> queue d pr = Ret (Owner pid, pr') ->
  storage pr !! key = None /\ pid = length (pendings pr)
  /\ pr' = mkDP (<[key := pid]> (storage pr)) (pendings pr ++ [None]).
Proof.
  intros Hk. unfold queue. rewrite Hk. cbn [gbind].
  destruct (storage pr !! key) eqn:E; [discriminate|]. intros [= <- <-]. auto.
Qed.

Lemma queue_Wait d pid pr pr' :
  queue d pr = Ret (Wait pid, pr') -> pr' = pr /\ exists key, storage pr !! key = Some pid.
Proof.
  unfold queue. intros H. inv_bind H. destruct a as [key|]; [|discriminate].
  destruct (storage pr !! key) eqn:E0; [|discriminate]. injection H as <- <-. eauto.
Qed.

Lemma done_inv d key err pr pr' :
  pending_key d = Ret (Some key) -> done d err pr = Ret pr' ->
  exists pid, storage pr !! key = Some pid /\ pendings pr !! pid = Some None
    /\ pr' = mkDP (delete key (storage pr)) (<[pid := Some (result_of d err)]> (pendings pr)).
Proof.
  intros Hk. unfold done. rewrite Hk. cbn [gbind]. destruct (storage pr !! key) as [pid|]; [|discriminate].
  destruct (pendings pr !! pid) as [[|]|] eqn:E; try discriminate. intros [= <-]. eauto.
Qed.

Lemma inv_own d key pr ts :
  pending_inv pr ts -> storage pr !! key = None ->
  pending_inv (mkDP (<[key := length (pendings pr)]> (storage pr)) (pendings pr ++ [None]))
    (ts ++ [Running d key (length (pendings pr))]).
Proof.
  intros [] Hnone.
  assert (Hpend : forall p r, pendings pr !! p = Some r -> (pendings pr ++ [None]) !! p = Some r)
    by (intros; apply lookup_app_l_Some; assumption).
  split; cbn [storage pendings].
  - intros k p. rewrite lookup_insert_Some. intros [[<- <-]|[Hne Hs]].
    + split; [apply list_lookup_middle; reflexivity|]. exists (length ts), d. apply list_lookup_middle. reflexivity.
    + destruct (pi_stored0 k p Hs) as (Hp & i & d0 & Hi). split; [auto|]. exists i, d0. apply lookup_app_l_Some, Hi.
  - intros i d0 k p. rewrite lookup_snoc_Some. intros [[_ Hi]|[_ [= <- <- <-]]]; [|apply lookup_insert_eq].
    rewrite lookup_insert_ne; [eauto|]. intros <-. rewrite (pi_running0 _ _ _ _ Hi) in Hnone. discriminate.
  - assert (Hfresh : forall i d0 k, ts !! i = Some (Running d0 k (length (pendings pr))) -> False).
    { intros i d0 k Hi. destruct (pi_stored0 _ _ (pi_running0 _ _ _ _ Hi)) as [Hp _].
      apply lookup_lt_Some in Hp. lia. }
    intros i j d0 d1 k k' p. rewrite !lookup_snoc_Some.
    intros [[_ Hi]|[Hi [= <- <- <-]]] [[_ Hj]|[Hj E]]; subst; eauto.
    + injection E as <- <- <-. destruct (Hfresh _ _ _ Hi).
    + destruct (Hfresh _ _ _ Hj).
  - intros i d0 p. rewrite lookup_snoc_Some. intros [[_ Hi]|[_ [=]]].
    destruct (pi_waiting0 _ _ _ Hi) as [[r Hr]|(j & d' & k & Hj)]; [left; eauto|].
    right. exists j, d', k. apply lookup_app_l_Some, Hj.
  - intros i p r. rewrite lookup_snoc_Some. intros [[_ Hi]|[_ [=]]]. eauto.
Qed.

Lemma inv_wait d pid key pr ts :
  pending_inv pr ts -> storage pr !! key = Some pid -> pending_inv pr (ts ++ [Waiting d pid]).
Proof.
  intros [] Hs.
  assert (Hold : forall i t, ts !! i = Some t -> (ts ++ [Waiting d pid]) !! i = Some t)
    by (intros; apply lookup_app_l_Some; assumption).
  split.
  - intros k p Hk. destruct (pi_stored0 k p Hk) as (Hp & i & d0 & Hi). eauto 6.
  - intros i d0 k p. rewrite lookup_snoc_Some. intros [[_ Hi]|[_ [=]]]. eauto.
  - intros i j d0 d1 k k' p. rewrite !lookup_snoc_Some. intros [[_ Hi]|[_ [=]]] [[_ Hj]|[_ [=]]]. eauto.
  - intros i d0 p. rewrite lookup_snoc_Some. intros [[_ Hi]|[_ [= <- <-]]].
    + destruct (pi_waiting0 _ _ _ Hi) as [?|(j & d' & k & Hj)]; [auto|]. right. eauto 6.
    + destruct (pi_stored0 _ _ Hs) as (_ & i' & d' & Hi'). right. eauto 6.
  - intros i p r. rewrite lookup_snoc_Some. intros [[_ Hi]|[_ [=]]]. eauto.
Qed.

Lemma inv_done i d key pid r pr ts :
  pending_inv pr ts -> ts !! i = Some (Running d key pid) -> pendings pr !! pid = Some None ->
  pending_inv (mkDP (delete key (storage pr)) (<[pid := Some r]> (pendings pr))) (<[i := Finished pid r]> ts).
Proof.
  intros [] Hi Hp. pose proof (lookup_lt_Some _ _ _ Hp) as Hlt. pose proof (pi_running0 _ _ _ _ Hi) as Hs.
  assert (Hclosed : forall p x, pendings pr !! p = Some (Some x) -> <[pid := Some r]> (pendings pr) !! p = Some (Some x)).
  { intros p x Hx. rewrite list_lookup_insert_ne; [exact Hx|]. intros ->. congruence. }
  split; cbn [storage pendings].
  - intros k p. rewrite lookup_delete_Some. intros [Hne Hk].
    destruct (pi_stored0 k p Hk) as (Hkp & j & d' & Hj).
    assert (i <> j) as Hij by (intros ->; congruence).
    assert (p <> pid) as Hpp by (intros ->; exact (Hij (pi_owner0 _ _ _ _ _ _ _ Hi Hj))).
    rewrite list_lookup_insert_ne by congruence. split; [exact Hkp|].
    exists j, d'. rewrite list_lookup_insert_ne by exact Hij. exact Hj.
  - intros j d' k p Hj. apply list_lookup_insert_Some in Hj as [(_ & [=] & _)|[Hij Hj]].
    pose proof (pi_running0 _ _ _ _ Hj) as Hk. apply lookup_delete_Some. split; [|exact Hk].
    intros <-. rewrite Hs in Hk. injection Hk as <-. exact (Hij (pi_owner0 _ _ _ _ _ _ _ Hi Hj)).
  - intros j j' d1 d2 k k' p H1 H2. apply list_lookup_insert_Some in H1 as [(_ & [=] & _)|[_ H1]].
    apply list_lookup_insert_Some in H2 as [(_ & [=] & _)|[_ H2]]. eauto.
  - intros j d' p Hj. apply list_lookup_insert_Some in Hj as [(_ & [=] & _)|[_ Hj]].
    destruct (pi_waiting0 _ _ _ Hj) as [[x Hx]|(j' & d2 & k & Hj')]; [left; eauto|].
    destruct (decide (i = j')) as [<-|Hne].
    + rewrite Hi in Hj'. injection Hj' as <- <- <-. left. exists r. apply list_lookup_insert_eq, Hlt.
    + right. exists j', d2, k. rewrite list_lookup_insert_ne by exact Hne. exact Hj'.
  - intros j p x Hj. apply list_lookup_insert_Some in Hj as [(_ & [= <- <-] & _)|[_ Hj]]; [|eauto].
    apply list_lookup_insert_eq, Hlt.
Qed.

Lemma inv_resume i d pid res pr ts :
  pending_inv pr ts -> ts !! i = Some (Waiting d pid) -> pendings pr !! pid = Some (Some res) ->
  pending_inv pr (<[i := Finished pid res]> ts).
Proof.
  intros [] Hi Hp.
  assert (Hrun : forall j d' k p, ts !! j = Some (Running d' k p) ->
    <[i := Finished pid res]> ts !! j = Some (Running d' k p)).
  { intros j d' k p Hj. rewrite list_lookup_insert_ne; [exact Hj|]. intros ->. congruence. }
  split.
  - intros k p Hk. destruct (pi_stored0 k p Hk) as (? & j & d' & Hj). eauto 6.
  - intros j d' k p Hj. apply list_lookup_insert_Some in Hj as [(_ & [=] & _)|[_ Hj]]. eauto.
  - intros j j' d1 d2 k k' p H1 H2. apply list_lookup_insert_Some in H1 as [(_ & [=] & _)|[_ H1]].
    apply list_lookup_insert_Some in H2 as [(_ & [=] & _)|[_ H2]]. eauto.
  - intros j d' p Hj. apply list_lookup_insert_Some in Hj as [(_ & [=] & _)|[_ Hj]].
    destruct (pi_waiting0 _ _ _ Hj) as [?|(j' & d2 & k & Hj')]; [auto|]. right. eauto 6.
  - intros j p x Hj. apply list_lookup_insert_Some in Hj as [(_ & [= <- <-] & _)|[_ Hj]]; eauto.
Qed.

Lemma reachable_pending_inv pr ts : reachable_pending (pr, ts) -> pending_inv pr ts.
Proof.
  intros Hr. remember (pr, ts) as s eqn:Es. revert pr ts Es.
  induction Hr as [|[pr0 ts0] s' Hr IH Hs]; intros pr ts Es.
  { injection Es as <- <-. split; cbn; intros; try discriminate. }
  specialize (IH _ _ eq_refl). inversion Hs; subst; simplify_eq.
  - match goal with H : queue _ _ = _ |- _ => destruct (queue_Owner _ _ _ _ _ ltac:(eassumption) H) as (? & -> & ->) end.
    apply inv_own; assumption.
  - match goal with H : queue _ _ = _ |- _ => destruct (queue_Wait _ _ _ _ H) as (-> & key & ?) end.
    eapply inv_wait; eassumption.
  - match goal with H : done _ _ _ = _ |- _ => destruct (done_inv _ _ _ _ _ ltac:(eassumption) H) as (p & Hs' & Hp & ->) end.
    match goal with H : _ !! i = Some (Running _ _ _) |- _ => pose proof (pi_running _ _ IH _ _ _ _ H) as Hs2 end.
    rewrite Hs2 in Hs'. injection Hs' as <-. eapply inv_done; eassumption.
  - eapply inv_resume; eassumption.
Qed.

(** C4: At any time at most one of the requests with the same key is being
    resolved: two running requests with the same key are the same request, and
    a request with a key in progress is made to wait for it. *)
Theorem single_flight (pr : defaultPendingRequests) (ts : list thread) (i j : nat) (d d' : DNSContext)
    (key : bytes) (pid pid' : nat)
    (Hr : reachable_pending (pr, ts))
    (Hi : ts !! i = Some (Running d key pid)) (Hj : ts !! j = Some (Running d' key pid')) :
  i = j /\ forall d2, pending_key d2 = Ret (Some key) -> queue d2 pr = Ret (Wait pid, pr).
Proof.
  pose proof (reachable_pending_inv _ _ Hr) as [].
  pose proof (pi_running0 _ _ _ _ Hi) as Hs. rewrite (pi_running0 _ _ _ _ Hj) in Hs. injection Hs as ->.
  split; [eauto|]. intros d2 Hk. unfold queue. rewrite Hk. cbn [gbind].
  rewrite (pi_running0 _ _ _ _ Hi). reflexivity.
Qed.

(** No waiting request is forgotten, and all requests that waited for the
    same one get its result: a request that waits can go on, or the request it
    waits for is still running, and when that one is done (which never panics)
    its result is there for the waiting request; two finished requests of the
    same group have the same result. *)
Theorem waiters_get_result (pr : defaultPendingRequests) (ts : list thread)
    (Hr : reachable_pending (pr, ts)) :
  (forall i d pid, ts !! i = Some (Waiting d pid) ->
     (exists res, pendings pr !! pid = Some (Some res))
     \/ exists j d' key, ts !! j = Some (Running d' key pid)
          /\ forall d2 err, pending_key d2 = Ret (Some key) ->
             exists pr', done d2 err pr = Ret pr' /\ pendings pr' !! pid = Some (Some (result_of d2 err)))
  /\ forall i j pid res res', ts !! i = Some (Finished pid res) -> ts !! j = Some (Finished pid res') -> res = res'.
Proof.
  pose proof (reachable_pending_inv _ _ Hr) as []. split.
  - intros i d pid Hi. destruct (pi_waiting0 _ _ _ Hi) as [?|(j & d' & key & Hj)]; [auto|]. right.
    exists j, d', key. split; [exact Hj|]. intros d2 err Hk. pose proof (pi_running0 _ _ _ _ Hj) as Hs.
    destruct (pi_stored0 _ _ Hs) as [Hp _]. unfold done. rewrite Hk. cbn [gbind]. rewrite Hs, Hp.
    eexists. split; [reflexivity|]. cbn. apply list_lookup_insert_eq. eapply lookup_lt_Some, Hp.
  - intros i j pid res res' Hi Hj. apply pi_finished0 in Hi, Hj. congruence.
Qed.
End Pending.

(** ** The optimistic resolver *)

Definition hex_digit (n : Z) : Z := if n <? 10 then 48 + n else 87 + n.

(** [hex.EncodeToString] *)
Definition EncodeToString (b : bytes) : bytes := b ≫= fun x => [hex_digit (x / 16); hex_digit (x mod 16)].

Lemma hex_digit_inj a b : 0 <= a < 16 -> 0 <= b < 16 -> hex_digit a = hex_digit b -> a = b.
Proof. unfold hex_digit. repeat case_goal; to_prop; lia. Qed.

Lemma EncodeToString_inj a b : wf_bytes a -> wf_bytes b -> EncodeToString a = EncodeToString b -> a = b.
Proof.
  intros Ha; revert b; induction Ha as [|x a Hx Ha IH]; intros b Hb He; inversion Hb as [|y b' Hy Hb']; subst;
    cbn in He; try discriminate; [reflexivity|].
  injection He as H1 H2 He. apply IH in He as ->; [|exact Hb']. unfold is_byte in *.
  assert (x / 16 = y / 16) by (apply hex_digit_inj; auto; split; (apply Z.div_pos || apply Z.div_lt_upper_bound); lia).
  assert (x mod 16 = y mod 16) by (apply hex_digit_inj; auto; apply Z.mod_pos_bound; lia).
  f_equal. rewrite (Z.div_mod x 16), (Z.div_mod y 16) by lia. congruence.
Qed.

(** The keys being refreshed, as [reqs] has them. *)
Definition refreshing := gset bytes.

(** The start of [resolveOnce]: whether it goes on, and the keys afterwards. *)
Definition resolveOnce_start (key : bytes) (reqs : refreshing) : bool * refreshing :=
  let keyHexed := EncodeToString key in
  if bool_decide (keyHexed ∈ reqs) then (false, reqs) else (true, {[keyHexed]} ∪ reqs).

(** Its deferred end. *)
Definition resolveOnce_end (key : bytes) (reqs : refreshing) : refreshing := reqs ∖ {[EncodeToString key]}.

(** A run: the keys of the resolvings in progress and [reqs]. *)
Inductive refresh_run : list bytes -> refreshing -> Prop :=
  | rr_init : refresh_run [] ∅
  | rr_start l reqs key reqs' :
      refresh_run l reqs -> wf_bytes key -> resolveOnce_start key reqs = (true, reqs') -> refresh_run (key :: l) reqs'
  | rr_skip l reqs key reqs' :
      refresh_run l reqs -> wf_bytes key -> resolveOnce_start key reqs = (false, reqs') -> refresh_run l reqs'
  | rr_end l1 l2 key reqs :
      refresh_run (l1 ++ key :: l2) reqs -> refresh_run (l1 ++ l2) (resolveOnce_end key reqs).

Lemma refresh_run_inv l reqs : refresh_run l reqs ->
  Forall wf_bytes l /\ NoDup l /\ forall key, wf_bytes key -> (EncodeToString key ∈ reqs <-> key ∈ l).
Proof.
  induction 1 as [|l reqs key reqs' Hr (Hf & Hn & Hi) Hw Hs|l reqs key reqs' Hr IH Hw Hs|l1 l2 key reqs Hr (Hf & Hn & Hi)].
  - split; [constructor|]. split; [constructor|]. set_solver.
  - unfold resolveOnce_start in Hs. case_bool_decide as He; [discriminate|]. injection Hs as <-.
    split; [constructor; auto|]. split; [constructor; [rewrite <- Hi by exact Hw; exact He|exact Hn]|].
    intros k Hk. rewrite elem_of_union, elem_of_singleton, elem_of_cons, (Hi k Hk).
    split; [intros [E|]; [left; apply EncodeToString_inj; auto|auto]|intros [->|]; auto].
  - unfold resolveOnce_start in Hs. case_bool_decide; [|discriminate]. injection Hs as <-. exact IH.
  - apply Forall_app in Hf as [Hf1 Hf2]. apply Forall_cons_1 in Hf2 as [Hk Hf2].
    apply list.NoDup_app in Hn as (Hn1 & Hd & Hn2). apply list.NoDup_cons in Hn2 as [Hnk Hn2].
    split; [apply Forall_app; auto|]. split; [apply list.NoDup_app; set_solver|].
    intros k Hwk. unfold resolveOnce_end. rewrite elem_of_difference, elem_of_singleton, (Hi k Hwk).
    rewrite !elem_of_app, elem_of_cons. split.
    + intros [[?|[->|?]] Hne]; auto. destruct (Hne eq_refl).
    + intros Hin. split; [tauto|]. intros E. apply EncodeToString_inj in E as ->; auto.
      destruct Hin; [|contradiction]. apply (Hd key); set_solver.
Qed.

(** In every run of the optimistic resolver no two resolvings of the same
    key are in progress, and a key is skipped only while it is being resolved:
    a key that is not in progress is always let through. *)
Theorem resolve_once (l : list bytes) (reqs : refreshing) (key : bytes)
    (Hr : refresh_run l reqs) (Hw : wf_bytes key) :
  NoDup l /\ fst (resolveOnce_start key reqs) = negb (bool_decide (key ∈ l)).
Proof.
  destruct (refresh_run_inv l reqs Hr) as (_ & Hn & Hi). split; [exact Hn|].
  unfold resolveOnce_start. rewrite (bool_decide_ext _ _ (Hi key Hw)). case_bool_decide; reflexivity.
Qed.

Module PendingExamples.
Definition d0 : DNSContext := newDNSContext ProtoUDP (Some ProxyCacheExamples.q) (Addr4 [192; 0; 2; 1]) 1.
Definition d1 : DNSContext := newDNSContext ProtoTCP (Some ProxyCacheExamples.q) (Addr4 [192; 0; 2; 2]) 2.
Definition key : bytes := match pending_key d0 with Ret (Some k) => k | _ => [] end.
Definition after (m : go (queued * defaultPendingRequests)) : defaultPendingRequests :=
  match m with Ret (_, pr) => pr | Panic => newDefaultPendingRequests end.
Definition pr1 : defaultPendingRequests := after (queue d0 newDefaultPendingRequests).
Definition pr2 : defaultPendingRequests :=
  match done d0 None pr1 with Ret pr => pr | Panic => newDefaultPendingRequests end.

Lemma run1 : reachable_pending (pr1, [Running d0 key 0]).
Proof.
  apply (rp_step (newDefaultPendingRequests, [])); [constructor|].
  apply (step_own d0 key 0 newDefaultPendingRequests pr1 []); vm_compute; reflexivity.
Qed.

Lemma run2 : reachable_pending (pr1, [Running d0 key 0; Waiting d1 0]).
Proof.
  apply (rp_step _ _ run1). apply (step_wait d1 0 pr1 pr1 [Running d0 key 0]). vm_compute. reflexivity.
Qed.
End PendingExamples.
Import PendingExamples.

Lemma single_flight_witness :
  0%nat = 0%nat /\ forall d2, pending_key d2 = Ret (Some key) -> queue d2 pr1 = Ret (Wait 0, pr1).
Proof. exact (single_flight pr1 [Running d0 key 0] 0 0 d0 d0 key 0 0 run1 eq_refl eq_refl). Defined.

Lemma waiters_get_result_witness :
  exists pr', done d0 None pr1 = Ret pr' /\ pendings pr' !! 0%nat = Some (Some (result_of d0 None)).
Proof.
  destruct (waiters_get_result pr1 [Running d0 key 0; Waiting d1 0] run2) as [Hw _].
  destruct (Hw 1%nat d1 0%nat eq_refl) as [[res Hres]|(j & d' & k & Hj & Hd)].
  - vm_compute in Hres. discriminate.
  - destruct j as [|[|j]]; [|discriminate|discriminate]. injection Hj as <- <-.
    apply Hd. vm_compute. reflexivity.
Defined.

Lemma resolve_once_witness :
  NoDup [[1; 2]] /\ fst (resolveOnce_start [1; 2] {[EncodeToString [1; 2]]}) = false.
Proof.
  assert (Hr : refresh_run [[1; 2]] {[EncodeToString [1; 2]]}).
  { apply (rr_start [] ∅); [constructor|repeat constructor; discriminate|vm_compute; reflexivity]. }
  exact (resolve_once [[1; 2]] _ [1; 2] Hr ltac:(repeat constructor; discriminate)).
Defined.
