(* ===== verification/Resolve.v ===== *)
(** * Resolving a request (proxy/proxy.go, proxy/bogusnxdomain.go and
      [setMinMaxTTL] of proxy/server.go)

    [Resolve] with everything it calls: the choice of the upstreams, the
    exchange with them and with the fallbacks, DNS64, the statistics, the cache
    and the preparation of the response.  [Outside] is the network, the clock,
    the scheduler and the sources of randomness. *)

From Stdlib Require Import QArith.
From S2P Require Import Prelude NetIP DnsMsg RefDns GlCache NetUtil Wire Cache CacheFacts CacheSpec Ecs.
From S2P Require Import Upstreams Dns64 Receipt Parallel Fastip Exchange Messages Stats Context Recursion.
From S2P Require Import ProxyCache Pending.
#[local] Open Scope Z_scope.

(** What a run of the proxy depends on, on a state [N] of the outside. *)
Class Outside {GC : GlCache} (N : Type) := {
  net_ex : Upstream -> Msg -> N -> option Msg * option error * N;
  Now : N -> Time;
  arrival : list upstreamWithStats -> arena * N -> list upstreamWithStats;
  take_order : list Q -> arena * N -> list nat;
  values : list Addr -> list Addr;
  ping : list (Addr * Z) -> glc -> list pingResult * glc;
  dns_Id : N -> Z;
}.

Record Proxy := mkProxy {
  upstreamConf : option UpstreamConfig;
  privateRDNSUpstreamConfig : option UpstreamConfig;
  fallbacks : option UpstreamConfig;
  usePrivateRDNS : bool;
  privateNets : Addr -> bool;
  upstreamMode : bytes;
  dns64Prefs : list Prefix;
  bogusNXDomain : list Prefix;
  dnsSecEnabled : bool;
  enableECS : bool;
  ednsAddr : IP;
  refuseAny : bool;
  cacheMinTTL : Z;
  cacheMaxTTL : Z;
}.

Definition set_Authoritative (v : bool) (m : Msg) : Msg :=
  upd_hdr (fun h => mkMsgHdr (Id h) (Response h) (Opcode h) v (Truncated h)
    (RecursionDesired h) (RecursionAvailable h) (Zero h) (AuthenticatedData h)
    (CheckingDisabled h) (Rcode h)) m.

Section Resolve.
Context {DL : DnsLib} {GC : GlCache} {NU : NetUtil} {MC : MessageConstructor}.
Context {N : Type} {Out : Outside N}.

(** The state that requests change. *)
Record proxy_state := mkPx {
  px_cache : option cache;
  px_rec : recursionDetector;
  px_rtt : rtt_map;
  px_ip : glc;
  px_net : N;
}.

Definition px_now (s : proxy_state) : Time := Now (px_net s).
Definition set_cache (c : option cache) (s : proxy_state) : proxy_state :=
  mkPx c (px_rec s) (px_rtt s) (px_ip s) (px_net s).
Definition set_rec (r : recursionDetector) (s : proxy_state) : proxy_state :=
  mkPx (px_cache s) r (px_rtt s) (px_ip s) (px_net s).

Definition selectUpstreams (p : Proxy) (d : DNSContext) : go (list Upstream * bool) :=
  let! req := deref (Req d) in
  let! q := index (Question req) 0 in
  let host := QName q in
  let! strip :=
    if negb (bool_decide (RequestedPrivateRDNS d = zero_prefix)) then Ret true
    else shouldStripDNS64 (dns64Prefs p) req in
  if strip then
    match privateRDNSUpstreamConfig p with
    | Some private =>
        if usePrivateRDNS p && IsPrivateClient d
        then let! ups := getUpstreamsForDomain private host in Ret (ups, true)
        else Ret ([], true)
    | None => Ret ([], true)
    end
  else
    let getUpstreams := if Qtype q =? TypeDS then getUpstreamsForDS else getUpstreamsForDomain in
    let! custom :=
      match d_Custom d with
      | Some custom => let! uc := deref (cu_upstream custom) in getUpstreams uc host
      | None => Ret []
      end in
    match custom with
    | _ :: _ => Ret (custom, false)
    | [] => let! uc := deref (upstreamConf p) in let! ups := getUpstreams uc host in Ret (ups, false)
    end.

Definition isBogusNXDomain (p : Proxy) (m : option Msg) : bool :=
  match m with
  | None => false
  | Some m =>
      if (length (bogusNXDomain p) =? 0)%nat then false
      else match Question m with
      | [] => false
      | q :: _ =>
          if negb (Qtype q =? TypeA) && negb (Qtype q =? TypeAAAA) then false
          else existsb (fun rr => SliceSubnetSet_Contains (bogusNXDomain p) (IPFromRR rr)) (Answer m)
      end
  end.

Definition override_ttl (p : Proxy) (rr : RR) : RR :=
  let original := ttl_of rr in
  let overridden := respectTTLOverrides original (cacheMinTTL p) (cacheMaxTTL p) in
  if original =? overridden then rr else set_Ttl overridden rr.

Definition setMinMaxTTL (p : Proxy) (r : Msg) : Msg :=
  set_Ns (override_ttl p <$> Ns r)
    (set_Extra (override_ttl p <$> Extra r) (set_Answer (override_ttl p <$> Answer r) r)).

Definition handleExchangeResult (p : Proxy) (d : DNSContext) (req : Msg) (resp : option Msg)
    (u : option Upstream) : DNSContext :=
  match resp with
  | Some resp =>
      if negb (length (Question resp) =? 1)%nat
      then set_flags (udpSize d) (adBit d) false (doBit d) (set_Res (Some (NewMsgSERVFAIL req)) d)
      else set_Res (Some (setMinMaxTTL p (set_Authoritative false resp))) (set_Upstream u d)
  | None => set_flags (udpSize d) (adBit d) false (doBit d) (set_Res (Some (NewMsgSERVFAIL req)) d)
  end.

Definition addDO (p : Proxy) (msg : Msg) : Msg :=
  if negb (dnsSecEnabled p) then msg
  else match opt_of msg with
  | Some o => if negb (Do o) then upd_opt (fun o => SetDo o true) msg else msg
  | None => SetEdns0 msg defaultUDPBufSize true
  end.

(** [exchangeUpstreams] with the wrapped upstreams. *)
Definition exchange_wrapped (p : Proxy) (req : Msg) (ups : list upstreamWithStats)
    (x : exchange_state (N := arena * N))
    : go (option Msg * option upstreamWithStats * option error * exchange_state (N := arena * N)) :=
  exchangeUpstreams (ws_Exchange net_ex Now) ws_Address (fun s => Now (snd s)) arrival take_order values ping
    (upstreamMode p) req ups x.

(** The exchange with the fallbacks: the wrapped fallbacks and the result. *)
Definition exchange_fallbacks (fb : UpstreamConfig) (req : Msg) (x : exchange_state (N := arena * N))
    : go (list upstreamWithStats * option Msg * option upstreamWithStats * option error
          * exchange_state (N := arena * N)) :=
  let! q := index (Question req) 0 in
  let! upstreams := getUpstreamsForDomain fb (QName q) in
  let '(wrapped, a) := upstreamsWithStats upstreams (fst (x_net x)) in
  let '(resp, u, err, n) := ExchangeParallel (ws_Exchange net_ex Now) arrival wrapped req (a, snd (x_net x)) in
  Ret (wrapped, resp, u, err, mkEx (x_rtt x) (x_ip x) n).

Definition replyFromUpstream (p : Proxy) (d : DNSContext) (s : proxy_state)
    : go (bool * option error * DNSContext * proxy_state) :=
  let! req := deref (Req d) in
  let! (upstreams, isPrivate) := selectUpstreams p d in
  match upstreams with
  | [] =>
      Ret (false, Some (Errorf "selecting upstream: %w" ErrNoUpstreams),
           set_Res (Some (NewMsgNXDOMAIN req)) d, s)
  | _ =>
      let! rec := if isPrivate then add (px_rec s) (px_now s) req else Ret (px_rec s) in
      let '(wrapped, a) := upstreamsWithStats upstreams [] in
      let! (resp, u, err, x) := exchange_wrapped p req wrapped (mkEx (px_rtt s) (px_ip s) (a, px_net s)) in
      let! (dns64Ups, resp, x) :=
        performDNS64 (dns64Prefs p) (fun m x => exchange_wrapped p m wrapped x) req resp
          (dns_Id (snd (x_net x))) x in
      let '(resp, u) :=
        match dns64Ups with
        | Some _ => (resp, dns64Ups)
        | None => (if isBogusNXDomain p resp then Some (NewMsgNXDOMAIN req) else resp, u)
        end in
      let! (wrappedFallbacks, resp, u, err, x) :=
        match err, isPrivate, fallbacks p with
        | Some _, false, Some fb => exchange_fallbacks fb req x
        | _, _, _ => Ret ([], resp, u, err, x)
        end in
      let! _ := match resp with Some _ => let! _ := deref u in Ret tt | None => Ret tt end in
      let '(unwrapped, stats) := collectQueryStats (upstreamMode p) u wrapped wrappedFallbacks (fst (x_net x)) in
      let d := handleExchangeResult p (set_stats (Some stats) d) req resp unwrapped in
      Ret (match resp with Some _ => true | None => false end, err, d,
           mkPx (px_cache s) rec (x_rtt x) (x_ip x) (snd (x_net x)))
  end.

(** [filterMsg(dctx.Res, dctx.Res, dctx.adBit, dctx.doBit, 0)] *)
Definition filter_res (d : DNSContext) : go DNSContext :=
  let! res := deref (Res d) in
  let! res := filterMsg res res (adBit d) (doBit d) 0 in
  Ret (set_Res (Some res) d).

(** The part of [Resolve] after a cache miss, or without the cache. *)
Definition resolve_upstream (p : Proxy) (cacheWorks : bool) (d : DNSContext) (s : proxy_state)
    : go (DNSContext * option error * proxy_state) :=
  let! (ok, err, d, s) := replyFromUpstream p d s in
  let! (pc, d) :=
    if cacheWorks && ok then
      let! res := deref (Res d) in
      if negb (CheckingDisabled (Hdr res)) then cacheResp (enableECS p) (px_cache s) (px_now s) d
      else Ret (px_cache s, d)
    else Ret (px_cache s, d) in
  let! d := match Res d with Some _ => filter_res d | None => Ret d end in
  Ret (scrub d, err, set_cache pc s).

(** [pending] is the result of the identical request that [queue] waited for,
    if there is one; the last component is the background refresh that the
    lookup starts. *)
Definition Resolve (p : Proxy) (pending : option pendingResult) (d : DNSContext) (s : proxy_state)
    : go (DNSContext * option error * proxy_state * option (DNSContext * bytes)) :=
  let! d := if enableECS p then processECS (ednsAddr p) d else Ret d in
  let d := calcFlagsAndSize d in
  let! works := cacheWorks (px_cache s) d in
  if works then
    let! req := deref (Req d) in
    let d := set_Req (Some (addDO p req)) d in
    match pending with
    | Some res => let! (d, err) := queue_resume d res in Ret (d, err, s, None)
    | None =>
        let! (hit, d, pc, refresh) := replyFromCache (enableECS p) (px_cache s) (px_now s) d in
        let s := set_cache pc s in
        if hit then let! d := filter_res d in Ret (scrub d, None, s, refresh)
        else let! (d, err, s) := resolve_upstream p true d s in Ret (d, err, s, None)
    end
  else let! (d, err, s) := resolve_upstream p false d s in Ret (d, err, s, None).

(** What [resolveOnce] does with the context of a refresh. *)
Definition refresh_once (p : Proxy) (d : DNSContext) (s : proxy_state) : go proxy_state :=
  let! (ok, _, d, s) := replyFromUpstream p d s in
  if ok then let! (pc, _) := cacheResp (enableECS p) (px_cache s) (px_now s) d in Ret (set_cache pc s) else Ret s.
End Resolve.
