(* ===== verification/ResolveFacts.v ===== *)
(** * Facts about resolving

    [replyFromUpstream] returns for every request with one question, whatever
    the upstreams do, asks only the upstreams that were selected or, for a
    request that is not private, the fallbacks, and leaves a response in the
    context. *)

From Stdlib Require Import QArith.
From S2P Require Import Prelude NetIP DnsMsg RefDns GlCache NetUtil Wire Cache CacheFacts CacheSpec Ecs.
From S2P Require Import Upstreams Dns64 Receipt Parallel Fastip Exchange Messages Stats Context Recursion.
From S2P Require Import ProxyCache ResolveCache Pending Resolve.
#[local] Open Scope Z_scope.

(** What the scheduler, the sampler and the clock promise; the fields of the
    messages of upstreams are in the range of their types. *)
Class OutsideLaws {GC : GlCache} {N : Type} (Out : Outside N) := {
  arrival_perm l s : arrival l s ≡ₚ l;
  take_order_spec ws s : Forall (fun w => (0 < w)%Q) ws -> take_order ws s ≡ₚ seq 0 (length ws);
  clock_monotone u m n r e n' : net_ex u m n = (r, e, n') -> Now n <= Now n';
  values_in l ip : In ip (values l) -> In ip l;
  ping_answers : pings_answer ping;
  net_typed u m n r e n' : net_ex u m n = (Some r, e, n') -> typed_msg r;
  now_range n : 0 <= Unix (Now n) < 2 ^ 62;
}.

(** A configuration of the proxy that was validated at the start. *)
Record proxy_ok (p : Proxy) : Prop := {
  ok_upstreams : exists uc, upstreamConf p = Some uc /\ conf_total uc;
  ok_private uc : privateRDNSUpstreamConfig p = Some uc -> conf_total uc;
  ok_fallbacks uc : fallbacks p = Some uc -> conf_total uc;
  ok_dns64 : dns64Prefs p = [] \/ wf_prefs (dns64Prefs p);
  ok_min : 0 <= cacheMinTTL p <= MaxUint32;
  ok_max : 0 <= cacheMaxTTL p <= MaxUint32;
  ok_ednsAddr : wf_bytes (slice (ednsAddr p));
}.

Section Facts.
Context {DL : DnsLib} {DLaws : DnsLaws} {GC : GlCache} {NU : NetUtil} {NL : NetUtilLaws}.
Context {MC : MessageConstructor} {ML : MessageLaws}.
Context {N : Type} {Out : Outside N} {OL : OutsideLaws Out}.

Definition custom_ok (d : DNSContext) : Prop :=
  forall cu, d_Custom d = Some cu -> exists uc, cu_upstream cu = Some uc /\ conf_total uc.

(** A request that passed the validation: it has one question. *)
Definition one_question (d : DNSContext) (req : Msg) (q : Question_t) : Prop :=
  Req d = Some req /\ Question req = [q].

Definition is_private (p : Proxy) (d : DNSContext) : Prop :=
  exists ups, selectUpstreams p d = Ret (ups, true).

(** The upstreams that may be asked for the request. *)
Definition asked (p : Proxy) (d : DNSContext) (u : Upstream) : Prop :=
  exists ups private, selectUpstreams p d = Ret (ups, private)
    /\ (In u ups \/ private = false /\ exists req q fb fbs, one_question d req q /\ fallbacks p = Some fb
          /\ getUpstreamsForDomain fb (QName q) = Ret fbs /\ In u fbs).

Lemma selectUpstreams_total p d req q :
  proxy_ok p -> custom_ok d -> one_question d req q ->
  exists ups private, selectUpstreams p d = Ret (ups, private).
Proof.
  intros Hp Hc [Hr Hq]. unfold selectUpstreams, index. rewrite Hr. cbn [deref gbind].
  rewrite Hq. cbn [lookup list_lookup gbind].
  assert (Hs : exists b, (if negb (bool_decide (RequestedPrivateRDNS d = zero_prefix)) then Ret true
                          else shouldStripDNS64 (dns64Prefs p) req) = Ret b).
  { case_goal; [eauto|]. unfold shouldStripDNS64, index. rewrite Hq. cbn [lookup list_lookup gbind].
    repeat case_goal; eauto. }
  destruct Hs as [b ->]. cbn [gbind].
  assert (Hget : forall uc, conf_total uc ->
    exists l, (if Qtype q =? TypeDS then getUpstreamsForDS else getUpstreamsForDomain) uc (QName q) = Ret l).
  { intros uc Huc. destruct (Huc (QName q)) as [[l Hl] [l' Hl']]. destruct (Qtype q =? TypeDS); eauto. }
  destruct b.
  - destruct (privateRDNSUpstreamConfig p) as [pr|] eqn:Epr; [|eauto].
    destruct (usePrivateRDNS p && IsPrivateClient d); [|eauto].
    destruct (ok_private p Hp pr Epr (QName q)) as [[l ->] _]. cbn. eauto.
  - destruct (ok_upstreams p Hp) as (uc0 & -> & Huc0). cbn [deref gbind]. destruct (Hget _ Huc0) as [l Hl].
    destruct (d_Custom d) as [cu|] eqn:Ecu.
    + destruct (Hc cu Ecu) as (uc & -> & Huc). cbn [deref gbind]. destruct (Hget uc Huc) as [l' ->].
      cbn [gbind]. destruct l'; [rewrite Hl|]; cbn; eauto.
    + cbn [gbind]. rewrite Hl. cbn. eauto.
Qed.

(** The operations on the wrapped upstreams, on the state of the outside. *)
Section Wrapped.
Context (P : Upstream -> Prop) (I : N -> Prop).
Hypothesis ex_keeps : forall u m n, P u -> I n -> I (snd (net_ex u m n)).

Lemma ws_keeps ups u m s :
  Forall P (ws_upstream <$> ups) -> In u ups -> I (snd s) -> I (snd (snd (ws_Exchange net_ex Now u m s))).
Proof using ex_keeps.
  intros Hf Hu Hs. destruct s as [a n]. cbn in Hs. unfold ws_Exchange.
  assert (HP : P (ws_upstream u)).
  { rewrite List.Forall_forall in Hf. apply Hf. apply (in_map ws_upstream) in Hu. exact Hu. }
  pose proof (ex_keeps _ m n HP Hs) as Hk. destruct (net_ex (ws_upstream u) m n) as [[r e] n']. exact Hk.
Qed.

Lemma arrival_in ups s u : In u (arrival ups s) -> In u ups.
Proof using OL. intros Hu. apply list_elem_of_In in Hu. rewrite arrival_perm in Hu. apply list_elem_of_In, Hu. Qed.

Lemma exchange_wrapped_total p m ups (x : exchange_state (N := arena * N)) :
  Forall P (ws_upstream <$> ups) -> Question m <> [] -> rtt_ok (x_rtt x) -> I (snd (x_net x)) ->
  exists r u e x', exchange_wrapped p m ups x = Ret (r, u, e, x')
    /\ rtt_ok (x_rtt x') /\ I (snd (x_net x')) /\ exchange_post (ws_Exchange net_ex Now) m ups r u e.
Proof using ex_keeps OL NL.
  intros Hf Hq Hr Hi. unfold exchange_wrapped.
  destruct (exchangeUpstreams_post (ws_Exchange net_ex Now) ws_Address (fun s => Now (snd s)) arrival take_order
    values ping (upstreamMode p)) with (req := m) (ups := ups) (s := x) as (r & u & e & x' & Hx & Hr' & Hp).
  - intros ws s. apply take_order_spec.
  - intros u m' [a n] r e [a' n']. unfold ws_Exchange. destruct (net_ex (ws_upstream u) m' n) as [[r0 e0] n0] eqn:E.
    intros [= _ _ _ <-]. cbn. eapply clock_monotone, E.
  - exact NL.
  - apply arrival_perm.
  - apply values_in.
  - apply ping_answers.
  - exact Hq.
  - exact Hr.
  - exists r, u, e, x'. split; [exact Hx|]. split; [exact Hr'|]. split; [|exact Hp].
    eapply (exchangeUpstreams_keeps _ _ _ _ _ _ _ _ ups (fun s => I (snd s))); [| |exact Hx|exact Hi].
    + intros. eapply ws_keeps; eauto.
    + intros s v. apply arrival_in.
Qed.

Lemma exchange_fallbacks_total p fb m q (x : exchange_state (N := arena * N)) :
  fallbacks p = Some fb -> proxy_ok p -> Question m = [q] -> rtt_ok (x_rtt x) -> I (snd (x_net x)) ->
  (forall fbs u, getUpstreamsForDomain fb (QName q) = Ret fbs -> In u fbs -> P u) ->
  exists w r u e x', exchange_fallbacks fb m x = Ret (w, r, u, e, x')
    /\ rtt_ok (x_rtt x') /\ I (snd (x_net x')) /\ exchange_post (ws_Exchange net_ex Now) m w r u e.
Proof using ex_keeps OL NL.
  intros Hfb Hp Hq Hr Hi HP. unfold exchange_fallbacks, index. rewrite Hq. cbn [lookup list_lookup gbind].
  destruct (ok_fallbacks p Hp fb Hfb (QName q)) as [[fbs Hfbs] _]. rewrite Hfbs. cbn [gbind].
  destruct (upstreamsWithStats fbs (fst (x_net x))) as [w a] eqn:Ew. injection Ew as <- <-.
  set (ws := wrap_from _ fbs). set (a := _ ++ _).
  assert (Hf : Forall P (ws_upstream <$> ws)).
  { unfold ws. rewrite wrap_from_upstreams. apply List.Forall_forall. intros u Hu. eapply HP; eauto. }
  pose proof (ExchangeParallel_keeps (ws_Exchange net_ex Now) arrival ws (fun s => I (snd s))
    (fun u m s => ws_keeps ws u m s Hf) (fun s v => arrival_in ws s v) m (a, snd (x_net x)) Hi) as Hk.
  destruct (ExchangeParallel _ _ ws m _) as [[[r u] e] n] eqn:Ex.
  do 5 eexists. split; [reflexivity|]. split; [exact Hr|]. split; [exact Hk|].
  eapply parallel_post; [|exact Ex]. apply arrival_perm.
Qed.
End Wrapped.

(** The context after an attempt to resolve. *)
Record replied (d d' : DNSContext) (res : Msg) : Prop := {
  rp_kept : kept d d';
  rp_Custom : d_Custom d' = d_Custom d;
  rp_Res : Res d' = Some res;
  rp_question : length (Question res) = 1%nat;
  rp_typed : typed_msg res;
}.

Lemma override_ttl_typed p rr : proxy_ok p -> typed_rr rr -> typed_rr (override_ttl p rr).
Proof.
  intros Hp [Ht Hd]. pose proof (ok_min p Hp). pose proof (ok_max p Hp). unfold override_ttl, respectTTLOverrides.
  repeat case_goal; split; cbn; auto; lia.
Qed.

Lemma setMinMaxTTL_typed p m : proxy_ok p -> typed_msg m -> typed_msg (setMinMaxTTL p m).
Proof.
  intros Hp (Ha & Hn & He)%typed_msg_sections.
  assert (Hf : forall l, Forall typed_rr l -> Forall typed_rr (override_ttl p <$> l)).
  { intros l Hl. apply Forall_fmap. eapply Forall_impl; [|exact Hl]. intros. apply override_ttl_typed; assumption. }
  apply typed_msg_sections. cbn. auto.
Qed.

(** Responses of wrapped upstreams have their fields in range. *)
Lemma exchange_post_typed m ups r u e :
  exchange_post (ws_Exchange net_ex Now) m ups (Some r) u e -> typed_msg r.
Proof using OL.
  unfold exchange_post. destruct e as [e|]; [intros [? _]; discriminate|].
  intros (u0 & _ & _ & r0 & [a1 n1] & [a2 n2] & Hx & Hr). unfold ws_Exchange in Hx.
  destruct (net_ex (ws_upstream u0) m n1) as [[r1 e1] n3] eqn:En. injection Hx as -> -> _ _.
  destruct Hr as [<-|(ip & m0 & m1 & -> & [= <-] & Hr)]; [eapply net_typed, En|].
  eapply reduced_typed; [exact Hr|]. eapply net_typed, En.
Qed.

Lemma setMinMaxTTL_question p m : Question (setMinMaxTTL p m) = Question m.
Proof. reflexivity. Qed.

Lemma handleExchangeResult_replied p d req q resp u :
  proxy_ok p -> Question req = [q] -> (forall m, resp = Some m -> typed_msg m) ->
  exists res, replied d (handleExchangeResult p d req resp u) res.
Proof using ML.
  intros Hp Hq Ht. pose proof (servfail_typed req) as Hst. assert (Hsf : length (Question (NewMsgSERVFAIL req)) = 1%nat).
  { destruct (servfail_replies req) as (_ & _ & _ & Hqu & _). rewrite Hqu, Hq; rewrite ?Hq; reflexivity. }
  unfold handleExchangeResult. destruct resp as [m|].
  - destruct (Nat.eqb_spec (length (Question m)) 1) as [Hl|Hl]; cbn [negb].
    + eexists. split; cbn; auto; [split; cbn; auto|]. apply (setMinMaxTTL_typed p); [exact Hp|].
      exact (Ht m eq_refl).
    + eexists. split; cbn; auto. split; cbn; auto.
  - eexists. split; cbn; auto. split; cbn; auto.
Qed.

Lemma replied_stats d d' st res : replied (set_stats st d) d' res -> replied d d' res.
Proof. intros [[] ?]. split; auto. split; auto. Qed.

(** The state between requests. *)
Definition px_ok (s : proxy_state (N := N)) : Prop := rtt_ok (px_rtt s) /\ rec_ok (px_rec s).

(** The part of [replyFromUpstream] that asks the fallbacks. *)
Lemma fallback_total p d req q ups private (I : N -> Prop) r u e (x : exchange_state (N := arena * N)) :
  proxy_ok p -> one_question d req q -> selectUpstreams p d = Ret (ups, private) ->
  (forall v m n, asked p d v -> I n -> I (snd (net_ex v m n))) -> rtt_ok (x_rtt x) -> I (snd (x_net x)) ->
  (r <> None -> u <> None) -> (forall m, r = Some m -> typed_msg m) ->
  exists w r3 u3 e3 x3,
    match e, private, fallbacks p with
    | Some _, false, Some fb => exchange_fallbacks fb req x
    | _, _, _ => Ret ([], r, u, e, x)
    end = Ret (w, r3, u3, e3, x3)
    /\ rtt_ok (x_rtt x3) /\ I (snd (x_net x3)) /\ (r3 <> None -> u3 <> None) /\ forall m, r3 = Some m -> typed_msg m.
Proof using OL NL.
  intros Hp Ho Hs Hk Hr Hi Hu Ht. destruct e as [e|]; [|eauto 12]. destruct private; [eauto 12|].
  destruct (fallbacks p) as [fb|] eqn:Efb; [|eauto 12].
  destruct (exchange_fallbacks_total (asked p d) I Hk p fb req q x) as (w & r3 & u3 & e3 & x3 & Hx3 & ? & ? & Hp3); auto.
  { apply Ho. }
  { intros fbs v Hfbs Hv. exists ups, false. split; [exact Hs|]. right. split; [reflexivity|]. exists req, q, fb, fbs. auto. }
  exists w, r3, u3, e3, x3. split; [exact Hx3|]. split; [assumption|]. split; [assumption|].
  split; [|intros m ->; eapply exchange_post_typed, Hp3].
  destruct e3; [destruct Hp3 as [-> _]; congruence|]. destruct Hp3 as (? & -> & _). discriminate.
Qed.

(** [replyFromUpstream] with any property [I] of the outside that exchanging
    with the upstreams that may be asked keeps. *)
Lemma replyFromUpstream_total p d req q s (I : N -> Prop) :
  proxy_ok p -> custom_ok d -> one_question d req q -> px_ok s -> I (px_net s) ->
  (forall u m n, asked p d u -> I n -> I (snd (net_ex u m n))) ->
  exists ok err d' s' res, replyFromUpstream p d s = Ret (ok, err, d', s')
    /\ px_cache s' = px_cache s /\ px_ok s' /\ I (px_net s') /\ replied d d' res.
Proof using DLaws ML NL OL.
  intros Hp Hc Ho [Hr Hrc] Hi Hk. destruct (selectUpstreams_total p d req q Hp Hc Ho) as (ups & private & Hs).
  pose proof Ho as [Hreq Hq]. assert (Hq' : Question req <> []) by (rewrite Hq; discriminate).
  unfold replyFromUpstream. rewrite Hreq. cbn [deref gbind]. rewrite Hs. cbn [gbind].
  destruct ups as [|u0 ups0] eqn:Eups.
  { do 5 eexists. split; [reflexivity|]. do 3 (split; [first [reflexivity|split|idtac]; assumption|]). split; cbn; auto; [split; cbn; auto| |apply nxdomain_typed].
    destruct (nxdomain_replies req) as (_ & _ & _ & Hqu & _). rewrite Hqu, Hq; rewrite ?Hq; reflexivity. }
  rewrite <- Eups in *. clear Eups u0 ups0.
  assert (Hrec : exists rec, (if private then add (px_rec s) (px_now s) req else Ret (px_rec s)) = Ret rec /\ rec_ok rec).
  { destruct private; [apply add_total, Hrc|eauto]. }
  destruct Hrec as (rec & -> & Hrc'). cbn [gbind].
  destruct (upstreamsWithStats ups []) as [wrapped a] eqn:Ew. injection Ew as <- <-. cbn [app length].
  set (ws := wrap_from 0 ups). set (a := replicate _ _).
  assert (HP : Forall (asked p d) (ws_upstream <$> ws)).
  { unfold ws. rewrite wrap_from_upstreams. apply List.Forall_forall. intros u Hu. exists ups, private. auto. }
  assert (Hex : forall m (x : exchange_state (N := arena * N)), Question m <> [] -> rtt_ok (x_rtt x) /\ I (snd (x_net x)) ->
    exists r u e x', exchange_wrapped p m ws x = Ret (r, u, e, x') /\ rtt_ok (x_rtt x') /\ I (snd (x_net x'))
      /\ exchange_post (ws_Exchange net_ex Now) m ws r u e).
  { intros m x Hm [H1 H2]. eapply exchange_wrapped_total; eauto. }
  match goal with |- context [exchange_wrapped p req ws ?x0] =>
    destruct (Hex req x0 Hq' (conj Hr Hi)) as (r & u & e & x & -> & Hr1 & Hi1 & Hpost) end.
  cbn [gbind].
  destruct (performDNS64_total (fun m x => exchange_wrapped p m ws x)
    (fun x => rtt_ok (x_rtt x) /\ I (snd (x_net x))) (dns64Prefs p) req q r (dns_Id (snd (x_net x))) x)
    as (du & r1 & x1 & Hd64 & [Hr2 Hi2] & Hnone & Hsome).
  { apply Hp. } { exact Hq. } { auto. }
  { intros m x' Hm Hx'. destruct (Hex m x' Hm Hx') as (r' & u' & e' & x'' & Hx'' & ? & ? & _). eauto 8. }
  rewrite Hd64. cbn [gbind].
  assert (Ht1 : forall m, r1 = Some m -> typed_msg m).
  { intros m ->. destruct r as [m0|]; [|destruct (Hnone eq_refl); discriminate].
    eapply (performDNS64_typed (fun m x => exchange_wrapped p m ws x)
      (fun x => rtt_ok (x_rtt x) /\ I (snd (x_net x)))); [| | | |exact Hd64]; auto.
    - eapply exchange_post_typed, Hpost.
    - intros m' x' r' u' x'' Hm' Hx' He'. destruct (Hex m' x' Hm' Hx') as (r2 & u2 & e2 & x2 & He2 & _ & _ & Hp2).
      rewrite He2 in He'. injection He' as -> -> -> ->. eapply exchange_post_typed, Hp2. }
  set (ru := match du with Some _ => _ | None => _ end).
  assert (Hru : fst ru <> None -> snd ru <> None).
  { unfold ru. destruct du; cbn; [discriminate|]. destruct e as [e|].
    - destruct Hpost as [-> ->]. destruct (Hnone eq_refl) as [_ ->]. cbn. auto.
    - destruct Hpost as (u1 & -> & _). discriminate. }
  assert (Htru : forall m, fst ru = Some m -> typed_msg m).
  { unfold ru. destruct du; cbn; [exact Ht1|]. case_goal; [intros m [= <-]; apply nxdomain_typed|exact Ht1]. }
  destruct ru as [r2 u2]. cbn [fst snd] in Hru, Htru.
  destruct (fallback_total p d req q ups private I r2 u2 e x1) as (w & r3 & u3 & e3 & x3 & Hfb & Hr3 & Hi3 & Hu3 & Ht3); auto.
  rewrite Hfb. cbn [gbind].
  assert (Hlog : (match r3 with Some _ => let! _ := deref u3 in Ret tt | None => Ret tt end) = Ret tt).
  { destruct r3; [|reflexivity]. destruct u3; [reflexivity|]. destruct Hu3; [discriminate|reflexivity]. }
  rewrite Hlog. cbn [gbind]. destruct (collectQueryStats _ _ _ _ _) as [unwrapped stats].
  destruct (handleExchangeResult_replied p (set_stats (Some stats) d) req q r3 unwrapped Hp Hq Ht3) as [res Hres].
  do 5 eexists. split; [reflexivity|]. split; [reflexivity|]. split; [split; assumption|]. split; [exact Hi3|].
  exact (replied_stats _ _ _ _ Hres).
Qed.
End Facts.
