(* ===== verification/ResolveSpec.v ===== *)
(** * What resolving promises

    [Resolve] returns for every request with one question and leaves a response
    that is filtered and sized for the client; the caches stay well formed; and
    requests for private addresses reach only the private upstreams. *)

From stdpp Require Import gmap.
From Stdlib Require Import QArith.
From S2P Require Import Prelude NetIP DnsMsg RefDns GlCache NetUtil Wire Cache CacheFacts CacheSpec Ecs.
From S2P Require Import Upstreams Dns64 Receipt Parallel Fastip Exchange Messages Stats Context Recursion.
From S2P Require Import ProxyCache ResolveCache Pending Resolve ResolveFacts.
#[local] Open Scope Z_scope.

Section Prepare.
Context {DL : DnsLib} {DLaws : DnsLaws} {GC : GlCache} {NU : NetUtil}.

(** [m'] is the request [m] with options or flags added to its OPT record, or
    with an OPT record added. *)
Record amended (m m' : Msg) : Prop := {
  am_hdr : Hdr m' = Hdr m;
  am_question : Question m' = Question m;
  am_some o : opt_of m = Some o -> exists o', opt_of m' = Some o' /\ UDPSize o' = UDPSize o;
  am_none : opt_of m = None -> match opt_of m' with Some o => UDPSize o <= 4096 | None => True end;
}.

#[global] Instance amended_refl : Reflexive amended.
Proof. intros m. split; eauto. intros ->. exact I. Qed.

Lemma insert_option_amended e m : amended m (insert_option e m).
Proof using DLaws.
  destruct (insert_option_others e m) as (Hh & Hq & _). split; auto.
  - intros o Ho. unfold insert_option. pose proof Ho as Ho'. unfold opt_of in Ho'.
    destruct (IsEdns0 m); [|discriminate]. exists (add_option e o).
    split; [apply opt_of_upd; [exact Ho|reflexivity]|apply udpsize_data].
  - intros Ho. pose proof (opt_of_None m Ho) as Hi. unfold insert_option. rewrite Hi.
    set (o := SetUDPSize _ 4096).
    rewrite (opt_of_append m (set_Extra (Extra m ++ [o]) m) o Hi); [|unfold o; apply setudpsize_type|reflexivity].
    unfold o. rewrite udpsize_set; unfold MaxUint16; lia.
Qed.

Lemma addDO_amended p m m' : amended m m' -> amended m (addDO p m').
Proof using DLaws.
  intros [Hh Hq Hs Hn]. unfold addDO. destruct (dnsSecEnabled p); cbn [negb]; [|split; assumption].
  destruct (opt_of m') as [o'|] eqn:Eo.
  - destruct (Do o'); cbn [negb]; [split; rewrite ?Eo; assumption|].
    destruct (upd_opt_others (fun o => SetDo o true) m') as (Hh' & Hq' & _).
    assert (He : opt_of (upd_opt (fun o => SetDo o true) m') = Some (SetDo o' true)).
    { apply (opt_of_upd (fun o => SetDo o true)); [exact Eo|intros; apply setdo_type]. }
    split; try congruence; rewrite He.
    + intros o Ho. destruct (Hs o Ho) as (o1 & [= <-] & Hu). eexists. rewrite setdo_udpsize. eauto.
    + rewrite setdo_udpsize. exact Hn.
  - destruct (setedns0_extra m' defaultUDPBufSize true) as (o & -> & Ht & _ & Hu).
    assert (He : opt_of (set_Extra (Extra m' ++ [o]) m') = Some o).
    { eapply opt_of_append; [apply opt_of_None, Eo|exact Ht|reflexivity]. }
    split; cbn; auto; rewrite He.
    + intros o1 Ho1. destruct (Hs o1 Ho1) as (? & [=] & _).
    + intros _. rewrite Hu; unfold defaultUDPBufSize, MaxUint16; lia.
Qed.

(** The request on its way to the upstreams: only [Req] and [ReqECS] differ. *)
Record prepared (d d' : DNSContext) : Prop := {
  pp_req req : Req d = Some req -> exists req', Req d' = Some req' /\ amended req req';
  pp_custom : d_Custom d' = d_Custom d;
  pp_rdns : RequestedPrivateRDNS d' = RequestedPrivateRDNS d;
  pp_private : IsPrivateClient d' = IsPrivateClient d;
  pp_Proto : d_Proto d' = d_Proto d;
  pp_addr : ClientAddr d' = ClientAddr d;
  pp_flags : udpSize d' = udpSize d /\ adBit d' = adBit d /\ hasEDNS0 d' = hasEDNS0 d /\ doBit d' = doBit d;
}.

#[global] Instance prepared_refl : Reflexive prepared.
Proof. intros d. split; eauto 6 using amended_refl. Qed.

Lemma wf_addr_slice a : wf_addr a -> wf_bytes (slice (AsSlice a)).
Proof. destruct a; cbn; try tauto. constructor. Qed.

Lemma setECS_wf m ip scope n m' :
  wf_bytes (slice ip) -> setECS m ip scope = (n, m') -> wf_net n /\ amended m m'.
Proof using DLaws.
  intros Hw. unfold setECS. destruct (To4 ip) as [ip4|] eqn:E4; intros [= <- <-];
    (split; [split; cbn [IPNet_IP IPNet_Mask]; [apply IP_Mask_wf; [|apply CIDRMask_wf]|apply CIDRMask_wf]
            |apply insert_option_amended]); [|exact Hw].
  pose proof (To4_wf ip Hw) as H4. rewrite E4 in H4. exact H4.
Qed.

Lemma processECS_prepared ip d req :
  Req d = Some req -> typed_msg req -> wf_bytes (slice ip) -> wf_addr (ClientAddr d) -> ecs_fine d ->
  exists d', processECS ip d = Ret d' /\ prepared d d' /\ ecs_fine d'.
Proof using DLaws.
  intros Hr Ht Hip Ha He. unfold processECS. rewrite Hr. cbn [deref gbind].
  match goal with |- context [match ?x with Some ecs => Ret _ | None => _ end] => destruct x as [n|] eqn:En end.
  - eexists. split; [reflexivity|]. split; [split; cbn; eauto 6 using amended_refl|].
    intros n' [= <-]. destruct (ecsFromMsg req) as [[n0 s]|] eqn:Ee; [|discriminate].
    case_hyp En; [|discriminate]. injection En as <-. eapply ecsFromMsg_wf; eauto.
  - match goal with |- context [let '(_, _) := ?x in _] => destruct x as [cliAddr cliIP] eqn:Ex end.
    assert (Hb : wf_bytes (slice cliIP)).
    { destruct ip; injection Ex as _ <-; [exact Hip|apply wf_addr_slice, Ha]. }
    case_goal; [|eexists; split; [reflexivity|split; [reflexivity|exact He]]].
    destruct (setECS req cliIP 0) as [n m'] eqn:Es. destruct (setECS_wf _ _ _ _ _ Hb Es) as [Hn Hm].
    eexists. split; [reflexivity|]. split; [|intros n' [= <-]; exact Hn].
    split; cbn; auto. intros req' Hreq'. rewrite Hr in Hreq'. injection Hreq' as <-. eauto.
Qed.
End Prepare.

(** ** The response a client gets *)

(** A response for a client that set DO, AD or sent an OPT record or not:
    DNSSEC records other than those asked for, an OPT record and the AD bit
    appear only if the client asked for them. *)
Record client_ready (do ad edns : bool) (res : Msg) : Prop := {
  cr_answer : exists q, Question res = [q]
    /\ (do = false -> Forall (fun r => isDNSSEC r = true -> rrtype r = Qtype q) (Answer res));
  cr_other : do = false -> Forall (fun r => isDNSSEC r = false) (Ns res ++ Extra res);
  cr_opt : edns = false -> Forall (fun r => rrtype r <> TypeOPT) (msg_rrs res);
  cr_ad : AuthenticatedData (Hdr res) = true -> ad = true \/ do = true;
}.

Section Present.
Context {DL : DnsLib} {DLaws : DnsLaws} {GC : GlCache} {NU : NetUtil}.

Lemma Forall_submseteq {A} (P : A -> Prop) l k : l ⊆+ k -> Forall P k -> Forall P l.
Proof.
  intros Hs Hk. rewrite list.Forall_forall in *. intros x Hx. apply Hk. eapply elem_of_submseteq; eauto.
Qed.

Lemma client_ready_shortened do ad edns m n :
  client_ready do ad edns m -> client_ready do ad edns (set_Compress true (Truncate m n)).
Proof using DLaws.
  intros [(q & Hq & Ha) Ho Hp Had]. destruct (truncate_sub m n) as (Ta & Tn & Te).
  apply sublist_submseteq in Ta, Tn. split; cbn.
  - exists q. rewrite truncate_question. split; [exact Hq|]. intros Hd. eapply Forall_submseteq; [exact Ta|auto].
  - intros Hd. eapply Forall_submseteq; [apply submseteq_app; eassumption|auto].
  - intros He. eapply Forall_submseteq; [unfold msg_rrs; repeat apply submseteq_app; eassumption|apply (Hp He)].
  - rewrite truncate_ad. exact Had.
Qed.

Lemma filter_res_ready d res q :
  Res d = Some res -> Question res = [q] ->
  exists r, filter_res d = Ret (set_Res (Some r) d) /\ client_ready (doBit d) (adBit d) false r.
Proof.
  intros Hr Hq. unfold filter_res. rewrite Hr. cbn [deref gbind]. unfold filterMsg, index. rewrite Hq.
  cbn [lookup list_lookup gbind]. eexists. split; [reflexivity|].
  set (a := filterRRSlice (Answer res) (doBit d) 0 (Qtype q)).
  set (n := filterRRSlice (Ns res) (doBit d) 0 TypeNone). set (x := filterRRSlice (Extra res) (doBit d) 0 TypeNone).
  pose proof (filterRRSlice_kept (Answer res) (doBit d) 0 (Qtype q) : Forall _ a) as Ha.
  pose proof (filterRRSlice_kept (Ns res) (doBit d) 0 TypeNone : Forall _ n) as Hn.
  pose proof (filterRRSlice_kept (Extra res) (doBit d) 0 TypeNone : Forall _ x) as Hx.
  split; cbn.
  - exists q. split; [exact Hq|]. intros Hd. rewrite Hd in Ha. apply filtered_asked, Ha.
  - intros Hd. rewrite Hd in *. rewrite Forall_app. auto using filtered_no_dnssec.
  - intros _. unfold msg_rrs. cbn. rewrite !Forall_app. split; [|split]; eapply filtered_no_opt; eassumption.
  - intros Had. to_prop. apply orb_true_iff. rewrite orb_comm. destruct (adBit d), (doBit d); auto.
Qed.

Lemma with_opt_ready do ad d res :
  client_ready do ad false res -> client_ready do ad (hasEDNS0 (calcFlagsAndSize d)) (with_opt d res).
Proof using DLaws.
  intros [(q & Hq & Ha) Ho Hp Had]. unfold with_opt.
  destruct (hasEDNS0 (calcFlagsAndSize d)); cbn [andb]; [|split; eauto].
  destruct (IsEdns0 res) as [i|]; [split; eauto; discriminate|].
  destruct (setedns0_extra res (udpSize (calcFlagsAndSize d)) (doBit (calcFlagsAndSize d))) as (o & -> & Ht & _).
  split; cbn; eauto; [|discriminate].
  intros Hd. rewrite app_assoc, Forall_app, Forall_singleton. split; [auto|].
  unfold isDNSSEC. rewrite Ht. reflexivity.
Qed.

(** The end of [Resolve]: the response is filtered and scrubbed. *)
Definition finished (d d' : DNSContext) : Prop :=
  exists dk df res, kept d dk /\ Res dk = Some res /\ length (Question res) = 1%nat
    /\ filter_res dk = Ret df /\ d' = scrub df.

Lemma finished_kept d d1 d' : kept d d1 -> finished d1 d' -> finished d d'.
Proof. intros Hk (dk & df & res & Hk' & H). exists dk, df, res. split; [etransitivity; eauto|exact H]. Qed.

Lemma finished_client d d' : finished d d' -> ClientAddr d' = ClientAddr d /\ d_Proto d' = d_Proto d.
Proof.
  intros (dk & df & res & Hk & Hres & _ & Hf & ->). unfold filter_res in Hf. rewrite Hres in Hf. cbn [deref gbind] in Hf.
  inv_bind Hf. injection Hf as <-. rewrite <- (k_addr _ _ Hk), <- (k_Proto _ _ Hk).
  unfold scrub. destruct (calcFlagsAndSize_same (set_Res (Some a) dk)) as (_ & _ & Hp & _ & _ & _ & _ & Ha).
  cbn [Res Req set_Res]. destruct (Req dk); cbn [ClientAddr d_Proto set_Res] in *; auto.
Qed.

(** The greatest size of a response. *)
Definition size_limit (d : DNSContext) (req : Msg) : Z :=
  if bool_decide (d_Proto d = ProtoUDP)
  then Z.max 512 (match opt_of req with Some o => UDPSize o | None => 512 end) else 65535.

Lemma finished_ready d d' req :
  finished d d' -> Req d = Some req -> (hasEDNS0 d = false -> udpSize d <> 0) ->
  exists res, Res d' = Some res /\ client_ready (doBit d) (adBit d) (hasEDNS0 d) res
    /\ forall b, Pack res = Ok b -> len b <= size_limit d req.
Proof using DLaws.
  intros (dk & df & res & Hk & Hres & Hl & Hf & ->) Hreq Hz.
  destruct (Question res) as [|q [|]] eqn:Eq; try discriminate Hl.
  destruct (filter_res_ready dk res q Hres Eq) as (r & Hf' & Hc). rewrite Hf in Hf'. injection Hf' as ->.
  assert (Hreq' : Req (set_Res (Some r) dk) = Some req) by (cbn; rewrite (k_Req _ _ Hk); exact Hreq).
  rewrite (scrub_eq _ req r Hreq' eq_refl). cbn [Res set_Res]. eexists. split; [reflexivity|].
  rewrite (k_do _ _ Hk), (k_ad _ _ Hk) in Hc. split.
  - apply client_ready_shortened.
    pose proof (with_opt_ready _ _ (set_Res (Some r) dk) r Hc) as [Hca Hco Hcp Had]. split; auto.
    intros He. apply Hcp. unfold calcFlagsAndSize. cbn [udpSize set_Res].
    rewrite (k_size _ _ Hk), (proj2 (Z.eqb_neq _ 0) (Hz He)). cbn.
    destruct (k_edns _ _ Hk) as [-> | ->]; auto.
  - intros b Hb. apply truncate_size in Hb. unfold size_limit. cbn [d_Proto set_Res] in Hb. rewrite (k_Proto _ _ Hk) in Hb.
    revert Hb. unfold dnsSize, MinMsgSize, MaxMsgSize. destruct (bool_decide _); cbn [negb]; [|lia].
    destruct (opt_of req); lia.
Qed.
End Present.

(** ** Resolving *)

Section Main.
Context {DL : DnsLib} {DLaws : DnsLaws} {GC : GlCache} {GLaws : GlCacheLaws} {NU : NetUtil} {NL : NetUtilLaws}.
Context {MC : MessageConstructor} {ML : MessageLaws}.
Context {N : Type} {Out : Outside N} {OL : OutsideLaws Out}.

Lemma scrub_custom d : d_Custom (scrub d) = d_Custom d.
Proof.
  unfold scrub. destruct (Res d), (Req d); cbn; auto; apply calcFlagsAndSize_same.
Qed.

Lemma finish_total d dk res :
  kept d dk -> Res dk = Some res -> length (Question res) = 1%nat ->
  exists df, filter_res dk = Ret df /\ finished d (scrub df) /\ d_Custom (scrub df) = d_Custom dk.
Proof using DLaws.
  intros Hk Hres Hl. destruct (Question res) as [|q [|]] eqn:Eq; try discriminate Hl.
  destruct (filter_res_ready dk res q Hres Eq) as (r & Hf & _). eexists. split; [exact Hf|].
  split; [|rewrite scrub_custom; reflexivity].
  exists dk, (set_Res (Some r) dk), res. rewrite Eq. auto.
Qed.

(** The choice of upstreams does not depend on what resolving changes. *)
Lemma selectUpstreams_ext p d d' req req' :
  Req d = Some req -> Req d' = Some req' -> Question req' = Question req ->
  RequestedPrivateRDNS d' = RequestedPrivateRDNS d -> IsPrivateClient d' = IsPrivateClient d ->
  option_map cu_upstream (d_Custom d') = option_map cu_upstream (d_Custom d) ->
  selectUpstreams p d' = selectUpstreams p d.
Proof.
  intros Hr Hr' Hq Hp Hc Hu. unfold selectUpstreams. rewrite Hr, Hr'. cbn [deref gbind]. rewrite Hq, Hp, Hc.
  unfold shouldStripDNS64. rewrite Hq. destruct (index (Question req) 0) as [q|]; [|reflexivity]. cbn [gbind].
  match goal with |- gbind ?a _ = gbind ?b _ => destruct b as [[]|]; try reflexivity end. cbn [gbind].
  destruct (d_Custom d) as [cu|], (d_Custom d') as [cu'|]; try discriminate; [|reflexivity].
  injection Hu as ->. reflexivity.
Qed.

Lemma resolve_upstream_fine p works d s req q (I : N -> Prop) :
  proxy_ok p -> custom_ok d -> Req d = Some req -> wf_req req q -> ecs_fine d ->
  caches_fine (enableECS p) (px_cache s) d -> px_ok s -> I (px_net s) ->
  (works = true -> cacheForContext (px_cache s) d <> None) ->
  (forall u m n, asked p d u -> I n -> I (snd (net_ex u m n))) ->
  exists d' err s', resolve_upstream p works d s = Ret (d', err, s') /\ finished d d'
    /\ caches_fine (enableECS p) (px_cache s') d' /\ px_ok s' /\ I (px_net s')
    /\ (works = false -> px_cache s' = px_cache s).
Proof using DLaws GLaws ML NL OL.
  intros Hp Hc Hr Hw He Hf Hrtt Hi Hk Hask. pose proof (wf_question _ _ Hw) as Hq. unfold resolve_upstream.
  destruct (replyFromUpstream_total p d req q s I) as (ok & err & d1 & s1 & res & -> & Hpc & Hrtt1 & Hi1 & [Hkd Hcu Hres Hql Hty]);
    auto; [split; assumption|].
  cbn [gbind]. pose proof (caches_fine_custom _ _ _ _ Hcu Hf) as Hf1.
  match goal with |- context [gbind ?m _] => assert (Hs : exists pc d2, m = Ret (pc, d2)
    /\ caches_fine (enableECS p) pc d2 /\ kept d1 d2 /\ Res d2 = Some res /\ (works = false -> pc = px_cache s)) end.
  { assert (Hno : exists pc d2, Ret (px_cache s1, d1) = Ret (pc, d2) /\ caches_fine (enableECS p) pc d2
      /\ kept d1 d2 /\ Res d2 = Some res /\ (works = false -> pc = px_cache s)).
    { exists (px_cache s1), d1. rewrite Hpc. repeat split; auto; apply Hf1. }
    destruct works; [|exact Hno]. destruct ok; [|exact Hno]. cbn [andb]. rewrite Hres. cbn [deref gbind].
    destruct (CheckingDisabled (Hdr res)); cbn [negb]; [exact Hno|].
    assert (Hcc : exists c, cacheForContext (px_cache s1) d1 = Some c).
    { rewrite Hpc. unfold cacheForContext in *. rewrite Hcu. destruct (match d_Custom d with Some _ => _ | None => _ end) as [c|]; [eauto|].
      destruct (Hk eq_refl eq_refl). }
    destruct Hcc as [c Hcc].
    destruct (cacheResp_fine (enableECS p) (px_cache s1) (px_now s1) d1 req res c) as (pc & d2 & -> & Hf2 & Hk2 & Hr2 & _); auto.
    - rewrite Hpc. exact Hf1.
    - intros n. rewrite (k_ECS _ _ Hkd). apply He.
    - rewrite (k_Req _ _ Hkd). exact Hr.
    - split; [eauto|]. split; [intros m [= <-]; apply typed_msg_ttls, Hty|apply now_range].
    - exists pc, d2. repeat (split; [auto; fail|]). discriminate. }
  destruct Hs as (pc & d2 & -> & Hf2 & Hk2 & Hr2 & Hw2). cbn [gbind]. rewrite Hr2.
  destruct (finish_total d d2 res) as (df & -> & Hfin & Hcu'); [etransitivity; eauto|exact Hr2|exact Hql|].
  cbn [gbind]. do 3 eexists. split; [reflexivity|]. split; [exact Hfin|].
  split; [eapply caches_fine_custom; [exact Hcu'|exact Hf2]|]. auto.
Qed.

Definition with_ecs (p : Proxy) (d : DNSContext) : go DNSContext :=
  if enableECS p then processECS (ednsAddr p) d else Ret d.

Lemma with_ecs_prepared p d req :
  proxy_ok p -> Req d = Some req -> typed_msg req -> wf_addr (ClientAddr d) -> ecs_fine d ->
  exists d', with_ecs p d = Ret d' /\ prepared d d' /\ ecs_fine d'.
Proof using DLaws.
  intros Hp Hr Ht Ha He. unfold with_ecs. destruct (enableECS p); [|exists d; split; [reflexivity|split; [reflexivity|exact He]]].
  eapply processECS_prepared; eauto. apply (ok_ednsAddr p Hp).
Qed.

Lemma cacheWorks_prepared pc d d' req req' :
  Req d = Some req -> Req d' = Some req' -> Hdr req' = Hdr req ->
  d_Custom d' = d_Custom d -> RequestedPrivateRDNS d' = RequestedPrivateRDNS d -> cacheWorks pc d' = cacheWorks pc d.
Proof. intros Hr Hr' Hh Hc Hp. unfold cacheWorks. rewrite Hr, Hr', Hc, Hp. cbn [deref gbind]. rewrite Hh. reflexivity. Qed.

Lemma cacheWorks_total pc d req :
  Req d = Some req -> exists b, cacheWorks pc d = Ret b /\ (b = true -> cacheForContext pc d <> None).
Proof.
  intros Hr. unfold cacheWorks, cacheForContext. rewrite Hr. cbn [deref gbind].
  destruct (d_Custom d) as [cu|]; [destruct (cu_cache cu)|]; destruct pc; try case_goal; eexists; split; try reflexivity; discriminate.
Qed.

(** What resolving has to be given: a request that passed the validation, in a
    context no flag of which is set yet, and caches of the proxy. *)
Record resolvable (p : Proxy) (d : DNSContext) (s : proxy_state (N := N)) (req : Msg) (q : Question_t) : Prop := {
  rs_proxy : proxy_ok p;
  rs_custom : custom_ok d;
  rs_Req : Req d = Some req;
  rs_req : wf_req req q;
  rs_typed : typed_msg req;
  rs_addr : wf_addr (ClientAddr d);
  rs_ecs : ecs_fine d;
  rs_caches : caches_fine (enableECS p) (px_cache s) d;
  rs_rtt : px_ok s;
  rs_fresh : udpSize d = 0 /\ hasEDNS0 d = false /\ doBit d = false;
}.

(** The context that [Resolve] finishes: that of the request with the subnet,
    its flags, and the DO bit if the cache works. *)
Record resolving (d d1 d2 : DNSContext) (req : Msg) : Prop := {
  rv_prepared : prepared d d1;
  rv_req : exists req2, Req d2 = Some req2 /\ amended req req2;
  rv_flags : exists req1, Req d1 = Some req1 /\ flags_of d2 req1;
  rv_Proto : d_Proto d2 = d_Proto d;
  rv_addr : ClientAddr d2 = ClientAddr d;
}.

(** A context on the way of the request [req] in [d] to its upstreams. *)
Record on_way (d d3 : DNSContext) (req : Msg) : Prop := {
  ow_req : exists req3, Req d3 = Some req3 /\ amended req req3;
  ow_custom : option_map cu_upstream (d_Custom d3) = option_map cu_upstream (d_Custom d);
  ow_rdns : RequestedPrivateRDNS d3 = RequestedPrivateRDNS d;
  ow_private : IsPrivateClient d3 = IsPrivateClient d;
  ow_ecs : ecs_fine d3;
}.

Lemma on_way_asked p d d3 req q u :
  Req d = Some req -> Question req = [q] -> on_way d d3 req -> asked p d3 u -> asked p d u.
Proof.
  intros Hr Hq [(req3 & Hr3 & Ha3) Hcu Hrd Hpv _] (ups & pr & Hsel & Hu). exists ups, pr. split.
  - rewrite <- Hsel. symmetry. eapply selectUpstreams_ext; [exact Hr|exact Hr3|apply Ha3|..]; assumption.
  - destruct Hu as [Hu|(-> & rq & q' & fb & fbs & [Hrq Hq'] & Hfb)]; [left; exact Hu|right].
    split; [reflexivity|]. exists req, q', fb, fbs. split; [split; [exact Hr|]|exact Hfb].
    rewrite Hr3 in Hrq. injection Hrq as <-. rewrite <- (am_question _ _ Ha3). exact Hq'.
Qed.

Lemma on_way_kept d d3 d4 req : on_way d d3 req -> kept d3 d4 -> on_way d d4 req.
Proof.
  intros [(req3 & Hr & Ha) Hc Hp Hv He] Hk. destruct Hk as [Hr' He' Hc' Hp' Hv' _ _ _ _ _ _].
  split; try congruence; [exists req3; split; [congruence|exact Ha]|]. unfold ecs_fine. rewrite He'. exact He.
Qed.

Lemma resolve_rest p works d d3 s3 req q (I : N -> Prop) :
  proxy_ok p -> custom_ok d -> Req d = Some req -> wf_req req q -> on_way d d3 req ->
  caches_fine (enableECS p) (px_cache s3) d3 -> px_ok s3 -> I (px_net s3) ->
  (works = true -> cacheForContext (px_cache s3) d3 <> None) ->
  (forall u m n, asked p d u -> I n -> I (snd (net_ex u m n))) ->
  exists d' err s', resolve_upstream p works d3 s3 = Ret (d', err, s') /\ finished d3 d'
    /\ caches_fine (enableECS p) (px_cache s') d' /\ px_ok s' /\ I (px_net s')
    /\ (works = false -> px_cache s' = px_cache s3).
Proof using DLaws GLaws ML NL OL.
  intros Hp Hc Hr Hw Hon Hf3 Hrtt Hi Hc3 Hask. pose proof Hon as [(req3 & Hr3 & Ha3) Hcu Hrd Hpv He3].
  apply (resolve_upstream_fine p works d3 s3 req3 q I); auto.
  - intros cu Hcud. rewrite Hcud in Hcu. destruct (d_Custom d) as [cu0|] eqn:Ecu; [|discriminate].
    destruct (Hc cu0 Ecu) as (uc & Huc & Htot). exists uc. injection Hcu as ->. auto.
  - destruct Hw. split; auto. rewrite (am_question _ _ Ha3). assumption.
  - intros u m n Hu. apply Hask. eapply on_way_asked; eauto. apply Hw.
Qed.

(** Resolving when the cache works: a lookup and, on a miss, the upstreams. *)
Lemma resolve_cached p d d3 s req q (I : N -> Prop) :
  proxy_ok p -> custom_ok d -> Req d = Some req -> wf_req req q -> on_way d d3 req ->
  caches_fine (enableECS p) (px_cache s) d3 -> px_ok s -> I (px_net s) ->
  cacheForContext (px_cache s) d3 <> None ->
  (forall u m n, asked p d u -> I n -> I (snd (net_ex u m n))) ->
  exists d' err s' rf,
    (let! (hit, d, pc, refresh) := replyFromCache (enableECS p) (px_cache s) (px_now s) d3 in
     let s := set_cache pc s in
     if hit then let! d := filter_res d in Ret (scrub d, None, s, refresh)
     else let! (d, err, s) := resolve_upstream p true d s in Ret (d, err, s, None)) = Ret (d', err, s', rf)
    /\ finished d3 d'
    /\ caches_fine (enableECS p) (px_cache s') d' /\ px_ok s' /\ I (px_net s').
Proof using DLaws GLaws ML NL OL.
  intros Hp Hc Hr Hw Hon Hf Hrtt Hi Hcc Hask. pose proof Hon as [(req3 & Hr3 & Ha3) _ _ _ He3].
  destruct (cacheForContext (px_cache s) d3) as [c|] eqn:Ec; [|destruct (Hcc eq_refl)].
  destruct (replyFromCache_fine (enableECS p) (px_cache s) (px_now s) d3 req3 c) as (hit & d4 & pc & rf & -> & Hf4 & Hk4 & Hh4 & Hcc4 & Hhit); auto.
  { rewrite (am_question _ _ Ha3), (wf_question _ _ Hw). reflexivity. }
  cbn [gbind]. destruct hit.
  - destruct (Hhit eq_refl) as (res & Hres & Hqr).
    destruct (finish_total d4 d4 res) as (df & -> & Hfin & Hcu); [reflexivity|exact Hres| |].
    { rewrite Hqr, (am_question _ _ Ha3), (wf_question _ _ Hw). reflexivity. }
    cbn [gbind]. do 4 eexists. split; [reflexivity|]. split; [eapply finished_kept; eauto|].
    split; [eapply caches_fine_custom; [exact Hcu|exact Hf4]|auto].
  - destruct (resolve_rest p true d d4 (set_cache pc s) req q I) as (d' & err & s' & -> & Hfin & Hf' & Hrtt' & Hi' & _); auto.
    { eapply on_way_kept; eauto. }
    cbn [gbind]. do 4 eexists. split; [reflexivity|]. eauto 10 using finished_kept.
Qed.

Lemma Resolve_main p d s req q (I : N -> Prop) :
  resolvable p d s req q -> I (px_net s) -> (forall u m n, asked p d u -> I n -> I (snd (net_ex u m n))) ->
  exists d1 d2 d' err s' rf, with_ecs p d = Ret d1 /\ Resolve p None d s = Ret (d', err, s', rf)
    /\ resolving d d1 d2 req /\ finished d2 d'
    /\ caches_fine (enableECS p) (px_cache s') d' /\ px_ok s' /\ I (px_net s')
    /\ (cacheWorks (px_cache s) d = Ret false -> px_cache s' = px_cache s /\ rf = None).
Proof using DLaws GLaws ML NL OL.
  intros [Hp Hc Hr Hw Ht Ha He Hf Hrtt (Hz & Hh & Hd)] Hi Hask.
  destruct (with_ecs_prepared p d req Hp Hr Ht Ha He) as (d1 & Hd1 & Hpr & He1).
  pose proof Hpr as [Hreq Hcu Hrd Hpv Hpt Hpa (Hz1 & Had1 & Hh1 & Hd1')]. destruct (Hreq req Hr) as (req1 & Hr1 & Ham).
  unfold Resolve. fold (with_ecs p d). rewrite Hd1. cbn [gbind].
  destruct (calcFlagsAndSize_same d1) as (Sr & _ & Sp & Se & Sc & Srd & Spv & Sa).
  pose proof (calcFlagsAndSize_fresh d1 req1 ltac:(congruence) ltac:(congruence) ltac:(congruence) Hr1) as Hfl.
  set (d2 := calcFlagsAndSize d1) in *. rewrite Hr1 in Sr.
  destruct (cacheWorks_total (px_cache s) d2 req1 Sr) as (works & Hcw & Hcc).
  assert (Hcw' : cacheWorks (px_cache s) d = Ret works).
  { rewrite <- Hcw. symmetry. eapply cacheWorks_prepared; [exact Hr|exact Sr|apply Ham|congruence|congruence]. }
  assert (He2 : ecs_fine d2) by (unfold ecs_fine; rewrite Se; exact He1).
  assert (Hf2 : caches_fine (enableECS p) (px_cache s) d2) by (eapply caches_fine_custom; [|exact Hf]; congruence).
  rewrite Hcw, Hcw', Sr. cbn [gbind deref]. destruct works.
  - pose proof (addDO_amended p req req1 Ham) as Ham2. set (d3 := set_Req (Some (addDO p req1)) d2).
    destruct (resolve_cached p d d3 s req q I) as (d' & err & s' & rf & Hrun & Hfin & Hf' & Hrtt' & Hi'); auto.
    { split; cbn; eauto; congruence. }
    exists d1, d3, d', err, s', rf. split; [reflexivity|]. split; [exact Hrun|].
    split; [split; cbn; eauto; congruence|]. do 4 (split; [assumption|]). discriminate.
  - destruct (resolve_rest p false d d2 s req q I) as (d' & err & s' & -> & Hfin & Hf' & Hrtt' & Hi' & Hpc); auto; try discriminate.
    { split; eauto; congruence. }
    exists d1, d2, d', err, s', None. cbn [gbind]. do 2 (split; [reflexivity|]).
    split; [split; eauto; congruence|]. do 4 (split; [assumption|]). auto.
Qed.

(** The upstreams for private addresses, if the client may use them. *)
Definition private_upstream (p : Proxy) (d : DNSContext) (q : Question_t) (u : Upstream) : Prop :=
  usePrivateRDNS p = true /\ IsPrivateClient d = true
  /\ exists uc ups, privateRDNSUpstreamConfig p = Some uc /\ getUpstreamsForDomain uc (QName q) = Ret ups /\ In u ups.

Lemma asked_private p d req q u :
  Req d = Some req -> Question req = [q] -> RequestedPrivateRDNS d <> zero_prefix -> asked p d u -> private_upstream p d q u.
Proof.
  intros Hr Hq Hp (ups & pr & Hs & Hu). unfold selectUpstreams, index in Hs. rewrite Hr in Hs. cbn [deref gbind] in Hs.
  rewrite Hq, bool_decide_false in Hs by exact Hp. cbn [lookup list_lookup gbind negb] in Hs.
  destruct (privateRDNSUpstreamConfig p) as [uc|] eqn:Euc; [|injection Hs as <- <-; destruct Hu as [[]|[? _]]; discriminate].
  destruct (usePrivateRDNS p) eqn:Eu; [|injection Hs as <- <-; destruct Hu as [[]|[? _]]; discriminate].
  destruct (IsPrivateClient d) eqn:Ec; [|injection Hs as <- <-; destruct Hu as [[]|[? _]]; discriminate].
  cbn [andb] in Hs. inv_bind Hs. injection Hs as <- <-. destruct Hu as [Hu|[? _]]; [|discriminate].
  unfold private_upstream. eauto 10.
Qed.

Lemma cacheWorks_private pc d req :
  Req d = Some req -> RequestedPrivateRDNS d <> zero_prefix -> cacheWorks pc d = Ret false.
Proof.
  intros Hr Hp. unfold cacheWorks. rewrite bool_decide_false by exact Hp. cbn [negb].
  destruct (d_Custom d) as [cu|]; [destruct (cu_cache cu)|]; destruct pc; reflexivity.
Qed.

End Main.

Module ResolveExamples.
(** Upstreams that answer with an address, a signature and, for [fail], not at
    all; the state is the list of the upstreams asked. *)
Definition u1 : Upstream := mkUpstream 1 (str "192.0.2.53:53").
Definition u2 : Upstream := mkUpstream 2 (str "10.0.0.53:53").
Definition records : list RR :=
  [mkRR (mkHdr (str "a.test.") TypeA ClassINET 60) (RD_A (Some [192; 0; 2; 7]));
   mkRR (mkHdr (str "a.test.") TypeRRSIG ClassINET 60) (RD_Other [])].
Definition ex (u : Upstream) (m : Msg) (n : list nat) : option Msg * option error * list nat :=
  (Some (set_Answer records (SetRcode empty_msg m 0)), None, n ++ [u_id u]).

#[global] Instance out : Outside (list nat) := {|
  net_ex := ex;
  Now _ := 1700000000 * Second;
  arrival l _ := l;
  take_order ws _ := seq 0 (length ws);
  values l := l;
  ping _ g := ([], g);
  dns_Id _ := 7;
|}.

#[global] Instance out_laws : OutsideLaws out.
Proof.
  split; cbn; auto; try reflexivity.
  - intros sched g r [].
  - intros u m n r e n' [= <- _ _]. apply typed_msg_sections. cbn.
    repeat split; repeat constructor; vm_compute; discriminate.
  - intros _. vm_compute. split; [discriminate|reflexivity].
Qed.

Definition conf (l : list Upstream) : UpstreamConfig := mkUpstreamConfig ∅ ∅ ∅ l.

Lemma conf_fine l : conf_total (conf l).
Proof.
  apply parsed_total. exists ∅. split; [reflexivity|]. split; [reflexivity|].
  intros x. rewrite dom_empty, elem_of_empty. tauto.
Qed.

(** Client subnets, DNSSEC and private resolving on. *)
Definition p : Proxy :=
  mkProxy (Some (conf [u1])) (Some (conf [u2])) (Some (conf [u1])) true (fun _ => false) [] [] [] true true None false 0 0.
Definition req (name : bytes) (ty : Z) : Msg :=
  mkMsg (mkMsgHdr 9 false 0 false false true false false false false 0) false [mkQ name ty ClassINET] [] [] [].
Definition a_q : Question_t := mkQ (str "a.test.") TypeA ClassINET.
Definition ptr_q : Question_t := mkQ (str "1.0.0.10.in-addr.arpa.") TypePTR ClassINET.
Definition client : Addr := Addr4 [198; 51; 100; 7].
Definition d : DNSContext := newDNSContext ProtoUDP (Some (req (QName a_q) TypeA)) client 1.
(** A question for a private address, from a private client. *)
Definition d_private : DNSContext :=
  set_private true (set_RDNS (mkPrefix (Addr4 [10; 0; 0; 1]) 32)
    (newDNSContext ProtoUDP (Some (req (QName ptr_q) TypePTR)) (Addr4 [10; 0; 0; 2]) 2)).
Definition s : proxy_state (N := list nat) :=
  mkPx (Some (newCache (mkCacheConfig 0 0 0 true false))) (newRecursionDetector Second 1000) [] [] [].

Lemma p_ok : proxy_ok p.
Proof.
  split; cbn; [eexists; split; [reflexivity|apply conf_fine]|..]; try (intros uc [= <-]); try apply conf_fine; auto;
    try (unfold MaxUint32; lia). constructor.
Qed.

Lemma fine dd : ecs_fine dd -> d_Custom dd = None -> caches_fine true (px_cache s) dd.
Proof.
  intros _ Hc. split; [|intros cu c Hcu; congruence]. intros c [= <-]. apply cache_fine_new. reflexivity.
Qed.

Lemma d_resolvable : resolvable p d s (req (QName a_q) TypeA) a_q.
Proof.
  split; try (cbn; congruence).
  - apply p_ok.
  - intros cu [=].
  - split; [reflexivity|vm_compute; split; discriminate|vm_compute; split; discriminate|].
    repeat constructor; vm_compute; reflexivity.
  - constructor.
  - split; [reflexivity|]. repeat constructor; vm_compute; discriminate.
  - intros n [=].
  - apply fine; [intros n [=]|reflexivity].
  - split; [constructor|apply rec_ok_new].
  - auto.
Qed.

Lemma private_resolvable : resolvable p d_private s (req (QName ptr_q) TypePTR) ptr_q.
Proof.
  split; try (cbn; congruence).
  - apply p_ok.
  - intros cu [=].
  - split; [reflexivity|vm_compute; split; discriminate|vm_compute; split; discriminate|].
    repeat constructor; vm_compute; reflexivity.
  - constructor.
  - split; [reflexivity|]. repeat constructor; vm_compute; discriminate.
  - intros n [=].
  - apply fine; [intros n [=]|reflexivity].
  - split; [constructor|apply rec_ok_new].
  - auto.
Qed.
End ResolveExamples.



(** With client subnets on, a client that sent no OPT record gets one.  The
    comment in [scrub] cites RFC 6891, by which a response must not have an OPT
    record if the request has none; but [processECS] adds the subnet to the
    request before [calcFlagsAndSize] looks for the record, so that [scrub] adds
    one to the response of the example, where [Resolve] without client subnets
    does not. *)
Theorem opt_without_request :
  let has_opt p :=
    let! (d', _, _, _) := Resolve p None ResolveExamples.d ResolveExamples.s in
    Ret (option_map (fun r => negb (bool_decide (opt_of r = None))) (Res d')) in
  let off := mkProxy (Some (ResolveExamples.conf [ResolveExamples.u1])) None None false (fun _ => false) [] [] [] true false None
               false 0 0 in
  opt_of (ResolveExamples.req (QName ResolveExamples.a_q) TypeA) = None
  /\ has_opt ResolveExamples.p = Ret (Some true) /\ has_opt off = Ret (Some false).
Proof. vm_compute. repeat split. Qed.
