(* ===== verification/Server.v ===== *)
(** * The servers (proxy/server.go, serverudp.go, servertcp.go, the responders of
      serverhttps.go, serverquic.go and serverdnscrypt.go, requesthandler.go and
      [validateRequest] of proxy.go)

    From the bytes of a client to the bytes of the answer: unpacking, the
    validation of requests, the handlers, and writing the response over the
    protocol of the request.  Reading from sockets and the TLS, HTTP and QUIC
    layers are the outside. *)

From stdpp Require Import gmap.
From Stdlib Require Import QArith.
From S2P Require Import Prelude NetIP DnsMsg RefDns GlCache NetUtil NetParse Wire Cache CacheFacts CacheSpec Ecs.
From S2P Require Import Upstreams Dns64 Receipt Parallel Fastip Exchange Messages Stats Context Recursion.
From S2P Require Import ProxyCache ResolveCache Pending Resolve ResolveFacts ResolveSpec.
#[local] Open Scope Z_scope.

(** Writing to clients. *)
Class Conns (N : Type) := {
  (** [netutil.UDPWrite] to an address, from a local one. *)
  UDPWrite : bytes -> Addr -> Addr -> N -> Z * option error * N;
  (** [WriteTo] of buffers and [Close] of a stream connection; whether it is
      closed. *)
  conn_Write : bytes -> N -> option error * N;
  conn_Close : N -> option error * N;
  conn_closed : N -> bool;
  (** A QUIC stream and its connection. *)
  stream_Write : bytes -> N -> Z * option error * N;
  CloseWithError : Z -> N -> N;
  (** [http.Error] with a status, and a body with the headers set before. *)
  http_Error : Z -> N -> N;
  http_Write : list (bytes * bytes) -> bytes -> N -> option error * N;
  (** [dnscrypt.ResponseWriter] *)
  WriteMsg : Msg -> N -> option error * N;
  (** [validate.Equal] of golibs *)
  validate_Equal : Z -> Z -> option error;
}.

(** The fields of the context that only the responders read. *)
Record session := mkSession {
  localIP : Addr;
  DoQVersion : Z;
  ProtoMajor : Z;
  ServerHeader : bytes;
}.

Definition DoQv1Draft : Z := 0.
Definition DoQv1 : Z := 1.
Definition DoQCodeInternalError : Z := 1.
Definition StatusInternalServerError : Z := 500.

Definition ErrDrop : error := New "drop response".
Definition is_drop (err : option error) : bool :=
  match err with Some e => errors_Is e "drop response" | None => false end.

(** [errors.Join(a, b)] *)
Definition join2 (a b : option error) : option error := join_errors (option_list a ++ option_list b).

Section Server.
Context {DL : DnsLib} {GC : GlCache} {NU : NetUtil} {MC : MessageConstructor}.
Context {N : Type} {Out : Outside N} {Co : Conns N}.

(** ** Responding *)

Definition respondUDP (resp : option Msg) (raddr laddr : Addr) (n : N) : option error * N :=
  match resp with
  | None => (None, n)
  | Some resp =>
      match Pack resp with
      | Err e => (Some (Errorf "packing message: %w" e), n)
      | Ok b =>
          let '(k, err, n) := UDPWrite b raddr laddr n in
          match err with
          | Some e => (Some (Errorf "writing message: %w" e), n)
          | None => (validate_Equal k (len b), n)
          end
      end
  end.

Definition respondTCP (resp : option Msg) (n : N) : option error * N :=
  match resp with
  | None => conn_Close n
  | Some resp =>
      match Pack resp with
      | Err e => (Some (Errorf "packing message: %w" e), n)
      | Ok b =>
          match writePrefixed b with
          | Err e => (Some (Errorf "writing message: %w" e), n)
          | Ok frame =>
              let '(err, n) := conn_Write frame n in
              (match err with Some e => Some (Errorf "writing message: %w" e) | None => None end, n)
          end
      end
  end.

Definition respondHTTPS (ss : session) (resp : option Msg) (n : N) : option error * N :=
  match resp with
  | None => (None, http_Error StatusInternalServerError n)
  | Some resp =>
      match Pack resp with
      | Err e => (Some (Errorf "packing message: %w" e), http_Error StatusInternalServerError n)
      | Ok b =>
          let server := match ServerHeader ss with [] => [] | h => [(str "Server", h)] end in
          let length := if ProtoMajor ss =? 1 then [(str "Content-Length", Itoa (len b))] else [] in
          http_Write (server ++ [(str "Content-Type", str "application/dns-message")] ++ length) b n
      end
  end.

Definition respondQUIC (ss : session) (resp : option Msg) (n : N) : option error * N :=
  match resp with
  | None => (Some (New "no response to write"), CloseWithError DoQCodeInternalError n)
  | Some resp =>
      match Pack resp with
      | Err e => (Some (Errorf "couldn't convert message into wire format: %w" e), n)
      | Ok b =>
          let buf :=
            if DoQVersion ss =? DoQv1 then let? prefix := LengthPrefix (len b) in Ok (prefix ++ b)
            else if DoQVersion ss =? DoQv1Draft then Ok b
            else Err (New "invalid protocol version: %d") in
          match buf with
          | Err e => (Some e, n)
          | Ok buf =>
              let '(k, err, n) := stream_Write buf n in
              match err with
              | Some e => (Some (Errorf "conn.Write(): %w" e), n)
              | None => (if negb (k =? len buf) then Some (New "conn.Write() returned with %d != %d") else None, n)
              end
          end
      end
  end.

Definition respondDNSCrypt (resp : option Msg) (n : N) : option error * N :=
  match resp with None => (None, n) | Some resp => WriteMsg resp n end.

Definition respond (d : DNSContext) (ss : session) (n : N) : option error * N :=
  match d_Proto d with
  | ProtoUDP => respondUDP (Res d) (ClientAddr d) (localIP ss) n
  | ProtoTCP => respondTCP (Res d) n
  | ProtoTLS => respondTCP (Res d) n
  | ProtoHTTPS => respondHTTPS ss (Res d) n
  | ProtoQUIC => respondQUIC ss (Res d) n
  | ProtoDNSCrypt => respondDNSCrypt (Res d) n
  | ProtoNone => (Some (New "SHOULD NOT HAPPEN - unknown protocol: %s"), n)
  end.

(** ** Handling *)

Definition isForbiddenARPA (privateNets : Addr -> bool) (d : DNSContext) : go (bool * DNSContext) :=
  let! req := deref (Req d) in
  let! q := index (Question req) 0 in
  if (Qtype q =? TypePTR) || (Qtype q =? TypeSOA) || (Qtype q =? TypeNS) then
    match ExtractReversedAddr (QName q) with
    | Err _ => Ret (false, d)
    | Ok requestedPref =>
        if privateNets (Prefix_Addr requestedPref)
        then Ret (negb (IsPrivateClient d), set_RDNS requestedPref d)
        else Ret (false, d)
    end
  else Ret (false, d).

(** The response for an invalid request, if any. *)
Definition validateRequest (p : Proxy) (d : DNSContext) (s : proxy_state)
    : go (option Msg * DNSContext * proxy_state) :=
  let! req := deref (Req d) in
  if negb (length (Question req) =? 1)%nat then Ret (Some (NewMsgFORMERR req), d, s)
  else
    let! q := index (Question req) 0 in
    if refuseAny p && (Qtype q =? TypeANY) then Ret (Some (NewMsgNOTIMPLEMENTED req), d, s)
    else
      let! (recursive, rec) := check (px_rec s) (px_now s) req in
      let s := set_rec rec s in
      if recursive then Ret (Some (NewMsgNXDOMAIN req), d, s)
      else
        let! (forbidden, d) := isForbiddenARPA (privateNets p) d in
        Ret (if forbidden then Some (NewMsgNXDOMAIN req) else None, d, s).

Definition handler : Type := DNSContext -> proxy_state (N := N) -> go (option error * DNSContext * proxy_state (N := N)).

(** [DefaultHandler.ServeDNS]; the refresh that [Resolve] may start runs on its
    own. *)
Definition DefaultHandler (p : Proxy) (pending : option pendingResult) : handler := fun d s =>
  let! (d, err, s, _) := Resolve p pending d s in Ret (err, d, s).

Definition set_net (n : N) (s : proxy_state (N := N)) : proxy_state (N := N) :=
  mkPx (px_cache s) (px_rec s) (px_rtt s) (px_ip s) n.

(** [h] and [rh] are [p.requestHandler] and [p.responseHandler]. *)
Definition processDNSRequest (p : Proxy) (h : handler) (rh : option handler) (ss : session) : handler := fun d s =>
  let! req := deref (Req d) in
  if Response (Hdr req) then Ret (Some ErrDrop, d, s)
  else
    let d := set_private (privateNets p (ClientAddr d)) d in
    let! (d, s) :=
      match Res d with
      | Some _ => Ret (d, s)
      | None => let! (res, d, s) := validateRequest p d s in Ret (set_Res res d, s)
      end in
    let! (err, d, s) := match Res d with Some _ => Ret (None, d, s) | None => h d s end in
    if is_drop err then Ret (Some ErrDrop, d, s)
    else
      let! (perr, d, s) := match rh with Some rh => rh d s | None => Ret (None, d, s) end in
      if is_drop perr then Ret (Some ErrDrop, d, s)
      else
        let err := match rh with Some _ => join2 err perr | None => err end in
        let '(werr, n) := respond d ss (px_net s) in
        Ret (join2 err werr, d, set_net n s).

(** [pipeline] is [p.requestPipeline]: [processDNSRequest] in the middleware of
    the configuration. *)
Definition handleDNSRequest (pipeline : session -> handler) (ss : session) : handler := fun d s =>
  let! (err, d, s) := pipeline ss d s in
  Ret (if is_drop err then None else err, d, s).

(** ** UDP and TCP *)

Definition udpHandlePacket (pipeline : session -> handler) (packet : bytes) (laddr raddr : Addr) (id : Z)
    (s : proxy_state) : go proxy_state :=
  let '(req, err) := Unpack packet in
  let d := newDNSContext ProtoUDP (Some req) raddr id in
  let ss := mkSession laddr 0 0 [] in
  let run d := let! (_, _, s) := handleDNSRequest pipeline ss d s in Ret s in
  match err with
  | None => run d
  | Some _ =>
      if bool_decide (Hdr req = empty_hdr) then Ret s
      else run (set_Res (Some (NewMsgFORMERR req)) d)
  end.

(** The next request and the rest of the stream [conn], or [None] if reading or
    unpacking fails. *)
Definition readDNSReq (conn : bytes) (closed : bool) : option (Msg * bytes) :=
  if closed then None
  else match readPrefixed conn with
  | Err _ => None
  | Ok (packet, rest) => match Unpack packet with (req, None) => Some (req, rest) | (_, Some _) => None end
  end.

(** The loop of [handleTCPConnection]; [started] is [p.isStarted()], [id] the
    request counter. *)
Fixpoint tcp_loop (fuel : nat) (pipeline : session -> handler) (started : proxy_state -> bool) (proto : Proto)
    (raddr : Addr) (conn : bytes) (id : Z) (s : proxy_state) : go proxy_state :=
  match fuel with
  | O => Ret s
  | S f =>
      if negb (started s) then Ret s
      else match readDNSReq conn (conn_closed (px_net s)) with
      | None => Ret s
      | Some (req, rest) =>
          let d := newDNSContext proto (Some req) raddr id in
          let! (_, _, s) := handleDNSRequest pipeline (mkSession AddrZero 0 0 []) d s in
          tcp_loop f pipeline started proto raddr rest (id + 1) s
      end
  end.

(** A stream of [k] bytes has at most [k / 2] requests. *)
Definition handleTCPConnection (pipeline : session -> handler) (started : proxy_state -> bool) (proto : Proto)
    (raddr : Addr) (conn : bytes) (id : Z) (s : proxy_state) : go proxy_state :=
  let! s := tcp_loop (S (length conn)) pipeline started proto raddr conn id s in
  Ret (set_net (snd (conn_Close (px_net s))) s).
End Server.

(** ** Facts *)

Section ServerFacts.
Context {DL : DnsLib} {DLaws : DnsLaws} {GC : GlCache} {GLaws : GlCacheLaws} {NU : NetUtil} {NL : NetUtilLaws}.
Context {MC : MessageConstructor} {ML : MessageLaws}.
Context {N : Type} {Out : Outside N} {OL : OutsideLaws Out} {Co : Conns N}.

(** *** Streams *)

(** Serving requests one by one. *)
Fixpoint serve_all (pipeline : session -> handler) (started : proxy_state -> bool) (proto : Proto) (raddr : Addr)
    (reqs : list Msg) (id : Z) (s : proxy_state (N := N)) : go (proxy_state (N := N)) :=
  match reqs with
  | [] => Ret s
  | req :: reqs =>
      if negb (started s) || conn_closed (px_net s) then Ret s
      else
        let! (_, _, s) :=
          handleDNSRequest pipeline (mkSession AddrZero 0 0 []) (newDNSContext proto (Some req) raddr id) s in
        serve_all pipeline started proto raddr reqs (id + 1) s
  end.

Definition frames (packets : list bytes) : bytes := concat (map (fun b => be_put 2 (len b) ++ b) packets).

Lemma readDNSReq_None rest closed : readDNSReq rest false = None -> readDNSReq rest closed = None.
Proof. destruct closed; auto. Qed.

Lemma tcp_loop_frames pipeline started proto raddr rest packets reqs :
  Forall2 (fun b req => len b <= MaxUint16 /\ Unpack b = (req, None)) packets reqs -> readDNSReq rest false = None ->
  forall fuel id (s : proxy_state (N := N)), (length (frames packets ++ rest) < fuel)%nat ->
  tcp_loop fuel pipeline started proto raddr (frames packets ++ rest) id s
  = serve_all pipeline started proto raddr reqs id s.
Proof.
  intros Hf Hrest. induction Hf as [|b req packets reqs [Hl Hu] Hf IH]; intros fuel id s Hfuel.
  - destruct fuel as [|f]; [lia|]. cbn [frames map concat app tcp_loop serve_all].
    rewrite (readDNSReq_None _ _ Hrest). case_goal; reflexivity.
  - destruct fuel as [|f]; [lia|]. unfold frames in *. cbn [map concat] in *. rewrite <- !app_assoc in *.
    rewrite !length_app, be_put_length in Hfuel. cbn [tcp_loop serve_all].
    unfold readDNSReq. destruct (started s); cbn [negb orb]; [|reflexivity].
    destruct (conn_closed (px_net s)); [reflexivity|]. rewrite readPrefixed_frame, Hu by exact Hl.
    destruct (handleDNSRequest _ _ _ _) as [[[e d] s']|]; [|reflexivity]. cbn [gbind]. apply IH.
    rewrite length_app. lia.
Qed.

(** C39: A TCP or TLS client's stream is served message by message.  A stream
    that is the frames of some messages, followed by the end of the stream, an
    incomplete frame or one that does not unpack, is served exactly as the
    messages one after the other in their order, whatever the pipeline does,
    until the proxy is stopped or the connection is closed; then the connection
    is closed. *)
Theorem handleTCPConnection_in_order (pipeline : session -> handler) (started : proxy_state -> bool) (proto : Proto)
    (raddr : Addr) (packets : list bytes) (reqs : list Msg) (rest : bytes) (id : Z) (s : proxy_state (N := N))
    (Hf : Forall2 (fun b req => len b <= MaxUint16 /\ Unpack b = (req, None)) packets reqs)
    (Hrest : readDNSReq rest false = None) :
  handleTCPConnection pipeline started proto raddr (frames packets ++ rest) id s
  = let! s := serve_all pipeline started proto raddr reqs id s in
    Ret (set_net (snd (conn_Close (px_net s))) s).
Proof.
  unfold handleTCPConnection. rewrite (tcp_loop_frames _ _ _ _ rest packets reqs Hf Hrest) by lia. reflexivity.
Qed.

(** *** Validation *)

Lemma isForbiddenARPA_spec nets d req q :
  Req d = Some req -> Question req = [q] ->
  exists b d', isForbiddenARPA nets d = Ret (b, d')
    /\ (d' = d \/ exists pref, d' = set_RDNS pref d).
Proof.
  intros Hr Hq. unfold isForbiddenARPA, index. rewrite Hr. cbn [deref gbind]. rewrite Hq. cbn [lookup list_lookup gbind].
  repeat case_goal; eauto 8.
Qed.

Lemma validateRequest_total p d s req :
  Req d = Some req -> rec_ok (px_rec s) ->
  exists res d' rec, validateRequest p d s = Ret (res, d', set_rec rec s) /\ rec_ok rec
    /\ (d' = d \/ exists pref, d' = set_RDNS pref d) /\ (res = None -> exists q, Question req = [q]).
Proof using GLaws.
  intros Hr Hrec. unfold validateRequest. rewrite Hr. cbn [deref gbind].
  assert (Hs : s = set_rec (px_rec s) s) by (destruct s; reflexivity).
  destruct (Question req) as [|q [|q' qs]] eqn:Eq; cbn [length Nat.eqb negb];
    try (do 2 eexists; exists (px_rec s); rewrite <- Hs; repeat split; eauto; discriminate).
  cbn [index lookup list_lookup gbind]. case_goal.
  { do 2 eexists; exists (px_rec s); rewrite <- Hs; repeat split; eauto. }
  destruct (check_total (px_rec s) (px_now s) req Hrec) as (b & rec & -> & Hrec'). cbn [gbind].
  destruct b; [do 3 eexists; repeat split; eauto|].
  destruct (isForbiddenARPA_spec (privateNets p) d req q Hr Eq) as (b & d' & -> & Hd'). cbn [gbind].
  do 3 eexists. repeat split; eauto.
Qed.

(** Names of private addresses are not resolved for clients outside the
    private networks.  Whatever the request handler is, a PTR, SOA or NS request
    for the reversed address of a private network from a client that is not in
    one is answered with NXDOMAIN: the handler is not called, no upstream is
    asked, the caches are not read or changed, and the only effect outside is
    that of writing the response. *)
Theorem forbidden_arpa_refused (p : Proxy) (h : handler) (ss : session) (d : DNSContext) (s : proxy_state (N := N))
    (req : Msg) (q : Question_t) (pref : Prefix)
    (Hr : Req d = Some req) (Hq : Question req = [q]) (Hresp : Response (Hdr req) = false) (Hres : Res d = None)
    (Hty : Qtype q = TypePTR \/ Qtype q = TypeSOA \/ Qtype q = TypeNS)
    (Hx : ExtractReversedAddr (QName q) = Ok pref) (Hp : privateNets p (Prefix_Addr pref) = true)
    (Hc : privateNets p (ClientAddr d) = false) (Hrec : rec_ok (px_rec s)) :
  exists d' rec, Res d' = Some (NewMsgNXDOMAIN req) /\ d_Proto d' = d_Proto d /\ ClientAddr d' = ClientAddr d
    /\ processDNSRequest p h None ss d s
       = let '(err, n) := respond d' ss (px_net s) in Ret (join2 None err, d', set_net n (set_rec rec s)).
Proof using GLaws.
  destruct (check_total (px_rec s) (px_now s) req Hrec) as (b & rec & Hck & _).
  unfold processDNSRequest. rewrite Hr. cbn [deref gbind]. rewrite Hresp. cbn [Res set_private]. rewrite Hres.
  unfold validateRequest. cbn [Req set_private]. rewrite Hr. cbn [deref gbind]. rewrite Hq.
  cbn [length Nat.eqb negb index lookup list_lookup gbind].
  assert (Hany : Qtype q =? TypeANY = false) by (destruct Hty as [->|[->| ->]]; reflexivity).
  rewrite Hany, andb_false_r, Hck. cbn [gbind]. destruct b; cbn [gbind].
  - do 2 eexists. split; [|split; [|split; [|reflexivity]]]; reflexivity.
  - unfold isForbiddenARPA. cbn [Req set_private]. rewrite Hr. cbn [deref gbind]. rewrite Hq.
    cbn [index lookup list_lookup gbind].
    assert (Ht : (Qtype q =? TypePTR) || (Qtype q =? TypeSOA) || (Qtype q =? TypeNS) = true).
    { destruct Hty as [->|[->| ->]]; reflexivity. }
    rewrite Ht, Hx, Hp. cbn [IsPrivateClient set_private]. rewrite Hc. cbn [negb gbind].
    do 2 eexists. split; [|split; [|split; [|reflexivity]]]; reflexivity.
Qed.
(** *** Any packet *)

(** A message whose fields are in the range of their types. *)
Definition fields_ok (m : Msg) : Prop :=
  typed_msg m /\ Forall (fun q => 0 <= Qtype q <= MaxUint16 /\ 0 <= Qclass q <= MaxUint16
                                /\ Forall (fun c => 0 < c < 256) (QName q)) (Question m).

(** The context of a new request. *)
Definition new_request (d : DNSContext) (req : Msg) : Prop :=
  Req d = Some req /\ wf_addr (ClientAddr d) /\ d_Custom d = None /\ ReqECS d = None
  /\ udpSize d = 0 /\ hasEDNS0 d = false /\ doBit d = false.

Definition proxy_fine (p : Proxy) (s : proxy_state (N := N)) : Prop :=
  px_ok s /\ forall c, px_cache s = Some c -> cache_fine (enableECS p) c.

(** What handling did outside, for a property [I] that exchanging with upstreams
    keeps: nothing else, or at the end it wrote a response. *)
Definition answered_once (I : N -> Prop) (ss : session) (d d' : DNSContext) (s' : proxy_state (N := N)) : Prop :=
  I (px_net s') \/ exists n res, I n /\ Res d' = Some res /\ px_net s' = snd (respond d' ss n)
    /\ d_Proto d' = d_Proto d /\ ClientAddr d' = ClientAddr d.

Section Any.
Context (I : N -> Prop).
Hypothesis I_kept : forall u m n, I n -> I (snd (net_ex u m n)).

(** What the server relies on in the handler of valid requests: it returns, keeps
    the state and the outside, and either drops the request or leaves a response
    for the client. *)
Class SafeHandler (p : Proxy) (h : handler (N := N)) : Prop :=
  safe_handler d s req q : new_request d req -> fields_ok req -> Question req = [q] -> proxy_fine p s -> I (px_net s) ->
    exists err d' s', h d s = Ret (err, d', s') /\ proxy_fine p s' /\ I (px_net s')
      /\ (is_drop err = true \/ exists res, Res d' = Some res) /\ d_Proto d' = d_Proto d /\ ClientAddr d' = ClientAddr d.

Lemma DefaultHandler_safe p : proxy_ok p -> SafeHandler p (DefaultHandler p None).
Proof using DLaws GLaws ML NL OL I_kept.
  intros Hp d s req q (Hr & Ha & Hcu & He & Hfl) [Ht Hf] Hq [Hok Hcf] Hi.
  destruct (Resolve_main p d s req q I) as (d1 & d2 & d' & err & s' & rf & _ & Hx & Hrv & Hfin & Hf' & Hok' & Hi' & _); auto.
  { split; auto.
    - intros cu. rewrite Hcu. discriminate.
    - rewrite Hq in Hf. apply Forall_cons_1 in Hf as [(? & ? & ?) _]. split; auto.
    - intros n. rewrite He. discriminate.
    - split; [exact Hcf|]. intros cu c. rewrite Hcu. discriminate. }
  unfold DefaultHandler. rewrite Hx. cbn [gbind]. do 3 eexists. split; [reflexivity|].
  split; [split; [exact Hok'|apply Hf']|]. split; [exact Hi'|]. destruct (finished_client _ _ Hfin) as [Hca Hpr].
  rewrite Hca, Hpr, (rv_addr _ _ _ _ Hrv), (rv_Proto _ _ _ _ Hrv). split; [right|auto].
  destruct Hrv as [_ (req2 & Hr2 & _) (req1 & _ & _ & Hed & _ & Hus) _ _].
  destruct (finished_ready d2 d' req2 Hfin Hr2) as (res & Hres & _); [|eauto].
  rewrite Hed, Hus. destruct (opt_of req1); [discriminate|]. intros _. discriminate.
Qed.

Lemma process_total p h ss d s req :
  SafeHandler p h -> new_request d req -> fields_ok req -> proxy_fine p s -> I (px_net s) ->
  exists err d' s', processDNSRequest p h None ss d s = Ret (err, d', s')
    /\ proxy_fine p s' /\ answered_once I ss d d' s' /\ (Response (Hdr req) = true -> s' = s).
Proof using GLaws.
  intros Hh Hn Hf Hs Hi. pose proof Hn as (Hr & _). unfold processDNSRequest. rewrite Hr. cbn [deref gbind].
  destruct (Response (Hdr req)).
  { do 3 eexists. split; [reflexivity|]. split; [exact Hs|]. split; [left; exact Hi|auto]. }
  set (d1 := set_private _ d). assert (Hr1 : Req d1 = Some req) by exact Hr.
  (* Writing a response that is there. *)
  assert (Hw : forall e d2 (s2 : proxy_state (N := N)), proxy_fine p s2 -> I (px_net s2) -> is_drop e = true \/ (exists res, Res d2 = Some res) ->
    d_Proto d2 = d_Proto d -> ClientAddr d2 = ClientAddr d ->
    exists err d' s', (if is_drop e then Ret (Some ErrDrop, d2, s2)
      else let '(werr, n) := respond d2 ss (px_net s2) in Ret (join2 e werr, d2, set_net n s2)) = Ret (err, d', s')
      /\ proxy_fine p s' /\ answered_once I ss d d' s' /\ (false = true -> s' = s)).
  { intros e d2 s2 Hs2 Hi2 Hres Hpr Hca. destruct (is_drop e).
    - do 3 eexists. split; [reflexivity|]. split; [exact Hs2|]. split; [left; exact Hi2|discriminate].
    - destruct (respond d2 ss (px_net s2)) as [werr n] eqn:Ew. do 3 eexists. split; [reflexivity|].
      split; [exact Hs2|]. split; [|discriminate]. destruct Hres as [[=]|[res Hres]].
      right. exists (px_net s2), res. rewrite Ew. auto. }
  change (Res d1) with (Res d). destruct (Res d) as [res|] eqn:Eres.
  { cbn [gbind]. change (Res d1) with (Res d). rewrite Eres. cbn [gbind is_drop].
    apply (Hw None d1 s); eauto. }
  destruct (validateRequest_total p d1 s req Hr1 (proj2 (proj1 Hs))) as (res & d2 & rec & -> & Hrec & Hd2 & Hone).
  cbn [gbind]. assert (Hs2 : proxy_fine p (set_rec rec s)) by (destruct Hs as [[] ?]; repeat split; auto).
  assert (Hd2' : d_Proto d2 = d_Proto d /\ ClientAddr d2 = ClientAddr d /\ new_request d2 req).
  { destruct Hd2 as [->|[pref ->]]; auto. }
  destruct Hd2' as (Hpr & Hca & Hn2). cbn [Res set_Res]. destruct res as [res|].
  { cbn [gbind is_drop]. apply (Hw None (set_Res (Some res) d2) (set_rec rec s)); cbn; eauto. }
  destruct (Hone eq_refl) as [q Hq].
  destruct (Hh (set_Res None d2) (set_rec rec s) req q) as (err & d3 & s3 & -> & Hs3 & Hi3 & Hres & Hpr3 & Hca3); auto.
  cbn [gbind]. apply (Hw err d3 s3); auto; etransitivity; eauto.
Qed.

(** The same for a datagram, with the socket of the response. *)
Lemma handle_udp_total p h d s req laddr :
  SafeHandler p h -> new_request d req -> fields_ok req -> proxy_fine p s -> I (px_net s) -> d_Proto d = ProtoUDP ->
  exists s', (let! (_, _, s') := handleDNSRequest (processDNSRequest p h None)
                (mkSession laddr 0 0 []) d s in Ret s') = Ret s'
    /\ proxy_fine p s' /\ (I (px_net s') \/ exists n b, I n /\ px_net s' = snd (UDPWrite b (ClientAddr d) laddr n))
    /\ (Response (Hdr req) = true -> s' = s).
Proof using GLaws.
  intros Hh Hn Hf Hs Hi Hpr.
  destruct (process_total p h (mkSession laddr 0 0 []) d s req Hh Hn Hf Hs Hi) as (err & d' & s' & Hx & Hs' & Hn' & Hsame).
  unfold handleDNSRequest. rewrite Hx. cbn [gbind]. exists s'. split; [reflexivity|]. split; [exact Hs'|]. split; [|exact Hsame].
  destruct Hn' as [Hn'|(n & res & Hin & Hres & Hn' & Hpr' & Hca')]; [left; exact Hn'|].
  unfold respond, respondUDP in Hn'. rewrite Hpr', Hpr, Hres, Hca' in Hn'.
  destruct (Pack res) as [b|]; [|left; rewrite Hn'; exact Hin]. right. exists n, b. split; [exact Hin|].
  cbn [localIP] in Hn'. destruct (UDPWrite b (ClientAddr d) laddr n) as [[k [e|]] n']; exact Hn'.
Qed.
(** Any packet, with any such handler. *)
Lemma udp_total p h packet laddr raddr id s req uerr :
  SafeHandler p h -> Unpack packet = (req, uerr) -> fields_ok req -> wf_addr raddr -> proxy_fine p s -> I (px_net s) ->
  exists s', udpHandlePacket (processDNSRequest p h None) packet laddr raddr id s = Ret s' /\ proxy_fine p s'
    /\ (I (px_net s') \/ exists n b, I n /\ px_net s' = snd (UDPWrite b raddr laddr n))
    /\ ((uerr <> None /\ Hdr req = empty_hdr) \/ Response (Hdr req) = true -> s' = s).
Proof using GLaws.
  intros Hh Hu Hf Ha Hs Hi. unfold udpHandlePacket. rewrite Hu.
  assert (Hrun := fun d Hn => handle_udp_total p h d s req laddr Hh Hn Hf Hs Hi).
  assert (Hnew : forall res, new_request (set_Res res (newDNSContext ProtoUDP (Some req) raddr id)) req) by (repeat split; auto).
  destruct uerr as [e|].
  - destruct (bool_decide_reflect (Hdr req = empty_hdr)) as [Hz|Hz].
    + exists s. auto 10.
    + destruct (Hrun _ (Hnew (Some (NewMsgFORMERR req))) eq_refl) as (s' & Hx & Hs' & Hn' & Hsame).
      exists s'. do 3 (split; [assumption|]). intros [[_ ?]|?]; [contradiction|auto].
  - destruct (Hrun _ (Hnew None) eq_refl) as (s' & Hx & Hs' & Hn' & Hsame).
    exists s'. do 3 (split; [assumption|]). intros [[? _]|?]; [contradiction|auto].
Qed.
End Any.

(** No UDP packet can stop the proxy, where a panic would end the whole
    process: for any packet, whether or not it unpacks, handling it with the
    default handler returns and keeps the caches and the rest of the state well
    formed.  Outside it does nothing but exchange with upstreams and, at the
    end, send at most one datagram, to the sender: any property [I] that the
    exchanges keep holds before the datagram.  Packets without a readable header
    and packets that are responses change nothing at all. *)
Theorem udpHandlePacket_safe (p : Proxy) (packet : bytes) (laddr raddr : Addr) (id : Z) (s : proxy_state (N := N))
    (req : Msg) (uerr : option error) (I : N -> Prop) (Hp : proxy_ok p) (Hu : Unpack packet = (req, uerr))
    (Hf : fields_ok req) (Ha : wf_addr raddr) (Hs : proxy_fine p s) (Hi : I (px_net s))
    (Hk : forall u m n, I n -> I (snd (net_ex u m n))) :
  exists s', udpHandlePacket (processDNSRequest p (DefaultHandler p None) None) packet laddr raddr id s = Ret s'
    /\ proxy_fine p s'
    /\ (I (px_net s') \/ exists n b, I n /\ px_net s' = snd (UDPWrite b raddr laddr n))
    /\ ((uerr <> None /\ Hdr req = empty_hdr) \/ Response (Hdr req) = true -> s' = s).
Proof using DLaws GLaws ML NL OL.
  exact (udp_total I p _ packet laddr raddr id s req uerr (DefaultHandler_safe I Hk p Hp) Hu Hf Ha Hs Hi).
Qed.
End ServerFacts.

Module ServerExamples.
Import ResolveExamples.
(** Writing is logged as the length of what is written. *)
#[global] Instance conns : Conns (list nat) := {|
  UDPWrite b _ _ n := (len b, None, n ++ [length b]);
  conn_Write b n := (None, n ++ [length b]);
  conn_Close n := (None, n ++ [0%nat]);
  conn_closed _ := false;
  stream_Write b n := (len b, None, n ++ [length b]);
  CloseWithError _ n := n;
  http_Error _ n := n;
  http_Write _ b n := (None, n ++ [length b]);
  WriteMsg _ n := (None, n);
  validate_Equal a b := if a =? b then None else Some (New "not equal");
|}.

(** 10.0.0.0/8 is private, and the name is that of 10.0.0.1. *)
Definition arpa : NetUtil :=
  let r := refNetUtil in
  @Build_NetUtil (@IsSpecialPurpose r)
    (fun name => if bool_decide (name = QName ptr_q) then Ok (mkPrefix (Addr4 [10; 0; 0; 1]) 32) else Err (New "no address"))
    (@IPFromReversedAddr r) (@IPToAddr4 r) (@IPToAddr6 r) (@IPToAddrNoMapped r) (@SliceSubnetSet_Contains r)
    (@MaxDomainNameLen r).
Definition nets (a : Addr) : bool := Contains (mkPrefix (Addr4 [10; 0; 0; 0]) 8) a.
Definition p_nets : Proxy :=
  mkProxy (Some (conf [u1])) (Some (conf [u2])) None true nets [] [] [] true true None false 0 0.

Definition a_req : Msg := req (QName a_q) TypeA.
Definition packet : bytes := match Pack a_req with Ok b => b | Err _ => [] end.

Lemma packet_unpacks : Unpack packet = (a_req, None).
Proof. vm_compute. reflexivity. Qed.

Lemma packet_short : len packet <= MaxUint16.
Proof. vm_compute. discriminate. Qed.

Lemma a_req_fields : fields_ok a_req.
Proof.
  split; [constructor|]. constructor; [|constructor].
  split; [vm_compute; split; discriminate|]. split; [vm_compute; split; discriminate|].
  repeat constructor; vm_compute; reflexivity.
Qed.

Lemma s_fine : proxy_fine p s.
Proof.
  split; [split; [constructor|apply rec_ok_new]|]. intros c [= <-]. apply cache_fine_new. reflexivity.
Qed.
End ServerExamples.

Lemma handleTCPConnection_in_order_witness :
  let pipeline := processDNSRequest ResolveExamples.p (DefaultHandler ResolveExamples.p None) None in
  handleTCPConnection pipeline (fun _ => true) ProtoTCP ResolveExamples.client
    (frames [ServerExamples.packet; ServerExamples.packet] ++ [0]) 1 ResolveExamples.s
  = let! s := serve_all pipeline (fun _ => true) ProtoTCP ResolveExamples.client
                [ServerExamples.a_req; ServerExamples.a_req] 1 ResolveExamples.s in
    Ret (set_net (snd (conn_Close (px_net s))) s).
Proof.
  intros pipeline. apply (handleTCPConnection_in_order pipeline).
  - repeat constructor; try exact ServerExamples.packet_short; exact ServerExamples.packet_unpacks.
  - reflexivity.
Defined.

Lemma forbidden_arpa_refused_witness :
  let d := newDNSContext ProtoUDP (Some (ResolveExamples.req (QName ResolveExamples.ptr_q) TypePTR)) ResolveExamples.client 1 in
  let h : handler := fun d s => Panic in
  exists d' rec, Res d' = Some (NewMsgNXDOMAIN (ResolveExamples.req (QName ResolveExamples.ptr_q) TypePTR))
    /\ processDNSRequest (NU := ServerExamples.arpa) ServerExamples.p_nets h None (mkSession AddrZero 0 0 []) d ResolveExamples.s
       = let '(err, n) := respond d' (mkSession AddrZero 0 0 []) (px_net ResolveExamples.s) in
         Ret (join2 None err, d', set_net n (set_rec rec ResolveExamples.s)).
Proof.
  intros d h.
  destruct (forbidden_arpa_refused (NU := ServerExamples.arpa) ServerExamples.p_nets h (mkSession AddrZero 0 0 []) d ResolveExamples.s
    (ResolveExamples.req (QName ResolveExamples.ptr_q) TypePTR) ResolveExamples.ptr_q (mkPrefix (Addr4 [10; 0; 0; 1]) 32))
    as (d' & rec & Hres & _ & _ & Hx); try reflexivity; auto.
  - apply rec_ok_new.
  - exists d', rec. auto.
Defined.

Lemma udpHandlePacket_safe_witness :
  let s := set_net [5%nat] ResolveExamples.s in
  exists s', udpHandlePacket (processDNSRequest ResolveExamples.p (DefaultHandler ResolveExamples.p None) None)
               ServerExamples.packet AddrZero ResolveExamples.client 1 s = Ret s'
    /\ ((exists l, px_net s' = 5%nat :: l)
        \/ exists n b, (exists l, n = 5%nat :: l) /\ px_net s' = snd (UDPWrite b ResolveExamples.client AddrZero n)).
Proof.
  intros s.
  destruct (udpHandlePacket_safe ResolveExamples.p ServerExamples.packet AddrZero ResolveExamples.client 1 s
    ServerExamples.a_req None (fun n => exists l, n = 5%nat :: l) ResolveExamples.p_ok ServerExamples.packet_unpacks
    ServerExamples.a_req_fields) as (s' & Hx & _ & Hn & _).
  - split; [reflexivity|]. repeat constructor; vm_compute; discriminate.
  - exact ServerExamples.s_fine.
  - exists []. reflexivity.
  - intros u m n [l ->]. exists (l ++ [u_id u]). reflexivity.
  - exists s'. auto.
Defined.
