(* ===== verification/Secretbox.v ===== *)
(** * XChaCha20-Poly1305 boxes (dnscrypt/internal/xsecretbox)

    [Seal] and [Open] of xsecretbox.go with the buffers they fill, and
    [SharedKey] of sharedkey.go.  The primitives of golang.org/x/crypto are a
    class of operations with their documented behaviour as laws.  The theorems
    show that [Seal] computes the NaCl secretbox format and that [Open] accepts
    exactly what [Seal] produces. *)

From S2P Require Import Prelude.

(** ** The primitives *)

(** A cipher object is a position in a key stream.  [XORKeyStream] returns what
    it writes to its destination. *)
Class CryptoLib := {
  Cipher : Type;
  NewUnauthenticatedCipher : bytes -> bytes -> result Cipher;
  XORKeyStream : Cipher -> bytes -> go (bytes * Cipher);
  SetCounter : Cipher -> Z -> go Cipher;
  poly1305 : bytes -> bytes -> bytes;
  HChaCha20 : bytes -> bytes -> result bytes;
  X25519 : bytes -> bytes -> result bytes;
  ScalarBaseMult : bytes -> bytes;
}.

Definition KeySize : nat := 32.
Definition NonceSize : nat := 24.
Definition TagSize : nat := 16.
Definition BlockSize : nat := 64.

(** The key stream has 2^32 blocks. *)
Definition stream_bytes : Z := 64 * 2 ^ 32.

(** [src] XORed with the bytes of the stream [ks] from position [p]. *)
Definition xor_from (ks : nat -> Z) (p : nat) (src : bytes) : bytes :=
  zip_with Z.lxor src (ks <$> seq p (length src)).

Class CryptoLaws `{CryptoLib} := {
  (** The key stream of a key and a nonce. *)
  keystream : bytes -> bytes -> nat -> Z;
  (** The cipher is at the given position of the stream of a key and a nonce. *)
  cipher_at : Cipher -> bytes -> bytes -> nat -> Prop;
  new_cipher key nonce : length key = KeySize -> length nonce = NonceSize ->
    exists c, NewUnauthenticatedCipher key nonce = Ok c /\ cipher_at c key nonce 0;
  xor_stream c key nonce p src : cipher_at c key nonce p -> Z.of_nat p + len src <= stream_bytes ->
    exists c', XORKeyStream c src = Ret (xor_from (keystream key nonce) p src, c')
      /\ cipher_at c' key nonce (p + length src);
  set_counter c key nonce p n : cipher_at c key nonce p -> Z.of_nat p <= 64 * n < stream_bytes ->
    exists c', SetCounter c n = Ret c' /\ cipher_at c' key nonce (Z.to_nat (64 * n));
  poly1305_length key m : length (poly1305 key m) = TagSize;
  (** Both sides of an exchange compute the same point; a point has 32 bytes. *)
  x25519_agrees a b : X25519 a (ScalarBaseMult b) = X25519 b (ScalarBaseMult a);
  x25519_length a p s : X25519 a p = Ok s -> length s = KeySize;
  base_length a : length (ScalarBaseMult a) = KeySize;
  base_wf a : wf_bytes (ScalarBaseMult a);
  hchacha20_length key nonce s : HChaCha20 key nonce = Ok s -> length s = KeySize;
}.

(** ** xsecretbox.go *)

Section Secretbox.
Context {CL : CryptoLib}.

(** [sliceForAppend]: the region of [n] bytes after a slice whose array has
    the bytes [spare] beyond the slice. *)
Definition sliceForAppend (spare : bytes) (n : nat) : bytes :=
  if (n <=? length spare)%nat then take n spare else make_bytes n.

(** The XOR of the first block of a message with the second half of the first
    block of the stream, written to [out]. *)
Definition xor_first (firstBlock first out : bytes) : bytes :=
  copy_at 0 (zip_with Z.lxor (drop (BlockSize - KeySize) firstBlock) first) out.

Definition Seal (out spare nonce message key : bytes) : go bytes :=
  if negb (length nonce =? NonceSize)%nat then Panic
  else if negb (length key =? KeySize)%nat then Panic
  else match NewUnauthenticatedCipher key nonce with
  | Err _ => Panic
  | Ok cipher =>
      let! (firstBlock, cipher) := XORKeyStream cipher (make_bytes BlockSize) in
      let polyKey := take KeySize firstBlock in
      let region := sliceForAppend spare (TagSize + length message) in
      let first := if (BlockSize - KeySize <? length message)%nat
                   then take (BlockSize - KeySize) message else message in
      let tagOut := take TagSize region in
      let body := xor_first firstBlock first (drop TagSize region) in
      let rest := drop (length first) message in
      let! cipher := SetCounter cipher 1 in
      let! (enc, _) := XORKeyStream cipher rest in
      let ciphertext := take (length first) body ++ copy_at 0 enc (drop (length first) body) in
      let tag := poly1305 polyKey ciphertext in
      Ret (out ++ copy_at 0 tag tagOut ++ ciphertext)
  end.

Definition errCipherTextTooShort : error := New "ciphertext is too short".
Definition errCipherTextAuthenticationFail : error := New "ciphertext authentication failed".

Definition Open (out spare nonce box key : bytes) : go (result bytes) :=
  if negb (length nonce =? NonceSize)%nat then Panic
  else if negb (length key =? KeySize)%nat then Panic
  else if (length box <? TagSize)%nat then Ret (Err errCipherTextTooShort)
  else match NewUnauthenticatedCipher key nonce with
  | Err _ => Panic
  | Ok cipher =>
      let! (firstBlock, cipher) := XORKeyStream cipher (make_bytes BlockSize) in
      let polyKey := take KeySize firstBlock in
      let ciphertext := drop TagSize box in
      let tag := poly1305 polyKey ciphertext in
      if negb (bool_decide (tag = take TagSize box))
      then Ret (Err errCipherTextAuthenticationFail)
      else
        let region := sliceForAppend spare (length ciphertext) in
        let first := if (BlockSize - KeySize <? length ciphertext)%nat
                     then take (BlockSize - KeySize) ciphertext else ciphertext in
        let body := xor_first firstBlock first region in
        let rest := drop (length first) ciphertext in
        let! cipher := SetCounter cipher 1 in
        let! (dec, _) := XORKeyStream cipher rest in
        Ret (Ok (out ++ take (length first) body ++ copy_at 0 dec (drop (length first) body)))
  end.

(** ** sharedkey.go *)

Definition errWeakPublicKey : error := New "weak public key".

Definition SharedKey (secretKey publicKey : bytes) : go (result bytes) :=
  match X25519 secretKey publicKey with
  | Err e => Ret (Err (Errorf "computing x25519: %w" e))
  | Ok sk =>
      (* the loop indexes [sk] up to [KeySize] *)
      if (length sk <? KeySize)%nat then Panic
      else
        let sharedKey := take KeySize sk in
        let c := foldl Z.lor 0 sharedKey in
        if c =? 0 then Ret (Err errWeakPublicKey)
        else match HChaCha20 sharedKey (make_bytes 16) with
        | Err e => Ret (Err (Errorf "computing hchacha20: %w" e))
        | Ok hRes => if (length hRes <? KeySize)%nat then Panic else Ret (Ok (take KeySize hRes))
        end
  end.

End Secretbox.

(** ** The format *)

Section Format.
Context {CL : CryptoLib} {CLaws : CryptoLaws}.

(** The XSalsa20-Poly1305 box of NaCl, on this stream: the first 32 bytes of
    the stream authenticate, the bytes after them encrypt. *)
Definition box_text (key nonce message : bytes) : bytes :=
  xor_from (keystream key nonce) KeySize message.

Definition box_tag (key nonce ciphertext : bytes) : bytes :=
  poly1305 (xor_from (keystream key nonce) 0 (make_bytes KeySize)) ciphertext.

Definition secret_box (key nonce message : bytes) : bytes :=
  box_tag key nonce (box_text key nonce message) ++ box_text key nonce message.

Lemma xor_from_length ks p src : length (xor_from ks p src) = length src.
Proof. unfold xor_from. rewrite length_zip_with, length_fmap, length_seq. lia. Qed.

Lemma xor_from_involutive ks p src : xor_from ks p (xor_from ks p src) = src.
Proof.
  unfold xor_from at 1. rewrite xor_from_length. unfold xor_from.
  revert p. induction src as [|x src IH]; intros p; [reflexivity|].
  cbn [length seq fmap list_fmap zip_with]. f_equal; [|apply IH].
  rewrite Z.lxor_assoc, Z.lxor_nilpotent, Z.lxor_0_r. reflexivity.
Qed.

Lemma xor_from_app ks p a b : xor_from ks p (a ++ b) = xor_from ks p a ++ xor_from ks (p + length a) b.
Proof.
  unfold xor_from. rewrite length_app, seq_app, fmap_app. apply zip_with_app.
  rewrite length_fmap, length_seq. reflexivity.
Qed.

Lemma xor_from_zeros ks p n : xor_from ks p (make_bytes n) = ks <$> seq p n.
Proof.
  unfold xor_from, make_bytes. rewrite length_replicate.
  revert p. induction n as [|n IH]; intros p; [reflexivity|].
  cbn [replicate seq fmap list_fmap zip_with]. f_equal. apply IH.
Qed.

Lemma copy_at_0 src dst :
  (length src <= length dst)%nat -> copy_at 0 src dst = src ++ drop (length src) dst.
Proof.
  intros. unfold copy_at. rewrite Nat.sub_0_r, (take_ge src) by lia. reflexivity.
Qed.

Lemma sliceForAppend_length spare n : length (sliceForAppend spare n) = n.
Proof.
  unfold sliceForAppend, make_bytes. destruct (Nat.leb_spec n (length spare)); [rewrite length_take; lia|].
  apply length_replicate.
Qed.

(** The part of a text that the first block of the stream covers. *)
Lemma first_take (text : bytes) :
  (if (BlockSize - KeySize <? length text)%nat then take (BlockSize - KeySize) text else text)
  = take (BlockSize - KeySize) text.
Proof.
  destruct (Nat.ltb_spec (BlockSize - KeySize) (length text)); [reflexivity|].
  rewrite take_ge by assumption. reflexivity.
Qed.

Lemma xor_first_eq ks first out :
  (length first <= BlockSize - KeySize)%nat -> (length first <= length out)%nat ->
  xor_first (ks <$> seq 0 BlockSize) first out = xor_from ks KeySize first ++ drop (length first) out.
Proof.
  intros Hf Ho. unfold xor_first.
  assert (He : zip_with Z.lxor (drop (BlockSize - KeySize) (ks <$> seq 0 BlockSize)) first
               = xor_from ks KeySize first).
  { change (drop (BlockSize - KeySize) (ks <$> seq 0 BlockSize)) with (ks <$> seq KeySize 32).
    unfold xor_from. revert Hf. change (BlockSize - KeySize)%nat with 32%nat.
    generalize KeySize 32%nat. clear. induction first as [|x first IH]; intros p n Hn.
    - destruct (ks <$> seq p n); reflexivity.
    - destruct n as [|n]; [cbn in Hn; lia|]. cbn [length seq fmap list_fmap zip_with].
      rewrite Z.lxor_comm. f_equal. apply IH. cbn in Hn. lia. }
  rewrite He, copy_at_0; rewrite xor_from_length; [reflexivity|lia].
Qed.

(** What the two runs of the cipher leave in the region of a text. *)
Lemma stream_text ks (text body : bytes) :
  length body = length text ->
  let first := take (BlockSize - KeySize) text in
  let b := xor_first (ks <$> seq 0 BlockSize) first body in
  take (length first) b ++ copy_at 0 (xor_from ks 64 (drop (length first) text)) (drop (length first) b)
  = xor_from ks KeySize text.
Proof.
  intros Hl first b. assert (Hf : (length first <= BlockSize - KeySize)%nat) by (subst first; rewrite length_take; lia).
  assert (Hft : (length first <= length text)%nat) by (subst first; rewrite length_take; lia).
  subst b. rewrite xor_first_eq by lia.
  rewrite take_app_length', drop_app_length' by (rewrite xor_from_length; reflexivity).
  rewrite copy_at_0; rewrite xor_from_length, ?length_drop, ?Hl; [|lia].
  rewrite (drop_ge (drop _ body)), app_nil_r by (rewrite length_drop; lia).
  rewrite <- (take_drop (BlockSize - KeySize) text) at 2. rewrite xor_from_app. fold first.
  assert (Hd : drop (length first) text = drop (BlockSize - KeySize) text).
  { subst first. rewrite length_take. destruct (decide (BlockSize - KeySize <= length text)%nat).
    - f_equal. lia.
    - rewrite !drop_ge by lia. reflexivity. }
  rewrite Hd. f_equal.
  destruct (decide (BlockSize - KeySize <= length text)%nat).
  - subst first. rewrite length_take, Nat.min_l by lia. reflexivity.
  - rewrite drop_ge by lia. reflexivity.
Qed.

(** The first run of the cipher gives the first block of the stream, the second
    starts at block 1. *)
Lemma first_block key nonce :
  length key = KeySize -> length nonce = NonceSize ->
  exists c c1, NewUnauthenticatedCipher key nonce = Ok c
    /\ XORKeyStream c (make_bytes BlockSize) = Ret (keystream key nonce <$> seq 0 BlockSize, c1)
    /\ exists c2, SetCounter c1 1 = Ret c2 /\ cipher_at c2 key nonce 64.
Proof.
  intros Hk Hn. destruct (new_cipher key nonce Hk Hn) as (c & -> & Hc).
  destruct (xor_stream c key nonce 0 (make_bytes BlockSize) Hc) as (c1 & E & Hc1); [vm_compute; discriminate|].
  rewrite xor_from_zeros in E.
  destruct (set_counter c1 key nonce _ 1 Hc1) as (c2 & Hs & Hc2); [vm_compute; split; [discriminate|reflexivity]|].
  exists c, c1. eauto.
Qed.

Lemma poly_key key nonce :
  take KeySize (keystream key nonce <$> seq 0 BlockSize)
  = xor_from (keystream key nonce) 0 (make_bytes KeySize).
Proof. rewrite xor_from_zeros. reflexivity. Qed.

Lemma copy_tag tag region :
  length tag = TagSize -> (TagSize <= length region)%nat -> copy_at 0 tag (take TagSize region) = tag.
Proof.
  intros Ht Hr. rewrite copy_at_0; rewrite ?length_take; [|lia].
  rewrite drop_ge, app_nil_r by (rewrite length_take; lia). reflexivity.
Qed.

(** [Seal] appends the box, whatever the spare capacity of its buffer holds. *)
Lemma Seal_eq out spare nonce message key :
  length key = KeySize -> length nonce = NonceSize -> len message + 64 <= stream_bytes ->
  Seal out spare nonce message key = Ret (out ++ secret_box key nonce message).
Proof.
  intros Hk Hn Hm. unfold Seal. rewrite Hk, Hn. cbn [negb Nat.eqb NonceSize KeySize].
  destruct (first_block key nonce Hk Hn) as (c & c1 & -> & -> & c2 & Hs & Hc). cbn [gbind].
  rewrite first_take, Hs. cbn [gbind].
  match goal with |- context [XORKeyStream c2 ?r] => destruct (xor_stream c2 key nonce 64 r Hc) as (c3 & -> & _) end.
  { rewrite length_drop. lia. }
  cbn [gbind]. rewrite stream_text by (rewrite length_drop, sliceForAppend_length; lia).
  rewrite poly_key, copy_tag; [reflexivity|apply poly1305_length|].
  rewrite sliceForAppend_length. lia.
Qed.

(** [Open] checks the tag and returns the text under the same stream. *)
Lemma Open_eq out spare nonce box key :
  length key = KeySize -> length nonce = NonceSize -> len box + 64 <= stream_bytes ->
  Open out spare nonce box key =
    Ret (if (length box <? TagSize)%nat then Err errCipherTextTooShort
         else if bool_decide (box_tag key nonce (drop TagSize box) = take TagSize box)
         then Ok (out ++ box_text key nonce (drop TagSize box))
         else Err errCipherTextAuthenticationFail).
Proof.
  intros Hk Hn Hb. unfold Open. rewrite Hk, Hn. cbn [negb Nat.eqb NonceSize KeySize].
  destruct (length box <? TagSize)%nat; [reflexivity|].
  destruct (first_block key nonce Hk Hn) as (c & c1 & -> & -> & c2 & Hs & Hc). cbn [gbind].
  rewrite poly_key. fold (box_tag key nonce (drop TagSize box)).
  destruct (bool_decide _); cbn [negb]; [|reflexivity].
  rewrite first_take, Hs. cbn [gbind].
  match goal with |- context [XORKeyStream c2 ?r] => destruct (xor_stream c2 key nonce 64 r Hc) as (c3 & -> & _) end.
  { rewrite !length_drop. lia. }
  cbn [gbind]. rewrite stream_text by apply sliceForAppend_length. reflexivity.
Qed.

Lemma secret_box_length key nonce m : length (secret_box key nonce m) = (TagSize + length m)%nat.
Proof. unfold secret_box, box_tag, box_text. rewrite length_app, poly1305_length, xor_from_length. reflexivity. Qed.

(** A box opens to a message exactly if it is the box of that message. *)
Lemma Open_Ok_iff nonce box message key :
  length key = KeySize -> length nonce = NonceSize -> len box + 64 <= stream_bytes ->
  Open [] [] nonce box key = Ret (Ok message) <-> box = secret_box key nonce message.
Proof.
  intros Hk Hn Hb. rewrite Open_eq by assumption. cbn [app]. split.
  - destruct (Nat.ltb_spec (length box) TagSize); [discriminate|].
    destruct (bool_decide_reflect (box_tag key nonce (drop TagSize box) = take TagSize box)) as [Ht|]; [|discriminate].
    intros [= <-]. unfold secret_box, box_text. rewrite !xor_from_involutive, Ht. symmetry. apply take_drop.
  - intros ->. rewrite secret_box_length, (proj2 (Nat.ltb_ge _ _)) by lia.
    unfold secret_box, box_tag. rewrite drop_app_length', take_app_length' by (symmetry; apply poly1305_length).
    rewrite bool_decide_true by reflexivity. unfold box_text. rewrite xor_from_involutive. reflexivity.
Qed.

(** The shared key has the size of a key and is the same on both sides. *)
Lemma SharedKey_agrees a b : SharedKey a (ScalarBaseMult b) = SharedKey b (ScalarBaseMult a).
Proof. unfold SharedKey. rewrite x25519_agrees. reflexivity. Qed.

Lemma SharedKey_total a p :
  exists r, SharedKey a p = Ret r /\ (forall k, r = Ok k -> length k = KeySize).
Proof.
  unfold SharedKey. destruct (X25519 a p) as [s|e] eqn:E; [|eexists; split; [reflexivity|discriminate]].
  rewrite (x25519_length _ _ _ E). cbn [Nat.ltb Nat.leb KeySize].
  case_goal; [eexists; split; [reflexivity|discriminate]|].
  destruct (HChaCha20 _ _) as [h|] eqn:Eh; [|eexists; split; [reflexivity|discriminate]].
  apply hchacha20_length in Eh. rewrite Eh. cbn [Nat.ltb Nat.leb KeySize].
  eexists; split; [reflexivity|]. intros k [= <-]. rewrite length_take, Eh. reflexivity.
Qed.

(** C28: [Seal] and [Open] are the two directions of one box format.  With a key
    and a nonce of the right size, [Seal] appends to its buffer the NaCl box of
    the message, whose tag and text come from one key stream although the code
    runs the cipher twice and writes in place; [Open] never panics, and returns
    a message exactly for the box that [Seal] makes of that message, so that
    every other box is an error. *)
Theorem Seal_Open_equivalence (out spare nonce key message box : bytes) :
  length key = KeySize -> length nonce = NonceSize ->
  len message + 64 <= stream_bytes -> len box + 64 <= stream_bytes ->
  Seal out spare nonce message key = Ret (out ++ secret_box key nonce message)
  /\ (Open [] [] nonce box key = Ret (Ok message) <-> Seal [] [] nonce message key = Ret box)
  /\ exists r, Open out spare nonce box key = Ret r
       /\ forall m, r = Ok m <-> exists p, m = out ++ p /\ box = secret_box key nonce p.
Proof.
  intros Hk Hn Hm Hb. split; [apply Seal_eq; assumption|]. split.
  - rewrite Open_Ok_iff, Seal_eq by assumption. cbn [app]. split; [intros ->; reflexivity|congruence].
  - rewrite Open_eq by assumption. eexists. split; [reflexivity|]. intros m.
    pose proof (fun p => Open_Ok_iff nonce box p key Hk Hn Hb) as Ho.
    rewrite (Open_eq [] [] nonce box key Hk Hn Hb) in Ho. cbn [app] in Ho.
    repeat case_goal; split; try discriminate.
    1, 4: intros (p & _ & Hp); apply Ho in Hp; discriminate.
    + intros [= <-]. eexists. split; [reflexivity|]. apply Ho. reflexivity.
    + intros (p & -> & Hp). apply Ho in Hp. congruence.
Qed.

End Format.

(** ** A concrete stream *)

Module SecretboxExamples.

(** A stream that adds a position to the first bytes of the key and the nonce,
    a tag that sums the text, and keys under addition. *)
Definition toy_stream (key nonce : bytes) (i : nat) : Z :=
  (default 0 (head key) + default 0 (head nonce) + 7 * Z.of_nat i) mod 256.

Definition toy_tag (key m : bytes) : bytes :=
  replicate TagSize ((foldl Z.add 0 key + foldl Z.add 1 m) mod 256).

#[export] Instance toy : CryptoLib := {
  Cipher := (bytes * bytes * nat)%type;
  NewUnauthenticatedCipher key nonce := Ok (key, nonce, 0%nat);
  XORKeyStream c src :=
    let '(key, nonce, p) := c in
    Ret (xor_from (toy_stream key nonce) p src, (key, nonce, p + length src)%nat);
  SetCounter c n := let '(key, nonce, _) := c in Ret (key, nonce, Z.to_nat (64 * n));
  poly1305 := toy_tag;
  HChaCha20 key nonce := Ok (take KeySize (key ++ make_bytes KeySize));
  X25519 a p := Ok (replicate KeySize ((default 0 (head a) mod 256 + default 0 (head p)) mod 256));
  ScalarBaseMult a := replicate KeySize (default 0 (head a) mod 256);
}.

#[export] Instance toy_laws : CryptoLaws.
Proof.
  apply (Build_CryptoLaws toy toy_stream (fun c key nonce p => c = (key, nonce, p))).
  - intros. eexists. split; reflexivity.
  - intros c key nonce p src -> _. eexists. split; reflexivity.
  - intros c key nonce p n -> _. eexists. split; reflexivity.
  - intros. apply length_replicate.
  - intros a b. cbn. rewrite (Z.add_comm (default 0 (list.head b) mod 256)). reflexivity.
  - intros a p s [= <-]. reflexivity.
  - intros. apply length_replicate.
  - intros. apply Forall_replicate, Z.mod_pos_bound. lia.
  - intros key nonce s [= <-]. rewrite length_take, length_app. unfold make_bytes.
    rewrite length_replicate. unfold KeySize. lia.
Defined.

Definition key : bytes := Z.of_nat <$> seq 0 32.
Definition nonce : bytes := Z.of_nat <$> seq 40 24.
Definition message : bytes := Z.of_nat <$> seq 100 80.

End SecretboxExamples.

#[local] Existing Instances SecretboxExamples.toy SecretboxExamples.toy_laws.

Lemma Seal_Open_equivalence_witness :
  Seal (CL := SecretboxExamples.toy) [] [] SecretboxExamples.nonce SecretboxExamples.message SecretboxExamples.key
  = Ret (secret_box SecretboxExamples.key SecretboxExamples.nonce SecretboxExamples.message)
  /\ Open (CL := SecretboxExamples.toy) [] [] SecretboxExamples.nonce
       (secret_box SecretboxExamples.key SecretboxExamples.nonce SecretboxExamples.message) SecretboxExamples.key
     = Ret (Ok SecretboxExamples.message).
Proof.
  pose proof (Seal_Open_equivalence [] [] SecretboxExamples.nonce SecretboxExamples.key
    SecretboxExamples.message
    (secret_box SecretboxExamples.key SecretboxExamples.nonce SecretboxExamples.message)
    eq_refl eq_refl ltac:(vm_compute; discriminate) ltac:(vm_compute; discriminate)) as (H & H1 & _).
  split; [exact H|]. apply H1. exact H.
Defined.
