(* ===== verification/CryptPackets.v ===== *)
(** * DNSCrypt packets (dnscrypt/encryption.go, encryptedquery.go,
      encryptedresp.go)

    Padding, the shared key, and the encrypted queries and responses.  The
    boxes of XChaCha20 are those of [Secretbox]; package nacl is a class of
    operations with laws.  The clock and the random bytes are arguments. *)

From S2P Require Import Prelude Secretbox.

(** [secretbox] and [box] of golang.org/x/crypto/nacl. *)
Class NaclLib := {
  salsa_Seal : bytes -> bytes -> bytes -> bytes;
  salsa_Open : bytes -> bytes -> bytes -> option bytes;
  Precompute : bytes -> bytes -> bytes;
}.

Class NaclLaws `{CryptoLib} `{NaclLib} := {
  (** A box is [Overhead] bytes longer than its message, and opens. *)
  salsa_open_seal m nonce key : salsa_Open (salsa_Seal m nonce key) nonce key = Some m;
  salsa_length m nonce key : length (salsa_Seal m nonce key) = (16 + length m)%nat;
  precompute_agrees a b : Precompute (ScalarBaseMult a) b = Precompute (ScalarBaseMult b) a;
  precompute_length p a : length (Precompute p a) = KeySize;
}.

(** ** Constants *)

Definition minUDPQuestionSize : Z := 256.
Definition minDNSPacketSize : Z := 12 + 5.
Definition clientMagicSize : nat := 8.
Definition nonceSize : nat := 24.
Definition resolverMagicSize : nat := 8.
Definition resolverMagic : bytes := [114; 54; 102; 110; 118; 87; 106; 56].

(** [CryptoConstruction] is an unsigned integer of 16 bits. *)
Definition UndefinedConstruction : Z := 0.
Definition XSalsa20Poly1305 : Z := 1.
Definition XChacha20Poly1305 : Z := 2.

Definition ErrESVersion : error := New "unsupported es-version".
Definition ErrInvalidQuery : error := New "dnscrypt query is invalid and cannot be decrypted".
Definition ErrInvalidClientMagic : error := New "dnscrypt query contains invalid client magic".
Definition ErrInvalidResolverMagic : error := New "dnscrypt response contains invalid resolver magic".
Definition ErrInvalidResponse : error := New "dnscrypt response is invalid and cannot be decrypted".
Definition ErrInvalidPadding : error := New "invalid padding".
Definition ErrUnexpectedNonce : error := New "unexpected nonce".

(** ** encryption.go *)

Definition pad (packet : bytes) : bytes :=
  let minQuestionSize := len packet + 1 + (64 - (len packet + 1) mod 64) in
  let minQuestionSize := if minQuestionSize <? minUDPQuestionSize
                         then minUDPQuestionSize else minQuestionSize in
  packet ++ 128 :: make_bytes (Z.to_nat (minQuestionSize - (len packet + 1))).

(** The loop of [unpad], with the bytes from [i] on already read. *)
Fixpoint unpad_from (packet : bytes) (i : nat) : go (result bytes) :=
  match i with
  | O => Ret (Err ErrInvalidPadding)
  | S i =>
      let! b := index packet i in
      if b =? 128 then
        Ret (if Z.of_nat i <? minDNSPacketSize then Err ErrInvalidPadding else Ok (take i packet))
      else if negb (b =? 0) then Ret (Err ErrInvalidPadding)
      else unpad_from packet i
  end.

Definition unpad (packet : bytes) : go (result bytes) := unpad_from packet (length packet).

Section Packets.
Context {CL : CryptoLib} {NaL : NaclLib}.

Definition computeSharedKey (cryptoConstruction : Z) (secretKey publicKey : bytes) : go (result bytes) :=
  if cryptoConstruction =? XChacha20Poly1305 then SharedKey secretKey publicKey
  else if cryptoConstruction =? XSalsa20Poly1305 then Ret (Ok (Precompute publicKey secretKey))
  else Ret (Err ErrESVersion).

(** ** encryptedquery.go *)

Record encryptedQuery := mkQuery {
  q_esVersion : Z;
  q_clientMagic : bytes;
  q_clientPk : bytes;
  q_nonce : bytes;
}.

(** The box of a padded packet, appended to a header. *)
Definition seal_es (es : Z) (header nonce padded sharedKey : bytes) : go (result bytes) :=
  if es =? XChacha20Poly1305 then
    let! b := Seal header [] nonce padded sharedKey in Ret (Ok b)
  else if es =? XSalsa20Poly1305 then Ret (Ok (header ++ salsa_Seal padded nonce sharedKey))
  else Ret (Err ErrESVersion).

(** [encryptedQuery.encrypt] at time [now] with the random bytes [rnd]. *)
Definition query_encrypt (now : Time) (rnd : bytes) (q : encryptedQuery) (packet sharedKey : bytes)
    : go (result (bytes * bytes) * encryptedQuery) :=
  let nonce := copy_at 8 rnd (copy_at 0 (be_put 8 (uint64 now)) (q_nonce q)) in
  let q := mkQuery (q_esVersion q) (q_clientMagic q) (q_clientPk q) nonce in
  let query := q_clientMagic q ++ q_clientPk q ++ take (nonceSize / 2) nonce in
  let padded := pad packet in
  let! r := seal_es (q_esVersion q) query nonce padded sharedKey in
  Ret (let? query := r in Ok (query, nonce), q).

(** [decryptES] *)
Definition decryptES (q : encryptedQuery) (query sharedKey : bytes) : go (result bytes) :=
  if q_esVersion q =? XChacha20Poly1305 then
    let! r := Open [] [] (q_nonce q) query sharedKey in
    Ret (annotate "decrypting query: %s: %w" r)
  else if q_esVersion q =? XSalsa20Poly1305 then
    Ret match salsa_Open query (q_nonce q) sharedKey with
        | Some packet => Ok packet
        | None => Err (Errorf "decrypting query: %s: %w" ErrInvalidQuery)
        end
  else Ret (Err ErrESVersion).

(** [encryptedQuery.decrypt] *)
Definition query_decrypt (q : encryptedQuery) (query serverSecretKey : bytes)
    : go (result bytes * encryptedQuery) :=
  let headerLength := (clientMagicSize + KeySize + nonceSize / 2)%nat in
  if len query <? Z.of_nat (headerLength + TagSize) + minDNSPacketSize then Ret (Err ErrInvalidQuery, q)
  else if negb (bool_decide (take clientMagicSize query = q_clientMagic q))
  then Ret (Err ErrInvalidClientMagic, q)
  else
    let q := mkQuery (q_esVersion q) (q_clientMagic q)
               (copy_at 0 (take KeySize (drop clientMagicSize query)) (q_clientPk q)) (q_nonce q) in
    let! k := computeSharedKey (q_esVersion q) serverSecretKey (q_clientPk q) in
    match k with
    | Err e => Ret (Err (Errorf "computing shared key: %w" e), q)
    | Ok sharedKey =>
        let rest := drop (clientMagicSize + KeySize) query in
        let q := mkQuery (q_esVersion q) (q_clientMagic q) (q_clientPk q)
                   (copy_at 0 (take (nonceSize / 2) rest) (q_nonce q)) in
        let! r := decryptES q (drop (nonceSize / 2) rest) sharedKey in
        match r with
        | Err e => Ret (Err e, q)
        | Ok packet =>
            let! r := unpad packet in
            Ret (annotate "remove packet padding" r, q)
        end
    end.

(** ** encryptedresp.go *)

Record encryptedResponse := mkResponse {
  r_esVersion : Z;
  r_nonce : bytes;
}.

(** [encryptedResponse.encrypt] *)
Definition response_encrypt (now : Time) (rnd : bytes) (r : encryptedResponse) (packet sharedKey : bytes)
    : go (result bytes * encryptedResponse) :=
  let nonce := copy_at 16 (be_put 8 (uint64 now)) (copy_at 12 rnd (r_nonce r)) in
  let r := mkResponse (r_esVersion r) nonce in
  let response := resolverMagic ++ nonce in
  let padded := pad packet in
  let! res := seal_es (r_esVersion r) response nonce padded sharedKey in
  Ret (res, r).

(** The opening of the box of a response. *)
Definition open_response (es : Z) (nonce box sharedKey : bytes) : go (result bytes) :=
  if es =? XChacha20Poly1305 then
    let! r := Open [] [] nonce box sharedKey in
    Ret (annotate "decrypting response: %s: %w" r)
  else if es =? XSalsa20Poly1305 then
    Ret match salsa_Open box nonce sharedKey with
        | Some packet => Ok packet
        | None => Err (Errorf "decrypting response: %s: %w" ErrInvalidResponse)
        end
  else Ret (Err ErrESVersion).

(** [encryptedResponse.decrypt] *)
Definition response_decrypt (r : encryptedResponse) (response sharedKey clientNonce : bytes)
    : go (result bytes * encryptedResponse) :=
  let headerLength := (length resolverMagic + nonceSize)%nat in
  if len response <? Z.of_nat (headerLength + TagSize) + minDNSPacketSize
  then Ret (Err ErrInvalidResponse, r)
  else if negb (bool_decide (take resolverMagicSize response = resolverMagic))
  then Ret (Err ErrInvalidResolverMagic, r)
  else
    let r := mkResponse (r_esVersion r)
               (copy_at 0 (take nonceSize (drop resolverMagicSize response)) (r_nonce r)) in
    if negb (bool_decide (take (nonceSize / 2) (r_nonce r) = take (nonceSize / 2) clientNonce))
    then Ret (Err ErrUnexpectedNonce, r)
    else
      let! o := open_response (r_esVersion r) (r_nonce r) (drop (nonceSize + resolverMagicSize) response) sharedKey in
      match o with
      | Err e => Ret (Err e, r)
      | Ok packet =>
          let! o := unpad packet in
          Ret (annotate "removing packet padding" o, r)
      end.

End Packets.

(** ** Padding *)

Section Padding.

(** A padded packet: the packet, the byte 0x80 and zeros. *)
Definition padded_to (p : bytes) (k : nat) : bytes := p ++ 128 :: make_bytes k.

Lemma padded_snoc p k : padded_to p (S k) = padded_to p k ++ [0].
Proof.
  unfold padded_to, make_bytes. change (S k) with (1 + k)%nat. rewrite Nat.add_comm, replicate_add.
  rewrite <- app_assoc. reflexivity.
Qed.

Lemma padded_0 p : padded_to p 0 = p ++ [128].
Proof. reflexivity. Qed.

(** The last byte tells whether the padding goes on. *)
Lemma padded_last l b p k :
  l ++ [b] = padded_to p k <-> (k = 0%nat /\ b = 128 /\ l = p) \/ exists k', k = S k' /\ b = 0 /\ l = padded_to p k'.
Proof.
  destruct k as [|k].
  - rewrite padded_0. split.
    + intros [-> [= ->]]%app_inj_tail. auto.
    + intros [(_ & -> & ->)|(k' & ? & _)]; [reflexivity|discriminate].
  - rewrite padded_snoc. split.
    + intros [-> [= ->]]%app_inj_tail. eauto.
    + intros [(? & _)|(k' & [= <-] & -> & ->)]; [discriminate|reflexivity].
Qed.

Lemma unpad_from_spec packet i :
  (i <= length packet)%nat ->
  exists r, unpad_from packet i = Ret r /\ (forall e, r = Err e -> e = ErrInvalidPadding) /\
    forall p, r = Ok p <-> (exists k, take i packet = padded_to p k) /\ minDNSPacketSize <= len p.
Proof.
  induction i as [|i IH]; intros Hi.
  - eexists. split; [reflexivity|]. split; [congruence|]. intros p. split; [discriminate|].
    intros [[k Hk] _]. destruct p; discriminate Hk.
  - destruct (lookup_lt_is_Some_2 packet i ltac:(lia)) as [b Hb]. cbn [unpad_from].
    rewrite (proj2 (index_Ret _ _ _) Hb). cbn [gbind]. rewrite (take_S_r _ _ b) by exact Hb.
    destruct (Z.eqb_spec b 128) as [->|H128]; [|destruct (Z.eqb_spec b 0) as [->|H0]; cbn [negb]].
    + eexists. split; [reflexivity|]. split; [case_goal; congruence|]. intros p. setoid_rewrite padded_last.
      assert (Hl : length (take i packet) = i) by (rewrite length_take; lia).
      destruct (Z.ltb_spec (Z.of_nat i) minDNSPacketSize) as [Hlt|Hge]; split.
      * discriminate.
      * intros [[k [(_ & _ & <-)|(k' & _ & ? & _)]] Hp]; [lia|discriminate].
      * intros [= <-]. rewrite Hl. eauto 6.
      * intros [[k [(_ & _ & <-)|(k' & _ & ? & _)]] Hp]; [reflexivity|discriminate].
    + destruct (IH ltac:(lia)) as (r & -> & He & Hr). eexists. split; [reflexivity|].
      split; [exact He|]. intros p. rewrite Hr.
      setoid_rewrite padded_last. split; intros [[k Hk] Hp]; (split; [|exact Hp]).
      * exists (S k). eauto.
      * destruct Hk as [(_ & ? & _)|(k' & _ & _ & Hk)]; [discriminate|eauto].
    + eexists. split; [reflexivity|]. split; [congruence|]. intros p. split; [discriminate|].
      setoid_rewrite padded_last. intros [[k [(_ & ? & _)|(k' & _ & ? & _)]] _]; contradiction.
Qed.

Lemma unpad_spec packet :
  exists r, unpad packet = Ret r /\ (forall e, r = Err e -> e = ErrInvalidPadding) /\
    forall p, r = Ok p <-> (exists k, packet = padded_to p k) /\ minDNSPacketSize <= len p.
Proof.
  unfold unpad. destruct (unpad_from_spec packet (length packet) ltac:(lia)) as (r & -> & He & Hr).
  rewrite take_ge in Hr by lia. eauto.
Qed.

(** The number of zeros of the padding. *)
Definition pad_zeros (n : Z) : Z := Z.max (minUDPQuestionSize - (n + 1)) (64 - (n + 1) mod 64).

Lemma pad_eq packet : pad packet = padded_to packet (Z.to_nat (pad_zeros (len packet))).
Proof.
  unfold pad, padded_to, pad_zeros. do 4 f_equal.
  destruct (Z.ltb_spec (len packet + 1 + (64 - (len packet + 1) mod 64)) minUDPQuestionSize); lia.
Qed.

Lemma pad_length packet :
  len (pad packet) = Z.max minUDPQuestionSize (len packet + 65 - (len packet + 1) mod 64).
Proof.
  rewrite pad_eq. unfold padded_to, make_bytes, pad_zeros. rewrite length_app. cbn [length].
  rewrite length_replicate. pose proof (Z.mod_pos_bound (len packet + 1) 64 ltac:(lia)). lia.
Qed.

Lemma pad_multiple packet : len (pad packet) mod 64 = 0.
Proof.
  rewrite pad_length. unfold minUDPQuestionSize.
  assert (H : (len packet + 65 - (len packet + 1) mod 64) mod 64 = 0).
  { replace (len packet + 65 - (len packet + 1) mod 64) with ((1 + (len packet + 1) / 64) * 64)
      by (pose proof (Z.div_mod (len packet + 1) 64 ltac:(lia)); lia). apply Z.mod_mul. lia. }
  match goal with |- Z.max ?a ?b mod _ = _ => destruct (Z.max_spec a b) as [[_ ->]|[_ ->]] end;
    [exact H|reflexivity].
Qed.

Lemma padded_inj p p' k k' : padded_to p k = padded_to p' k' -> p = p'.
Proof.
  revert k'. induction k as [|k IH]; intros k'; [rewrite padded_0|rewrite padded_snoc];
    rewrite padded_last; [|intros [(_ & ? & _)|(k1 & _ & _ & Hk)]; [discriminate|eauto]].
  intros [(_ & _ & ?)|(k1 & _ & ? & _)]; [assumption|discriminate].
Qed.

Lemma unpad_padded packet k :
  unpad (padded_to packet k)
  = Ret (if len packet <? minDNSPacketSize then Err ErrInvalidPadding else Ok packet).
Proof.
  destruct (unpad_spec (padded_to packet k)) as (r & -> & He & Hr). f_equal.
  destruct (Z.ltb_spec (len packet) minDNSPacketSize).
  - destruct r as [p|e]; [|f_equal; eauto].
    destruct (proj1 (Hr p) eq_refl) as [[k' Hk] Hp]. apply padded_inj in Hk. subst. lia.
  - apply Hr. eauto.
Qed.

(** [unpad] inverts [pad].  [unpad] never indexes outside of its packet and
    accepts exactly the packets of at least [minDNSPacketSize] bytes followed by
    0x80 and zeros, with nothing else removed; [pad] produces such a text, of a
    multiple of 64 bytes and of at least 256; a packet that is too short to be a
    message is [ErrInvalidPadding]. *)
Theorem pad_unpad (packet padded : bytes) :
  (exists r, unpad padded = Ret r /\
     forall p, r = Ok p <-> (exists k, padded = p ++ 128 :: make_bytes k) /\ minDNSPacketSize <= len p)
  /\ unpad (pad packet)
     = Ret (if len packet <? minDNSPacketSize then Err ErrInvalidPadding else Ok packet)
  /\ len (pad packet) mod 64 = 0 /\ minUDPQuestionSize <= len (pad packet)
  /\ len packet < len (pad packet) <= Z.max minUDPQuestionSize (len packet + 65).
Proof.
  split; [destruct (unpad_spec padded) as (r & -> & _ & Hr); eauto|].
  split; [rewrite pad_eq; apply unpad_padded|]. split; [apply pad_multiple|].
  rewrite pad_length. pose proof (Z.mod_pos_bound (len packet + 1) 64 ltac:(lia)).
  unfold minUDPQuestionSize. lia.
Qed.

End Padding.

(** ** Sessions *)

Section Sessions.
Context {CL : CryptoLib} {CLaws : CryptoLaws} {NaL : NaclLib} {NLaws : NaclLaws}.

Definition supported (es : Z) : Prop := es = XSalsa20Poly1305 \/ es = XChacha20Poly1305.

(** Both ends of an exchange compute the same key, of the size of a key. *)
Lemma computeSharedKey_agrees es a b :
  computeSharedKey es a (ScalarBaseMult b) = computeSharedKey es b (ScalarBaseMult a).
Proof. unfold computeSharedKey. rewrite SharedKey_agrees, precompute_agrees. reflexivity. Qed.

Lemma computeSharedKey_total es a p :
  exists r, computeSharedKey es a p = Ret r /\ forall k, r = Ok k -> supported es /\ length k = KeySize.
Proof.
  unfold computeSharedKey, supported. destruct (Z.eqb_spec es XChacha20Poly1305) as [->|].
  - destruct (SharedKey_total a p) as (r & -> & Hr). eauto 6.
  - destruct (Z.eqb_spec es XSalsa20Poly1305) as [->|].
    + eexists. split; [reflexivity|]. intros k [= <-]. split; [auto|apply precompute_length].
    + eexists. split; [reflexivity|discriminate].
Qed.

(** A box is sealed after a header and opens on both sides. *)
Lemma seal_es_opens es header nonce padded key :
  supported es -> length key = KeySize -> length nonce = nonceSize -> len padded + 128 <= stream_bytes ->
  exists box, seal_es es header nonce padded key = Ret (Ok (header ++ box))
    /\ length box = (TagSize + length padded)%nat
    /\ (forall magic pk, decryptES (mkQuery es magic pk nonce) box key = Ret (Ok padded))
    /\ open_response es nonce box key = Ret (Ok padded).
Proof.
  intros Hes Hk Hn Hl. unfold seal_es, decryptES, open_response. cbn [q_esVersion q_nonce].
  destruct Hes as [-> | ->].
  - exists (salsa_Seal padded nonce key). cbn. rewrite salsa_open_seal. split; [reflexivity|].
    split; [apply salsa_length|]. split; reflexivity.
  - exists (secret_box key nonce padded). rewrite Z.eqb_refl, Seal_eq by (assumption || (apply Z.le_trans with (len padded + 128); [lia|assumption])).
    cbn [gbind]. split; [reflexivity|]. pose proof (secret_box_length key nonce padded) as Hb.
    split; [exact Hb|].
    rewrite (proj2 (Open_Ok_iff nonce _ padded key Hk Hn ltac:(rewrite Hb; unfold TagSize; lia)) eq_refl).
    split; reflexivity.
Qed.

Lemma seal_es_unsupported es header nonce padded key :
  ~ supported es -> seal_es es header nonce padded key = Ret (Err ErrESVersion).
Proof.
  unfold seal_es, supported. intros Hs.
  destruct (Z.eqb_spec es XChacha20Poly1305); [tauto|].
  destruct (Z.eqb_spec es XSalsa20Poly1305); [tauto|]. reflexivity.
Qed.

Lemma copy_at_zeros src n m :
  n = (length src + m)%nat -> copy_at 0 src (make_bytes n) = src ++ make_bytes m.
Proof. apply (copy_at_exact 0 src [] n m eq_refl). Qed.

(** The half of the nonce that a client chooses. *)
Definition client_half (now : Time) (rnd : bytes) : bytes := be_put 8 (uint64 now) ++ rnd.

Lemma client_nonce now rnd :
  length rnd = 4%nat ->
  copy_at 8 rnd (copy_at 0 (be_put 8 (uint64 now)) (make_bytes 24)) = client_half now rnd ++ make_bytes 12.
Proof.
  intros Hr. unfold client_half.
  rewrite (copy_at_zeros _ 24 16) by (rewrite be_put_length; reflexivity).
  rewrite (copy_at_exact 8 rnd (be_put 8 (uint64 now)) 16 12) by (rewrite ?be_put_length, ?Hr; reflexivity).
  apply app_assoc.
Qed.

Lemma client_half_length now rnd : length rnd = 4%nat -> length (client_half now rnd) = 12%nat.
Proof. intros Hr. unfold client_half. rewrite length_app, be_put_length, Hr. reflexivity. Qed.

(** The nonce of a response: the client's half, then the server's. *)
Lemma server_nonce half now rnd :
  length half = 12%nat -> length rnd = 4%nat ->
  copy_at 16 (be_put 8 (uint64 now)) (copy_at 12 rnd (half ++ make_bytes 12))
  = half ++ rnd ++ be_put 8 (uint64 now).
Proof.
  intros Hh Hr. rewrite (copy_at_exact 12 rnd half 12 8) by (rewrite ?Hh, ?Hr; reflexivity).
  rewrite app_assoc, (copy_at_exact 16 (be_put 8 (uint64 now)) (half ++ rnd) 8 0)
    by (rewrite ?length_app, ?be_put_length, ?Hh, ?Hr; reflexivity).
  cbn [make_bytes replicate]. rewrite app_nil_r, <- app_assoc. reflexivity.
Qed.

(** The server takes a query apart. *)
Lemma query_decrypt_parts es magic pk half box sks key packet k :
  length magic = clientMagicSize -> length pk = KeySize -> length half = 12%nat ->
  (TagSize + 17 <= length box)%nat -> minDNSPacketSize <= len packet ->
  computeSharedKey es sks pk = Ret (Ok key) ->
  decryptES (mkQuery es magic pk (half ++ make_bytes 12)) box key = Ret (Ok (padded_to packet k)) ->
  query_decrypt (mkQuery es magic (make_bytes 32) (make_bytes 24)) (magic ++ pk ++ half ++ box) sks
  = Ret (Ok packet, mkQuery es magic pk (half ++ make_bytes 12)).
Proof.
  intros Hm Hpk Hh Hb Hp Hk Hd. unfold query_decrypt. cbn [q_nonce q_esVersion q_clientMagic q_clientPk].
  rewrite (proj2 (Z.ltb_ge _ _)) by (rewrite !length_app, Hm, Hpk, Hh; unfold minDNSPacketSize,
    clientMagicSize, KeySize, nonceSize, TagSize in *; cbn; lia).
  rewrite take_app_length', bool_decide_true by auto. cbn [negb].
  rewrite drop_app_length', take_app_length' by auto.
  rewrite (copy_at_zeros _ 32 0) by (rewrite Hpk; reflexivity). cbn [make_bytes replicate].
  rewrite app_nil_r, Hk. cbn [gbind].
  rewrite <- drop_drop, drop_app_length', drop_app_length' by auto.
  change (nonceSize / 2)%nat with 12%nat. rewrite take_app_length', drop_app_length' by auto.
  rewrite (copy_at_zeros _ 24 12) by (rewrite Hh; reflexivity). rewrite Hd. cbn [gbind].
  rewrite unpad_padded, (proj2 (Z.ltb_ge _ _)) by assumption. reflexivity.
Qed.

(** What a client sends, and what the server makes of it. *)
Lemma query_roundtrip es magic skc sks now rnd packet key :
  length magic = clientMagicSize -> length rnd = 4%nat ->
  computeSharedKey es skc (ScalarBaseMult sks) = Ret (Ok key) ->
  minDNSPacketSize <= len packet -> len (pad packet) + 128 <= stream_bytes ->
  let nonce := client_half now rnd ++ make_bytes 12 in
  exists query,
    query_encrypt now rnd (mkQuery es magic (ScalarBaseMult skc) (make_bytes 24)) packet key
      = Ret (Ok (query, nonce), mkQuery es magic (ScalarBaseMult skc) nonce)
    /\ len query = 68 + len (pad packet)
    /\ take clientMagicSize query = magic
    /\ query_decrypt (mkQuery es magic (make_bytes 32) (make_bytes 24)) query sks
       = Ret (Ok packet, mkQuery es magic (ScalarBaseMult skc) nonce).
Proof.
  intros Hm Hr Hk Hp Hl nonce. destruct (computeSharedKey_total es skc (ScalarBaseMult sks)) as (r & E & Hr').
  rewrite Hk in E. injection E as <-. destruct (Hr' key eq_refl) as [Hes Hkl]. clear Hr'.
  pose proof (base_length skc) as Hb. pose proof (client_half_length now rnd Hr) as Hh.
  assert (Hn : length nonce = nonceSize) by (subst nonce; rewrite length_app, Hh; reflexivity).
  assert (Ht : take (nonceSize / 2) nonce = client_half now rnd)
    by (change (nonceSize / 2)%nat with 12%nat; apply take_app_length'; auto).
  set (header := magic ++ ScalarBaseMult skc ++ client_half now rnd).
  destruct (seal_es_opens es header nonce (pad packet) key Hes Hkl Hn Hl) as (box & Es & Hbl & Ed & _).
  exists (header ++ box). unfold query_encrypt. cbn [q_nonce q_esVersion q_clientMagic q_clientPk].
  rewrite client_nonce by exact Hr. fold nonce. rewrite Ht. fold header. rewrite Es. cbn [gbind rbind].
  split; [reflexivity|]. pose proof (pad_length packet) as Hpl. unfold minUDPQuestionSize in Hpl.
  subst header. rewrite <- !app_assoc.
  split; [rewrite !length_app, Hm, Hb, Hh, Hbl; unfold clientMagicSize, KeySize, TagSize; lia|].
  split; [apply take_app_length'; auto|].
  rewrite computeSharedKey_agrees in Hk. specialize (Ed magic (ScalarBaseMult skc)). rewrite pad_eq in Ed.
  eapply query_decrypt_parts; try eassumption. rewrite Hbl. lia.
Qed.

(** What the server answers, and what the client makes of it. *)
Lemma response_roundtrip es half now rnd packet key cnonce :
  supported es -> length key = KeySize -> length half = 12%nat -> length rnd = 4%nat ->
  take 12 cnonce = half -> minDNSPacketSize <= len packet -> len (pad packet) + 128 <= stream_bytes ->
  let nonce := half ++ rnd ++ be_put 8 (uint64 now) in
  exists response,
    response_encrypt now rnd (mkResponse es (half ++ make_bytes 12)) packet key
      = Ret (Ok response, mkResponse es nonce)
    /\ len response = 48 + len (pad packet)
    /\ response_decrypt (mkResponse es (make_bytes 24)) response key cnonce
       = Ret (Ok packet, mkResponse es nonce).
Proof.
  intros Hes Hk Hh Hr Hc Hp Hl nonce.
  assert (Hn : length nonce = nonceSize)
    by (subst nonce; rewrite !length_app, be_put_length, Hh, Hr; reflexivity).
  destruct (seal_es_opens es (resolverMagic ++ nonce) nonce (pad packet) key Hes Hk Hn Hl) as (box & Es & Hbl & _ & Ed).
  exists ((resolverMagic ++ nonce) ++ box). unfold response_encrypt. cbn [r_esVersion r_nonce].
  rewrite server_nonce by assumption. fold nonce. rewrite Es. cbn [gbind]. split; [reflexivity|].
  pose proof (pad_length packet) as Hpl. unfold minUDPQuestionSize in Hpl.
  assert (Hrl : len ((resolverMagic ++ nonce) ++ box) = 48 + len (pad packet))
    by (rewrite !length_app, Hbl, Hn; unfold TagSize, nonceSize; cbn [length resolverMagic]; lia).
  split; [exact Hrl|]. unfold response_decrypt. rewrite Hrl.
  rewrite (proj2 (Z.ltb_ge _ _)) by (unfold minDNSPacketSize, nonceSize, TagSize; cbn [length resolverMagic]; lia).
  rewrite <- app_assoc, take_app_length' by reflexivity. rewrite bool_decide_true by reflexivity. cbn [negb r_esVersion r_nonce].
  rewrite drop_app_length', take_app_length' by (auto || reflexivity).
  rewrite (copy_at_zeros _ 24 0), app_nil_r by (rewrite Hn; reflexivity).
  change (nonceSize / 2)%nat with 12%nat. rewrite Hc.
  rewrite bool_decide_true by (subst nonce; apply take_app_length'; auto).
  cbn [negb]. rewrite (Nat.add_comm nonceSize), <- drop_drop, drop_app_length', drop_app_length' by (auto || reflexivity).
  rewrite Ed. cbn [gbind]. rewrite pad_eq, unpad_padded, (proj2 (Z.ltb_ge _ _)) by assumption. reflexivity.
Qed.

(** C29: A DNSCrypt exchange delivers both messages.  A client and a server whose
    keys have a shared secret, using either construction: the server opens what
    the client sends and finds the packet, the client's public key and its nonce;
    the key it derives from them is the client's; and the client opens what the
    server answers to that query and finds the answer.  The encrypted sizes are
    the padded sizes plus the headers and the tag. *)
Theorem dnscrypt_session_roundtrip (es now now' : Z) (magic skc sks rnd rnd' packet reply key : bytes) :
  length magic = clientMagicSize -> length rnd = 4%nat -> length rnd' = 4%nat ->
  computeSharedKey es skc (ScalarBaseMult sks) = Ret (Ok key) ->
  minDNSPacketSize <= len packet <= MaxUint16 -> minDNSPacketSize <= len reply <= MaxUint16 ->
  exists query nonce q response r r',
    query_encrypt now rnd (mkQuery es magic (ScalarBaseMult skc) (make_bytes 24)) packet key
      = Ret (Ok (query, nonce), q)
    /\ len query = 68 + len (pad packet)
    /\ query_decrypt (mkQuery es magic (make_bytes 32) (make_bytes 24)) query sks = Ret (Ok packet, q)
    /\ computeSharedKey es sks (q_clientPk q) = Ret (Ok key)
    /\ response_encrypt now' rnd' (mkResponse es (q_nonce q)) reply key = Ret (Ok response, r)
    /\ len response = 48 + len (pad reply)
    /\ response_decrypt (mkResponse es (make_bytes 24)) response key nonce = Ret (Ok reply, r').
Proof.
  intros Hm Hr Hr' Hk Hp Hp'.
  assert (Hs : forall p, len p <= MaxUint16 -> len (pad p) + 128 <= stream_bytes).
  { intros p Hl. rewrite pad_length. pose proof (Z.mod_pos_bound (len p + 1) 64 ltac:(lia)).
    unfold stream_bytes, minUDPQuestionSize, MaxUint16 in *. lia. }
  destruct (computeSharedKey_total es skc (ScalarBaseMult sks)) as (k & E & Hkl).
  rewrite Hk in E. injection E as <-. destruct (Hkl key eq_refl) as [Hes Hl].
  destruct (query_roundtrip es magic skc sks now rnd packet key) as (query & Hq & Hql & _ & Hd); auto; try tauto.
  { apply Hs. tauto. }
  destruct (response_roundtrip es (client_half now rnd) now' rnd' reply key (client_half now rnd ++ make_bytes 12))
    as (response & Hre & Hrl & Hrd); auto using client_half_length; try tauto.
  { apply take_app_length'. symmetry. apply client_half_length. exact Hr. }
  { apply Hs. tauto. }
  do 6 eexists. split; [exact Hq|]. split; [exact Hql|]. split; [exact Hd|]. cbn [q_clientPk q_nonce].
  rewrite computeSharedKey_agrees. split; [exact Hk|]. split; [exact Hre|]. split; [exact Hrl|exact Hrd].
Qed.

(** A box that opens, as the two constructions define it. *)
Definition opens_to (es : Z) (key nonce box text : bytes) : Prop :=
  if es =? XChacha20Poly1305 then box = secret_box key nonce text
  else es = XSalsa20Poly1305 /\ salsa_Open box nonce key = Some text.

Lemma open_response_spec es nonce box key :
  length key = KeySize -> length nonce = nonceSize -> len box + 64 <= stream_bytes ->
  exists r, open_response es nonce box key = Ret r
    /\ forall text, r = Ok text <-> opens_to es key nonce box text.
Proof.
  intros Hk Hn Hb. unfold open_response, opens_to. destruct (Z.eqb_spec es XChacha20Poly1305) as [->|].
  - destruct (Open [] [] nonce box key) as [o|] eqn:E.
    + cbn [gbind]. eexists. split; [reflexivity|]. intros text. rewrite <- Open_Ok_iff by assumption.
      rewrite E. destruct o; cbn; split; congruence.
    + rewrite Open_eq in E by assumption. discriminate.
  - destruct (Z.eqb_spec es XSalsa20Poly1305) as [->|].
    + eexists. split; [reflexivity|]. intros text. destruct (salsa_Open box nonce key); naive_solver.
    + eexists. split; [reflexivity|]. split; [discriminate|tauto].
Qed.

Lemma decryptES_spec es magic pk nonce box key :
  length key = KeySize -> length nonce = nonceSize -> len box + 64 <= stream_bytes ->
  exists r, decryptES (mkQuery es magic pk nonce) box key = Ret r
    /\ forall text, r = Ok text <-> opens_to es key nonce box text.
Proof.
  intros Hk Hn Hb. unfold decryptES, opens_to. cbn [q_esVersion q_nonce].
  destruct (Z.eqb_spec es XChacha20Poly1305) as [->|].
  - destruct (Open [] [] nonce box key) as [o|] eqn:E.
    + cbn [gbind]. eexists. split; [reflexivity|]. intros text. rewrite <- Open_Ok_iff by assumption.
      rewrite E. destruct o; cbn; split; congruence.
    + rewrite Open_eq in E by assumption. discriminate.
  - destruct (Z.eqb_spec es XSalsa20Poly1305) as [->|].
    + eexists. split; [reflexivity|]. intros text. destruct (salsa_Open box nonce key); naive_solver.
    + eexists. split; [reflexivity|]. split; [discriminate|tauto].
Qed.

(** What an accepted query consists of: it is addressed to the certificate, and
    its box opens under the key shared with the public key it carries. *)
Definition query_box (es : Z) (magic sk query packet : bytes) (q : encryptedQuery) : Prop :=
  exists pk half box k key, query = magic ++ pk ++ half ++ box
    /\ length pk = KeySize /\ length half = 12%nat /\ q = mkQuery es magic pk (half ++ make_bytes 12)
    /\ computeSharedKey es sk pk = Ret (Ok key)
    /\ opens_to es key (half ++ make_bytes 12) box (packet ++ 128 :: make_bytes k)
    /\ minDNSPacketSize <= len packet.

Lemma query_decrypt_spec es magic sk query :
  len query <= MaxUint16 ->
  exists res q, query_decrypt (mkQuery es magic (make_bytes 32) (make_bytes 24)) query sk = Ret (res, q)
    /\ forall packet, res = Ok packet -> query_box es magic sk query packet q.
Proof.
  intros Hl. unfold query_decrypt. cbn [q_nonce q_esVersion q_clientMagic q_clientPk].
  destruct (Z.ltb_spec (len query) (Z.of_nat (clientMagicSize + KeySize + nonceSize / 2 + TagSize) + minDNSPacketSize)) as [|Hlen];
    [do 2 eexists; split; [reflexivity|discriminate]|].
  change (Z.of_nat (clientMagicSize + KeySize + nonceSize / 2 + TagSize) + minDNSPacketSize) with 85 in Hlen.
  destruct (bool_decide_reflect (take clientMagicSize query = magic)) as [Hm|]; cbn [negb];
    [|do 2 eexists; split; [reflexivity|discriminate]].
  set (pk := take KeySize (drop clientMagicSize query)).
  assert (Hpk : length pk = KeySize) by (subst pk; rewrite length_take, length_drop; unfold KeySize, clientMagicSize; lia).
  rewrite (copy_at_zeros pk 32 0), app_nil_r by (rewrite Hpk; reflexivity).
  destruct (computeSharedKey_total es sk pk) as (k & Ek & Hk). rewrite Ek. cbn [gbind].
  destruct k as [key|]; [|do 2 eexists; split; [reflexivity|discriminate]].
  destruct (Hk key eq_refl) as [_ Hkl].
  set (rest := drop (clientMagicSize + KeySize) query). change (nonceSize / 2)%nat with 12%nat.
  assert (Hrest : (length rest >= 45)%nat) by (subst rest; rewrite length_drop; unfold clientMagicSize, KeySize; lia).
  assert (Hh : length (take 12 rest) = 12%nat) by (rewrite length_take; lia).
  rewrite (copy_at_zeros (take 12 rest) 24 12) by (rewrite Hh; reflexivity).
  destruct (decryptES_spec es magic pk (take 12 rest ++ make_bytes 12) (drop 12 rest) key Hkl) as (r & -> & Hr).
  { rewrite length_app, Hh. reflexivity. }
  { subst rest. rewrite !length_drop. unfold stream_bytes, MaxUint16 in *. lia. }
  cbn [gbind]. destruct r as [text|e]; [|do 2 eexists; split; [reflexivity|discriminate]].
  destruct (unpad_spec text) as (u & -> & _ & Hu). cbn [gbind]. do 2 eexists. split; [reflexivity|].
  intros packet Hp. destruct u as [p|]; cbn in Hp; [injection Hp as ->|discriminate].
  destruct (proj1 (Hu packet) eq_refl) as [[j ->] Hpl].
  exists pk, (take 12 rest), (drop 12 rest), j, key. rewrite take_drop.
  split; [|repeat split; auto; apply Hr; reflexivity].
  subst pk rest. rewrite <- drop_drop, take_drop, <- Hm. symmetry. apply take_drop.
Qed.

(** What an accepted response consists of. *)
Definition answer_box (es : Z) (key nonce response packet : bytes) : Prop :=
  exists snonce box k, response = resolverMagic ++ snonce ++ box
    /\ length snonce = nonceSize /\ take (nonceSize / 2) snonce = take (nonceSize / 2) nonce
    /\ opens_to es key snonce box (packet ++ 128 :: make_bytes k)
    /\ minDNSPacketSize <= len packet.

Lemma response_decrypt_spec es response key nonce :
  length key = KeySize -> length nonce = nonceSize -> len response <= MaxUint16 ->
  exists res r', response_decrypt (mkResponse es (make_bytes 24)) response key nonce = Ret (res, r')
    /\ forall packet, res = Ok packet -> answer_box es key nonce response packet.
Proof.
  intros Hk Hn Hl. unfold response_decrypt. cbn [r_esVersion r_nonce].
  destruct (Z.ltb_spec (len response) (Z.of_nat (length resolverMagic + nonceSize + TagSize) + minDNSPacketSize)) as [|Hlen];
    [do 2 eexists; split; [reflexivity|discriminate]|].
  unfold minDNSPacketSize, nonceSize, TagSize in Hlen. cbn [length resolverMagic] in Hlen.
  destruct (bool_decide_reflect (take resolverMagicSize response = resolverMagic)) as [Hm|]; cbn [negb];
    [|do 2 eexists; split; [reflexivity|discriminate]].
  set (snonce := take nonceSize (drop resolverMagicSize response)).
  assert (Hsn : length snonce = nonceSize)
    by (subst snonce; rewrite length_take, length_drop; unfold nonceSize, resolverMagicSize; lia).
  rewrite (copy_at_zeros snonce 24 0), app_nil_r by (rewrite Hsn; reflexivity).
  destruct (bool_decide_reflect (take (nonceSize / 2) snonce = take (nonceSize / 2) nonce)) as [Hh|]; cbn [negb];
    [|do 2 eexists; split; [reflexivity|discriminate]].
  set (box := drop (nonceSize + resolverMagicSize) response).
  destruct (open_response_spec es snonce box key Hk Hsn) as (r & -> & Hr).
  { subst box. rewrite length_drop. unfold stream_bytes, MaxUint16 in *. lia. }
  cbn [gbind]. destruct r as [text|e]; [|do 2 eexists; split; [reflexivity|discriminate]].
  destruct (unpad_spec text) as (u & -> & _ & Hu). cbn [gbind]. do 2 eexists. split; [reflexivity|].
  intros packet Hp. destruct u as [p|]; cbn in Hp; [injection Hp as ->|discriminate].
  destruct (proj1 (Hu packet) eq_refl) as [[k ->] Hpl]. exists snonce, box, k.
  split; [|split; [exact Hsn|split; [exact Hh|split; [apply Hr; reflexivity|exact Hpl]]]].
  subst snonce box. rewrite (Nat.add_comm nonceSize), <- drop_drop, take_drop, <- Hm. symmetry. apply take_drop.
Qed.

(** A client accepts only the answer to its own query.  Whatever bytes
    arrive, decrypting does not panic; it returns a packet only if the bytes are
    the resolver's magic, a nonce whose first half is that of the client's query,
    and a box under that nonce and the session's key of the packet with its
    padding; anything else is an error. *)
Theorem response_decrypt_authentic (es : Z) (response key nonce : bytes) :
  length key = KeySize -> length nonce = nonceSize -> len response <= MaxUint16 ->
  exists res r', response_decrypt (mkResponse es (make_bytes 24)) response key nonce = Ret (res, r')
    /\ forall packet, res = Ok packet ->
       exists snonce box k, response = resolverMagic ++ snonce ++ box
         /\ length snonce = nonceSize /\ take (nonceSize / 2) snonce = take (nonceSize / 2) nonce
         /\ opens_to es key snonce box (packet ++ 128 :: make_bytes k)
         /\ minDNSPacketSize <= len packet.
Proof. intros Hk Hn Hl. apply (response_decrypt_spec es response key nonce Hk Hn Hl). Qed.

End Sessions.

(** ** Examples *)

Module PacketExamples.
Import SecretboxExamples.

#[export] Instance toy_nacl : NaclLib := {
  salsa_Seal m nonce key := toy_tag key nonce ++ m;
  salsa_Open box nonce key :=
    if bool_decide (take 16 box = toy_tag key nonce) then Some (drop 16 box) else None;
  Precompute p a := replicate KeySize ((default 0 (head p) + default 0 (head a) mod 256) mod 256);
}.

#[export] Instance toy_nacl_laws : NaclLaws.
Proof.
  split.
  - intros m nonce key. unfold salsa_Open, salsa_Seal, toy_nacl.
    rewrite take_app_length', drop_app_length' by reflexivity. rewrite bool_decide_true; reflexivity.
  - intros m nonce key. unfold salsa_Seal, toy_nacl. rewrite length_app. reflexivity.
  - intros a b. cbn. rewrite (Z.add_comm (default 0 (list.head b) mod 256)). reflexivity.
  - intros. apply length_replicate.
Qed.

Definition packet : bytes := Z.of_nat <$> seq 1 30.
Definition reply : bytes := Z.of_nat <$> seq 7 70.
Definition magic : bytes := Z.of_nat <$> seq 200 8.
Definition rnd : bytes := [9; 8; 7; 6].
Definition skc : bytes := Z.of_nat <$> seq 3 32.
Definition sks : bytes := Z.of_nat <$> seq 5 32.
Definition shared (es : Z) : bytes :=
  match computeSharedKey es skc (ScalarBaseMult sks) with Ret (Ok k) => k | _ => [] end.

(** A response that answers another query of the same session. *)
Definition stale : bytes :=
  match response_encrypt 5 rnd (mkResponse 2 (client_half 77 rnd ++ make_bytes 12)) reply (shared 2) with
  | Ret (Ok r, _) => r | _ => []
  end.

Example stale_refused :
  match response_decrypt (mkResponse 2 (make_bytes 24)) stale (shared 2) (client_half 78 rnd ++ make_bytes 12) with
  | Ret (Err e, _) => e = ErrUnexpectedNonce | _ => False
  end.
Proof. vm_compute. reflexivity. Qed.

End PacketExamples.

#[local] Existing Instances SecretboxExamples.toy SecretboxExamples.toy_laws.
#[local] Existing Instances PacketExamples.toy_nacl PacketExamples.toy_nacl_laws.

Lemma dnscrypt_session_roundtrip_witness :
  exists query q, query_encrypt 1000 PacketExamples.rnd
      (mkQuery 2 PacketExamples.magic (ScalarBaseMult PacketExamples.skc) (make_bytes 24))
      PacketExamples.packet (PacketExamples.shared 2) = Ret (Ok query, q)
    /\ query_decrypt (mkQuery 2 PacketExamples.magic (make_bytes 32) (make_bytes 24)) (fst query) PacketExamples.sks
       = Ret (Ok PacketExamples.packet, q).
Proof.
  destruct (dnscrypt_session_roundtrip (CL := SecretboxExamples.toy)
    (CLaws := SecretboxExamples.toy_laws) (NaL := PacketExamples.toy_nacl) (NLaws := PacketExamples.toy_nacl_laws)
    2 1000 2000 PacketExamples.magic PacketExamples.skc PacketExamples.sks
    PacketExamples.rnd PacketExamples.rnd PacketExamples.packet PacketExamples.reply (PacketExamples.shared 2)
    eq_refl eq_refl eq_refl ltac:(vm_compute; reflexivity) ltac:(split; vm_compute; discriminate)
    ltac:(split; vm_compute; discriminate)) as (query & nonce & q & response & r & r' & H & _ & H' & _).
  exists (query, nonce), q. split; [exact H|exact H'].
Defined.

Lemma response_decrypt_authentic_witness :
  exists res r', response_decrypt (mkResponse 2 (make_bytes 24)) PacketExamples.stale (PacketExamples.shared 2)
      (client_half 77 PacketExamples.rnd ++ make_bytes 12) = Ret (res, r').
Proof.
  destruct (response_decrypt_authentic (CL := SecretboxExamples.toy)
    (CLaws := SecretboxExamples.toy_laws) (NaL := PacketExamples.toy_nacl)
    2 PacketExamples.stale (PacketExamples.shared 2)
    (client_half 77 PacketExamples.rnd ++ make_bytes 12) eq_refl eq_refl ltac:(vm_compute; discriminate))
    as (res & r' & H & _). eauto.
Defined.
