(* ===== verification/CryptCert.v ===== *)
(** * DNSCrypt certificates (dnscrypt/certificate.go, string.go, generate.go,
      client.go)

    The serialization of certificates, their signatures and validity, the
    escaping of a certificate in a TXT record, the generation of certificates
    from a configuration, and the client's choice among the certificates of an
    answer.  Ed25519 is a class of operations with laws. *)

From S2P Require Import Prelude Upstreams DnsMsg Secretbox CryptPackets.

(** The operations of crypto/ed25519, on keys of the right size, and the pairs
    of a private and its public key. *)
Class Ed25519 := {
  ed_sign : bytes -> bytes -> bytes;
  ed_verify : bytes -> bytes -> bytes -> bool;
  ed_pair : bytes -> bytes -> Prop;
}.

Class Ed25519Laws `{Ed25519} := {
  ed_verify_sign sk pk m : ed_pair sk pk -> ed_verify pk m (ed_sign sk m) = true;
  ed_pair_length sk pk : ed_pair sk pk -> length sk = 64%nat /\ length pk = 32%nat;
  ed_pair_public sk pk : ed_pair sk pk -> pk = drop 32 sk;
  ed_sign_length sk m : length (ed_sign sk m) = 64%nat;
  ed_sign_wf sk m : wf_bytes (ed_sign sk m);
}.

(** ** string.go *)

Definition escapedByteSmall : bytes := str
  ("\000\001\002\003\004\005\006\007\008\009" ++
   "\010\011\012\013\014\015\016\017\018\019" ++
   "\020\021\022\023\024\025\026\027\028\029" ++
   "\030\031").

Definition escapedByteLarge : bytes := str
  ("\127\128\129" ++
   "\130\131\132\133\134\135\136\137\138\139" ++
   "\140\141\142\143\144\145\146\147\148\149" ++
   "\150\151\152\153\154\155\156\157\158\159" ++
   "\160\161\162\163\164\165\166\167\168\169" ++
   "\170\171\172\173\174\175\176\177\178\179" ++
   "\180\181\182\183\184\185\186\187\188\189" ++
   "\190\191\192\193\194\195\196\197\198\199" ++
   "\200\201\202\203\204\205\206\207\208\209" ++
   "\210\211\212\213\214\215\216\217\218\219" ++
   "\220\221\222\223\224\225\226\227\228\229" ++
   "\230\231\232\233\234\235\236\237\238\239" ++
   "\240\241\242\243\244\245\246\247\248\249" ++
   "\250\251\252\253\254\255").

(** [s[i:j]] *)
Definition slice_of (s : bytes) (i j : Z) : go bytes :=
  if (0 <=? i) && (i <=? j) && (j <=? len s) then Ret (take (Z.to_nat (j - i)) (drop (Z.to_nat i) s))
  else Panic.

Definition escapeByte (b : Z) : go bytes :=
  if b <? 32 then slice_of escapedByteSmall (uint8 (b * 4)) (uint8 (uint8 (b * 4) + 4))
  else
    let b := uint8 (b - (126 + 1)) in
    slice_of escapedByteLarge (b * 4) (b * 4 + 4).

Fixpoint packTxtString (buf : bytes) : go bytes :=
  match buf with
  | [] => Ret []
  | b :: buf =>
      let! e := if (b =? 34) || (b =? 92) then Ret [92; b]
                else if (b <? 32) || (126 <? b) then escapeByte b
                else Ret [b] in
      let! rest := packTxtString buf in
      Ret (e ++ rest)
  end.

Definition isDigitSequence (sequence : bytes) : bool :=
  forallb (fun c => negb ((c <? 48) || (57 <? c))) sequence.

Definition dddToByte (s0 s1 s2 : Z) : Z :=
  uint8 (uint8 (uint8 (uint8 (s0 - 48) * 100) + uint8 (uint8 (s1 - 48) * 10)) + uint8 (s2 - 48)).

Definition unescape (b : Z) : Z :=
  if b =? 116 then 9 else if b =? 114 then 13 else if b =? 110 then 10 else b.

Fixpoint unpackTxtString (s : bytes) : bytes :=
  match s with
  | [] => []
  | c :: s =>
      if negb (c =? 92) then c :: unpackTxtString s
      else match s with
      | [] => []
      | d :: s' =>
          match s' with
          | e :: f :: s'' =>
              if isDigitSequence [d; e; f] then dddToByte d e f :: unpackTxtString s''
              else unescape d :: unpackTxtString s'
          | _ => unescape d :: unpackTxtString s'
          end
      end
  end.

(** ** certificate.go *)

Definition certByteLength : nat := 124.
Definition certMagic : bytes := [68; 78; 83; 67].

Record Certificate := mkCert {
  Serial : Z;
  ESVersion : Z;
  Signature : bytes;
  ResolverPk : bytes;
  ResolverSk : bytes;
  ClientMagic : bytes;
  NotBefore : Z;
  NotAfter : Z;
}.

(** [&Certificate{}] *)
Definition empty_cert : Certificate :=
  mkCert 0 0 (make_bytes 64) (make_bytes 32) (make_bytes 32) (make_bytes 8) 0 0.

(** The sizes of the arrays and the ranges of the integers. *)
Record wf_cert (c : Certificate) : Prop := {
  wc_serial : 0 <= Serial c <= MaxUint32;
  wc_es : 0 <= ESVersion c <= MaxUint16;
  wc_sig : length (Signature c) = 64%nat /\ wf_bytes (Signature c);
  wc_pk : length (ResolverPk c) = KeySize /\ wf_bytes (ResolverPk c);
  wc_sk : length (ResolverSk c) = KeySize /\ wf_bytes (ResolverSk c);
  wc_magic : length (ClientMagic c) = clientMagicSize /\ wf_bytes (ClientMagic c);
  wc_before : 0 <= NotBefore c <= MaxUint32;
  wc_after : 0 <= NotAfter c <= MaxUint32;
}.

Definition ErrInvalidDate : error := New "cert has invalid ts-start or ts-end".
Definition ErrInvalidCertSignature : error := New "cert has invalid signature".
Definition ErrCertTooShort : error := New "cert is too short".
Definition ErrCertMagic : error := New "invalid cert magic".

(** [writeSigned] on the slice of [dst] from [off] on. *)
Definition writeSigned (c : Certificate) (off : nat) (dst : bytes) : bytes :=
  let dst := copy_at off (ResolverPk c) dst in
  let dst := copy_at (off + 32) (ClientMagic c) dst in
  let dst := copy_at (off + 40) (be_put 4 (Serial c)) dst in
  let dst := copy_at (off + 44) (be_put 4 (NotBefore c)) dst in
  copy_at (off + 48) (be_put 4 (NotAfter c)) dst.

Definition MarshalBinary (c : Certificate) : bytes :=
  let serialized := make_bytes certByteLength in
  let serialized := copy_at 0 certMagic serialized in
  let serialized := copy_at 4 (be_put 2 (uint16 (ESVersion c))) serialized in
  let serialized := copy_at 6 [0; 0] serialized in
  let serialized := copy_at 8 (Signature c) serialized in
  writeSigned c 72 serialized.

(** [b[i:j]] of a slice that is long enough. *)
Definition sub (i j : nat) (b : bytes) : bytes := take (j - i) (drop i b).

Definition UnmarshalBinary (c : Certificate) (b : bytes) : result Certificate :=
  if (length b <? certByteLength)%nat then Err ErrCertTooShort
  else if negb (bool_decide (take 4 b = certMagic)) then Err ErrCertMagic
  else
    let esVersion := be_get (sub 4 6 b) in
    let? es := if esVersion =? XSalsa20Poly1305 then Ok XSalsa20Poly1305
               else if esVersion =? XChacha20Poly1305 then Ok XChacha20Poly1305
               else Err ErrESVersion in
    Ok (mkCert (be_get (sub 112 116 b)) es
          (copy_at 0 (sub 8 72 b) (Signature c)) (copy_at 0 (sub 72 104 b) (ResolverPk c))
          (ResolverSk c) (copy_at 0 (sub 104 112 b) (ClientMagic c))
          (be_get (sub 116 120 b)) (be_get (sub 120 certByteLength b))).

Definition verifyDate (c : Certificate) (now : Z) : bool :=
  if NotAfter c <=? NotBefore c then false
  else if (NotAfter c <? now) || (now <? NotBefore c) then false
  else true.

(** [VerifyDate] at time [now]. *)
Definition VerifyDate (now : Time) (c : Certificate) : bool := verifyDate c (Unix now).

(** [Validate] *)
Definition cert_Validate (now : Time) (c : Certificate) : option error :=
  if ESVersion c =? UndefinedConstruction then Some ErrESVersion
  else if negb (VerifyDate now c) then Some ErrInvalidDate
  else None.

Section Signatures.
Context {ED : Ed25519}.

(** [ed25519.Verify] and [ed25519.Sign] panic on keys of another size. *)
Definition VerifySignature (c : Certificate) (publicKey : bytes) : go bool :=
  let b := writeSigned c 0 (make_bytes 52) in
  if (length publicKey =? 32)%nat then Ret (ed_verify publicKey b (Signature c)) else Panic.

Definition Sign (c : Certificate) (privateKey : bytes) : go Certificate :=
  let b := writeSigned c 0 (make_bytes 52) in
  if (length privateKey =? 64)%nat then
    let signature := ed_sign privateKey b in
    Ret (mkCert (Serial c) (ESVersion c) (copy_at 0 (take 64 signature) (Signature c)) (ResolverPk c)
           (ResolverSk c) (ClientMagic c) (NotBefore c) (NotAfter c))
  else Panic.

(** ** The certificates of an answer (client.go) *)

Definition verifyCert (now : Time) (cert : Certificate) (serverPk : bytes) : go (option error) :=
  if negb (VerifyDate now cert) then Ret (Some ErrInvalidDate)
  else
    let! ok := VerifySignature cert serverPk in
    if negb ok then Ret (Some ErrInvalidCertSignature) else Ret None.

Definition certHasHigherPriority (prev current : Certificate) : bool :=
  if Serial current <? Serial prev then false
  else if Serial prev <? Serial current then true
  else if ESVersion current <=? ESVersion prev then false
  else true.

(** One record of the loop of [parseAnswer]. *)
Definition parseAnswer_step (now : Time) (serverPk : bytes) (cert : option Certificate) (rr : RR)
    : go (option Certificate) :=
  match Data rr with
  | RD_TXT txt =>
      match UnmarshalBinary empty_cert (unpackTxtString (concat txt)) with
      | Err _ => Ret cert
      | Ok currentCert =>
          let! err := verifyCert now currentCert serverPk in
          match err with
          | Some _ => Ret cert
          | None =>
              Ret match cert with
                  | None => Some currentCert
                  | Some prev => if certHasHigherPriority prev currentCert then Some currentCert else cert
                  end
          end
      end
  | _ => Ret cert
  end.

(** The clock is read once for each certificate; [now i] is its value at the
    i-th record. *)
Fixpoint parseAnswer_loop (now : nat -> Time) (serverPk : bytes) (i : nat) (cert : option Certificate)
    (answer : list RR) : go (option Certificate) :=
  match answer with
  | [] => Ret cert
  | rr :: answer =>
      let! cert := parseAnswer_step (now i) serverPk cert rr in
      parseAnswer_loop now serverPk (S i) cert answer
  end.

Definition parseAnswer (now : nat -> Time) (answer : list RR) (serverPk : bytes) : go (option Certificate) :=
  parseAnswer_loop now serverPk 0 None answer.

End Signatures.

(** ** generate.go *)

(** [hex.EncodeToString] of encoding/hex *)
Definition hex_digit (d : Z) : Z := if d <? 10 then 48 + d else 87 + d.

Definition EncodeToString (b : bytes) : bytes :=
  flat_map (fun x => [hex_digit (Z.shiftr x 4); hex_digit (Z.land x 15)]) b.

(** [strings.ToUpper] of an ASCII string *)
Definition upper_byte (b : Z) : Z := if (97 <=? b) && (b <=? 122) then b - 32 else b.

Definition ToUpper (s : bytes) : bytes := upper_byte <$> s.

(** The value of a hexadecimal digit. *)
Definition hex_value (c : Z) : option Z :=
  if (48 <=? c) && (c <=? 57) then Some (c - 48)
  else if (97 <=? c) && (c <=? 102) then Some (c - 87)
  else if (65 <=? c) && (c <=? 70) then Some (c - 55)
  else None.

Definition hex_InvalidByteError : error := New "encoding/hex: invalid byte".
Definition hex_ErrLength : error := New "encoding/hex: odd length hex string".

(** [hex.DecodeString] *)
Fixpoint DecodeString (s : bytes) : result bytes :=
  match s with
  | [] => Ok []
  | [p] => match hex_value p with None => Err hex_InvalidByteError | Some _ => Err hex_ErrLength end
  | p :: q :: s =>
      match hex_value p, hex_value q with
      | Some a, Some b => let? rest := DecodeString s in Ok (Z.lor (Z.shiftl a 4) b :: rest)
      | _, _ => Err hex_InvalidByteError
      end
  end.

Definition HexEncodeKey (b : bytes) : bytes := ToUpper (EncodeToString b).

(** [strings.ReplaceAll(str, ":", ...)] with nothing removes the colons. *)
Definition HexDecodeKey (s : bytes) : result bytes := DecodeString (filter (fun c => c <> 58) s).

Record ResolverConfig := mkRC {
  rc_ProviderName : bytes;
  rc_PublicKey : bytes;
  rc_PrivateKey : bytes;
  rc_ResolverSk : bytes;
  rc_ResolverPk : bytes;
  rc_ESVersion : Z;
  rc_CertificateTTL : Duration;
}.

Definition defaultCertValidity : Duration := 365 * 24 * (3600 * Second).
Definition DNSCryptV2Prefix : bytes := str "2.dnscrypt-cert.".

(** [Validate] of a configuration; [NotEmpty] is golibs' [validate.NotEmpty]. *)
Definition rc_Validate (NotEmpty : string -> bytes -> option error) (rc : ResolverConfig) : option error :=
  join_errors (omap id [NotEmpty "public_key"%string (rc_PublicKey rc); NotEmpty "private_key"%string (rc_PrivateKey rc);
                        NotEmpty "resolver_secret"%string (rc_ResolverSk rc)]).

Section Generate.
Context {CL : CryptoLib} {ED : Ed25519}.

(** [generateRandomKeyPair] with the random bytes [rnd]. *)
Definition generateRandomKeyPair (rnd : bytes) : bytes * bytes := (rnd, ScalarBaseMult rnd).

Definition newCert (rc : ResolverConfig) (now : Time) (rnd : bytes) : go (result Certificate) :=
  let notAfter := if 0 <? rc_CertificateTTL rc then now + rc_CertificateTTL rc
                  else now + defaultCertValidity in
  let start := Unix now in
  let end_ := Unix notAfter in
  if (start <? 0) || (MaxUint32 <? start) || (end_ <? 0) || (MaxUint32 <? end_) || (end_ <=? start)
  then Ret (Err (New "certificate validity [%d, %d] cannot be represented by DNSCrypt"))
  else match HexDecodeKey (rc_ResolverPk rc) with
  | Err e => Ret (Err (Errorf "decoding public key: %w" e))
  | Ok resolverPk =>
      match HexDecodeKey (rc_ResolverSk rc) with
      | Err e => Ret (Err (Errorf "decoding secret key: %w" e))
      | Ok resolverSk =>
          let '(resolverSk, resolverPk) :=
            if negb (length resolverPk =? KeySize)%nat || negb (length resolverSk =? KeySize)%nat
            then generateRandomKeyPair rnd else (resolverSk, resolverPk) in
          let cert := mkCert (uint32 start) (rc_ESVersion rc) (Signature empty_cert)
            (copy_at 0 resolverPk (ResolverPk empty_cert)) (copy_at 0 resolverSk (ResolverSk empty_cert))
            (ClientMagic empty_cert) (uint32 start) (uint32 end_) in
          match HexDecodeKey (rc_PrivateKey rc) with
          | Err e => Ret (Err (Errorf "decoding private key: %w" e))
          | Ok privateKey => let! cert := Sign cert privateKey in Ret (Ok cert)
          end
      end
  end.

(** [GenerateResolverConfig]; [generated] is what [ed25519.GenerateKey] gives and
    [rnd] the random bytes of the key pair.  The public half of a private key is
    its last 32 bytes; its slice panics on a shorter key. *)
Definition GenerateResolverConfig (providerName : bytes) (privateKey : option bytes) (ttl : Duration)
    (generated : result bytes) (rnd : bytes) : go (result ResolverConfig) :=
  let providerName := if negb (HasPrefix providerName DNSCryptV2Prefix)
                      then DNSCryptV2Prefix ++ providerName else providerName in
  match (match privateKey with Some k => Ok k | None => annotate "generating key" generated end) with
  | Err e => Ret (Err e)
  | Ok privateKey =>
      if (length privateKey <? 32)%nat then Panic
      else
        let publicKey := copy_at 0 (drop 32 privateKey) (make_bytes 32) in
        let '(resolverSk, resolverPk) := generateRandomKeyPair rnd in
        Ret (Ok (mkRC providerName (HexEncodeKey publicKey) (HexEncodeKey privateKey)
                   (HexEncodeKey resolverSk) (HexEncodeKey resolverPk) XSalsa20Poly1305 ttl))
  end.

End Generate.

(** ** Escaping *)

Section Escaping.

(** The text of one byte. *)
Definition escaped (b : Z) : go bytes :=
  if (b =? 34) || (b =? 92) then Ret [92; b]
  else if (b <? 32) || (126 <? b) then escapeByte b
  else Ret [b].

(** The three forms of an escaped byte. *)
Inductive escape_form (b : Z) : bytes -> Prop :=
  | form_plain : b <> 92 -> escape_form b [b]
  | form_quoted : isDigitSequence [b] = false -> unescape b = b -> escape_form b [92; b]
  | form_ddd d e f : isDigitSequence [d; e; f] = true -> dddToByte d e f = b -> escape_form b [92; d; e; f].

(** The form of the text, as a computation. *)
Definition form_ok (b : Z) : bool :=
  match escaped b with
  | Ret [c] => (c =? b) && negb (b =? 92)
  | Ret [x; c] => (x =? 92) && ((c =? b) && (negb (isDigitSequence [b]) && (unescape b =? b)))
  | Ret [x; d; e; f] => (x =? 92) && (isDigitSequence [d; e; f] && (dddToByte d e f =? b))
  | _ => false
  end.

Lemma escaped_form b : is_byte b -> exists t, escaped b = Ret t /\ escape_form b t.
Proof.
  intros Hb. pose proof (byte_forall form_ok ltac:(vm_compute; reflexivity) b Hb) as H.
  unfold form_ok in H. destruct (escaped b) as [t|]; [|discriminate]. exists t. split; [reflexivity|].
  destruct t as [|c [|d [|e [|f [|]]]]]; try discriminate H;
    rewrite ?andb_true_iff, ?negb_true_iff, ?Z.eqb_eq, ?Z.eqb_neq in H.
  - destruct H as [-> H]. constructor. exact H.
  - destruct H as (-> & -> & H1 & H2). constructor; assumption.
  - destruct H as (-> & H1 & H2). constructor; assumption.
Qed.

Lemma unpack_form b t rest : escape_form b t -> unpackTxtString (t ++ rest) = b :: unpackTxtString rest.
Proof.
  intros [Hb|Hd Hu|d e f Hd Hu]; cbn [app unpackTxtString].
  - apply Z.eqb_neq in Hb. rewrite Hb. reflexivity.
  - cbn [Z.eqb negb Pos.eqb]. rewrite Hu. destruct rest as [|e [|f rest]]; [reflexivity..|].
    assert (E : isDigitSequence [b; e; f] = false)
      by (cbn [isDigitSequence forallb] in *; rewrite andb_true_r in Hd; rewrite Hd; reflexivity).
    rewrite E. reflexivity.
  - cbn [Z.eqb negb Pos.eqb]. rewrite Hd, Hu. reflexivity.
Qed.

Lemma packTxtString_step b buf :
  packTxtString (b :: buf) = let! e := escaped b in let! rest := packTxtString buf in Ret (e ++ rest).
Proof. reflexivity. Qed.

(** A text record carries arbitrary bytes: escaping never slices outside of its
    tables, and unescaping gives the bytes back. *)
Lemma packTxtString_roundtrip buf :
  wf_bytes buf -> exists t, packTxtString buf = Ret t /\ unpackTxtString t = buf.
Proof.
  induction 1 as [|b buf Hb _ (t & E & Ht)]; [exists []; split; reflexivity|].
  rewrite packTxtString_step. destruct (escaped_form b Hb) as (e & -> & He). rewrite E. cbn [gbind].
  eexists. split; [reflexivity|]. rewrite (unpack_form b e t He), Ht. reflexivity.
Qed.

End Escaping.

(** ** The format of certificates *)

Section CertFormat.

(** The part of a certificate that is signed. *)
Definition signed_part (c : Certificate) : bytes :=
  ResolverPk c ++ ClientMagic c ++ be_put 4 (Serial c) ++ be_put 4 (NotBefore c) ++ be_put 4 (NotAfter c).

Definition cert_header (c : Certificate) : bytes :=
  certMagic ++ be_put 2 (ESVersion c) ++ [0; 0] ++ Signature c.

(** The certificate as a client sees it: without the secret key. *)
Definition with_Sk (sk : bytes) (c : Certificate) : Certificate :=
  mkCert (Serial c) (ESVersion c) (Signature c) (ResolverPk c) sk (ClientMagic c) (NotBefore c) (NotAfter c).

Lemma writeSigned_eq c pre off :
  length (ResolverPk c) = KeySize -> length (ClientMagic c) = clientMagicSize -> off = length pre ->
  writeSigned c off (pre ++ make_bytes 52) = pre ++ signed_part c.
Proof.
  intros Hp Hm ->. unfold writeSigned, signed_part.
  rewrite (copy_at_exact (length pre) (ResolverPk c) pre 52 20) by (rewrite ?Hp; reflexivity).
  rewrite app_assoc, (copy_at_exact _ (ClientMagic c) _ 20 12)
    by (rewrite ?length_app, ?Hp, ?Hm; reflexivity).
  rewrite app_assoc, (copy_at_exact _ (be_put 4 (Serial c)) _ 12 8)
    by (rewrite ?length_app, ?be_put_length, ?Hp, ?Hm, <- ?Nat.add_assoc; reflexivity).
  rewrite app_assoc, (copy_at_exact _ (be_put 4 (NotBefore c)) _ 8 4)
    by (rewrite ?length_app, ?be_put_length, ?Hp, ?Hm, <- ?Nat.add_assoc; reflexivity).
  rewrite app_assoc, (copy_at_exact _ (be_put 4 (NotAfter c)) _ 4 0)
    by (rewrite ?length_app, ?be_put_length, ?Hp, ?Hm, <- ?Nat.add_assoc; reflexivity).
  cbn [make_bytes replicate]. rewrite app_nil_r, <- !app_assoc. reflexivity.
Qed.

Lemma MarshalBinary_eq c : wf_cert c -> MarshalBinary c = cert_header c ++ signed_part c.
Proof.
  intros [_ He [Hs _] [Hp _] _ [Hm _] _ _]. unfold MarshalBinary, cert_header, certByteLength.
  assert (Hes : uint16 (ESVersion c) = ESVersion c) by (apply Z.mod_small; unfold MaxUint16 in He; lia).
  rewrite Hes, (copy_at_zeros certMagic 124 120) by reflexivity.
  rewrite (copy_at_exact 4 (be_put 2 (ESVersion c)) certMagic 120 118) by (rewrite ?be_put_length; reflexivity).
  rewrite app_assoc, (copy_at_exact 6 [0; 0] _ 118 116) by (rewrite ?length_app, ?be_put_length; reflexivity).
  rewrite app_assoc, (copy_at_exact 8 (Signature c) _ 116 52)
    by (rewrite ?length_app, ?be_put_length, ?Hs; reflexivity).
  rewrite app_assoc, writeSigned_eq; [rewrite <- !app_assoc; reflexivity|assumption..|].
  rewrite !length_app, be_put_length, Hs. reflexivity.
Qed.

Lemma sub_skip i j pre post n :
  length pre = n -> (n <= i)%nat -> sub i j (pre ++ post) = sub (i - n) (j - n) post.
Proof.
  intros Hn Hi. unfold sub. rewrite drop_app_ge, Hn by lia. f_equal. lia.
Qed.

Lemma sub_here x post n : length x = n -> sub 0 n (x ++ post) = x.
Proof. intros <-. unfold sub. rewrite drop_0, Nat.sub_0_r. apply take_app_length. Qed.

Lemma sub_all x n : length x = n -> sub 0 n x = x.
Proof. intros Hn. rewrite <- (app_nil_r x) at 1. apply sub_here. exact Hn. Qed.

Lemma cert_length c : wf_cert c -> length (cert_header c ++ signed_part c) = certByteLength.
Proof.
  intros [_ _ [Hs _] [Hp _] _ [Hm _] _ _]. unfold cert_header, signed_part.
  rewrite !length_app, !be_put_length, Hs, Hp, Hm. reflexivity.
Qed.

Lemma be_get_32 v : 0 <= v <= MaxUint32 -> be_get (be_put 4 v) = v.
Proof. intros H. apply be_get_put_small. change (256 ^ Z.of_nat 4) with (2 ^ 32). unfold MaxUint32 in H. lia. Qed.

(** Finds a field of known position among parts of known length. *)
Ltac find_field :=
  repeat (erewrite sub_skip by (eassumption || (rewrite be_put_length; reflexivity) || lia); cbn [Nat.sub]);
  first [apply sub_here | apply sub_all]; eassumption || apply be_put_length.

Lemma Unmarshal_fields c b :
  wf_cert c -> b = cert_header c ++ signed_part c ->
  take 4 b = certMagic /\ sub 4 6 b = be_put 2 (ESVersion c) /\ sub 8 72 b = Signature c
  /\ sub 72 104 b = ResolverPk c /\ sub 104 112 b = ClientMagic c /\ sub 112 116 b = be_put 4 (Serial c)
  /\ sub 116 120 b = be_put 4 (NotBefore c) /\ sub 120 certByteLength b = be_put 4 (NotAfter c).
Proof.
  intros [_ _ [Hs _] [Hp _] _ [Hm _] _ _] ->. unfold cert_header, signed_part. rewrite <- !app_assoc.
  assert (H0 : length [0; 0] = 2%nat) by reflexivity. assert (Hc : length certMagic = 4%nat) by reflexivity.
  unfold KeySize, clientMagicSize, certByteLength in *. split; [reflexivity|]. repeat split; find_field.
Qed.

Lemma UnmarshalBinary_Marshal c c0 :
  wf_cert c -> wf_cert c0 ->
  UnmarshalBinary c0 (MarshalBinary c) =
    if (ESVersion c =? XSalsa20Poly1305) || (ESVersion c =? XChacha20Poly1305)
    then Ok (with_Sk (ResolverSk c0) c) else Err ErrESVersion.
Proof.
  intros Hw [_ _ [Hs0 _] [Hp0 _] _ [Hm0 _] _ _]. unfold UnmarshalBinary.
  rewrite (MarshalBinary_eq c Hw), (cert_length c Hw).
  destruct (Unmarshal_fields c _ Hw eq_refl) as (-> & -> & -> & -> & -> & -> & -> & ->).
  destruct Hw as [Hse He [Hs _] [Hp _] _ [Hm _] Hnb Hna]. cbn [Nat.ltb Nat.leb certByteLength].
  rewrite bool_decide_true by reflexivity. cbn [negb].
  rewrite (be_get_put_small 2) by (change (256 ^ Z.of_nat 2) with 65536; unfold MaxUint16 in He; lia).
  destruct (Z.eqb_spec (ESVersion c) XSalsa20Poly1305) as [E|];
    [|destruct (Z.eqb_spec (ESVersion c) XChacha20Poly1305) as [E|]; [|reflexivity]]; cbn [orb rbind];
  unfold with_Sk; rewrite !copy_at_0 by congruence || (rewrite ?Hs0, ?Hp0, ?Hm0, ?Hs, ?Hp, ?Hm; lia);
  rewrite !drop_ge by (rewrite ?Hs0, ?Hp0, ?Hm0, ?Hs, ?Hp, ?Hm; lia);
  rewrite !app_nil_r, !be_get_32, E by assumption; reflexivity.
Qed.

End CertFormat.

(** ** The choice of a certificate *)

Section Choice.
Context {ED : Ed25519} (now : nat -> Time) (pk : bytes).

(** A client prefers higher serials, then newer constructions. *)
Definition precedes (c c' : Certificate) : Prop :=
  Serial c < Serial c' \/ (Serial c = Serial c' /\ ESVersion c < ESVersion c').

(** The record at position [i] holds a certificate that is valid when it is
    read and signed by the provider. *)
Definition offer (i : nat) (rr : RR) (c : Certificate) : Prop :=
  exists txt, Data rr = RD_TXT txt /\ UnmarshalBinary empty_cert (unpackTxtString (concat txt)) = Ok c
    /\ VerifyDate (now i) c = true /\ VerifySignature c pk = Ret true.

Definition offered (answer : list RR) (i : nat) (c : Certificate) : Prop :=
  exists rr, answer !! i = Some rr /\ offer i rr c.

(** The best offer, and the first among equals. *)
Definition best (answer : list RR) (res : option Certificate) : Prop :=
  match res with
  | None => forall i c, ~ offered answer i c
  | Some c => exists i, offered answer i c /\
      forall j c', offered answer j c' -> ~ precedes c c' /\ ((j < i)%nat -> precedes c' c)
  end.

Lemma certHasHigherPriority_spec prev cur : certHasHigherPriority prev cur = true <-> precedes prev cur.
Proof.
  unfold certHasHigherPriority, precedes. destruct (Z.ltb_spec (Serial cur) (Serial prev)); [split; [discriminate|lia]|].
  destruct (Z.ltb_spec (Serial prev) (Serial cur)); [split; auto|].
  destruct (Z.leb_spec (ESVersion cur) (ESVersion prev)); split; auto; try discriminate; lia.
Qed.

Lemma offered_snoc l rr j c :
  offered (l ++ [rr]) j c <-> offered l j c \/ (j = length l /\ offer (length l) rr c).
Proof.
  unfold offered. split.
  - intros (r & Hr & Ho). apply lookup_snoc_Some in Hr as [[? Hr]|[-> ->]]; eauto.
  - intros [(r & Hr & Ho)|[-> Ho]]; (exists r + exists rr); (split; [|exact Ho]).
    + apply lookup_app_l_Some. exact Hr.
    + apply lookup_snoc_Some. right. auto.
Qed.

Lemma offer_dec i rr :
  length pk = 32%nat ->
  (exists c, offer i rr c /\ forall acc, parseAnswer_step (now i) pk acc rr =
     Ret match acc with
         | None => Some c
         | Some prev => if certHasHigherPriority prev c then Some c else acc
         end)
  \/ ((forall c, ~ offer i rr c) /\ forall acc, parseAnswer_step (now i) pk acc rr = Ret acc).
Proof.
  intros Hl. unfold parseAnswer_step, offer, verifyCert.
  destruct (Data rr) as [| | |txt| | |]; try (right; split; [intros c (? & ? & _); discriminate|reflexivity]).
  destruct (UnmarshalBinary empty_cert (unpackTxtString (concat txt))) as [c|e] eqn:E.
  2: { right. split; [|reflexivity]. intros c (? & [= <-] & ? & _). congruence. }
  destruct (VerifyDate (now i) c) eqn:Ed; cbn [negb gbind].
  2: { right. split; [|reflexivity]. intros c' (? & [= <-] & ? & ? & _). congruence. }
  assert (Ev : VerifySignature c pk = Ret (ed_verify pk (writeSigned c 0 (make_bytes 52)) (Signature c)))
    by (unfold VerifySignature; rewrite Hl; reflexivity).
  rewrite Ev. cbn [gbind].
  destruct (ed_verify _ _ _) eqn:Es; cbn [negb gbind].
  - left. exists c. split; [exists txt; auto|reflexivity].
  - right. split; [|reflexivity]. intros c' (? & [= <-] & ? & _ & ?). congruence.
Qed.

Lemma offer_unique i rr c c' : offer i rr c -> offer i rr c' -> c = c'.
Proof. intros (? & E & ? & _) (? & E' & ? & _). congruence. Qed.

Lemma best_step done acc rr :
  length pk = 32%nat -> best done acc ->
  exists acc', parseAnswer_step (now (length done)) pk acc rr = Ret acc' /\ best (done ++ [rr]) acc'.
Proof.
  intros Hl Hb. destruct (offer_dec (length done) rr Hl) as [(c & Hc & ->)|[Hn ->]]; eexists; (split; [reflexivity|]).
  - destruct acc as [prev|]; cbn [best] in *.
    + destruct Hb as (i & Hi & Hbest). destruct (certHasHigherPriority prev c) eqn:Ep.
      * apply certHasHigherPriority_spec in Ep. exists (length done). split; [apply offered_snoc; auto|].
        intros j c' Hj. apply offered_snoc in Hj as [Hj|[-> Hj]].
        -- destruct (Hbest _ _ Hj) as [Hn _]. unfold precedes in *. lia.
        -- rewrite (offer_unique _ _ _ _ Hj Hc). unfold precedes. lia.
      * exists i. split; [apply offered_snoc; auto|]. intros j c' Hj. apply offered_snoc in Hj as [Hj|[-> Hj]]; [auto|].
        rewrite (offer_unique _ _ _ _ Hj Hc). split; [rewrite <- certHasHigherPriority_spec; congruence|].
        destruct Hi as (r & Hr & _). apply lookup_lt_Some in Hr. lia.
    + exists (length done). split; [apply offered_snoc; auto|]. intros j c' Hj.
      apply offered_snoc in Hj as [Hj|[-> Hj]]; [destruct (Hb _ _ Hj)|].
      rewrite (offer_unique _ _ _ _ Hj Hc). unfold precedes. lia.
  - destruct acc as [prev|]; cbn [best] in *.
    + destruct Hb as (i & Hi & Hbest). exists i. split; [apply offered_snoc; auto|].
      intros j c' Hj. apply offered_snoc in Hj as [Hj|[_ Hj]]; [auto|destruct (Hn _ Hj)].
    + intros j c' Hj. apply offered_snoc in Hj as [Hj|[_ Hj]]; [destruct (Hb _ _ Hj)|destruct (Hn _ Hj)].
Qed.

Lemma parseAnswer_loop_best todo done acc :
  length pk = 32%nat -> best done acc ->
  exists res, parseAnswer_loop now pk (length done) acc todo = Ret res /\ best (done ++ todo) res.
Proof.
  intros Hl. revert done acc. induction todo as [|rr todo IH]; intros done acc Hb; cbn [parseAnswer_loop].
  - rewrite app_nil_r. eauto.
  - destruct (best_step done acc rr Hl Hb) as (acc' & -> & Hb'). cbn [gbind].
    destruct (IH _ _ Hb') as (res & E & Hres). rewrite length_app, Nat.add_1_r in E.
    rewrite <- app_assoc in Hres. eauto.
Qed.

(** The client uses the right certificate.  From an answer with any records,
    [parseAnswer] returns a certificate exactly if some TXT record holds one that
    is valid at the moment and has the provider's signature; it is one of those,
    none of those is preferred to it (by a higher serial, or by a newer
    construction of the same serial), and it is the first of its rank. *)
Theorem parseAnswer_best (answer : list RR) :
  length pk = 32%nat ->
  exists res, parseAnswer now answer pk = Ret res /\
  match res with
  | None => forall i c, ~ offered answer i c
  | Some c => exists i, offered answer i c /\
      forall j c', offered answer j c' -> ~ precedes c c' /\ ((j < i)%nat -> precedes c' c)
  end.
Proof.
  intros Hl. apply (parseAnswer_loop_best answer [] None Hl).
  intros i c (rr & Hr & _). discriminate.
Qed.

End Choice.

(** ** Generated certificates *)

Section Generated.
Context {CL : CryptoLib} {CLaws : CryptoLaws} {ED : Ed25519} {EL : Ed25519Laws}.

Definition hex_ok (b : Z) : bool :=
  let p := upper_byte (hex_digit (Z.shiftr b 4)) in
  let q := upper_byte (hex_digit (Z.land b 15)) in
  negb (p =? 58) && negb (q =? 58) &&
  match hex_value p, hex_value q with
  | Some x, Some y => Z.lor (Z.shiftl x 4) y =? b
  | _, _ => false
  end.

(** A key printed in hexadecimal is read back. *)
Lemma HexDecode_Encode b : wf_bytes b -> HexDecodeKey (HexEncodeKey b) = Ok b.
Proof.
  unfold HexDecodeKey, HexEncodeKey, ToUpper, EncodeToString.
  induction 1 as [|x b Hx _ IH]; [reflexivity|]. cbn [flat_map app]. rewrite !fmap_cons.
  pose proof (byte_forall hex_ok ltac:(vm_compute; reflexivity) x Hx) as H. unfold hex_ok in H.
  rewrite !andb_true_iff, !negb_true_iff, !Z.eqb_neq in H. destruct H as [[Hp Hq] Hv].
  rewrite !filter_cons, !decide_True by assumption. cbn [DecodeString].
  destruct (hex_value _) as [u|]; [|discriminate]. destruct (hex_value _) as [v|]; [|discriminate].
  apply Z.eqb_eq in Hv. rewrite Hv, IH. reflexivity.
Qed.

Lemma Sign_eq c sk :
  length sk = 64%nat -> length (Signature c) = 64%nat ->
  Sign c sk = Ret (mkCert (Serial c) (ESVersion c) (ed_sign sk (writeSigned c 0 (make_bytes 52))) (ResolverPk c)
                     (ResolverSk c) (ClientMagic c) (NotBefore c) (NotAfter c)).
Proof.
  intros Hk Hs. unfold Sign. rewrite Hk. cbn [Nat.eqb]. pose proof (ed_sign_length sk (writeSigned c 0 (make_bytes 52))) as Hl.
  rewrite take_ge by lia. rewrite copy_at_0 by lia. rewrite drop_ge, app_nil_r by lia. reflexivity.
Qed.

Lemma make_bytes_wf n : wf_bytes (make_bytes n).
Proof. apply Forall_replicate. unfold is_byte. lia. Qed.

Lemma empty_cert_wf : wf_cert empty_cert.
Proof.
  split; unfold MaxUint32, MaxUint16; cbn [Serial ESVersion NotBefore NotAfter empty_cert]; try lia;
    (split; [reflexivity|apply make_bytes_wf]).
Qed.

Lemma copy_at_same src n : length src = n -> copy_at 0 src (make_bytes n) = src.
Proof. intros Hl. rewrite (copy_at_zeros src n 0) by lia. apply app_nil_r. Qed.

(** The last second of a certificate made at [now]. *)
Definition cert_end (now : Time) (ttl : Duration) : Z :=
  Unix (if 0 <? ttl then now + ttl else now + defaultCertValidity).

(** The certificate of a configuration with the given keys. *)
Definition expected_cert (sk rnd : bytes) (now : Time) (ttl : Duration) : Certificate :=
  let c := mkCert (Unix now) XSalsa20Poly1305 (make_bytes 64) (ScalarBaseMult rnd) rnd (make_bytes 8)
             (Unix now) (cert_end now ttl) in
  mkCert (Serial c) (ESVersion c) (ed_sign sk (writeSigned c 0 (make_bytes 52))) (ResolverPk c)
    (ResolverSk c) (ClientMagic c) (NotBefore c) (NotAfter c).

Lemma newCert_generated name sk pub ttl now rnd rnd' generated :
  ed_pair sk pub -> wf_bytes sk -> length rnd = KeySize -> wf_bytes rnd ->
  0 <= Unix now < cert_end now ttl -> cert_end now ttl <= MaxUint32 ->
  exists rc, GenerateResolverConfig name (Some sk) ttl generated rnd = Ret (Ok rc)
    /\ newCert rc now rnd' = Ret (Ok (expected_cert sk rnd now ttl)).
Proof.
  intros Hp Hsk Hr Hrw Hn He. destruct (ed_pair_length _ _ Hp) as [Hl _].
  unfold GenerateResolverConfig. rewrite Hl. cbn [Nat.ltb Nat.leb generateRandomKeyPair].
  eexists. split; [reflexivity|]. unfold newCert. cbn [rc_CertificateTTL rc_ResolverPk rc_ResolverSk rc_PrivateKey rc_ESVersion].
  fold (cert_end now ttl).
  rewrite (proj2 (Z.ltb_ge _ 0)), (proj2 (Z.ltb_ge MaxUint32 (Unix now))), (proj2 (Z.ltb_ge (cert_end now ttl) 0)),
    (proj2 (Z.ltb_ge MaxUint32 _)), (proj2 (Z.leb_gt _ _)) by lia. cbn [orb].
  rewrite !HexDecode_Encode by (assumption || apply base_wf).
  rewrite Hr, base_length. cbn [Nat.eqb negb orb KeySize].
  rewrite Sign_eq by (assumption || reflexivity). cbn [gbind Serial ESVersion ResolverPk ResolverSk ClientMagic NotBefore NotAfter].
  unfold empty_cert. cbn [Signature ResolverPk ResolverSk ClientMagic].
  rewrite !copy_at_same, !uint32_small by (lia || apply base_length || assumption). reflexivity.
Qed.

Lemma expected_wf sk rnd now ttl :
  length rnd = KeySize -> wf_bytes rnd -> 0 <= Unix now < cert_end now ttl -> cert_end now ttl <= MaxUint32 ->
  wf_cert (expected_cert sk rnd now ttl).
Proof.
  intros Hr Hw Hn He. split; cbn; try lia.
  - unfold XSalsa20Poly1305, MaxUint16. lia.
  - split; [apply ed_sign_length|apply ed_sign_wf].
  - split; [apply base_length|apply base_wf].
  - auto.
  - split; [reflexivity|]. apply (make_bytes_wf 8).
Qed.

Lemma MarshalBinary_wf c : wf_cert c -> wf_bytes (MarshalBinary c).
Proof.
  intros Hw. rewrite MarshalBinary_eq by exact Hw. destruct Hw as [_ _ [_ Hs] [_ Hp] _ [_ Hm] _ _].
  unfold cert_header, signed_part, certMagic, wf_bytes in *. rewrite !Forall_app. unfold is_byte.
  repeat split; auto using be_put_wf; try apply be_put_wf; repeat constructor; lia.
Qed.

(** A generated certificate works.  From the configuration that
    [GenerateResolverConfig] makes, [newCert] gives a certificate for the time
    from now to the end of its validity, provided that both fit 32 bits; the
    TXT text the server sends for it is read by a client that knows the
    provider's public key, at any moment of that time, as this certificate
    without the secret key; and its keys are a pair, as the exchange of messages
    requires. *)
Theorem generated_cert_fetched (name sk pub rnd rnd' : bytes) (ttl now : Z) (clock : nat -> Time)
    (generated : result bytes) (h : RR_Header) :
  ed_pair sk pub -> wf_bytes sk -> length rnd = KeySize -> wf_bytes rnd ->
  0 <= Unix now < cert_end now ttl -> cert_end now ttl <= MaxUint32 ->
  Unix now <= Unix (clock 0%nat) <= cert_end now ttl ->
  exists rc cert txt, GenerateResolverConfig name (Some sk) ttl generated rnd = Ret (Ok rc)
    /\ newCert rc now rnd' = Ret (Ok cert)
    /\ packTxtString (MarshalBinary cert) = Ret txt
    /\ parseAnswer clock [mkRR h (RD_TXT [txt])] pub = Ret (Some (with_Sk (make_bytes 32) cert))
    /\ ResolverPk cert = ScalarBaseMult (ResolverSk cert).
Proof.
  intros Hp Hsk Hr Hrw Hn He Hc.
  destruct (newCert_generated name sk pub ttl now rnd rnd' generated Hp Hsk Hr Hrw Hn He) as (rc & Hrc & Hcert).
  set (cert := expected_cert sk rnd now ttl) in *. assert (Hw : wf_cert cert) by (apply expected_wf; assumption).
  destruct (packTxtString_roundtrip (MarshalBinary cert) (MarshalBinary_wf cert Hw)) as (txt & Ht & Hu).
  exists rc, cert, txt. do 3 (split; [assumption|]). split; [|reflexivity].
  unfold parseAnswer. cbn [parseAnswer_loop]. unfold parseAnswer_step. cbn [Data concat]. rewrite app_nil_r, Hu.
  rewrite (UnmarshalBinary_Marshal cert empty_cert Hw empty_cert_wf).
  cbn [ESVersion cert expected_cert Z.eqb XSalsa20Poly1305 Pos.eqb orb ResolverSk empty_cert].
  unfold verifyCert, VerifyDate, verifyDate. cbn [with_Sk NotAfter NotBefore cert expected_cert].
  rewrite (proj2 (Z.leb_gt _ _)), (proj2 (Z.ltb_ge _ _)), (proj2 (Z.ltb_ge (Unix (clock 0%nat)) _)) by lia. cbn [orb negb].
  unfold VerifySignature. destruct (ed_pair_length _ _ Hp) as [_ ->]. cbn [Nat.eqb gbind].
  replace (writeSigned _ 0 (make_bytes 52))
    with (writeSigned (mkCert (Unix now) XSalsa20Poly1305 (make_bytes 64) (ScalarBaseMult rnd) rnd (make_bytes 8)
             (Unix now) (cert_end now ttl)) 0 (make_bytes 52)) by reflexivity.
  cbn [Signature with_Sk cert expected_cert]. rewrite ed_verify_sign by exact Hp. reflexivity.
Qed.

(** A private key of another size is not an error but a panic. *)
Lemma newCert_short_key_panics :
  newCert (CL := SecretboxExamples.toy) (mkRC (str "2.dnscrypt-cert.example.org") (str "AA") (str "AA") (str "AA") (str "AA") 1 0)
    0 (make_bytes 32) = Panic.
Proof. vm_compute. reflexivity. Qed.

End Generated.

(** ** Examples *)

Module CertExamples.
Import SecretboxExamples.

Definition toy_sig (m : bytes) : bytes := replicate 64 (foldl Z.add 0 m mod 256).

#[export] Instance toy_ed : Ed25519 := {
  ed_sign _ m := toy_sig m;
  ed_verify _ m s := bool_decide (s = toy_sig m);
  ed_pair sk pk := length sk = 64%nat /\ pk = drop 32 sk;
}.

#[export] Instance toy_ed_laws : Ed25519Laws.
Proof.
  split.
  - intros. cbn. apply bool_decide_true. reflexivity.
  - intros sk pk [Hl ->]. rewrite length_drop, Hl. auto.
  - intros sk pk [_ ->]. reflexivity.
  - intros. apply length_replicate.
  - intros. apply Forall_replicate, Z.mod_pos_bound. lia.
Qed.

Definition sk : bytes := Z.of_nat <$> seq 1 64.
Definition pub : bytes := drop 32 sk.
Definition rnd : bytes := Z.of_nat <$> seq 11 32.
Definition name : bytes := str "example.org".
Definition t0 : Time := 1700000000 * Second.
Definition day : Duration := 86400 * Second.

(** Certificates of the same provider with another serial and construction. *)
Definition cert_of (serial es : Z) : Certificate :=
  match Sign (mkCert serial es (make_bytes 64) (make_bytes 32) (make_bytes 32) (make_bytes 8)
                1700000000 1700086400) sk with
  | Ret c => c | Panic => empty_cert
  end.

Definition record_of (c : Certificate) : RR :=
  mkRR (mkHdr name TypeTXT ClassINET 60)
    (RD_TXT [match packTxtString (MarshalBinary c) with Ret t => t | Panic => [] end]).

(** A higher serial wins over a newer construction. *)
Example prefers_serial :
  (Serial <$> match parseAnswer (fun _ => t0) [record_of (cert_of 7 2); record_of (cert_of 8 1);
                                              record_of (cert_of 8 1)] pub with Ret o => o | Panic => None end)
  = Some 8.
Proof. vm_compute. reflexivity. Qed.

End CertExamples.

Lemma parseAnswer_best_witness :
  exists c, parseAnswer (ED := CertExamples.toy_ed) (fun _ => CertExamples.t0)
      [CertExamples.record_of (CertExamples.cert_of 7 2)] CertExamples.pub = Ret (Some c).
Proof.
  destruct (parseAnswer_best (ED := CertExamples.toy_ed) (fun _ => CertExamples.t0) CertExamples.pub
    [CertExamples.record_of (CertExamples.cert_of 7 2)] eq_refl) as ([c|] & H & _); [eauto|].
  vm_compute in H. discriminate H.
Defined.

Lemma generated_cert_fetched_witness :
  exists rc cert, GenerateResolverConfig (CL := SecretboxExamples.toy) CertExamples.name (Some CertExamples.sk)
      CertExamples.day (Ok []) CertExamples.rnd = Ret (Ok rc)
    /\ newCert (CL := SecretboxExamples.toy) (ED := CertExamples.toy_ed) rc CertExamples.t0 [] = Ret (Ok cert).
Proof.
  destruct (generated_cert_fetched (CL := SecretboxExamples.toy) (CLaws := SecretboxExamples.toy_laws)
    (ED := CertExamples.toy_ed) (EL := CertExamples.toy_ed_laws) CertExamples.name CertExamples.sk CertExamples.pub
    CertExamples.rnd [] CertExamples.day CertExamples.t0 (fun _ => CertExamples.t0) (Ok [])
    (mkHdr CertExamples.name TypeTXT ClassINET 60) ltac:(split; reflexivity)
    ltac:(vm_compute; repeat constructor; discriminate) eq_refl
    ltac:(vm_compute; repeat constructor; discriminate)
    ltac:(vm_compute; split; [discriminate|reflexivity]) ltac:(vm_compute; discriminate)
    ltac:(vm_compute; split; discriminate)) as (rc & cert & txt & H & H' & _).
  eauto.
Defined.
