(* ===== verification/CryptClient.v ===== *)
(** * The DNSCrypt client and upstream (dnscrypt/client.go, upstream/dnscrypt.go)

    The encrypted exchange over one connection, fetching a certificate, and the
    upstream that retains a verified certificate, asks over UDP and then over
    TCP, and reports to the decision of the exchange.  The outside (sockets,
    clock, randomness, the context and other callers) is the record [env]; the
    world counts what was read from it. *)

From S2P Require Import Prelude DnsMsg RefDns Wire Receipt Response Plain Secretbox CryptPackets CryptCert.

(** [dnscrypt.Proto] *)
Inductive dproto := CryptTCP | CryptUDP.

#[export] Instance dproto_eq_dec : EqDecision dproto.
Proof. solve_decision. Defined.

(** [ProtoFromString] *)
Definition ProtoFromString (s : bytes) : result dproto :=
  if bool_decide (s = str "udp") then Ok CryptUDP
  else if bool_decide (s = str "tcp") then Ok CryptTCP
  else Err (New "proto: bad enum value").

Record ResolverInfo := mkInfo {
  ResolverCert : Certificate;
  ServerAddress : bytes;
  ProviderName : bytes;
  ServerPublicKey : bytes;
  i_SharedKey : bytes;
  i_SecretKey : bytes;
  i_PublicKey : bytes;
}.

Record Client := mkClient { c_proto : dproto; c_udpSize : Z }.

(** [NewClient] *)
Definition NewClient (proto : dproto) (udpSize : Z) : Client :=
  mkClient proto (if udpSize =? 0 then MinMsgSize else udpSize).

(** [dnsstamps.ServerStamp] and its parser. *)
Record ServerStamp := mkStamp {
  StampProto : Z;
  ServerPk : bytes;
  ServerAddrStr : bytes;
  StampProviderName : bytes;
  StampPath : bytes;
}.
Definition StampProtoTypeDNSCrypt : Z := 1.

(** [CreateStamp] of a resolver configuration. *)
Definition CreateStamp (rc : ResolverConfig) (addr : bytes) : result ServerStamp :=
  match HexDecodeKey (rc_PublicKey rc) with
  | Err e => Err (Errorf "decoding key: %w" e)
  | Ok serverPk => Ok (mkStamp StampProtoTypeDNSCrypt serverPk addr (rc_ProviderName rc) [])
  end.

Class DnsStamps := NewServerStampFromString : bytes -> result ServerStamp.

(** A connection for one encrypted exchange: the error of writing, the datagram
    or stream that arrives, and the error of closing. *)
Record cconn := mkCC { cc_write : option error; cc_data : result bytes; cc_close : option error }.

(** A connection for a certificate: setting its deadline, writing, the messages
    read from it and the error that ends them. *)
Record certconn := mkKC {
  kc_deadline : option error;
  kc_write : option error;
  kc_msgs : list Msg;
  kc_end : error;
}.

(** What the n-th use of each part of the outside gives.  [certClock] is the
    clock at each record of a certificate answer; [refresh_err] is the
    outcome of waiting for the turn to refresh; [others] is what other callers
    do to the retained certificate meanwhile. *)
Record env := mkEnv {
  clock : nat -> Time;
  certClock : nat -> nat -> Time;
  random4 : nat -> bytes;
  random32 : nat -> bytes;
  ctx_Err : nat -> option error;
  refresh_err : nat -> option error;
  dialCrypt : nat -> dproto -> result cconn;
  dialCert : nat -> dproto -> result certconn;
  newQuery : nat -> bytes -> Z -> Msg;
  others : nat -> option ResolverInfo -> option ResolverInfo;
}.

Record cworld := mkCW {
  w_tick : nat;
  w_info : option ResolverInfo;
  w_written : list (dproto * bytes);
  w_st : state;
}.

Definition tick (w : cworld) : nat * cworld :=
  (w_tick w, mkCW (S (w_tick w)) (w_info w) (w_written w) (w_st w)).
Definition set_st (st : state) (w : cworld) : cworld := mkCW (w_tick w) (w_info w) (w_written w) st.
Definition set_info (i : option ResolverInfo) (w : cworld) : cworld := mkCW (w_tick w) i (w_written w) (w_st w).
Definition add_written (x : dproto * bytes) (w : cworld) : cworld :=
  mkCW (w_tick w) (w_info w) (w_written w ++ [x]) (w_st w).

Definition ErrInvalidDNSStamp : error := New "invalid stamp".
Definition ErrFailedToFetchCert : error := New "failed to fetch dnscrypt certificate".

Section Client.
Context {DL : DnsLib} {CL : CryptoLib} {NaL : NaclLib} {ED : Ed25519} {WD : WithDeferredLib} {DS : DnsStamps}.
Context (E : env).

(** ** Encrypted exchanges *)

Definition maxQuerySize (c : Client) : Z :=
  match c_proto c with CryptTCP => MaxMsgSize | CryptUDP => c_udpSize c end.

(** [Client.encrypt] *)
Definition client_encrypt (c : Client) (m : Msg) (info : ResolverInfo) (now : Time) (rnd : bytes)
    : go (result (bytes * bytes)) :=
  let q := mkQuery (ESVersion (ResolverCert info)) (ClientMagic (ResolverCert info)) (i_PublicKey info)
             (make_bytes nonceSize) in
  match Pack m with
  | Err e => Ret (Err (Errorf "packing dns message: %w" e))
  | Ok query =>
      let! (r, _) := query_encrypt now rnd q query (i_SharedKey info) in
      match r with
      | Err e => Ret (Err (Errorf "encrypting message: %w" e))
      | Ok (msg, clientNonce) =>
          if maxQuerySize c <? len msg then Ret (Err ErrQueryTooLarge) else Ret (Ok (msg, clientNonce))
      end
  end.

(** [Client.decrypt] *)
Definition client_decrypt (b clientNonce : bytes) (info : ResolverInfo) : go (result Msg) :=
  let dr := mkResponse (ESVersion (ResolverCert info)) (make_bytes nonceSize) in
  let! (r, _) := response_decrypt dr b (i_SharedKey info) clientNonce in
  match r with
  | Err e => Ret (Err (Errorf "decrypting server response: %w" e))
  | Ok response =>
      match Unpack response with
      | (_, Some e) => Ret (Err (Errorf "unpacking dns message: %w" e))
      | (msg, None) => Ret (Ok msg)
      end
  end.

Definition writeQuery (c : Client) (conn : cconn) (query : bytes) (w : cworld) : option error * cworld :=
  match c_proto c with
  | CryptTCP =>
      match Dnscrypt.writePrefixed query with
      | Err e => (Some (Errorf "writing to tcp connection: %w" e), w)
      | Ok frame =>
          (match cc_write conn with
           | Some e => Some (Errorf "writing to tcp connection: %w" (Errorf "writing to connection: %w" e))
           | None => None
           end, add_written (CryptTCP, frame) w)
      end
  | CryptUDP =>
      (match cc_write conn with Some e => Some (Errorf "writing to connection: %w" e) | None => None end,
       add_written (CryptUDP, query) w)
  end.

(** A datagram is cut to the size of the buffer. *)
Definition readResponse (c : Client) (conn : cconn) : result bytes :=
  match c_proto c with
  | CryptUDP => let? d := cc_data conn in Ok (take (Z.to_nat (c_udpSize c)) d)
  | CryptTCP =>
      let? d := annotate "reading msg len" (cc_data conn) in
      let? (b, _) := Dnscrypt.readPrefixed d in Ok b
  end.

(** ** The observer (upstream/dnscrypt.go) *)

(** [dnsCryptReceipt.Received]: the ticket of the candidate. *)
Definition Received (now : Time) (st : state) : go (state * Z) :=
  match st with
  | None => Ret (None, 0)
  | Some s => let! (s, t) := reserveCandidate now s in Ret (Some s, t)
  end.

(** [dnsCryptReceipt.Decoded] for the request [req]. *)
Definition Decoded (req : Msg) (udp : bool) (ticket : Z) (now : Time) (response : result Msg) (st : state)
    : go (option error * state) :=
  match response with
  | Err e => let! st := on_state (reject ticket now) st in Ret (Some e, st)
  | Ok m =>
      let! err :=
        if negb (Response (Hdr m)) then Ret (Some errDNSProtocol)
        else if negb (Id (Hdr m) =? Id (Hdr req)) then Ret (Some ErrId)
        else validateResponse req m in
      let! st := if (match err with Some _ => true | None => false end) || (udp && Truncated (Hdr m))
                 then on_state (reject ticket now) st else on_state (accept ticket m) st in
      Ret (err, st)
  end.

(** [ExchangeConnContext] with the observer of the upstream. *)
Definition ExchangeConnContext (c : Client) (conn : cconn) (m : Msg) (info : ResolverInfo) (udp : bool)
    (w : cworld) : go (result Msg * cworld) :=
  let '(t, w) := tick w in
  match ctx_Err E t with
  | Some e => Ret (Err e, w)
  | None =>
      let! r := client_encrypt c m info (clock E t) (random4 E t) in
      match r with
      | Err e => Ret (Err (Errorf "encrypting: %w" e), w)
      | Ok (query, clientNonce) =>
          let '(werr, w) := writeQuery c conn query w in
          match werr with
          | Some e => Ret (Err (Errorf "writing query: %w" e), w)
          | None =>
              match readResponse c conn with
              | Err e => Ret (Err (Errorf "reading response: %w" e), w)
              | Ok b =>
                  let '(t, w) := tick w in
                  let! (st, ticket) := Received (clock E t) (w_st w) in
                  let! resp := client_decrypt b clientNonce info in
                  let '(t, w) := tick w in
                  let! (err, st) := Decoded m udp ticket (clock E t) resp st in
                  let w := set_st st w in
                  match err with
                  | Some e => Ret (Err (Errorf "decrypting response: %w" e), w)
                  | None => Ret (resp, w)
                  end
              end
          end
      end
  end.

(** [ExchangeContext]: the response and the error, which closing may set. *)
Definition ExchangeContext (c : Client) (m : Msg) (info : ResolverInfo) (udp : bool) (w : cworld)
    : go (option Msg * option error * cworld) :=
  let '(t, w) := tick w in
  match dialCrypt E t (c_proto c) with
  | Err e => Ret (None, Some (Errorf "dialing: %w" e), w)
  | Ok conn =>
      let! (r, w) := ExchangeConnContext c conn m info udp w in
      Ret match r with
          | Err e => (None, WithDeferred (Some (Errorf "exchanging: %w" e)) (cc_close conn), w)
          | Ok resp => (Some resp, WithDeferred None (cc_close conn), w)
          end
  end.

(** ** Certificates *)

(** The loop over the messages of a certificate connection. *)
Fixpoint read_cert (msgs : list Msg) (ending : error) (id : Z) (proto : dproto) : result Msg :=
  match msgs with
  | [] => Err ending
  | r :: msgs =>
      if Id (Hdr r) =? id then Ok r
      else match proto with CryptTCP => Err ErrId | CryptUDP => read_cert msgs ending id proto end
  end.

Definition fetchCert (c : Client) (stamp : ServerStamp) (w : cworld) : go (result Certificate * cworld) :=
  let providerName := if negb (HasSuffix (StampProviderName stamp) (str "."))
                      then StampProviderName stamp ++ str "." else StampProviderName stamp in
  let '(t, w) := tick w in
  let query := newQuery E t providerName TypeTXT in
  match dialCert E t (c_proto c) with
  | Err e => Ret (Err (Errorf "dialing certificate server: %w" e), w)
  | Ok conn =>
      match kc_deadline conn with
      | Some e => Ret (Err e, w)
      | None =>
          match kc_write conn with
          | Some e => Ret (Err (Errorf "sending certificate query: %w" e), w)
          | None =>
              match read_cert (kc_msgs conn) (kc_end conn) (Id (Hdr query)) (c_proto c) with
              | Err e => Ret (Err (Errorf "sending dns query: %w" e), w)
              | Ok r =>
                  if negb (Rcode (Hdr r) =? RcodeSuccess) then Ret (Err ErrFailedToFetchCert, w)
                  else
                    let '(t, w) := tick w in
                    let! cert := parseAnswer (certClock E t) (Answer r) (ServerPk stamp) in
                    match cert with
                    | None => Ret (Err (New "no valid txt records for provider %q"), w)
                    | Some cert => Ret (Ok cert, w)
                    end
              end
          end
      end
  end.

Definition DialStampContext (c : Client) (stamp : ServerStamp) (w : cworld) : go (result ResolverInfo * cworld) :=
  let '(t, w) := tick w in
  let '(secretKey, publicKey) := generateRandomKeyPair (random32 E t) in
  let! (r, w) := fetchCert c stamp w in
  match r with
  | Err e => Ret (Err (Errorf "fetching cert: %w" e), w)
  | Ok cert =>
      let! k := computeSharedKey (ESVersion cert) secretKey (ResolverPk cert) in
      match k with
      | Err e => Ret (Err (Errorf "computing shared key: %w" e), w)
      | Ok sharedKey =>
          Ret (Ok (mkInfo cert (ServerAddrStr stamp) (StampProviderName stamp) (ServerPk stamp)
                     sharedKey secretKey publicKey), w)
      end
  end.

Definition DialContext (c : Client) (stampStr : bytes) (w : cworld) : go (result ResolverInfo * cworld) :=
  match NewServerStampFromString stampStr with
  | Err e => Ret (Err (Errorf "creating server stamp: %w" e), w)
  | Ok stamp =>
      if negb (StampProto stamp =? StampProtoTypeDNSCrypt) then Ret (Err ErrInvalidDNSStamp, w)
      else DialStampContext c stamp w
  end.

(** ** The upstream *)

Record dnsCrypt := mkDnsCrypt {
  p_addr : bytes;
  p_client : Client;
  p_tcpClient : Client;
  p_verifyCert : option (Certificate -> option error);
}.

(** [newDNSCrypt] *)
Definition newDNSCrypt (addr : bytes) (verify : option (Certificate -> option error)) : dnsCrypt :=
  mkDnsCrypt addr (NewClient CryptUDP 0) (NewClient CryptTCP 0) verify.

Definition currentCertificate (w : cworld) : option ResolverInfo * cworld :=
  let '(t, w) := tick w in
  (match w_info w with
   | Some info => if VerifyDate (clock E t) (ResolverCert info) then Some info else None
   | None => None
   end, w).

(** Other callers run. *)
Definition interfere (w : cworld) : cworld :=
  let '(t, w) := tick w in set_info (others E t (w_info w)) w.

(** What [certificate] does in its turn to refresh. *)
Definition refresh (p : dnsCrypt) (w : cworld) : go (result ResolverInfo * cworld) :=
  let '(t, w) := tick w in
  match ctx_Err E t with
  | Some e => Ret (Err e, w)
  | None =>
      let '(cur, w) := currentCertificate w in
      match cur with
      | Some info => Ret (Ok info, w)
      | None =>
          let! (r, w) := DialContext (p_client p) (p_addr p) w in
          match r with
          | Err e => Ret (Err (Errorf "fetching certificate info from %s: %w" e), w)
          | Ok info =>
              match (match p_verifyCert p with Some f => f (ResolverCert info) | None => None end) with
              | Some e => Ret (Err (Errorf "verifying certificate info from %s: %w" e), w)
              | None => Ret (Ok info, set_info (Some info) w)
              end
          end
      end
  end.

Definition certificate (p : dnsCrypt) (w : cworld) : go (result ResolverInfo * cworld) :=
  let '(t, w) := tick w in
  match ctx_Err E t with
  | Some e => Ret (Err e, w)
  | None =>
      let '(cur, w) := currentCertificate w in
      match cur with
      | Some info => Ret (Ok info, w)
      | None =>
          let '(t, w) := tick w in
          match refresh_err E t with
          | Some e => Ret (Err e, w)
          | None => refresh p (interfere w)
          end
      end
  end.

(** The body of [Exchange] after the state is started. *)
Definition crypt_body (p : dnsCrypt) (req : Msg) (w : cworld) : go (option Msg * option error * cworld) :=
  let! (r, w) := certificate p (interfere w) in
  match r with
  | Err e => Ret (None, Some e, w)
  | Ok info =>
      let! (resp, err, w) := ExchangeContext (p_client p) req info true w in
      match err, resp with
      | None, Some m =>
          if Truncated (Hdr m) then
            let! _ := index (Question req) 0 in
            ExchangeContext (p_tcpClient p) req info false w
          else Ret (resp, err, w)
      | _, _ => Ret (resp, err, w)
      end
  end.

Definition crypt_Exchange (p : dnsCrypt) (req : Msg) (w : cworld) : go (option Msg * option error * cworld) :=
  let '(st, err) := state_start (Id (Hdr req)) (w_st w) in
  match err with
  | Some e => Ret (None, Some e, set_st st w)
  | None =>
      let! (resp, err, w) := crypt_body p req (set_st st w) in
      let! st := on_state (finish err) (w_st w) in
      Ret (resp, err, set_st st w)
  end.

End Client.

(** ** Facts *)

Section Facts.
Context {DL : DnsLib} {CL : CryptoLib} {CLaws : CryptoLaws} {NaL : NaclLib} {NLaws : NaclLaws} {ED : Ed25519}.
Context {WD : WithDeferredLib} {WDL : WithDeferredLaws} {DS : DnsStamps}.
Context (E : env) (p : dnsCrypt).

(** What is known of a retained certificate: the stamp's provider signed it, the
    caller accepted it, and the keys are those of a session with its owner. *)
Record good_info (info : ResolverInfo) : Prop := {
  gi_stamp : exists stamp, NewServerStampFromString (p_addr p) = Ok stamp
    /\ StampProto stamp = StampProtoTypeDNSCrypt /\ ServerPublicKey info = ServerPk stamp;
  gi_signed : VerifySignature (ResolverCert info) (ServerPublicKey info) = Ret true;
  gi_accepted : forall f, p_verifyCert p = Some f -> f (ResolverCert info) = None;
  gi_shared : computeSharedKey (ESVersion (ResolverCert info)) (i_SecretKey info) (ResolverPk (ResolverCert info))
              = Ret (Ok (i_SharedKey info));
  gi_pair : i_PublicKey info = ScalarBaseMult (i_SecretKey info);
}.

Definition good_opt (i : option ResolverInfo) : Prop := forall info, i = Some info -> good_info info.

(** Other callers retain only such certificates. *)
Hypothesis others_good : forall t i, good_opt i -> good_opt (others E t i).

(** The certificate is valid at a reading of the clock between two worlds. *)
Definition current (w w' : cworld) (c : Certificate) : Prop :=
  exists t, (w_tick w <= t < w_tick w')%nat
    /\ (VerifyDate (clock E t) c = true \/ exists i, VerifyDate (certClock E t i) c = true).

Lemma current_grows w w' v v' c :
  (w_tick v <= w_tick w)%nat -> (w_tick w' <= w_tick v')%nat -> current w w' c -> current v v' c.
Proof. intros ? ? (t & ? & ?). exists t. split; [lia|assumption]. Qed.

Lemma parseAnswer_valid now pk c : forall answer i acc,
  parseAnswer_loop now pk i acc answer = Ret (Some c) ->
  acc = Some c \/ exists j, VerifyDate (now j) c = true /\ VerifySignature c pk = Ret true.
Proof.
  induction answer as [|rr answer IH]; intros i acc H; cbn [parseAnswer_loop] in H; [left; congruence|].
  inv_bind H. destruct (IH _ _ H) as [->|?]; [|auto]. unfold parseAnswer_step in E0.
  destruct (Data rr) as [| | |txt| | |]; try (left; congruence).
  destruct (UnmarshalBinary _ _) as [cc|]; [|left; congruence].
  inv_bind E0. unfold verifyCert in E1. destruct (VerifyDate (now i) cc) eqn:Ed; cbn [negb] in E1.
  2: { injection E1 as <-. left; congruence. }
  inv_bind E1. destruct a0; cbn [negb] in E1; injection E1 as <-; [|left; congruence].
  destruct acc as [prev|]; [destruct (certHasHigherPriority prev cc)|]; injection E0 as E0; subst; eauto.
Qed.

Lemma fetchCert_good c stamp w cert w' :
  fetchCert E c stamp w = Ret (Ok cert, w') ->
  VerifySignature cert (ServerPk stamp) = Ret true /\ current w w' cert
  /\ w_info w' = w_info w /\ w_st w' = w_st w /\ w_written w' = w_written w /\ (w_tick w <= w_tick w')%nat.
Proof.
  unfold fetchCert. intros H. cbn [tick] in H. destruct (dialCert _ _ _) as [conn|]; [|discriminate].
  destruct (kc_deadline conn); [discriminate|]. destruct (kc_write conn); [discriminate|].
  destruct (read_cert _ _ _ _) as [r|]; [|discriminate]. destruct (negb _); [discriminate|].
  cbn [w_tick] in H. inv_bind H. destruct a as [c'|]; [|discriminate]. injection H as <- <-.
  destruct (parseAnswer_valid _ _ _ _ _ _ E0) as [?|(j & Hd & Hs)]; [discriminate|].
  split; [exact Hs|]. split; [|cbn; repeat split; lia].
  exists (S (w_tick w)). cbn. split; [lia|]. eauto.
Qed.

Lemma DialContext_good c w info w' :
  DialContext E c (p_addr p) w = Ret (Ok info, w') ->
  (forall f, p_verifyCert p = Some f -> f (ResolverCert info) = None) ->
  good_info info /\ current w w' (ResolverCert info)
  /\ w_st w' = w_st w /\ w_written w' = w_written w /\ (w_tick w <= w_tick w')%nat.
Proof.
  unfold DialContext, DialStampContext. intros H Hv.
  destruct (NewServerStampFromString (p_addr p)) as [stamp|] eqn:Es; [|discriminate].
  destruct (Z.eqb_spec (StampProto stamp) StampProtoTypeDNSCrypt) as [Hp|]; [|discriminate]. cbn [negb tick generateRandomKeyPair] in H.
  inv_bind H. destruct a as [[cert|] w1]; [|discriminate]. inv_bind H. destruct a as [k|]; [|discriminate].
  injection H as <- <-. apply fetchCert_good in E0 as (Hs & Hc & _ & Hst & Hw & Ht). cbn [w_tick] in *.
  split; [split; cbn; eauto|]. split; [apply (current_grows _ _ w w1) in Hc; [exact Hc|cbn; lia|lia]|].
  repeat split; auto; lia.
Qed.

Lemma currentCertificate_good w info w' :
  currentCertificate E w = (info, w') -> good_opt (w_info w) ->
  w_info w' = w_info w /\ w_st w' = w_st w /\ w_written w' = w_written w /\ w_tick w' = S (w_tick w)
  /\ forall i, info = Some i -> good_info i /\ current w w' (ResolverCert i).
Proof.
  unfold currentCertificate. cbn [tick]. intros [= <- <-] Hg. cbn. repeat (split; [reflexivity|]).
  destruct (w_info w) as [i|]; [|discriminate]. destruct (VerifyDate _ _) eqn:Ed; [|discriminate].
  intros i' [= <-]. split; [auto|]. exists (w_tick w). cbn. split; [lia|auto].
Qed.

(** Looking a certificate up writes nothing to the upstream and does not touch
    the decision. *)
Definition kept_by (w w' : cworld) : Prop :=
  w_st w' = w_st w /\ w_written w' = w_written w /\ (w_tick w <= w_tick w')%nat.

Lemma kept_tick w : kept_by w (snd (tick w)).
Proof. repeat split. cbn. lia. Qed.

#[local] Instance kept_preorder : PreOrder kept_by.
Proof.
  split; [intros w; repeat split; lia|]. intros w1 w2 w3 (? & ? & ?) (? & ? & ?).
  repeat split; [congruence..|lia].
Qed.

Lemma fetchCert_kept c stamp w r w' : fetchCert E c stamp w = Ret (r, w') -> kept_by w w'.
Proof.
  unfold fetchCert. cbn [tick]. intros H.
  assert (Hend : forall x, Ret x = Ret (r, w') -> kept_by w (snd x) -> kept_by w w') by (intros ? [= ->]; auto).
  destruct (dialCert _ _ _) as [conn|]; [|apply Hend in H; auto using kept_tick].
  destruct (kc_deadline conn); [apply Hend in H; auto using kept_tick|].
  destruct (kc_write conn); [apply Hend in H; auto using kept_tick|].
  destruct (read_cert _ _ _ _) as [m|]; [|apply Hend in H; auto using kept_tick].
  destruct (negb _); [apply Hend in H; auto using kept_tick|].
  inv_bind H. destruct a; apply Hend in H; auto; repeat split; cbn; lia.
Qed.

Lemma DialContext_kept c addr w r w' : DialContext E c addr w = Ret (r, w') -> kept_by w w'.
Proof.
  unfold DialContext, DialStampContext. intros H. destruct (NewServerStampFromString addr) as [stamp|]; [|injection H as _ <-; reflexivity].
  destruct (negb _); [injection H as _ <-; reflexivity|]. cbn [tick generateRandomKeyPair] in H.
  inv_bind H. destruct a as [r1 w1]. apply fetchCert_kept in E0.
  assert (kept_by w w1) by (etransitivity; [apply kept_tick|exact E0]).
  destruct r1 as [cert|]; [|injection H as _ <-; assumption]. inv_bind H. destruct a; injection H as _ <-; assumption.
Qed.

Lemma refresh_spec w r w' :
  refresh E p w = Ret (r, w') -> good_opt (w_info w) ->
  kept_by w w' /\ forall info, r = Ok info -> good_info info /\ current w w' (ResolverCert info).
Proof.
  unfold refresh. cbn [tick]. intros H Hg. destruct (ctx_Err _ _); [injection H as <- <-; split; [apply kept_tick|discriminate]|].
  destruct (currentCertificate _ _) as [cur w1] eqn:Ec. apply currentCertificate_good in Ec; [|exact Hg].
  destruct Ec as (Hi & Hst & Hw & Ht & Hc). cbn in Hi, Hst, Hw, Ht.
  assert (K : kept_by w w1) by (repeat split; [assumption..|lia]).
  destruct cur as [info|].
  { injection H as <- <-. split; [exact K|]. intros i [= <-]. destruct (Hc info eq_refl) as [Hgi Hcu].
    split; [exact Hgi|]. eapply current_grows; [..|exact Hcu]; cbn; lia. }
  inv_bind H. destruct a as [r1 w2]. pose proof (DialContext_kept _ _ _ _ _ E0) as K2.
  assert (K3 : kept_by w w2) by (etransitivity; eassumption).
  destruct r1 as [info|]; [|injection H as <- <-; split; [exact K3|discriminate]].
  destruct (match p_verifyCert p with Some f => _ | None => _ end) eqn:Ev; injection H as <- <-; (split; [exact K3|]); [discriminate|].
  intros i [= <-]. destruct (DialContext_good _ _ _ _ E0) as (Hgi & Hcu & _).
  { intros f Hf. rewrite Hf in Ev. exact Ev. }
  split; [exact Hgi|]. eapply current_grows; [..|exact Hcu]; cbn; lia.
Qed.

Lemma certificate_spec w r w' :
  certificate E p w = Ret (r, w') -> good_opt (w_info w) ->
  kept_by w w' /\ forall info, r = Ok info -> good_info info /\ current w w' (ResolverCert info).
Proof using others_good.
  unfold certificate. cbn [tick]. intros H Hg. destruct (ctx_Err _ _); [injection H as <- <-; split; [apply kept_tick|discriminate]|].
  destruct (currentCertificate _ _) as [cur w1] eqn:Ec. apply currentCertificate_good in Ec; [|exact Hg].
  destruct Ec as (Hi & Hst & Hw & Ht & Hc). cbn in Hi, Hst, Hw, Ht.
  assert (K : kept_by w w1) by (repeat split; [assumption..|lia]).
  destruct cur as [info|].
  { injection H as <- <-. split; [exact K|]. intros i [= <-]. destruct (Hc info eq_refl) as [Hgi Hcu].
    split; [exact Hgi|]. eapply current_grows; [..|exact Hcu]; cbn; lia. }
  destruct (refresh_err _ _); [injection H as <- <-; split; [etransitivity; [exact K|apply kept_tick]|discriminate]|].
  apply refresh_spec in H as [K2 Hr]; [|cbn; apply others_good; rewrite Hi; exact Hg].
  split.
  - etransitivity; [exact K|]. etransitivity; [apply kept_tick|]. etransitivity; [apply kept_tick|]. exact K2.
  - intros info Hinfo. destruct (Hr info Hinfo) as [Hgi Hcu]. split; [exact Hgi|].
    eapply current_grows; [..|exact Hcu]; cbn; lia.
Qed.

(** *** Exchanges *)

(** The types of what the outside gives. *)
Hypothesis random4_length : forall t, length (random4 E t) = 4%nat.
Hypothesis data_wf : forall t pr conn d, dialCrypt E t pr = Ok conn -> cc_data conn = Ok d -> wf_bytes d.

Definition written_form (c : Client) (query : bytes) : bytes :=
  match c_proto c with CryptTCP => be_put 2 (len query) ++ query | CryptUDP => query end.

(** [m] is what a box under the session's key says, sealed with the nonce of a
    query that the client wrote between the two worlds. *)
Definition reply_to (c : Client) (info : ResolverInfo) (req m : Msg) (w w' : cworld) : Prop :=
  exists t query nonce snonce box packet k,
    (w_tick w <= t < w_tick w')%nat
    /\ client_encrypt c req info (clock E t) (random4 E t) = Ret (Ok (query, nonce))
    /\ In (c_proto c, written_form c query) (w_written w')
    /\ take (nonceSize / 2) snonce = take (nonceSize / 2) nonce
    /\ opens_to (ESVersion (ResolverCert info)) (i_SharedKey info) snonce box (packet ++ 128 :: make_bytes k)
    /\ Unpack packet = (m, None).

Lemma client_encrypt_nonce c m info now rnd query nonce :
  length rnd = 4%nat -> client_encrypt c m info now rnd = Ret (Ok (query, nonce)) -> length nonce = nonceSize.
Proof.
  intros Hr H. unfold client_encrypt, query_encrypt in H. destruct (Pack m); [|discriminate].
  cbn [q_nonce q_esVersion q_clientMagic q_clientPk] in H. inv_bind H. inv_bind E0.
  injection E0 as <-. destruct a1 as [q1|]; [|discriminate]. cbn [rbind] in H. destruct (_ <? _); [discriminate|].
  injection H as <- <-. assert (L : length (copy_at 0 (be_put 8 (uint64 now)) (make_bytes nonceSize)) = 24%nat)
    by (rewrite copy_at_length; [reflexivity|lia]).
  pose proof (copy_at_length 8 rnd (copy_at 0 (be_put 8 (uint64 now)) (make_bytes nonceSize))) as L2.
  rewrite L in L2. apply L2. lia.
Qed.

Lemma readResponse_size c t conn b :
  c_udpSize c <= MaxUint16 -> dialCrypt E t (c_proto c) = Ok conn -> readResponse c conn = Ok b -> len b <= MaxUint16.
Proof using data_wf.
  unfold readResponse. intros Hs Hd. destruct (c_proto c) eqn:Ep.
  - destruct (cc_data conn) as [d|] eqn:Ed; cbn [annotate rbind]; [|discriminate].
    destruct (Dnscrypt.readPrefixed d) as [[b' rest]|] eqn:Er; [|discriminate]. intros [= <-].
    unfold Dnscrypt.readPrefixed in Er. destruct (ReadFull d 2) as [[l d']|] eqn:El; [|discriminate].
    cbn [annotate rbind] in Er. destruct (ReadFull d' _) as [[x y]|] eqn:Ex; [|discriminate]. injection Er as <- <-.
    apply ReadFull_inv in El as [-> Hl]. apply ReadFull_inv in Ex as [_ Hx]. rewrite Hx.
    pose proof (data_wf _ _ _ _ Hd Ed) as Hw. unfold wf_bytes in Hw. rewrite Forall_app in Hw.
    pose proof (be_get_bound l (proj1 Hw)) as Hb. rewrite Hl in Hb. change (256 ^ Z.of_nat 2) with 65536 in Hb.
    unfold MaxUint16. lia.
  - destruct (cc_data conn) as [d|]; [|discriminate]. intros [= <-]. rewrite length_take.
    unfold MaxUint16 in *. lia.
Qed.

Lemma Decoded_ok req udp ticket now r st st' :
  Decoded req udp ticket now r st = Ret (None, st') ->
  exists m, r = Ok m /\ Response (Hdr m) = true /\ Id (Hdr m) = Id (Hdr req) /\ repeats_question req m.
Proof.
  unfold Decoded. destruct r as [m|e]; intros H; [|inv_bind H; discriminate].
  inv_bind H. inv_bind H. injection H as -> _. exists m. split; [reflexivity|].
  destruct (Response (Hdr m)); [|discriminate]. cbn [negb] in E0.
  destruct (Z.eqb_spec (Id (Hdr m)) (Id (Hdr req))); [|discriminate]. cbn [negb] in E0.
  apply validateResponse_repeats in E0. auto.
Qed.

(** A message that answers the request as far as its contents tell. *)
Definition answers (req m : Msg) : Prop :=
  Response (Hdr m) = true /\ Id (Hdr m) = Id (Hdr req) /\ repeats_question req m.

Lemma writeQuery_ok c conn query w w' :
  writeQuery c conn query w = (None, w') ->
  w' = add_written (c_proto c, written_form c query) w.
Proof.
  unfold writeQuery, written_form. destruct (c_proto c).
  - unfold Dnscrypt.writePrefixed. destruct (LengthPrefix (len query)) as [pre|] eqn:El; [|discriminate].
    apply LengthPrefix_Ok in El as [_ ->]. destruct (cc_write conn); [discriminate|]. congruence.
  - destruct (cc_write conn); [discriminate|]. congruence.
Qed.

Lemma ExchangeConn_good c t conn req info udp w m w' :
  c_udpSize c <= MaxUint16 -> dialCrypt E t (c_proto c) = Ok conn -> length (i_SharedKey info) = KeySize ->
  ExchangeConnContext E c conn req info udp w = Ret (Ok m, w') ->
  reply_to c info req m w w' /\ answers req m.
Proof using random4_length data_wf CLaws.
  intros Hs Hd Hk H. unfold ExchangeConnContext in H. cbn [tick] in H.
  destruct (ctx_Err _ _); [discriminate|]. inv_bind H. destruct a as [[query nonce]|]; [|discriminate].
  destruct (writeQuery _ _ _ _) as [[e|] w1] eqn:Ew; [discriminate|]. apply writeQuery_ok in Ew. subst w1.
  destruct (readResponse c conn) as [b|] eqn:Er; [|discriminate]. cbn [w_tick w_info w_written w_st add_written] in H.
  inv_bind H. destruct a as [st1 ticket]. inv_bind H. inv_bind H. destruct a0 as [[e|] st2]; [discriminate|].
  injection H as -> <-. apply Decoded_ok in E3 as (m' & [= <-] & Hans). split; [|exact Hans].
  unfold client_decrypt in E2. inv_bind E2. destruct a as [[packet|] r']; [|discriminate].
  destruct (response_decrypt_spec (ESVersion (ResolverCert info)) b (i_SharedKey info) nonce Hk)
    as (res & r'' & Hres & Hauth).
  { eapply client_encrypt_nonce; [|exact E0]. apply random4_length. }
  { eapply readResponse_size; eassumption. }
  change (make_bytes 24) with (make_bytes nonceSize) in Hres. rewrite E3 in Hres. injection Hres as <- <-. destruct (Hauth packet eq_refl) as (snonce & box & k & _ & _ & Hn & Ho & _).
  destruct (Unpack packet) as [m' [e|]] eqn:Eu; [discriminate|]. injection E2 as ->.
  exists (w_tick w), query, nonce, snonce, box, packet, k. cbn. repeat split; auto; try lia.
  apply in_or_app. right. left. reflexivity.
Qed.

Lemma reply_to_from c info req m v w w' :
  (w_tick v <= w_tick w)%nat -> reply_to c info req m w w' -> reply_to c info req m v w'.
Proof.
  intros Hv (t & q & n & sn & b & pk & k & Ht & H). exists t, q, n, sn, b, pk, k. split; [lia|exact H].
Qed.

Lemma writeQuery_tick c conn query w : w_tick (snd (writeQuery c conn query w)) = w_tick w.
Proof. unfold writeQuery. destruct (c_proto c); [case_goal|]; reflexivity. Qed.

Lemma ExchangeConn_tick c conn m info udp w r w' :
  ExchangeConnContext E c conn m info udp w = Ret (r, w') -> (w_tick w <= w_tick w')%nat.
Proof.
  unfold ExchangeConnContext. cbn [tick]. intros H. destruct (ctx_Err _ _); [injection H as _ <-; cbn; lia|].
  inv_bind H. destruct a as [[query nonce]|]; [|injection H as _ <-; cbn; lia].
  destruct (writeQuery _ _ _ _) as [e w1] eqn:Ew.
  pose proof (writeQuery_tick c conn query (mkCW (S (w_tick w)) (w_info w) (w_written w) (w_st w))) as Ht.
  rewrite Ew in Ht. cbn in Ht.
  destruct e; [injection H as _ <-; lia|]. destruct (readResponse c conn); [|injection H as _ <-; lia].
  inv_bind H. destruct a0. inv_bind H. inv_bind H. destruct a1 as [[e|] st2]; injection H as _ <-; cbn; lia.
Qed.

Lemma ExchangeContext_tick c m info udp w r e w' :
  ExchangeContext E c m info udp w = Ret (r, e, w') -> (w_tick w <= w_tick w')%nat.
Proof.
  unfold ExchangeContext. cbn [tick]. intros H. destruct (dialCrypt _ _ _) as [conn|]; [|injection H as _ _ <-; cbn; lia].
  inv_bind H. destruct a as [r1 w1]. apply ExchangeConn_tick in E0. cbn in E0.
  destruct r1; injection H as _ _ <-; lia.
Qed.

Lemma ExchangeContext_good c m info udp w r w' :
  c_udpSize c <= MaxUint16 -> length (i_SharedKey info) = KeySize ->
  ExchangeContext E c m info udp w = Ret (r, None, w') ->
  exists resp, r = Some resp /\ reply_to c info m resp w w' /\ answers m resp.
Proof using random4_length data_wf CLaws WDL.
  intros Hs Hk H. unfold ExchangeContext in H. cbn [tick] in H.
  destruct (dialCrypt _ _ _) as [conn|] eqn:Ed; [|discriminate]. inv_bind H. destruct a as [[resp|e] w1].
  - injection H as <- _ <-. eapply ExchangeConn_good in E0 as [Hr Ha]; [|eassumption..].
    exists resp. split; [reflexivity|]. split; [|exact Ha]. eapply reply_to_from; [|exact Hr]. cbn. lia.
  - injection H as _ [? _]%withDeferred_inv _. discriminate.
Qed.

Lemma good_info_key info : good_info info -> length (i_SharedKey info) = KeySize.
Proof.
  intros [_ _ _ Hk _].
  destruct (computeSharedKey_total (ESVersion (ResolverCert info)) (i_SecretKey info) (ResolverPk (ResolverCert info)))
    as (r & Hr & Hl). rewrite Hk in Hr. injection Hr as <-. apply (Hl _ eq_refl).
Qed.

Hypothesis client_sizes : c_udpSize (p_client p) <= MaxUint16 /\ c_udpSize (p_tcpClient p) <= MaxUint16.


(** *** The decision *)

(** Closing a connection does not fail. *)
Hypothesis crypt_close : forall t pr conn, dialCrypt E t pr = Ok conn -> cc_close conn = None.

(** An observed ciphertext is a candidate, whatever it says. *)
Lemma Received_idle now s :
  idle s -> ticket_ s + 1 < 2 ^ 64 ->
  exists s1 t, Received now (Some s) = Ret (Some s1, t)
    /\ (forall now', exists s2, reject t now' s1 = Ret s2 /\ idle s2 /\ original s2 = original s
          /\ ticket_ s2 <= ticket_ s + 1)
    /\ (forall m, exists s2, accept t m s1 = Ret s2 /\ original s2 = original s
          /\ ticket_ s2 <= ticket_ s + 1 /\ published s2 (set_Id (original s) m)).
Proof.
  intros Hi Ht.
  destruct (reserve_idle (0 :: 0 :: 128 :: make_bytes 9) 0 false now s Hi Ht) as (s1 & t & Hr & Hrej & Hacc).
  change (reserve _ 0 false now s) with (reserveCandidate now s) in Hr.
  exists s1, t. unfold Received. rewrite Hr. split; [reflexivity|]. split; [exact Hrej|exact Hacc].
Qed.

(** The state after an exchange: a failed one leaves it idle, and a response is
    published unless it is a truncated datagram. *)
Definition crypt_outcome (oid bound : Z) (udp : bool) (r : option Msg) (err : option error) (st : state) : Prop :=
  exists s, st = Some s /\ original s = oid /\ ticket_ s <= bound
    /\ match err with
       | Some _ => idle s
       | None => exists m, r = Some m
                   /\ if udp && Truncated (Hdr m) then idle s else published s (set_Id oid m)
       end.

Definition of_result (r : result Msg) : option Msg := match r with Ok m => Some m | Err _ => None end.

Lemma Decoded_outcome req udp t now r s s1 err st' :
  (exists s2, reject t now s1 = Ret s2 /\ idle s2 /\ original s2 = original s /\ ticket_ s2 <= ticket_ s + 1) ->
  (forall m, exists s2, accept t m s1 = Ret s2 /\ original s2 = original s
     /\ ticket_ s2 <= ticket_ s + 1 /\ published s2 (set_Id (original s) m)) ->
  Decoded req udp t now r (Some s1) = Ret (err, st') ->
  crypt_outcome (original s) (ticket_ s + 1) udp (of_result r) err st'.
Proof.
  intros (s2 & E2 & Hi2 & Ho2 & Ht2) Hacc. unfold Decoded, on_state. rewrite E2. cbn [gbind].
  destruct r as [m|e]; intros H; [|injection H as <- <-; exists s2; auto].
  destruct (Hacc m) as (s3 & E3 & Ho3 & Ht3 & Hp3). rewrite E3 in H. cbn [gbind] in H. inv_bind H. inv_bind H.
  injection H as <- <-. destruct a as [e|]; cbn [orb] in E1.
  - injection E1 as <-. exists s2. auto.
  - destruct (udp && Truncated (Hdr m)) eqn:Eu; injection E1 as <-; [exists s2|exists s3];
      (repeat split; auto); exists m; rewrite Eu; auto.
Qed.

Lemma ExchangeConn_outcome c conn m info udp w r w' s :
  w_st w = Some s -> idle s -> ticket_ s + 1 < 2 ^ 64 ->
  ExchangeConnContext E c conn m info udp w = Ret (r, w') ->
  crypt_outcome (original s) (ticket_ s + 1) udp (of_result r) (match r with Ok _ => None | Err e => Some e end) (w_st w').
Proof.
  intros Hs Hi Ht H. unfold ExchangeConnContext in H. cbn [tick] in H.
  assert (Hbad : forall e w0, w_st w0 = Some s -> Ret (Err e, w0) = Ret (r, w') ->
    crypt_outcome (original s) (ticket_ s + 1) udp (of_result r) (match r with Ok _ => None | Err e => Some e end) (w_st w')).
  { intros e w0 Hw [= <- <-]. exists s. repeat split; auto; try lia; apply Hi. }
  destruct (ctx_Err _ _); [apply Hbad in H; auto|]. inv_bind H. destruct a as [[query nonce]|]; [|apply Hbad in H; auto].
  destruct (writeQuery _ _ _ _) as [e w1] eqn:Ew.
  assert (Hw1 : w_st w1 = Some s).
  { unfold writeQuery in Ew. destruct (c_proto c); [destruct (Dnscrypt.writePrefixed query)|]; injection Ew as _ <-; exact Hs. }
  destruct e; [apply Hbad in H; auto|]. destruct (readResponse c conn); [|apply Hbad in H; auto].
  cbn [w_st] in H.
  destruct (Received_idle (clock E (w_tick w1)) s Hi Ht) as (s1 & t & Er & Hrej & Hacc).
  rewrite Hw1, Er in H. cbn [gbind] in H. inv_bind H. inv_bind H. destruct a1 as [err st1].
  eapply (Decoded_outcome _ _ _ _ _ s) in E2; [|apply Hrej|exact Hacc].
  destruct err as [e|]; injection H as <- <-; cbn [w_st set_st].
  - destruct E2 as (s2 & -> & Ho2 & Ht2 & Hi2). exists s2. auto.
  - destruct a0; [exact E2|]. destruct E2 as (s2 & _ & _ & _ & m' & ? & _). discriminate.
Qed.

Lemma ExchangeContext_outcome c m info udp w r err w' s :
  w_st w = Some s -> idle s -> ticket_ s + 1 < 2 ^ 64 ->
  ExchangeContext E c m info udp w = Ret (r, err, w') ->
  crypt_outcome (original s) (ticket_ s + 1) udp r err (w_st w').
Proof using crypt_close WDL.
  intros Hs Hi Ht H. unfold ExchangeContext in H. cbn [tick] in H.
  destruct (dialCrypt _ _ _) as [conn|] eqn:Ed.
  2: { injection H as <- <- <-. exists s. repeat split; auto; try lia; apply Hi. }
  inv_bind H. destruct a as [r1 w1]. eapply (ExchangeConn_outcome _ _ _ _ _ _ _ _ s) in E0; [|exact Hs|exact Hi|exact Ht].
  rewrite (crypt_close _ _ _ Ed) in H. destruct r1 as [m1|e1]; injection H as <- <- <-; rewrite withDeferred_none; exact E0.
Qed.

Lemma crypt_body_outcome req w r err w' s :
  good_opt (w_info w) -> w_st w = Some s -> idle s -> ticket_ s + 2 < 2 ^ 64 ->
  crypt_body E p req w = Ret (r, err, w') ->
  exists s', w_st w' = Some s' /\ original s' = original s
    /\ match err with
       | Some _ => idle s'
       | None => exists m, r = Some m /\ published s' (set_Id (original s) m)
       end.
Proof using others_good crypt_close WDL.
  intros Hg Hs Hi Ht H. unfold crypt_body in H. inv_bind H. destruct a as [r1 w1].
  apply certificate_spec in E0 as [(Hst & _) _]; [|cbn; apply others_good, Hg].
  destruct r1 as [info|]; [|injection H as <- <- <-; exists s; rewrite Hst; cbn; auto].
  inv_bind H. destruct a as [[r2 e2] w2]. eapply (ExchangeContext_outcome _ _ _ _ _ _ _ _ s) in E0; [|rewrite Hst; exact Hs|exact Hi|lia].
  destruct E0 as (s2 & Hs2 & Ho2 & Ht2 & Hr2). destruct e2 as [e2|].
  { injection H as <- <- <-. exists s2. auto. }
  destruct Hr2 as (m & -> & Hm). cbn [andb] in Hm. destruct (Truncated (Hdr m)) eqn:Etc.
  - inv_bind H. eapply (ExchangeContext_outcome _ _ _ _ _ _ _ _ s2) in H; [|exact Hs2|exact Hm|lia].
    destruct H as (s3 & Hs3 & Ho3 & _ & Hr3). exists s3. rewrite <- Ho2. auto.
  - injection H as <- <- <-. exists s2. eauto.
Qed.

(** *** Termination *)

(** The keys of stamps are Ed25519 keys. *)
Hypothesis stamp_key : forall a stamp, NewServerStampFromString a = Ok stamp -> length (ServerPk stamp) = 32%nat.

Definition pack_small (m : Msg) : Prop := forall b, Pack m = Ok b -> len b <= MaxUint16.

Lemma seal_es_total es header nonce padded key :
  length key = KeySize -> length nonce = nonceSize -> len padded + 128 <= stream_bytes ->
  exists r, seal_es es header nonce padded key = Ret r.
Proof using CLaws.
  intros Hk Hn Hl. unfold seal_es. case_goal; [|case_goal; eauto].
  rewrite Seal_eq by (assumption || lia). eauto.
Qed.

Lemma client_encrypt_total c m info now rnd :
  length (i_SharedKey info) = KeySize -> length rnd = 4%nat -> pack_small m ->
  exists r, client_encrypt c m info now rnd = Ret r.
Proof using CLaws.
  intros Hk Hr Hp. unfold client_encrypt. destruct (Pack m) as [b|] eqn:Ep; [|eauto]. apply Hp in Ep.
  unfold query_encrypt. cbn [q_nonce q_esVersion q_clientMagic q_clientPk].
  change (make_bytes nonceSize) with (make_bytes 24). rewrite client_nonce by exact Hr.
  match goal with |- context [seal_es ?a ?h ?n ?t ?k] => destruct (seal_es_total a h n t k) as (r & ->) end.
  - exact Hk.
  - rewrite length_app, client_half_length by exact Hr. reflexivity.
  - rewrite pad_length. pose proof (Z.mod_pos_bound (len b + 1) 64 ltac:(lia)).
    unfold stream_bytes, minUDPQuestionSize, MaxUint16 in *. lia.
  - cbn [gbind]. destruct r as [query|]; cbn [rbind]; [case_goal|]; eauto.
Qed.

Lemma client_decrypt_total b nonce info :
  length (i_SharedKey info) = KeySize -> length nonce = nonceSize -> len b <= MaxUint16 ->
  exists r, client_decrypt b nonce info = Ret r.
Proof using CLaws.
  intros Hk Hn Hb. unfold client_decrypt. change (make_bytes nonceSize) with (make_bytes 24).
  destruct (response_decrypt_spec (ESVersion (ResolverCert info)) b (i_SharedKey info) nonce Hk Hn Hb) as (r & r' & -> & _).
  cbn [gbind]. destruct r as [packet|]; [destruct (Unpack packet) as [m [e|]]|]; eauto.
Qed.

Lemma Received_ok now st : state_ok st -> exists st' t, Received now st = Ret (st', t) /\ state_ok st'.
Proof.
  destruct st as [s|]; cbn; [|eauto]. intros Hs. unfold reserveCandidate. repeat case_goal; eauto.
  destruct (completeLocked_ok (err_result DeadlineExceeded) s Hs) as (s' & -> & ?). eauto.
Qed.

Lemma Decoded_total req udp t now r st :
  Question req <> [] -> state_ok st -> exists err st', Decoded req udp t now r st = Ret (err, st') /\ state_ok st'.
Proof.
  intros Hq Hst. unfold Decoded. destruct (reject_ok t now st Hst) as (s2 & -> & H2). cbn [gbind].
  destruct r as [m|]; [|eauto]. destruct (accept_ok t m st Hst) as (s3 & -> & H3).
  assert (Hv : exists e, (if negb (Response (Hdr m)) then Ret (Some errDNSProtocol)
     else if negb (Id (Hdr m) =? Id (Hdr req)) then Ret (Some ErrId) else validateResponse req m) = Ret e).
  { repeat case_goal; eauto. apply validateResponse_total. exact Hq. }
  destruct Hv as (e & ->). cbn [gbind].
  destruct (match e with Some _ => true | None => false end || udp && Truncated (Hdr m)); cbn [gbind]; eauto.
Qed.

Lemma ExchangeContext_total c m info udp w :
  c_udpSize c <= MaxUint16 -> length (i_SharedKey info) = KeySize -> Question m <> [] -> pack_small m ->
  state_ok (w_st w) ->
  exists r err w', ExchangeContext E c m info udp w = Ret (r, err, w') /\ state_ok (w_st w').
Proof using CLaws random4_length data_wf.
  intros Hs Hk Hq Hp Hst. unfold ExchangeContext, ExchangeConnContext. cbn [tick].
  destruct (dialCrypt _ _ _) as [conn|] eqn:Ed; [|eauto 6]. destruct (ctx_Err _ _); [cbn [gbind]; eauto 6|].
  cbn [w_tick].
  match goal with |- context [client_encrypt ?c ?m ?i ?n ?r] =>
    destruct (client_encrypt_total c m i n r Hk (random4_length _) Hp) as ([[query nonce]|] & Ee); rewrite Ee end;
    cbn [gbind]; [|eauto 6].
  destruct (writeQuery _ _ _ _) as [e w1] eqn:Ew.
  assert (Hw1 : state_ok (w_st w1)).
  { unfold writeQuery in Ew. destruct (c_proto c); [destruct (Dnscrypt.writePrefixed query)|]; injection Ew as _ <-; exact Hst. }
  destruct e; [cbn [gbind]; eauto 6|]. destruct (readResponse c conn) as [b|] eqn:Er; [|cbn [gbind]; eauto 6].
  cbn [w_st w_tick]. destruct (Received_ok (clock E (w_tick w1)) (w_st w1) Hw1) as (st1 & t & -> & H1). cbn [gbind].
  destruct (client_decrypt_total b nonce info Hk) as (resp & ->);
    [eapply client_encrypt_nonce; [apply random4_length|exact Ee]|eapply readResponse_size; eassumption|].
  cbn [gbind]. destruct (Decoded_total m udp t (clock E (S (w_tick w1))) resp st1 Hq H1) as (err & st2 & -> & H2).
  cbn [gbind]. destruct err; [|destruct resp]; eauto 6.
Qed.

Lemma fetchCert_total c stamp w : length (ServerPk stamp) = 32%nat -> exists r w', fetchCert E c stamp w = Ret (r, w').
Proof.
  intros Hl. unfold fetchCert. cbn [tick]. destruct (dialCert _ _ _) as [conn|]; [|eauto].
  destruct (kc_deadline conn); [eauto|]. destruct (kc_write conn); [eauto|].
  destruct (read_cert _ _ _ _) as [m|]; [|eauto]. destruct (negb _); [eauto|]. cbn [w_tick].
  destruct (parseAnswer_loop_best (certClock E (S (w_tick w))) (ServerPk stamp) (Answer m) [] None Hl) as ([cert|] & Er & _);
    [intros ? ? (? & ? & _); discriminate|..]; unfold parseAnswer; cbn [length] in Er; rewrite Er; cbn [gbind]; eauto.
Qed.

Lemma DialContext_total c addr w : exists r w', DialContext E c addr w = Ret (r, w').
Proof using CLaws NLaws stamp_key.
  unfold DialContext, DialStampContext. destruct (NewServerStampFromString addr) as [stamp|] eqn:Es; [|eauto].
  destruct (negb _); [eauto|]. cbn [tick generateRandomKeyPair].
  match goal with |- context [fetchCert E c stamp ?w] =>
    destruct (fetchCert_total c stamp w (stamp_key _ _ Es)) as ([cert|] & w1 & ->) end; cbn [gbind]; [|eauto].
  destruct (computeSharedKey_total (ESVersion cert) (random32 E (w_tick w)) (ResolverPk cert)) as ([k|] & -> & _); cbn [gbind]; eauto.
Qed.

Lemma certificate_total w : exists r w', certificate E p w = Ret (r, w').
Proof using CLaws NLaws stamp_key.
  unfold certificate, refresh. cbn [tick]. destruct (ctx_Err _ _); [eauto|].
  destruct (currentCertificate _ _) as [[info|] w1]; [eauto|]. destruct (refresh_err _ _); [eauto|].
  destruct (ctx_Err _ _); [eauto|]. destruct (currentCertificate _ _) as [[info|] w2]; [eauto|].
  destruct (DialContext_total (p_client p) (p_addr p) w2) as ([info|] & w3 & ->); cbn [gbind]; [|eauto].
  destruct (match p_verifyCert p with Some f => _ | None => _ end); eauto.
Qed.

Lemma crypt_body_total req w :
  good_opt (w_info w) -> Question req <> [] -> pack_small req -> state_ok (w_st w) ->
  exists r err w', crypt_body E p req w = Ret (r, err, w') /\ state_ok (w_st w').
Proof using CLaws NLaws stamp_key others_good client_sizes random4_length data_wf.
  intros Hg Hq Hp Hst. unfold crypt_body. destruct (certificate_total (interfere E w)) as (r & w1 & Ec). rewrite Ec. cbn [gbind].
  apply certificate_spec in Ec as [(Hst1 & _) Hok]; [|cbn; apply others_good, Hg]. cbn in Hst1. rewrite <- Hst1 in Hst.
  destruct r as [info|]; [|eauto 6]. destruct (Hok info eq_refl) as [Hgi _]. pose proof (good_info_key info Hgi) as Hk.
  destruct client_sizes as [Hs1 Hs2].
  destruct (ExchangeContext_total (p_client p) req info true w1 Hs1 Hk Hq Hp Hst) as (r2 & e2 & w2 & -> & H2). cbn [gbind].
  destruct e2; [eauto 6|]. destruct r2 as [m|]; [|eauto 6]. destruct (Truncated (Hdr m)); [|eauto 6].
  destruct (Question req) as [|q qs] eqn:Eq; [destruct (Hq eq_refl)|]. cbn [index lookup list_lookup gbind].
  apply ExchangeContext_total; auto. rewrite Eq. exact Hq.
Qed.

(** A DNSCrypt exchange always ends with a decision that agrees with what it
    returns.  On a fresh decision state, for a request with a question and
    whatever the outside does (failing dials, certificates that are missing,
    expired or forged, ciphertexts of any form, cancellation), [Exchange] does not
    panic; afterwards the decision is made: it is the error that was returned, or
    the response that was returned with the client's identifier. *)
Theorem crypt_Exchange_decides (req : Msg) (w : cworld) :
  good_opt (w_info w) -> Question req <> [] -> (forall b, Pack req = Ok b -> len b <= MaxUint16) ->
  w_st w = Some (NewExchangeState None) ->
  exists r err w' s, crypt_Exchange E p req w = Ret (r, err, w')
    /\ w_st w' = Some s /\ snd (Result s) = true
    /\ match err with
       | Some e => fst (Result s) = err_result e
       | None => exists m, r = Some m /\ Response_ (fst (Result s)) = Some (set_Id (Id (Hdr req)) m)
                   /\ Err_ (fst (Result s)) = None
       end.
Proof using CLaws NLaws WDL stamp_key others_good client_sizes random4_length data_wf crypt_close.
  intros Hg Hq Hp Hst. unfold crypt_Exchange. rewrite Hst. cbn [state_start start started NewExchangeState].
  match goal with |- context [crypt_body E p req ?w0] =>
    destruct (crypt_body_total req w0) as (r & err & w1 & Hb & Hok); [exact Hg|exact Hq|exact Hp|reflexivity|];
    rewrite Hb; eapply (crypt_body_outcome _ w0) in Hb end;
    [|exact Hg|reflexivity|split; cbn; auto; lia|cbn; lia].
  destruct Hb as (s & Hs & Ho & Hr). cbn [gbind]. rewrite Hs in *. cbn [on_state] in *. unfold finish, completeLocked.
  destruct err as [e|].
  - rewrite (idle_finished _ Hr), (idle_done _ Hr). cbn [gbind]. do 4 eexists. split; [reflexivity|]. cbn. auto.
  - destruct Hr as (m & -> & Hf & Hresp & He). rewrite Hf. cbn [gbind]. do 4 eexists. split; [reflexivity|]. cbn.
    rewrite Hf. split; [reflexivity|]. split; [reflexivity|]. exists m. cbn in Hresp. auto.
Qed.

End Facts.

(** ** Examples *)

Module ClientExamples.
Import SecretboxExamples PacketExamples CertExamples PlainExamples.

#[export] Instance stamps : DnsStamps := fun _ => Ok (mkStamp 1 CertExamples.pub (str "192.0.2.1:443") CertExamples.name []).

Definition cert : Certificate := with_Sk (make_bytes 32) (cert_of 7 2).
Definition request : Msg := set_Id 11 PlainExamples.req.
Definition nonce : bytes := client_half t0 PacketExamples.rnd ++ make_bytes 12.
Definition key : bytes :=
  match computeSharedKey 2 PacketExamples.skc (ResolverPk cert) with Ret (Ok k) => k | _ => [] end.

(** The ciphertext of a reply to the client's query. *)
Definition sealed_reply (m : Msg) : bytes :=
  match response_encrypt 5 PacketExamples.rnd (mkResponse 2 nonce) (wire_of m) key with
  | Ret (Ok b, _) => b | _ => []
  end.

(** UDP gives a truncated reply, TCP the whole one. *)
Definition outside : env := mkEnv (fun _ => t0) (fun _ _ => t0) (fun _ => PacketExamples.rnd)
  (fun _ => PacketExamples.skc) (fun _ => None) (fun _ => None)
  (fun _ pr => Ok (mkCC None (Ok match pr with
     | CryptUDP => sealed_reply (PlainExamples.reply 11 true)
     | CryptTCP => let b := sealed_reply (PlainExamples.reply 11 false) in be_put 2 (len b) ++ b
     end) None))
  (fun _ _ => Ok (mkKC None None [set_Answer [record_of (cert_of 7 2)] (PlainExamples.reply 5 false)] (New "EOF")))
  (fun _ name t => set_Id 5 (set_Question [mkQ name t ClassINET] empty_msg)) (fun _ i => i).

Definition server : dnsCrypt := newDNSCrypt (str "sdns://") None.
Definition w0 : cworld := mkCW 0 None [] (Some (NewExchangeState None)).
Definition w1 : cworld :=
  match crypt_Exchange outside server request w0 with Ret (_, _, w) => w | Panic => w0 end.

(** The whole reply, after two queries. *)
Lemma crypt_run : crypt_Exchange outside server request w0 = Ret (Some (PlainExamples.reply 11 false), None, w1).
Proof. vm_compute. reflexivity. Qed.

Lemma outside_data t pr conn d : dialCrypt outside t pr = Ok conn -> cc_data conn = Ok d -> wf_bytes d.
Proof.
  destruct pr; intros [= <-] [= <-]; apply (bool_decide_unpack (wf_bytes _)); vm_compute; reflexivity.
Qed.

End ClientExamples.

Import SecretboxExamples PacketExamples CertExamples PlainExamples ClientExamples.


Lemma crypt_Exchange_decides_witness :
  exists r err w' s, crypt_Exchange outside server ClientExamples.request w0 = Ret (r, err, w')
    /\ w_st w' = Some s /\ snd (Result s) = true.
Proof.
  destruct (crypt_Exchange_decides outside server (fun _ _ H => H) (fun _ => eq_refl) outside_data
    ltac:(split; vm_compute; discriminate) ltac:(intros t pr conn [= <-]; reflexivity)
    ltac:(intros a stamp [= <-]; reflexivity) ClientExamples.request w0
    ltac:(intros ? [=]) ltac:(discriminate) ltac:(intros b; vm_compute; intros [= <-]; discriminate) eq_refl)
    as (r & err & w' & s & H & Hs & Hf & _).
  exists r, err, w', s. auto.
Defined.
