(* ===== verification/Address.v ===== *)
(** * From addresses to upstreams (upstream/upstream.go, the constructors of the
      upstreams, and the bootstrap upstreams of upstream/resolver.go)

    [AddressToUpstream] with the validation of the URL, DNS stamps, default ports,
    the constructors of all upstreams and the choice of how they are dialed.  The
    theorems say which upstream an address of every documented form gives, and that
    what is given can be dialed. *)

From stdpp Require Import gmap.
From S2P Require Import Prelude NetIP GoStrings NetParse NetURL Bootstrap CryptClient.
#[local] Open Scope Z_scope.

(** golibs/netutil on texts. *)
Class AddrTexts := {
  IsValidIPString : bytes -> bool;
  IsValidIPPortString : bytes -> bool;
  ValidateDomainName : bytes -> option error;
  JoinHostPort : bytes -> Z -> bytes;
  (** [netutil.SplitHostPort], by host and port. *)
  netutil_SplitHostPort : bytes -> result (bytes * Z);
}.

Definition networkUDP : bytes := str "udp".
Definition networkTCP : bytes := str "tcp".
Definition defaultPortPlain : Z := 53.
Definition defaultPortDoH : Z := 443.
Definition defaultPortDoT : Z := 853.
Definition defaultPortDoQ : Z := 853.
Definition HTTPVersion11 : bytes := str "http/1.1".
Definition HTTPVersion2 : bytes := str "h2".
Definition HTTPVersion3 : bytes := str "h3".
Definition DefaultHTTPVersions : list bytes := [HTTPVersion11; HTTPVersion2].
Definition compatProtoDQ : list bytes := [str "doq"; str "doq-i00"; str "dq"; str "doq-i02"].
Definition VersionTLS12 : Z := 771.

(** Protocols of stamps. *)
Definition StampProtoTypePlain : Z := 0.
Definition StampProtoTypeDoH : Z := 2.
Definition StampProtoTypeTLS : Z := 3.
Definition StampProtoTypeDoQ : Z := 4.

Section Address.
Context {AT : AddrTexts} {DS : DnsStamps}.
(** Callbacks, certificate pools and tracers, which are only handed on. *)
Context {V : Type}.

(** [Logger] is left out; [NetworkDialer] is set or not. *)
Record Options := mkOptions {
  NetworkDialer : bool;
  ServerName : bytes;
  HTTPHost : bytes;
  Verify : V;
  CipherSuites : list Z;
  opt_Bootstrap : option Resolver;
  HTTPVersions : list bytes;
  opt_Timeout : Duration;
  InsecureSkipVerify : bool;
  PreferIPv6 : bool;
}.

Definition Clone (o : Options) : Options :=
  mkOptions (NetworkDialer o) (ServerName o) (HTTPHost o) (Verify o) (CipherSuites o) (opt_Bootstrap o) (HTTPVersions o)
    (opt_Timeout o) (InsecureSkipVerify o) (PreferIPv6 o).
Definition set_Bootstrap (r : option Resolver) (o : Options) : Options :=
  mkOptions (NetworkDialer o) (ServerName o) (HTTPHost o) (Verify o) (CipherSuites o) r (HTTPVersions o)
    (opt_Timeout o) (InsecureSkipVerify o) (PreferIPv6 o).

(** What a [DialerInitializer] does: dial the host with the dialer of the options, dial
    an address, or resolve the host first, with the resolver of the system if there
    is none. *)
Inductive dialer :=
  | DialNetwork (host : bytes) (timeout : Duration)
  | DialAddr (hostport : bytes) (timeout : Duration)
  | DialResolved (host : bytes) (timeout : Duration) (boot : option Resolver) (preferV6 : bool).

Definition newDialerInitializer (u : URL) (opts : Options) : dialer :=
  if NetworkDialer opts then DialNetwork (Host u) (opt_Timeout opts)
  else if IsValidIPPortString (Host u) then DialAddr (Host u) (opt_Timeout opts)
  else DialResolved (Host u) (opt_Timeout opts) (opt_Bootstrap opts) (PreferIPv6 opts).

Record tls_Config := mkTLS {
  tls_ServerName : bytes;
  tls_Verify : V;
  tls_CipherSuites : list Z;
  tls_MinVersion : Z;
  tls_InsecureSkipVerify : bool;
  tls_NextProtos : list bytes;
}.

(** The TLS configuration that DoT, DoQ and DoH share. *)
Definition tls_of (addr : URL) (opts : Options) (protos : list bytes) : tls_Config :=
  mkTLS (match ServerName opts with [] => Hostname addr | n => n end) (Verify opts) (CipherSuites opts) VersionTLS12
    (InsecureSkipVerify opts) protos.

Inductive upstream :=
  | plainDNS (addr : URL) (dial : dialer) (net : bytes) (timeout : Duration) (bootstrap : bool)
  | dnsOverTLS (addr : URL) (dial : dialer) (conf : tls_Config) (timeout : Duration)
  | dnsOverQUIC (addr : URL) (dial : dialer) (conf : tls_Config) (timeout : Duration)
  | dnsOverHTTPS (addr : URL) (dial : dialer) (conf : tls_Config) (httpHost addrRedacted : bytes) (timeout : Duration)
  | dnsCrypt (addr : URL) (timeout : Duration).

Definition addPort (port : Z) (u : URL) : URL :=
  match net_SplitHostPort (Host u) with
  | Err _ => set_Host (JoinHostPort (Host u) port) u
  | Ok _ => u
  end.

Definition newPlain (addr : URL) (opts : Options) : result upstream :=
  if bool_decide (Scheme addr = networkUDP) || bool_decide (Scheme addr = networkTCP) then
    let addr := addPort defaultPortPlain addr in
    Ok (plainDNS addr (newDialerInitializer addr opts) (Scheme addr) (opt_Timeout opts) false)
  else Err (New "unsupported url scheme: %s").

Definition newDoT (addr : URL) (opts : Options) : upstream :=
  let addr := addPort defaultPortDoT addr in
  dnsOverTLS addr (newDialerInitializer addr opts) (tls_of addr opts [str "dot"]) (opt_Timeout opts).

Definition newDoQ (addr : URL) (opts : Options) : upstream :=
  let addr := addPort defaultPortDoQ addr in
  dnsOverQUIC addr (newDialerInitializer addr opts) (tls_of addr opts compatProtoDQ) (opt_Timeout opts).

Definition newDoH (addr : URL) (opts : Options) : upstream :=
  let addr := addPort defaultPortDoH addr in
  let '(addr, httpVersions) :=
    if bool_decide (Scheme addr = str "h3") then (set_Scheme (str "https") addr, [HTTPVersion3])
    else (addr, match HTTPVersions opts with [] => DefaultHTTPVersions | vs => vs end) in
  dnsOverHTTPS addr (newDialerInitializer addr opts) (tls_of addr opts httpVersions) (HTTPHost opts) (Redacted addr) (opt_Timeout opts).

Definition newDNSCrypt (addr : URL) (opts : Options) : upstream := dnsCrypt addr (opt_Timeout opts).

(** [Address] of every upstream; a plain one panics for another network. *)
Definition Address (u : upstream) : go bytes :=
  match u with
  | plainDNS addr _ net _ _ =>
      if bool_decide (net = networkUDP) then Ret (Host addr)
      else if bool_decide (net = networkTCP) then Ret (URL_String addr) else Panic
  | dnsOverTLS addr _ _ _ => Ret (URL_String addr)
  | dnsOverQUIC addr _ _ _ => Ret (URL_String addr)
  | dnsOverHTTPS _ _ _ _ addrRedacted _ => Ret addrRedacted
  | dnsCrypt addr _ => Ret (URL_String addr)
  end.

(** An address in brackets without its brackets. *)
Definition possible_ip (host : bytes) : bytes :=
  match host with
  | 91 :: rest => if (4 <=? length host)%nat && HasSuffix host (str "]") then take (length host - 2) rest else host
  | _ => host
  end.

Definition validateUpstreamURL (u : URL) : option error :=
  if bool_decide (Scheme u = str "sdns") then None
  else
    let check host :=
      if IsValidIPString (possible_ip host) then None
      else match ValidateDomainName host with
      | Some e => Some (Errorf "invalid address %s: %w" e)
      | None => None
      end in
    match net_SplitHostPort (Host u) with
    | Err _ => check (Host u)
    | Ok (h, port) =>
        match ParseUint16 port with
        | Err e => Some (Errorf "invalid port %s: %w" e)
        | Ok _ => check h
        end
    end.

Definition parseStamp (upsURL : URL) (opts : Options) : result upstream :=
  match NewServerStampFromString (URL_String upsURL) with
  | Err e => Err (Errorf "failed to parse %s: %w" e)
  | Ok stamp =>
      let? opts :=
        match ServerAddrStr stamp with
        | [] => Ok opts
        | s =>
            let host := match netutil_SplitHostPort s with Ok (host, _) => host | Err _ => s end in
            match ParseAddr host with
            | Err _ => Err (New "invalid server stamp address %s")
            | Ok ip => Ok (set_Bootstrap (Some (StaticResolver [ip])) opts)
            end
        end in
      let proto := StampProto stamp in
      if proto =? StampProtoTypePlain then newPlain (plain_URL (str "udp") (ServerAddrStr stamp) []) opts
      else if proto =? StampProtoTypeDNSCrypt then Ok (newDNSCrypt upsURL opts)
      else if proto =? StampProtoTypeDoH then Ok (newDoH (plain_URL (str "https") (StampProviderName stamp) (StampPath stamp)) opts)
      else if proto =? StampProtoTypeDoQ then Ok (newDoQ (plain_URL (str "quic") (StampProviderName stamp) (StampPath stamp)) opts)
      else if proto =? StampProtoTypeTLS then Ok (newDoT (plain_URL (str "tls") (StampProviderName stamp) []) opts)
      else Err (New "unsupported stamp protocol %s")
  end.

Definition urlToUpstream (uu : URL) (opts : Options) : result upstream :=
  let sch := Scheme uu in
  if bool_decide (sch = str "sdns") then parseStamp uu opts
  else if bool_decide (sch = str "udp") || bool_decide (sch = str "tcp") then newPlain uu opts
  else if bool_decide (sch = str "quic") then Ok (newDoQ uu opts)
  else if bool_decide (sch = str "tls") then Ok (newDoT uu opts)
  else if bool_decide (sch = str "h3") || bool_decide (sch = str "https") then Ok (newDoH uu opts)
  else Err (New "unsupported url scheme: %s").

(** The URL of an address: what parses, or a plain server. *)
Definition address_url (addr : bytes) : result URL :=
  match Index addr (str "://") with
  | Some _ => match URL_Parse addr with Err e => Err (Errorf "failed to parse %s: %w" e) | Ok u => Ok u end
  | None => Ok (plain_URL (str "udp") addr [])
  end.

(** [opts] are those given, or the zero ones. *)
Definition AddressToUpstream (addr : bytes) (opts : Options) : result upstream :=
  let? uu := address_url addr in
  match validateUpstreamURL uu with
  | Some e => Err e
  | None => urlToUpstream uu opts
  end.

(** ** Bootstrap upstreams *)

(** [NotBootstrapError] wraps the reason. *)
Definition NotBootstrapError (err : error) : error := Errorf "not a bootstrap: %s" err.

Definition validateBootstrap (u : upstream) : option error :=
  let check (upsURL : URL) :=
    match ParseAddr (Hostname upsURL) with Err e => Some (NotBootstrapError e) | Ok _ => None end in
  match u with
  | dnsCrypt _ _ => None
  | plainDNS addr _ _ _ _ => check addr
  | dnsOverTLS addr _ _ _ => check addr
  | dnsOverHTTPS addr _ _ _ _ _ => check addr
  | dnsOverQUIC addr _ _ _ => check addr
  end.

(** The upstream of the resolver and the error beside it, or only an error. *)
Definition NewUpstreamResolver (resolverAddress : bytes) (opts : Options) : result (upstream * option error) :=
  match AddressToUpstream resolverAddress (Clone opts) with
  | Err e => Err (Errorf "upstream bootstrap: creating upstream: %w" e)
  | Ok ups =>
      let ups := match ups with plainDNS addr dial net timeout _ => plainDNS addr dial net timeout true | _ => ups end in
      Ok (ups, validateBootstrap ups)
  end.
End Address.

(** ** Facts *)

(** [strings.Trim(s, "[]")] *)
Fixpoint trim_left_brackets (s : bytes) : bytes :=
  match s with c :: s' => if (c =? 91) || (c =? 93) then trim_left_brackets s' else s | [] => [] end.
Definition trim_brackets (s : bytes) : bytes := reverse (trim_left_brackets (reverse (trim_left_brackets s))).

(** The characters of an address without a zone. *)
Definition ip_char (c : Z) : bool := match hex_digit_value c with Some _ => true | None => (c =? 58) || (c =? 46) end.

Class AddrTextLaws `{AddrTexts} := {
  JoinHostPort_spec host port : JoinHostPort host port = net_JoinHostPort (trim_brackets host) (Itoa port);
  valid_ip_chars s : IsValidIPString s = true -> 37 ∉ s -> s <> [] /\ Forall (fun c => ip_char c = true) s;
  domain_chars s : ValidateDomainName s = None -> s <> [] /\ Forall (fun c => c <> 58 /\ c <> 91 /\ c <> 93) s;
}.

Lemma trim_left_none s : Forall (fun c => c <> 91 /\ c <> 93) s -> trim_left_brackets s = s.
Proof.
  destruct 1 as [|c s [H1 H2] _]; [reflexivity|]. cbn. rewrite (proj2 (Z.eqb_neq c 91)), (proj2 (Z.eqb_neq c 93)) by assumption. reflexivity.
Qed.
Lemma trim_brackets_none s : Forall (fun c => c <> 91 /\ c <> 93) s -> trim_brackets s = s.
Proof.
  intros Hs. unfold trim_brackets. rewrite (trim_left_none s Hs), trim_left_none by (apply Forall_reverse, Hs). apply reverse_involutive.
Qed.
Lemma trim_brackets_some s : Forall (fun c => c <> 91 /\ c <> 93) s -> s <> [] -> trim_brackets ([91] ++ s ++ [93]) = s.
Proof.
  intros Hs Hne. unfold trim_brackets. change (trim_left_brackets ([91] ++ s ++ [93])) with (trim_left_brackets (s ++ [93])).
  assert (H1 : trim_left_brackets (s ++ [93]) = s ++ [93]).
  { destruct Hs as [|c s [Ha Hb] _]; [contradiction|]. cbn. rewrite (proj2 (Z.eqb_neq c 91)), (proj2 (Z.eqb_neq c 93)) by assumption. reflexivity. }
  rewrite H1, reverse_snoc. change (trim_left_brackets (93 :: reverse s)) with (trim_left_brackets (reverse s)). rewrite trim_left_none by (apply Forall_reverse, Hs). apply reverse_involutive.
Qed.

Lemma ip_char_not s : Forall (fun c => ip_char c = true) s -> Forall (fun c => c <> 91 /\ c <> 93) s.
Proof. intros Hs. eapply list.Forall_impl; [exact Hs|]. cbn beta. intros c Hc. split; intros ->; discriminate. Qed.

(** A host in brackets, or one that [possible_ip] leaves as it is. *)
Lemma possible_ip_cases host :
  possible_ip host = host \/ host = [91] ++ possible_ip host ++ [93].
Proof.
  destruct host as [|c host]; [left; reflexivity|]. destruct (Z.eq_dec c 91) as [->|Hc].
  - cbn [possible_ip]. destruct (_ && HasSuffix _ _) eqn:E; [right|left; reflexivity]. apply andb_true_iff in E as [El Es].
    apply Nat.leb_le in El. unfold HasSuffix in Es. apply andb_true_iff in Es as [_ Es]. apply bool_decide_eq_true in Es.
    cbn [length] in *. replace (S (length host) - 2)%nat with (length host - 1)%nat by lia.
    change (length (str "]")) with 1%nat in Es. destruct (length host) as [|n] eqn:En; [lia|]. cbn [Nat.sub] in *.
    rewrite Nat.sub_0_r in *. cbn [drop] in Es. cbn [app]. f_equal. rewrite <- (take_drop n host) at 1. f_equal. exact Es.
  - left. unfold possible_ip. repeat match goal with |- context [match ?z with _ => _ end] => is_var z; destruct z; try reflexivity end. contradiction.
Qed.

Lemma possible_ip_id host : (forall r, host <> 91 :: r) -> possible_ip host = host.
Proof.
  intros H. destruct (possible_ip_cases host) as [E|E]; [exact E|]. destruct (H _ E).
Qed.

Lemma Index_no_slash s : Forall (fun c => c <> 47) s -> Index s (str "://") = None.
Proof.
  induction 1 as [|c s Hc Hs IH]; [reflexivity|]. cbn [Index]. rewrite IH. destruct (HasPrefix (c :: s) (str "://")) eqn:E; [|reflexivity].
  unfold HasPrefix in E. apply bool_decide_eq_true in E. destruct s as [|c2 s]; [discriminate|]. apply Forall_cons_1 in Hs as [H2 _].
  injection E as _ E _. contradiction.
Qed.

Section AddressFacts.
Context {AT : AddrTexts} {AL : AddrTextLaws} {DS : DnsStamps} {V : Type}.
Implicit Type opts : Options (V := V).

Definition valid_host (host : bytes) : Prop := IsValidIPString (possible_ip host) = true \/ ValidateDomainName host = None.

Lemma Itoa_plain d : 0 <= d <= MaxUint16 ->
  Forall (fun b => b <> 58 /\ b <> 91 /\ b <> 93) (Itoa d) /\ ParseUint16 (Itoa d) = Ok d.
Proof.
  intros Hd. destruct (Itoa_port d Hd) as (Hp & Hf & Hne). split.
  - eapply list.Forall_impl; [exact Hf|]. cbn beta. intros c Hc. repeat split; intros ->; discriminate.
  - unfold ParseUint16. destruct (Itoa d); [contradiction|exact Hp].
Qed.

(** A validated host gets a port if it has none. *)
Lemma addPort_dialable (u : URL) (d : Z) :
  Scheme u <> str "sdns" -> validateUpstreamURL u = None -> 37 ∉ Host u -> 0 <= d <= MaxUint16 ->
  exists h port n, net_SplitHostPort (Host (addPort d u)) = Ok (h, port) /\ ParseUint16 port = Ok n /\ valid_host h
    /\ match net_SplitHostPort (Host u) with Ok hp => hp = (h, port) | Err _ => h = possible_ip (Host u) /\ n = d end.
Proof using AL.
  intros Hs Hv Hz Hd. unfold validateUpstreamURL in Hv. rewrite bool_decide_false in Hv by exact Hs. unfold addPort.
  destruct (net_SplitHostPort (Host u)) as [[h port]|e] eqn:Es.
  - rewrite Es. destruct (ParseUint16 port) as [n|] eqn:En; [|discriminate]. exists h, port, n. split; [reflexivity|]. split; [exact En|]. split; [|reflexivity].
    unfold valid_host. destruct (IsValidIPString (possible_ip h)); [auto|]. destruct (ValidateDomainName h); [discriminate|auto].
  - cbn [Host set_Host]. rewrite JoinHostPort_spec. destruct (Itoa_plain d Hd) as [Hdig Hpd].
    assert (Hjoin : forall h, trim_brackets (Host u) = h -> Forall (fun c => c <> 91 /\ c <> 93) h -> valid_host h -> h = possible_ip (Host u) ->
      exists h port n, net_SplitHostPort (net_JoinHostPort (trim_brackets (Host u)) (Itoa d)) = Ok (h, port) /\ ParseUint16 port = Ok n
        /\ valid_host h /\ h = possible_ip (Host u) /\ n = d).
    { intros h -> Hf Hvh Hpi. exists h, (Itoa d), d. split; [|auto]. apply Split_Join; [| |exact Hdig]; apply not_elem_Forall;
        (eapply list.Forall_impl; [exact Hf|]); cbn beta; intros c [? ?]; assumption. }
    destruct (IsValidIPString (possible_ip (Host u))) eqn:Eip.
    + assert (H37 : 37 ∉ possible_ip (Host u)).
      { destruct (possible_ip_cases (Host u)) as [->|E]; [exact Hz|]. intros Hi. apply Hz. rewrite E, !elem_of_app. auto. }
      destruct (valid_ip_chars _ Eip H37) as [Hne Hch]. pose proof (ip_char_not _ Hch) as Hnb.
      assert (Hid : possible_ip (possible_ip (Host u)) = possible_ip (Host u)).
      { apply possible_ip_id. intros r E. rewrite E in Hnb. apply Forall_cons_1 in Hnb as [[H _] _]. lia. }
      apply (Hjoin (possible_ip (Host u))); [|exact Hnb|left; rewrite Hid; exact Eip|reflexivity].
      destruct (possible_ip_cases (Host u)) as [E|E]; [rewrite E in Hnb |- *; apply trim_brackets_none, Hnb|].
      rewrite E at 1. apply trim_brackets_some; assumption.
    + destruct (ValidateDomainName (Host u)) eqn:Ed; [discriminate|]. destruct (domain_chars _ Ed) as [Hne Hch].
      assert (Hnb : Forall (fun c => c <> 91 /\ c <> 93) (Host u)) by (eapply list.Forall_impl; [exact Hch|]; cbn beta; tauto).
      apply (Hjoin (Host u)); [apply trim_brackets_none, Hnb|exact Hnb|right; exact Ed|]. symmetry. apply possible_ip_id.
      intros r E. rewrite E in Hnb. apply Forall_cons_1 in Hnb as [[H _] _]. lia.
Qed.

Inductive protocol := Plain_UDP | Plain_TCP | TLS | QUIC | HTTPS | HTTP3.

(** What a scheme stands for, and its port. *)
Definition protocol_of (scheme : bytes) : option protocol :=
  if bool_decide (scheme = str "udp") then Some Plain_UDP
  else if bool_decide (scheme = str "tcp") then Some Plain_TCP
  else if bool_decide (scheme = str "tls") then Some TLS
  else if bool_decide (scheme = str "quic") then Some QUIC
  else if bool_decide (scheme = str "https") then Some HTTPS
  else if bool_decide (scheme = str "h3") then Some HTTP3
  else None.
Definition default_port (p : protocol) : Z :=
  match p with Plain_UDP | Plain_TCP => 53 | TLS | QUIC => 853 | HTTPS | HTTP3 => 443 end.

(** The upstream that a protocol with a URL that has a port is to give. *)
Definition upstream_for (p : protocol) (u : URL) opts : upstream (V := V) :=
  let dial := newDialerInitializer u opts in
  let t := opt_Timeout opts in
  let versions := match HTTPVersions opts with [] => DefaultHTTPVersions | vs => vs end in
  match p with
  | Plain_UDP => plainDNS u dial (str "udp") t false
  | Plain_TCP => plainDNS u dial (str "tcp") t false
  | TLS => dnsOverTLS u dial (tls_of u opts [str "dot"]) t
  | QUIC => dnsOverQUIC u dial (tls_of u opts compatProtoDQ) t
  | HTTPS => dnsOverHTTPS u dial (tls_of u opts versions) (HTTPHost opts) (Redacted u) t
  | HTTP3 => let u := set_Scheme (str "https") u in
             dnsOverHTTPS u dial (tls_of u opts [HTTPVersion3]) (HTTPHost opts) (Redacted u) t
  end.

Lemma urlToUpstream_cases (uu : URL) opts :
  Scheme uu <> str "sdns" ->
  match protocol_of (Scheme uu) with
  | Some p => urlToUpstream uu opts = Ok (upstream_for p (addPort (default_port p) uu) opts)
  | None => exists e, urlToUpstream uu opts = Err e
  end.
Proof.
  intros Hs. unfold urlToUpstream, protocol_of. rewrite (bool_decide_false (Scheme uu = str "sdns")) by exact Hs.
  assert (Hsch : forall d, Scheme (addPort d uu) = Scheme uu) by (intros d; unfold addPort; destruct (net_SplitHostPort _); reflexivity).
  repeat match goal with |- context [bool_decide (Scheme uu = ?s)] => destruct (bool_decide_reflect (Scheme uu = s)) as [E|?] end;
    try congruence; cbn [orb]; eauto; unfold newPlain, newDoH, upstream_for, networkUDP, networkTCP;
    rewrite ?Hsch, ?E; try reflexivity.
Qed.

(** The URL that an upstream is dialed at. *)
Definition url_of (u : upstream (V := V)) : URL :=
  match u with
  | plainDNS a _ _ _ _ | dnsOverTLS a _ _ _ | dnsOverQUIC a _ _ _ | dnsOverHTTPS a _ _ _ _ _ | dnsCrypt a _ => a
  end.

Lemma url_of_upstream_for p u opts : Host (url_of (upstream_for p u opts)) = Host u.
Proof. destruct p; reflexivity. Qed.


(** The texts of the documentation. *)
Definition documented (scheme host : bytes) (port : option bytes) (path : bytes) : Prop :=
  Forall (fun c => name_char c = true) host /\ (IsValidIPString host = true \/ ValidateDomainName host = None)
  /\ (forall p, port = Some p -> Forall (fun c => is_digit c = true) p /\ exists n, ParseUint16 p = Ok n)
  /\ Forall (fun c => path_char c = true) path /\ (path = [] \/ exists p, path = 47 :: p).

Lemma protocol_of_plain scheme p : protocol_of scheme = Some p -> plain_scheme scheme /\ scheme <> str "sdns".
Proof.
  unfold protocol_of. intros H.
  repeat match type of H with context [bool_decide (scheme = ?s)] => destruct (bool_decide_reflect (scheme = s)) as [->|?];
    [split; [split; [reflexivity|repeat constructor]|discriminate]|] end. discriminate.
Qed.

Lemma name_no_brackets host : Forall (fun c => name_char c = true) host ->
  58 ∉ host /\ Forall (fun c => c <> 91 /\ c <> 93) host /\ possible_ip host = host.
Proof.
  intros Hh. assert (Hnb : Forall (fun c => c <> 91 /\ c <> 93) host).
  { eapply list.Forall_impl; [exact Hh|]. cbn beta. intros c Hc. split; intros ->; discriminate. }
  split; [|split; [exact Hnb|]].
  - apply not_elem_Forall. eapply not_chars; [exact Hh|reflexivity].
  - apply possible_ip_id. intros r ->. apply Forall_cons_1 in Hnb as [[H _] _]. lia.
Qed.

Lemma Split_name host port : Forall (fun c => name_char c = true) host ->
  (forall p, port = Some p -> Forall (fun c => is_digit c = true) p) ->
  match port with
  | Some p => net_SplitHostPort (host ++ opt_port port) = Ok (host, p)
  | None => exists e, net_SplitHostPort (host ++ opt_port port) = Err e
  end.
Proof.
  intros Hh Hp. destruct (name_no_brackets host Hh) as (H58 & Hnb & _). destruct port as [p|]; cbn [opt_port].
  - assert (Hj : net_JoinHostPort host p = host ++ 58 :: p) by (unfold net_JoinHostPort; rewrite bool_decide_false by exact H58; reflexivity).
    rewrite <- Hj. apply Split_Join.
    + apply not_elem_Forall. eapply list.Forall_impl; [exact Hnb|]. cbn beta. tauto.
    + apply not_elem_Forall. eapply list.Forall_impl; [exact Hnb|]. cbn beta. tauto.
    + eapply list.Forall_impl; [apply (Hp p eq_refl)|]. cbn beta. intros c Hc. repeat split; intros ->; discriminate.
  - rewrite app_nil_r. unfold net_SplitHostPort. rewrite LastIndexByte_none by (apply not_elem_Forall, H58). eexists. reflexivity.
Qed.

(** The URL of a documented address passes the validation and gets its port. *)
Lemma documented_url scheme host port path p :
  documented scheme host port path -> scheme <> str "sdns" -> 0 <= default_port p <= MaxUint16 ->
  let u := plain_URL scheme (host ++ opt_port port) path in
  validateUpstreamURL u = None
  /\ addPort (default_port p) u = plain_URL scheme (host ++ 58 :: default (Itoa (default_port p)) port) path.
Proof using AL.
  intros (Hh & Hv & Hp & _) Hs Hd u. destruct (name_no_brackets host Hh) as (H58 & Hnb & Hpi).
  pose proof (Split_name host port Hh (fun p H => proj1 (Hp p H))) as Hsplit.
  unfold validateUpstreamURL, addPort. rewrite bool_decide_false by exact Hs. cbn [Host u plain_URL].
  destruct port as [prt|].
  - rewrite Hsplit. destruct (Hp prt eq_refl) as [_ [n ->]]. rewrite Hpi. split; [|reflexivity].
    destruct (IsValidIPString host); [reflexivity|]. destruct Hv as [[=]| ->]. reflexivity.
  - destruct Hsplit as [e Hsplit]. rewrite Hsplit. cbn [opt_port] in *. rewrite app_nil_r, Hpi. split.
    + destruct (IsValidIPString host); [reflexivity|]. destruct Hv as [[=]| ->]. reflexivity.
    + rewrite JoinHostPort_spec, trim_brackets_none by exact Hnb. unfold net_JoinHostPort. rewrite bool_decide_false by exact H58. reflexivity.
Qed.

Lemma Hostname_name scheme host prt path : Forall (fun c => name_char c = true) host -> Forall (fun c => is_digit c = true) prt ->
  Hostname (plain_URL scheme (host ++ 58 :: prt) path) = host.
Proof.
  intros Hh Hp. unfold Hostname. cbn [Host plain_URL]. rewrite LastIndexByte_app by (eapply not_chars; [exact Hp|reflexivity]).
  rewrite drop_app_length, take_app_length. cbn [validOptionalPort]. rewrite (proj2 (forallb_forall _ _)) by (intros c Hc; eapply List.Forall_forall in Hc; [exact Hc|exact Hp]).
  cbn. destruct (name_no_brackets host Hh) as (_ & Hnb & _). destruct Hnb as [|c host [Hc _] _]; [reflexivity|].
  repeat match goal with |- context [match ?z with _ => _ end] => is_var z; destruct z; try reflexivity end. contradiction.
Qed.

Lemma Index_scheme scheme rest : exists i, Index (scheme ++ str "://" ++ rest) (str "://") = Some i.
Proof.
  induction scheme as [|c s [i IH]]; [exists O; reflexivity|]. cbn [app Index]. destruct (HasPrefix _ _); [eauto|].
  exists (S i). rewrite IH. reflexivity.
Qed.

(** C24: The documented addresses give the documented upstreams.  For a scheme of UDP,
    TCP, TLS, QUIC, HTTPS or HTTP/3, a domain name or IPv4 address, an optional port
    and a path, and for a name with an optional port alone, which is UDP, the
    upstream is the one of that protocol, dialed at exactly that host and port, or
    at the default port, with the host as the TLS name unless the options have
    another, and with the ALPN tokens of the protocol. *)
Theorem address_upstream (scheme host : bytes) (port : option bytes) (path : bytes) (p : protocol) opts
    (Hp : protocol_of scheme = Some p) (Hd : documented scheme host port path) :
  let url := plain_URL scheme (host ++ 58 :: default (Itoa (default_port p)) port) path in
  AddressToUpstream (scheme ++ str "://" ++ host ++ opt_port port ++ path) opts = Ok (upstream_for p url opts)
  /\ Hostname url = host
  /\ (p = Plain_UDP -> path = [] -> AddressToUpstream (host ++ opt_port port) opts = Ok (upstream_for p url opts)).
Proof using AL.
  intros url. destruct (protocol_of_plain scheme p Hp) as [Hps Hns].
  assert (Hrange : 0 <= default_port p <= MaxUint16) by (destruct p; vm_compute; split; discriminate).
  destruct (documented_url scheme host port path p Hd Hns Hrange) as [Hval Hadd]. destruct Hd as (Hh & _ & Hprt & Hpath & Hslash).
  assert (Hdig : forall q, port = Some q -> Forall (fun c => is_digit c = true) q) by (intros q H; apply (Hprt q H)).
  assert (Hup : urlToUpstream (plain_URL scheme (host ++ opt_port port) path) opts = Ok (upstream_for p url opts)).
  { pose proof (urlToUpstream_cases (plain_URL scheme (host ++ opt_port port) path) opts Hns) as Hc. cbn [Scheme plain_URL] in Hc.
    rewrite Hp in Hc. rewrite Hc, Hadd. reflexivity. }
  split; [|split].
  - unfold AddressToUpstream, address_url. destruct (Index_scheme scheme (host ++ opt_port port ++ path)) as [i ->].
    rewrite URL_Parse_plain by assumption. cbn [rbind]. rewrite Hval. exact Hup.
  - apply Hostname_name; [exact Hh|]. destruct port as [q|]; [apply (Hdig q eq_refl)|apply Itoa_port, Hrange].
  - intros -> ->. unfold AddressToUpstream, address_url. rewrite Index_no_slash.
    + unfold protocol_of in Hp. destruct (bool_decide_reflect (scheme = str "udp")) as [->|?]; [|repeat case_hyp Hp; discriminate].
      cbn [rbind]. rewrite Hval. exact Hup.
    + eapply not_chars; [apply (opt_port_chars host port Hh Hdig)|reflexivity].
Qed.

(** *** Stamps *)

Lemma b64_name_chars b : wf_bytes b -> Forall (fun c => name_char c = true) (RawURL_EncodeToString b).
Proof.
  intros Hb. eapply list.Forall_impl; [apply (RawURL_url_chars b Hb)|]. cbn beta. intros c Hc. unfold url_char, b64_value in Hc.
  unfold name_char, is_alnum, is_upper, is_lower, is_one_of. destruct ((65 <=? c) && (c <=? 90)); [rewrite ?orb_true_r; reflexivity|].
  destruct ((97 <=? c) && (c <=? 122)); [reflexivity|]. destruct (is_digit c); [rewrite ?orb_true_r; reflexivity|].
  destruct (Z.eqb_spec c 45) as [E|]; [rewrite E; reflexivity|]. destruct (Z.eqb_spec c 95) as [E|]; [rewrite E; reflexivity|]. discriminate.
Qed.

(** The text of a stamp is parsed and printed unchanged. *)
Lemma stamp_url b : wf_bytes b -> b <> [] ->
  let text := str "sdns://" ++ RawURL_EncodeToString b in
  address_url text = Ok (plain_URL (str "sdns") (RawURL_EncodeToString b) [])
  /\ URL_String (plain_URL (str "sdns") (RawURL_EncodeToString b) []) = text.
Proof.
  intros Hb Hne text. pose proof (b64_name_chars b Hb) as Hc. set (enc := RawURL_EncodeToString b) in *.
  assert (Henc : enc <> []) by (destruct b as [|x [|y [|z b]]]; [contradiction|discriminate..]).
  assert (Ht : text = str "sdns" ++ str "://" ++ enc ++ opt_port None ++ []) by (unfold text; cbn [opt_port]; rewrite !app_nil_r; reflexivity).
  split.
  - unfold address_url. rewrite Ht. destruct (Index_scheme (str "sdns") (enc ++ opt_port None ++ [])) as [i ->].
    rewrite URL_Parse_plain; [cbn [opt_port]; rewrite app_nil_r; reflexivity|split; [reflexivity|repeat constructor]|exact Hc|discriminate|constructor|auto].
  - unfold URL_String. cbn [Scheme Opaque User Host Path OmitHost ForceQuery RawQuery Fragment plain_URL]. rewrite !(bool_decide_false (enc = [])) by exact Henc.
    cbn [negb orb andb]. destruct (host_unescape enc) as [_ ->]; [eapply list.Forall_impl; [exact Hc|exact name_host]|].
    unfold EscapedPath, escaped_or. cbn. rewrite !app_nil_r. reflexivity.
Qed.

(** A stamp gives the upstream of its protocol.  The address in it is the only one
    that the provider's name is resolved to, whatever resolver the options have. *)
Lemma stamp_upstream b stamp ip host port opts :
  wf_bytes b -> b <> [] -> NewServerStampFromString (str "sdns://" ++ RawURL_EncodeToString b) = Ok stamp ->
  ServerAddrStr stamp <> [] -> netutil_SplitHostPort (ServerAddrStr stamp) = Ok (host, port) -> ParseAddr host = Ok ip ->
  let opts' := set_Bootstrap (Some (StaticResolver [ip])) opts in
  let provider := StampProviderName stamp in
  AddressToUpstream (str "sdns://" ++ RawURL_EncodeToString b) opts
  = if StampProto stamp =? StampProtoTypePlain then Ok (upstream_for Plain_UDP (addPort 53 (plain_URL (str "udp") (ServerAddrStr stamp) [])) opts')
    else if StampProto stamp =? StampProtoTypeDNSCrypt then Ok (dnsCrypt (plain_URL (str "sdns") (RawURL_EncodeToString b) []) (opt_Timeout opts))
    else if StampProto stamp =? StampProtoTypeDoH then Ok (upstream_for HTTPS (addPort 443 (plain_URL (str "https") provider (StampPath stamp))) opts')
    else if StampProto stamp =? StampProtoTypeDoQ then Ok (upstream_for QUIC (addPort 853 (plain_URL (str "quic") provider (StampPath stamp))) opts')
    else if StampProto stamp =? StampProtoTypeTLS then Ok (upstream_for TLS (addPort 853 (plain_URL (str "tls") provider [])) opts')
    else Err (New "unsupported stamp protocol %s").
Proof.
  intros Hb Hne Hst Hs Hsp Hip opts' provider. destruct (stamp_url b Hb Hne) as [Hu Hstr]. unfold AddressToUpstream. rewrite Hu. cbn [rbind].
  unfold validateUpstreamURL, urlToUpstream, parseStamp. cbn [Scheme plain_URL]. rewrite bool_decide_true by reflexivity.
  rewrite Hstr, Hst. destruct (ServerAddrStr stamp) as [|c s] eqn:Es; [contradiction|]. rewrite Hsp, Hip. cbn [rbind].
  fold opts'. fold provider.
  assert (Hsch : forall d scheme h p, Scheme (addPort d (plain_URL scheme h p)) = scheme) by (intros; unfold addPort; destruct (net_SplitHostPort _); reflexivity).
  repeat case_goal; try reflexivity; unfold newPlain, newDoH, upstream_for; rewrite ?Hsch; reflexivity.
Qed.

(** *** Passwords *)

(** The address of a DoH upstream, which is logged, does not depend on the password of
    its URL. *)
Lemma doh_address_redacted (u : URL) name pw pw' opts :
  Address (newDoH (set_User (Some (mkUser name (Some pw))) u) opts) = Address (newDoH (set_User (Some (mkUser name (Some pw'))) u) opts).
Proof.
  unfold newDoH, addPort. cbn [Host set_User]. destruct (net_SplitHostPort (Host u)); cbn [Scheme set_User set_Host];
    destruct (bool_decide (Scheme u = str "h3")); reflexivity.
Qed.
End AddressFacts.

Module AddressExamples.
(** Addresses that parse are the valid ones; names are letters, digits, hyphens and
    dots. *)
#[global] Instance texts : AddrTexts := {|
  IsValidIPString s := match ParseAddr s with Ok a => forallb ip_char s && negb (bool_decide (s = [])) | Err _ => false end;
  IsValidIPPortString s := match ParseAddrPort s with Ok _ => true | Err _ => false end;
  ValidateDomainName s := if forallb name_char s && negb (bool_decide (s = [])) then None else Some (New "bad domain name");
  JoinHostPort host port := net_JoinHostPort (trim_brackets host) (Itoa port);
  netutil_SplitHostPort s := let? (h, p) := net_SplitHostPort s in let? n := ParseUint16 p in Ok (h, n);
|}.
#[global] Instance texts_laws : AddrTextLaws.
Proof.
  split; [reflexivity|..]; intros s; cbn.
  - destruct (ParseAddr s); [|discriminate]. intros [H1 H2]%andb_true_iff _. split; [intros ->; discriminate|].
    apply list.Forall_forall. intros c Hc%list_elem_of_In. rewrite forallb_forall in H1. apply H1, Hc.
  - destruct (forallb name_char s) eqn:E; [|discriminate]. cbn [andb]. destruct (bool_decide_reflect (s = [])); [discriminate|]. intros _. split; [assumption|].
    apply list.Forall_forall. intros c Hc%list_elem_of_In. rewrite forallb_forall in E. pose proof (E c Hc). repeat split; intros ->; discriminate.
Qed.

Definition opts : Options (V := unit) := mkOptions false [] [] tt [] None [] 0 false false.
#[global] Instance stamps : DnsStamps := fun _ => Err (New "no stamps").

(** Forms of the documentation, and errors. *)
Example forms :
  (let? u := AddressToUpstream (str "tls://[2001:db8::1]") opts in Ok (Host (url_of u))) = Ok (str "[2001:db8::1]:853")
  /\ (let? u := AddressToUpstream (str "::1") opts in Ok (Host (url_of u))) = Ok (str "[::1]:53")
  /\ (let? u := AddressToUpstream (str "h3://dns.example/q") opts in Ok (Address u)) = Ok (Ret (str "https://dns.example:443/q"))
  /\ (let? u := AddressToUpstream (str "udp://a:65536") opts in Ok tt) = Err (Errorf "invalid port %s: %w" parse_error)
  /\ (let? u := AddressToUpstream (str "ftp://a") opts in Ok tt) = Err (New "unsupported url scheme: %s")
  /\ (let? u := NewUpstreamResolver (str "tls://dns.example") opts in Ok (snd u)) = Ok (Some (NotBootstrapError parse_error))
  /\ (let? u := NewUpstreamResolver (str "192.0.2.1") opts in Ok (snd u)) = Ok None.
Proof. vm_compute. repeat split. Qed.
End AddressExamples.


Lemma address_upstream_witness :
  AddressToUpstream (str "quic" ++ str "://" ++ str "dns.example" ++ opt_port None ++ []) AddressExamples.opts
  = Ok (upstream_for QUIC (plain_URL (str "quic") (str "dns.example:853") []) AddressExamples.opts).
Proof.
  apply (address_upstream (str "quic") (str "dns.example") None [] QUIC AddressExamples.opts).
  - reflexivity.
  - split; [repeat constructor|]. split; [right; reflexivity|]. split; [discriminate|]. split; [constructor|auto].
Defined.
