(* ===== verification/CryptServer.v ===== *)
(** * The DNSCrypt server (dnscrypt/server.go, serverudp.go, servertcp.go, dns.go,
      handler.go)

    What the server does with the bytes of a client: the handshake that gives
    its certificate, decryption, the handler and its encrypted answer, over UDP
    and over TCP.  Sending, the clock and randomness act on an abstract world. *)

From S2P Require Import Prelude DnsMsg RefDns Wire Plain Secretbox CryptPackets CryptCert CryptClient.


Record Server := mkServer { providerName : bytes; resolverCert : Certificate }.

Definition ErrTooShort : error := New "message is too short".

Section Server.
Context {DL : DnsLib} {DN : DnsNames} {CL : CryptoLib} {NaL : NaclLib}.

(** ** dns.go *)

Definition dnsSize (proto : dproto) (r : Msg) : Z :=
  let size := match opt_of r with Some o => UDPSize o | None => 0 end in
  match proto with
  | CryptTCP => MaxMsgSize
  | CryptUDP => if size <? MinMsgSize then MinMsgSize else size
  end.

Definition normalize (proto : dproto) (req res : Msg) : Msg :=
  let size := dnsSize proto req - 64 in
  let res := Truncate res size in
  if Truncated (Hdr res) && bool_decide (proto = CryptUDP) then set_Answer [] res else res.

(** ** server.go *)

(** [Server.encrypt] *)
Definition server_encrypt (srv : Server) (now : Time) (rnd : bytes) (m : Msg) (q : encryptedQuery) : go (result bytes) :=
  let r := mkResponse (q_esVersion q) (q_nonce q) in
  match Pack m with
  | Err e => Ret (Err (Errorf "packing dns message: %w" e))
  | Ok packet =>
      let! k := computeSharedKey (q_esVersion q) (ResolverSk (resolverCert srv)) (q_clientPk q) in
      match k with
      | Err e => Ret (Err (Errorf "computing shared key: %w" e))
      | Ok sharedKey => let! (res, _) := response_encrypt now rnd r packet sharedKey in Ret res
      end
  end.

(** [Server.decrypt] *)
Definition server_decrypt (srv : Server) (b : bytes) : go (result (Msg * encryptedQuery)) :=
  let query := mkQuery (ESVersion (resolverCert srv)) (ClientMagic (resolverCert srv))
                 (make_bytes KeySize) (make_bytes nonceSize) in
  let! (r, query) := query_decrypt query b (ResolverSk (resolverCert srv)) in
  match r with
  | Err e => Ret (Err (Errorf "decrypting query: %w" e))
  | Ok decrypted =>
      match Unpack decrypted with
      | (_, Some e) => Ret (Err (Errorf "unpacking dns message: %w" e))
      | (msg, None) => Ret (Ok (msg, query))
      end
  end.

Definition handleHandshake (srv : Server) (b certTxt : bytes) : go (result bytes) :=
  match Unpack b with
  | (_, Some e) => Ret (Err (Errorf "unpacking dns message: %w" e))
  | (m, None) =>
      if negb (length (Question m) =? 1)%nat || Response (Hdr m) then Ret (Err ErrInvalidQuery)
      else
        let! q := index (Question m) 0 in
        let pname := Fqdn (providerName srv) in
        let qName := ToLower (QName q) in
        if negb (Qtype q =? TypeTXT) || negb (bool_decide (qName = pname)) then Ret (Err ErrInvalidQuery)
        else
          let reply := SetReply empty_msg m in
          let txt := mkRR (mkHdr (QName q) TypeTXT ClassINET 60) (RD_TXT [certTxt]) in
          let reply := set_Answer (Answer reply ++ [txt]) reply in
          let reply := upd_hdr (fun h => mkMsgHdr (Id h) (Response h) (Opcode h) true (Truncated h)
            (RecursionDesired h) true (Zero h) (AuthenticatedData h) (CheckingDisabled h) (Rcode h)) reply in
          Ret (Pack reply)
  end.

Definition getCertTXT (srv : Server) : go bytes := packTxtString (MarshalBinary (resolverCert srv)).

(** ** Serving *)

Context {S : Type}.
(** Sending a datagram or the bytes of a stream, and a reading of the clock and
    of four random bytes. *)
Context (send : bytes -> S -> option error * S) (entropy : S -> Time * bytes * S).

(** A [ResponseWriter], and a [Handler]. *)
Definition writer : Type := Msg -> S -> go (option error * S).
Definition crypt_handler : Type := writer -> Msg -> S -> go (option error * S).

(** [udpResponseWriter.WriteMsg] *)
Definition udp_WriteMsg (srv : Server) (req : Msg) (q : encryptedQuery) : writer := fun m s =>
  let m := normalize CryptUDP req m in
  let '(now, rnd, s) := entropy s in
  let! res := server_encrypt srv now rnd m q in
  match res with
  | Err e => Ret (Some (Errorf "encrypting dns query: %w" e), s)
  | Ok res => let '(err, s) := send res s in
              Ret (match err with Some e => Some (Errorf "writing to udp session: %w" e) | None => None end, s)
  end.

(** [writeTCPResponse] *)
Definition writeTCPResponse (message : bytes) (s : S) : option error * S :=
  match Dnscrypt.writePrefixed message with
  | Err e => (Some e, s)
  | Ok frame => let '(err, s) := send frame s in
                (match err with Some e => Some (Errorf "writing to connection: %w" e) | None => None end, s)
  end.

(** [tcpResponseWriter.WriteMsg] *)
Definition tcp_WriteMsg (srv : Server) (req : Msg) (q : encryptedQuery) : writer := fun m s =>
  let m := normalize CryptTCP req m in
  let '(now, rnd, s) := entropy s in
  let! res := server_encrypt srv now rnd m q in
  match res with
  | Err e => Ret (Some (Errorf "encrypting query: %w" e), s)
  | Ok res => Ret (writeTCPResponse res s)
  end.

Definition serveDNS (h : crypt_handler) (rw : writer) (r : Msg) (s : S) : go (option error * S) :=
  if negb (length (Question r) =? 1)%nat || Response (Hdr r) then Ret (Some ErrInvalidQuery, s)
  else
    let! (err, s) := h rw r s in
    match err with
    | None => Ret (None, s)
    | Some _ =>
        let! (err, s) := rw (SetRcode empty_msg r RcodeServerFailure) s in
        Ret (match err with Some e => Some (Errorf "writing message: %w" e) | None => None end, s)
    end.

(** [serveUDPMsg] on a datagram that [serveUDPLoop] admits. *)
Definition serveUDPMsg (srv : Server) (h : crypt_handler) (b certTxt : bytes) (s : S) : go S :=
  if negb (bool_decide (take clientMagicSize b = ClientMagic (resolverCert srv))) then
    let! r := handleHandshake srv b certTxt in
    match r with
    | Err _ => Ret s
    | Ok reply => Ret (snd (send reply s))
    end
  else
    let! r := server_decrypt srv b in
    match r with
    | Err _ => Ret s
    | Ok (m, q) => let! (_, s) := serveDNS h (udp_WriteMsg srv m q) m s in Ret s
    end.

(** What [serveUDPLoop] does with a datagram. *)
Definition serveUDPPacket (srv : Server) (h : crypt_handler) (b certTxt : bytes) (s : S) : go S :=
  if len b <? minDNSPacketSize then Ret s else serveUDPMsg srv h b certTxt s.

Definition handleTCPMsg (srv : Server) (h : crypt_handler) (b certTxt : bytes) (s : S) : go (option error * S) :=
  if len b <? minDNSPacketSize then Ret (Some ErrTooShort, s)
  else if negb (bool_decide (take clientMagicSize b = ClientMagic (resolverCert srv))) then
    let! r := handleHandshake srv b certTxt in
    match r with
    | Err e => Ret (Some (Errorf "failed to process a plain DNS query: %w" e), s)
    | Ok reply =>
        let '(err, s) := writeTCPResponse reply s in
        Ret (match err with Some e => Some (Errorf "failed to write a response: %w" e) | None => None end, s)
    end
  else
    let! r := server_decrypt srv b in
    match r with
    | Err e => Ret (Some (Errorf "failed to decrypt incoming message: %w" e), s)
    | Ok (m, q) =>
        let! (err, s) := serveDNS h (tcp_WriteMsg srv m q) m s in
        Ret (match err with Some e => Some (Errorf "failed to process a DNS query: %w" e) | None => None end, s)
    end.

(** [handleTCPConnection] on the bytes of a stream; [started] is
    [s.isStarted()].  A stream of [k] bytes has at most [k / 2] messages. *)
Fixpoint crypt_tcp_loop (fuel : nat) (srv : Server) (h : crypt_handler) (started : S -> bool) (conn certTxt : bytes)
    (s : S) : go (option error * S) :=
  match fuel with
  | O => Ret (None, s)
  | Datatypes.S f =>
      if negb (started s) then Ret (None, s)
      else match Dnscrypt.readPrefixed conn with
      | Err e => Ret (Some (Errorf "reading dns message from connection: %w" e), s)
      | Ok (b, rest) =>
          let! (err, s) := handleTCPMsg srv h b certTxt s in
          match err with
          | Some e => Ret (Some (Errorf "handling tcp message: %w" e), s)
          | None => crypt_tcp_loop f srv h started rest certTxt s
          end
      end
  end.

Definition crypt_handleTCPConnection (srv : Server) (h : crypt_handler) (started : S -> bool) (conn certTxt : bytes)
    (s : S) : go (option error * S) :=
  crypt_tcp_loop (Datatypes.S (length conn)) srv h started conn certTxt s.

(** [defaultHandler.ServeDNS]; [exchange] asks over UDP or TCP. *)
Definition default_ServeDNS (exchange : dproto -> Msg -> S -> result Msg * S) : crypt_handler := fun rw r s =>
  let '(res, s) := exchange CryptUDP r s in
  match res with
  | Err e => Ret (Some (Errorf "exchanging udp message: %w" e), s)
  | Ok res =>
      if Truncated (Hdr res) then
        let '(res, s) := exchange CryptTCP r s in
        match res with
        | Err e => Ret (Some (Errorf "exchanging tcp message: %w" e), s)
        | Ok res => rw res s
        end
      else rw res s
  end.

End Server.

(** ** Facts *)

Section ServerFacts.
Context {DL : DnsLib} {DLaws : DnsLaws} {DN : DnsNames}.
Context {CL : CryptoLib} {CLaws : CryptoLaws} {NaL : NaclLib} {NLaws : NaclLaws}.
Context {S : Type} (send : bytes -> S -> option error * S) (entropy : S -> Time * bytes * S).

(** Four random bytes. *)
Hypothesis entropy_length : forall s, length (snd (fst (entropy s))) = 4%nat.

(** A query as the server decrypts it. *)
Definition decrypted (srv : Server) (b : bytes) (m : Msg) (q : encryptedQuery) : Prop :=
  exists packet, query_box (ESVersion (resolverCert srv)) (ClientMagic (resolverCert srv)) (ResolverSk (resolverCert srv)) b packet q
    /\ Unpack packet = (m, None).

Lemma server_decrypt_spec srv b :
  len b <= MaxUint16 ->
  exists r, server_decrypt srv b = Ret r /\ forall m q, r = Ok (m, q) -> decrypted srv b m q.
Proof using CLaws NLaws.
  intros Hl. unfold server_decrypt.
  destruct (query_decrypt_spec (ESVersion (resolverCert srv)) (ClientMagic (resolverCert srv))
    (ResolverSk (resolverCert srv)) b Hl) as (res & q & E & Hq).
  change (make_bytes 32) with (make_bytes KeySize) in E. change (make_bytes 24) with (make_bytes nonceSize) in E.
  rewrite E. cbn [gbind]. destruct res as [packet|]; [|eexists; split; [reflexivity|discriminate]].
  destruct (Unpack packet) as [m [e|]] eqn:Eu; (eexists; split; [reflexivity|]); [discriminate|].
  intros m' q' [= <- <-]. exists packet. auto.
Qed.

Lemma handleHandshake_total srv b certTxt : exists r, handleHandshake srv b certTxt = Ret r.
Proof.
  unfold handleHandshake. destruct (Unpack b) as [m [e|]]; [eauto|].
  destruct (Question m) as [|q [|]]; cbn [length Nat.eqb negb orb]; eauto.
  case_goal; [eauto|]. cbn [index lookup list_lookup gbind]. case_goal; eauto.
Qed.

(** A message that may be answered. *)
Definition servable (m : Msg) : bool := (length (Question m) =? 1)%nat && negb (Response (Hdr m)).

(** The DNSCrypt server gives its handler only queries that are addressed to
    it.  Whatever bytes a datagram has, the server does one of three things: it
    ignores the datagram; it sends the reply to a plain query for its certificate;
    or the datagram consists of the client magic of its certificate, a public key,
    half a nonce and a box that opens, under the key shared with that public key,
    to a padded message, and this message, a query with one question, is given to
    the handler once, with a writer that encrypts for that client; if the handler
    fails, that writer gets SERVFAIL. *)
Theorem serveUDPPacket_cases (srv : Server) (h : crypt_handler (S := S)) (b certTxt : bytes) (s : S) :
  len b <= MaxUint16 ->
  serveUDPPacket send entropy srv h b certTxt s = Ret s
  \/ (exists reply, handleHandshake srv b certTxt = Ret (Ok reply)
        /\ serveUDPPacket send entropy srv h b certTxt s = Ret (snd (send reply s)))
  \/ (exists m q, decrypted srv b m q /\ servable m = true
        /\ let rw := udp_WriteMsg send entropy srv m q in
           serveUDPPacket send entropy srv h b certTxt s
           = let! (err, s) := h rw m s in
             match err with
             | None => Ret s
             | Some _ => let! (_, s) := rw (SetRcode empty_msg m RcodeServerFailure) s in Ret s
             end).
Proof using CLaws NLaws.
  intros Hl. unfold serveUDPPacket, serveUDPMsg. destruct (len b <? minDNSPacketSize); [auto|].
  destruct (negb (bool_decide _)).
  - destruct (handleHandshake_total srv b certTxt) as ([reply|e] & E); rewrite E; cbn [gbind]; eauto.
  - destruct (server_decrypt_spec srv b Hl) as ([[m q]|e] & -> & Hd); cbn [gbind]; [|auto].
    unfold serveDNS, servable.
    destruct (length (Question m) =? 1)%nat eqn:Eq; cbn [negb orb gbind]; [|auto].
    destruct (Response (Hdr m)) eqn:Er; cbn [negb orb gbind]; [auto|].
    right; right. exists m, q. split; [auto|]. split; [rewrite Eq, Er; reflexivity|].
    destruct (h _ m s) as [[[e|] s1]|]; cbn [gbind]; try reflexivity.
    destruct (udp_WriteMsg _ _ _ _ _ _ _) as [[e2 s2]|]; reflexivity.
Qed.

(** What a client knows of a server it dialed. *)
Record session_with (srv : Server) (info : ResolverInfo) : Prop := {
  sw_es : ESVersion (ResolverCert info) = ESVersion (resolverCert srv);
  sw_magic : ClientMagic (ResolverCert info) = ClientMagic (resolverCert srv);
  sw_size : length (ClientMagic (resolverCert srv)) = clientMagicSize;
  sw_shared : computeSharedKey (ESVersion (resolverCert srv)) (i_SecretKey info)
                (ScalarBaseMult (ResolverSk (resolverCert srv))) = Ret (Ok (i_SharedKey info));
  sw_pair : i_PublicKey info = ScalarBaseMult (i_SecretKey info);
}.

(** A packet that fits a frame and is not shorter than a message. *)
Definition packet_ok (b : bytes) : Prop := minDNSPacketSize <= len b <= MaxUint16.

Lemma packet_ok_stream b : packet_ok b -> len (pad b) + 128 <= stream_bytes.
Proof.
  intros [_ Hl]. rewrite pad_length. pose proof (Z.mod_pos_bound (len b + 1) 64 ltac:(lia)).
  unfold stream_bytes, minUDPQuestionSize, MaxUint16 in *. lia.
Qed.

Lemma client_encrypt_ok srv info c m packet now rnd :
  session_with srv info -> Pack m = Ok packet -> packet_ok packet -> length rnd = 4%nat ->
  68 + len (pad packet) <= maxQuerySize c ->
  let nonce := client_half now rnd ++ make_bytes 12 in
  exists query, client_encrypt c m info now rnd = Ret (Ok (query, nonce))
    /\ len query = 68 + len (pad packet) /\ take clientMagicSize query = ClientMagic (resolverCert srv)
    /\ query_decrypt (mkQuery (ESVersion (resolverCert srv)) (ClientMagic (resolverCert srv)) (make_bytes 32) (make_bytes 24))
         query (ResolverSk (resolverCert srv))
       = Ret (Ok packet, mkQuery (ESVersion (resolverCert srv)) (ClientMagic (resolverCert srv)) (i_PublicKey info) nonce).
Proof using CLaws NLaws.
  intros [He Hm Hms Hsh Hp] Hpk Hok Hr Hfit nonce.
  destruct (query_roundtrip (ESVersion (resolverCert srv)) (ClientMagic (resolverCert srv)) (i_SecretKey info)
    (ResolverSk (resolverCert srv)) now rnd packet (i_SharedKey info) Hms Hr Hsh (proj1 Hok) (packet_ok_stream _ Hok))
    as (query & Eq & Hl & Ht & Ed).
  exists query. unfold client_encrypt. rewrite Hpk, He, Hm, Hp. change (make_bytes nonceSize) with (make_bytes 24).
  rewrite Eq. cbn [gbind]. rewrite (proj2 (Z.ltb_ge _ _)) by lia. auto.
Qed.

Lemma server_encrypt_ok srv info m packet now rnd half :
  session_with srv info -> Pack m = Ok packet -> packet_ok packet -> length rnd = 4%nat -> length half = 12%nat ->
  exists response m', server_encrypt srv now rnd m
      (mkQuery (ESVersion (resolverCert srv)) (ClientMagic (resolverCert srv)) (i_PublicKey info) (half ++ make_bytes 12))
      = Ret (Ok response)
    /\ len response = 48 + len (pad packet)
    /\ client_decrypt response (half ++ make_bytes 12) info = Ret (Ok m') /\ msg_eqv m m'.
Proof using CLaws NLaws DLaws.
  intros [He Hm Hms Hsh Hp] Hpk Hok Hr Hh.
  destruct (computeSharedKey_total (ESVersion (resolverCert srv)) (i_SecretKey info) (ScalarBaseMult (ResolverSk (resolverCert srv))))
    as (k & Ek & Hk). rewrite Hsh in Ek. injection Ek as <-. destruct (Hk _ eq_refl) as [Hes Hkl].
  destruct (response_roundtrip (ESVersion (resolverCert srv)) half now rnd packet (i_SharedKey info) (half ++ make_bytes 12)
    Hes Hkl Hh Hr) as (response & Ee & Hl & Ed).
  { apply take_app_length'. auto. } { apply Hok. } { apply packet_ok_stream, Hok. }
  destruct (unpack_pack m packet Hpk) as (m' & Eu & Heq).
  exists response, m'. unfold server_encrypt. rewrite Hpk. cbn [q_esVersion q_nonce q_clientPk].
  rewrite Hp, computeSharedKey_agrees, Hsh. cbn [gbind]. rewrite Ee. cbn [gbind]. split; [reflexivity|].
  split; [exact Hl|]. unfold client_decrypt. rewrite He. change (make_bytes nonceSize) with (make_bytes 24).
  rewrite Ed. cbn [gbind]. rewrite Eu. auto.
Qed.


(** The size of an encrypted response: the 64 bytes that [normalize] sets aside
    are fewer than the header, the tag and the padding take. *)
Theorem udp_response_fits_iff (packet : bytes) :
  48 + len (pad packet) <= MinMsgSize <-> len packet <= MinMsgSize - 66.
Proof.
  rewrite pad_length. unfold MinMsgSize, minUDPQuestionSize.
  pose proof (Z.div_mod (len packet + 1) 64 ltac:(lia)). pose proof (Z.mod_pos_bound (len packet + 1) 64 ltac:(lia)).
  lia.
Qed.

(** A provider name with an upper-case letter is never matched. *)
Theorem handshake_upper_case_refused (srv : Server) (b certTxt : bytes) :
  ToLower (Fqdn (providerName srv)) <> Fqdn (providerName srv) ->
  exists e, handleHandshake srv b certTxt = Ret (Err e).
Proof.
  intros Hn. unfold handleHandshake. destruct (Unpack b) as [m [e|]]; [eauto|].
  destruct (Question m) as [|q [|]]; cbn [length Nat.eqb negb orb]; eauto.
  case_goal; [eauto|]. cbn [index lookup list_lookup gbind].
  rewrite bool_decide_false; [rewrite orb_true_r; eauto|].
  intros He. apply Hn. rewrite <- He. apply ToLower_idem.
Qed.

End ServerFacts.

(** ** Examples *)

Module CryptServerExamples.
Import SecretboxExamples PacketExamples CertExamples PlainExamples.

#[export] Instance names : DnsNames := fun s => if HasSuffix s (str ".") then s else s ++ str ".".

Definition srv : Server := mkServer (str "2.dnscrypt-cert.example.org")
  (mkCert 7 2 (make_bytes 64) (ScalarBaseMult sks) sks PacketExamples.magic 1700000000 1700086400).

Definition info : ResolverInfo := mkInfo (with_Sk (make_bytes 32) (resolverCert srv)) [] [] pub
  (shared 2) skc (ScalarBaseMult skc).

Lemma info_session : session_with srv info.
Proof. split; vm_compute; reflexivity. Qed.

(** The world is the list of datagrams that were sent. *)
Definition send (b : bytes) (s : list bytes) : option error * list bytes := (None, s ++ [b]).
Definition entropy (s : list bytes) : Time * bytes * list bytes := (77, PacketExamples.rnd, s).

Definition client : Client := NewClient CryptUDP 0.
Definition request : Msg := set_Id 11 PlainExamples.req.
Definition respond (pad : nat) (r : Msg) : Msg :=
  set_Answer [mkRR (mkHdr (str "a.test.") TypeTXT ClassINET 60) (RD_TXT [replicate pad 120])] (SetReply empty_msg r).

(** The datagrams a request is answered with, and what the client reads. *)
Definition sent_for (pad : nat) : list bytes :=
  match client_encrypt client request info 5 PacketExamples.rnd with
  | Ret (Ok (query, _)) =>
      match serveUDPPacket send entropy srv (fun rw r s => rw (respond pad r) s) query [] [] with
      | Ret s => s | Panic => []
      end
  | _ => []
  end.

Definition nonce : bytes := client_half 5 PacketExamples.rnd ++ make_bytes 12.

(** A response of 455 bytes is not truncated for a client that takes 512, but its
    datagram has 560 bytes, and what such a client reads of it does not open. *)
Example large_response_lost :
  (Truncated (Hdr (normalize CryptUDP request (respond 30 request))) = false)
  /\ length <$> sent_for 30 = [560%nat]
  /\ Forall (fun d => exists e, readResponse client (mkCC None (Ok d) None) = Ok (take 512 d)
               /\ client_decrypt (take 512 d) nonce info = Ret (Err e)) (sent_for 30).
Proof.
  split; [vm_compute; reflexivity|]. split; [vm_compute; reflexivity|].
  assert (H : exists d, sent_for 30 = [d] /\ exists e, client_decrypt (take 512 d) nonce info = Ret (Err e)).
  { eexists. split; [vm_compute; reflexivity|]. eexists. vm_compute. reflexivity. }
  destruct H as (d & -> & e & He). constructor; [|constructor]. exists e. split; [reflexivity|exact He].
Qed.

End CryptServerExamples.

Import SecretboxExamples PacketExamples CertExamples PlainExamples CryptServerExamples.

Lemma serveUDPPacket_cases_witness :
  serveUDPPacket send entropy srv (fun rw r s => rw (respond 0 r) s) (make_bytes 30) [] [] = Ret []
  \/ exists s, serveUDPPacket send entropy srv (fun rw r s => rw (respond 0 r) s) (make_bytes 30) [] [] = Ret s.
Proof.
  destruct (serveUDPPacket_cases send entropy srv (fun rw r s => rw (respond 0 r) s) (make_bytes 30) [] []
    ltac:(vm_compute; discriminate)) as [H|[(reply & _ & H)|(m & q & (packet & (pk & half & box & k & key & H & _) & _) & _)]];
    [left; exact H|right; eauto|]. vm_compute in H. discriminate H.
Defined.


Lemma handshake_upper_case_refused_witness :
  exists e, handleHandshake (mkServer (str "2.dnscrypt-cert.Example.org") empty_cert) (make_bytes 30) [] = Ret (Err e).
Proof.
  apply (handshake_upper_case_refused (mkServer (str "2.dnscrypt-cert.Example.org") empty_cert)).
  vm_compute. discriminate.
Defined.
