(* ===== verification/CryptRun.v ===== *)
(** * Runs of the DNSCrypt server (dnscrypt/server.go, serverudp.go, servertcp.go)

    [Start], [Shutdown], the serving loops and their handlers as transitions of
    a server: each takes the mutex at most once, so any interleaving is a
    sequence of them.  The theorems say what holds when [Shutdown] returns and
    that what it waits for happens. *)

From stdpp Require Import gmap.
From S2P Require Import Prelude CryptPackets CryptClient.
#[local] Open Scope Z_scope.

(** What the field of the listener holds: nothing, a socket, or, as [s.tcpListener] is
    an interface, a nil [*net.TCPListener].  A socket has an address, closed or not. *)
Inductive listener := NoListener | NilListener | Listener (addr : nat).

(** [r_done] is nil, an open channel or a closed one, and [cancelled] tells whether
    the context of the run is; [listening] tells whether the listener is open,
    [serving] whether the loop that [Start] began has not left, and [accepted] the
    connection or packet it holds; [handlers] are the admitted goroutines, named by
    what they handle; [sockets] are the adopted connections that are not closed.
    [failure] is the failure that the run reported, and whether the channel took it. *)
Record run := mkRun {
  r_proto : dproto;
  r_started : bool;
  r_done : option bool;
  cancelled : bool;
  r_listener : listener;
  listening : bool;
  serving : bool;
  accepted : option nat;
  tcpConns : gset nat;
  handlers : gset nat;
  sockets : gset nat;
  failure : option (error * bool);
}.

(** [NewServer] *)
Definition new_run (proto : dproto) : run := mkRun proto false None true NoListener false false None ∅ ∅ ∅ None.

Definition ErrServerNotStarted : error := New "server is not started".
Definition ErrServerAlreadyStarted : error := New "server is already started".

(** [setUDPSocketOptions] with the outcomes of the two calls. *)
Definition setUDPSocketOptions (GOOS : bytes) (err6 err4 : option error) : option error :=
  if bool_decide (GOOS = str "windows") then None
  else match err6, err4 with Some _, Some _ => err4 | _, _ => None end.

(** The listener that [Start] gets, and its error, from those of [net.ListenTCP] or
    [net.ListenUDP] and of the options. *)
Definition bind_listener (proto : dproto) (listen : result nat) (opts_err : option error) : listener * option error :=
  match proto, listen with
  | CryptTCP, Ok a => (Listener a, None)
  | CryptTCP, Err e => (NilListener, Some e)
  | CryptUDP, Ok a => (Listener a, opts_err)
  | CryptUDP, Err e => (NoListener, Some e)
  end.

(** [closeListeners]: closing a nil [*net.TCPListener] is an error that is logged. *)
Definition closeListeners (r : run) : run :=
  mkRun (r_proto r) (r_started r) (r_done r) (cancelled r) (r_listener r) false (serving r) (accepted r)
    (tcpConns r) (handlers r) (sockets r) (failure r).

Definition set_listener (l : listener) (r : run) : run :=
  mkRun (r_proto r) (r_started r) (r_done r) (cancelled r) l (match l with Listener _ => true | _ => false end)
    (serving r) (accepted r) (tcpConns r) (handlers r) (sockets r) (failure r).

(** [Start] with the state of its context and the outcome of binding. *)
Definition Start (ctx_err : option error) (listen : result nat) (opts_err : option error) (r : run) : option error * run :=
  match ctx_err with
  | Some e => (Some e, r)
  | None =>
      if r_started r then (Some ErrServerAlreadyStarted, r)
      else if (match r_done r with Some closed => negb closed | None => false end)
      then (Some (New "previous DNSCrypt run is still closing"), r)
      else
        let '(l, err) := bind_listener (r_proto r) listen opts_err in
        let r := set_listener l r in
        match err with
        | Some e => (Some (Errorf "binding DNSCrypt %s: %w" e), closeListeners r)
        | None => (None, mkRun (r_proto r) true (Some false) false (r_listener r) (listening r) true (accepted r)
                           (tcpConns r) (handlers r) (sockets r) None)
        end
  end.

(** [LocalAddr]: [Addr] of a nil [*net.TCPListener] dereferences it. *)
Definition LocalAddr (r : run) : go (option nat) :=
  match r_listener r with NoListener => Ret None | NilListener => Panic | Listener a => Ret (Some a) end.

(** [Shutdown] up to its waiting: an error, or the run to wait for. *)
Definition Shutdown (r : run) : result run :=
  match r_done r with
  | None => Err ErrServerNotStarted
  | Some _ =>
      Ok (if r_started r
          then
            let r := closeListeners (mkRun (r_proto r) false (r_done r) true (r_listener r) (listening r) (serving r)
                       (accepted r) (tcpConns r) (handlers r) (sockets r) (failure r)) in
            mkRun (r_proto r) (r_started r) (r_done r) (cancelled r) (r_listener r) (listening r) (serving r) (accepted r)
              (tcpConns r) (handlers r) (sockets r ∖ tcpConns r) (failure r)
          else r)
  end.

(** How [Shutdown] ends its wait: [done] is closed, or its context is done first. *)
Definition shutdown_wait (r : run) (ctx_err : option error) : option (option error) :=
  if bool_decide (r_done r = Some true) then Some None
  else match ctx_err with Some e => Some (Some e) | None => None end.

(** [reportListenerFailure]; [room] tells whether the channel takes a value now. *)
Definition reportListenerFailure (room : bool) (err : option error) (r : run) : run :=
  if cancelled r then r
  else
    let e := match err with Some e => e | None => New "listener stopped unexpectedly" end in
    mkRun (r_proto r) (r_started r) (r_done r) (cancelled r) (r_listener r) (listening r) (serving r) (accepted r)
      (tcpConns r) (handlers r) (sockets r) (Some (Errorf "dnscrypt-%s listener %s: %w" e, room)).

(** A connection was accepted, or a packet read. *)
Definition receive (c : nat) (r : run) : run :=
  mkRun (r_proto r) (r_started r) (r_done r) (cancelled r) (r_listener r) (listening r) (serving r) (Some c)
    (tcpConns r) (handlers r) (sockets r) (failure r).

(** [serveTCP] and [serveUDP] leave their loop: they report a failure before they wait
    for the handlers. *)
Definition stop_serving (room : bool) (err : option error) (r : run) : run :=
  let r := reportListenerFailure room err r in
  mkRun (r_proto r) (r_started r) (r_done r) (cancelled r) (r_listener r) (listening r) false None
    (tcpConns r) (handlers r) (sockets r) (failure r).

(** What [serveTCPLoop] does with the accepted connection. *)
Definition serveTCPLoop (room : bool) (c : nat) (r : run) : run :=
  if negb (r_started r) then stop_serving room None r
  else mkRun (r_proto r) (r_started r) (r_done r) (cancelled r) (r_listener r) (listening r) (serving r) None
         ({[c]} ∪ tcpConns r) ({[c]} ∪ handlers r) ({[c]} ∪ sockets r) (failure r).

(** What [serveUDPLoop] does with a packet of a length. *)
Definition serveUDPLoop (n : Z) (c : nat) (r : run) : run :=
  mkRun (r_proto r) (r_started r) (r_done r) (cancelled r) (r_listener r) (listening r) (serving r) None
    (tcpConns r) (if n <? minDNSPacketSize then handlers r else {[c]} ∪ handlers r) (sockets r) (failure r).

(** Accepting or reading failed: whether the loop stops, and its error. *)
Definition loop_error (timeout : bool) (err : error) (r : run) : option (option error) :=
  if negb (r_started r) then Some None
  else if timeout then None
  else Some (Some (Errorf (match r_proto r with CryptTCP => "reading tcp message: %w" | CryptUDP => "reading udp message: %w" end) err)).

(** The deferred end of a handler. *)
Definition handler_exit (c : nat) (r : run) : run :=
  mkRun (r_proto r) (r_started r) (r_done r) (cancelled r) (r_listener r) (listening r) (serving r) (accepted r)
    (tcpConns r ∖ {[c]}) (handlers r ∖ {[c]}) (sockets r ∖ {[c]}) (failure r).

(** [close(done)] after the wait group of the loop. *)
Definition close_done (r : run) : run :=
  mkRun (r_proto r) (r_started r) (Some true) (cancelled r) (r_listener r) (listening r) (serving r) (accepted r)
    (tcpConns r) (handlers r) (sockets r) (failure r).

(** [LCall] are calls of the owner, the others steps of the server itself. *)
Inductive label := LCall | LServer.

Inductive step : run -> label -> run -> Prop :=
  | step_start ctx listen opts r e r' : Start ctx listen opts r = (e, r') -> step r LCall r'
  | step_shutdown r r' : Shutdown r = Ok r' -> step r LCall r'
  | step_receive c r : serving r = true -> listening r = true -> accepted r = None -> c ∉ handlers r ->
      step r LServer (receive c r)
  | step_tcp room c r : r_proto r = CryptTCP -> serving r = true -> accepted r = Some c ->
      step r LServer (serveTCPLoop room c r)
  | step_udp n c r : r_proto r = CryptUDP -> serving r = true -> accepted r = Some c -> step r LServer (serveUDPLoop n c r)
  | step_error timeout e err room r : serving r = true -> accepted r = None -> loop_error timeout e r = Some err ->
      step r LServer (stop_serving room err r)
  | step_stopped room r : serving r = true -> accepted r = None -> r_started r = false ->
      step r LServer (stop_serving room None r)
  | step_handler c r : c ∈ handlers r -> step r LServer (handler_exit c r)
  | step_closed r : r_done r = Some false -> serving r = false -> handlers r = ∅ -> step r LServer (close_done r).

Inductive reachable (proto : dproto) : run -> Prop :=
  | reach_new : reachable proto (new_run proto)
  | reach_step r l r' : reachable proto r -> step r l r' -> reachable proto r'.

(** ** The invariant *)

Record run_inv (r : run) : Prop := {
  ri_conns : tcpConns r ⊆ handlers r;
  ri_sockets : sockets r ⊆ tcpConns r;
  ri_accepted : serving r = false -> accepted r = None;
  ri_stopped : r_started r = false -> sockets r = ∅ /\ listening r = false;
  ri_idle : r_done r <> Some false -> serving r = false /\ handlers r = ∅;
  ri_started : r_started r = true -> r_done r <> None /\ exists a, r_listener r = Listener a;
  ri_cancelled : cancelled r = negb (r_started r);
  ri_reported : r_started r = true -> (serving r = false <-> failure r <> None);
}.

Lemma stop_serving_inv room err r : run_inv r -> run_inv (stop_serving room err r).
Proof.
  intros [Hc Hs Ha Hst Hi Hd Hca Hr]. unfold stop_serving, reportListenerFailure. rewrite Hca.
  destruct (r_started r) eqn:Es; cbn [negb]; split; cbn; auto; try (intros Hn; split; [reflexivity|apply (Hi Hn)]); try congruence.
  intros _. split; [discriminate|reflexivity].
Qed.

Lemma Start_inv ctx listen opts r e r' : run_inv r -> Start ctx listen opts r = (e, r') -> run_inv r'.
Proof.
  intros Hinv H. pose proof Hinv as [Hc Hs Ha Hst Hi Hd Hca Hr]. unfold Start in H. destruct ctx; [injection H as <- <-; assumption|].
  destruct (r_started r) eqn:Es; [injection H as <- <-; assumption|]. destruct (Hst eq_refl) as [Hso Hli].
  destruct (match r_done r with Some closed => negb closed | None => false end) eqn:Ed;
    [injection H as <- <-; assumption|].
  assert (Hn : r_done r <> Some false) by (intros E; rewrite E in Ed; discriminate).
  destruct (Hi Hn) as [Hsv Hh]. destruct (bind_listener _ _ _) as [l [e'|]] eqn:Eb; injection H as <- <-; split; cbn; rewrite ?Es in *; auto.
  - discriminate.
  - discriminate.
  - congruence.
  - intros _. split; [discriminate|]. revert Eb. destruct (r_proto r), listen; cbn; intros Hb; inversion Hb; subst; eauto.
  - intros _. split; [discriminate|congruence].
Qed.

Lemma run_inv_step r l r' : run_inv r -> step r l r' -> run_inv r'.
Proof.
  intros Hinv H. pose proof Hinv as [Hc Hs Ha Hst Hi Hd Hca Hr].
  destruct H as [ctx listen opts r e r' H|r r' H|c r Hsv Hl Hac Hf|room c r Hp Hsv Hac|n c r Hp Hsv Hac
    |timeout e err room r Hsv Hac H|room r Hsv Hac H|c r Hin|r Hdn Hsv Hh]; eauto using stop_serving_inv, Start_inv.
  - unfold Shutdown in H. destruct (r_done r) as [d|] eqn:Ed; [|discriminate]. injection H as <-.
    destruct (r_started r) eqn:Es; [|assumption].
    split; cbn; auto; try discriminate; [set_solver|]. intros _. split; [set_solver|reflexivity].
  - split; cbn; auto. congruence.
  - unfold serveTCPLoop. destruct (r_started r) eqn:Es; cbn [negb]; [|apply stop_serving_inv; assumption].
    split; cbn; rewrite ?Es; auto; [set_solver|set_solver|congruence|].
    intros Hn. destruct (Hi Hn). congruence.
  - split; cbn; auto; [destruct (_ <? _); set_solver|]. intros Hn. destruct (Hi Hn). congruence.
  - split; cbn; auto; [set_solver|set_solver| |].
    + intros Hn. destruct (Hst Hn). split; [set_solver|assumption].
    + intros Hn. destruct (Hi Hn) as [? Hh]. split; [assumption|]. rewrite Hh. set_solver.
  - split; cbn; auto. intros Hst'. split; [discriminate|apply Hd, Hst'].
Qed.

Lemma run_reachable_inv proto r : reachable proto r -> run_inv r.
Proof.
  induction 1 as [|r l r' _ IH H]; [|eapply run_inv_step; eassumption].
  split; cbn; auto; set_solver.
Qed.

(** C25: When [Shutdown] of the DNSCrypt server returns without an error, the run
    is over.  In any interleaving of starts, shutdowns, accepted connections,
    packets, failures and handlers, if the server is stopped and the wait of
    [Shutdown] ends without an error, then no handler runs, no connection and no
    listener is open, the loop has left with nothing in its hands, and the server
    can be started again. *)
Theorem shutdown_leaves_nothing (proto : dproto) (r : run) (ctx_err : option error) :
  reachable proto r -> r_started r = false -> shutdown_wait r ctx_err = Some None ->
  handlers r = ∅ /\ tcpConns r = ∅ /\ sockets r = ∅ /\ listening r = false
  /\ serving r = false /\ accepted r = None /\ forall a, fst (Start None (Ok a) None r) = None.
Proof.
  intros Hr Hs Hw. assert (Hd : r_done r = Some true).
  { unfold shutdown_wait in Hw. case_bool_decide; [assumption|]. destruct ctx_err; discriminate. }
  destruct (run_reachable_inv proto r Hr) as [Hc _ Ha Hst Hi _ _ _].
  destruct (Hst Hs) as [-> ->]. destruct (Hi ltac:(congruence)) as [Hsv Hh].
  split; [assumption|]. split; [set_solver|]. do 3 (split; [auto|]). split; [auto|].
  intros a. unfold Start. rewrite Hs, Hd. destruct (r_proto r); reflexivity.
Qed.


(** [LocalAddr] panics after a [Start] over TCP that could not bind. *)
Lemma LocalAddr_after_failed_start e : LocalAddr (snd (Start None (Err e) None (new_run CryptTCP))) = Panic.
Proof. reflexivity. Qed.

(** ** Termination of the wait *)

(** How much a stopped server still has to do. *)
Definition remaining (r : run) : nat :=
  (if serving r then 1 else 0) + (match accepted r with Some _ => 2 | None => 0 end) + size (handlers r)
  + (if bool_decide (r_done r = Some false) then 1 else 0).

Definition stopped (r : run) : Prop := r_started r = false /\ listening r = false.

Lemma stop_serving_remaining room err r : r_started r = false -> listening r = false -> serving r = true ->
  stopped (stop_serving room err r) /\ (remaining (stop_serving room err r) < remaining r)%nat.
Proof.
  intros Hs Hl Hsv. unfold stopped, remaining, stop_serving, reportListenerFailure.
  destruct (cancelled r); cbn; rewrite Hs, Hl, Hsv; (split; [auto|lia]).
Qed.

Lemma server_step_remaining r r' :
  stopped r -> step r LServer r' -> stopped r' /\ (remaining r' < remaining r)%nat.
Proof.
  intros [Hs Hl] H. inversion H as [| |c r0 Hsv Hl' Hac Hf|room c r0 Hp Hsv Hac|n c r0 Hp Hsv Hac
    |timeout e err room r0 Hsv Hac He|room r0 Hsv Hac He|c r0 Hin|r0 Hdn Hsv Hh]; subst; unfold stopped, remaining.
  - congruence.
  - unfold serveTCPLoop. rewrite Hs. cbn [negb]. apply stop_serving_remaining; auto.
  - cbn. rewrite Hs, Hl, Hsv, Hac. split; [auto|]. destruct (n <? _); [lia|].
    pose proof (size_union_alt {[c]} (handlers r)). rewrite size_singleton in H0.
    pose proof (subseteq_size (handlers r ∖ {[c]}) (handlers r) ltac:(set_solver)). lia.
  - apply stop_serving_remaining; auto.
  - apply stop_serving_remaining; auto.
  - cbn. rewrite Hs, Hl. split; [auto|].
    pose proof (subset_size (handlers r ∖ {[c]}) (handlers r) ltac:(set_solver)). lia.
  - cbn. rewrite Hs, Hl, Hdn. split; [auto|].
    rewrite bool_decide_false, bool_decide_true by congruence. lia.
Qed.

Inductive server_steps : nat -> run -> run -> Prop :=
  | steps_none r : server_steps 0 r r
  | steps_one n r r' r'' : step r LServer r' -> server_steps n r' r'' -> server_steps (S n) r r''.

Lemma server_steps_bound n r r' : server_steps n r r' -> stopped r -> (n + remaining r' <= remaining r)%nat /\ stopped r'.
Proof.
  induction 1 as [r|n r r1 r2 H1 _ IH]; intros Hs; [split; [lia|assumption]|].
  apply server_step_remaining in H1 as [Hs1 Hlt]; [|assumption]. destruct (IH Hs1). split; [lia|assumption].
Qed.

(** C26: [Shutdown] of the DNSCrypt server does not wait forever.  After it, the
    server takes only a bounded number of steps of its own, whatever their order;
    and as long as the channel it waits for is not closed, a step is possible that
    needs nothing but the end of an admitted handler.  So if handlers end, the
    channel is closed. *)
Theorem shutdown_terminates (proto : dproto) (r r0 : run) :
  reachable proto r -> Shutdown r = Ok r0 ->
  forall n r', server_steps n r0 r' ->
  (n <= remaining r0)%nat /\ (r_done r' = Some true \/ exists r'', step r' LServer r'').
Proof.
  intros Hr Hsd n r' Hn.
  assert (Hr0 : reachable proto r0) by (eapply reach_step; [exact Hr|apply step_shutdown; exact Hsd]).
  pose proof (run_reachable_inv proto r0 Hr0) as Hinv0.
  assert (Hs0 : stopped r0 /\ r_done r0 <> None).
  { unfold Shutdown in Hsd. destruct (r_done r) as [d|] eqn:Ed; [|discriminate]. injection Hsd as <-.
    destruct (r_started r) eqn:Es; cbn; [split; [split; reflexivity|congruence]|].
    split; [|congruence]. split; [exact Es|]. apply (ri_stopped _ Hinv0). exact Es. }
  destruct Hs0 as [Hs0 Hd0]. destruct (server_steps_bound n r0 r' Hn Hs0) as [Hb Hs']. split; [lia|].
  assert (Hreach : reachable proto r' /\ r_done r' <> None).
  { clear Hb Hs' Hsd Hs0 Hinv0. revert Hr0 Hd0. induction Hn as [|n a b c Hab _ IH]; intros Hra Hda; [auto|].
    apply IH; [eapply reach_step; eassumption|]. inversion Hab; subst; cbn; auto; try congruence.
    all: unfold serveTCPLoop, stop_serving, reportListenerFailure; repeat case_match; cbn; assumption. }
  destruct Hreach as [Hreach Hd]. pose proof (run_reachable_inv proto r' Hreach) as [_ _ Ha _ _ _ _ _].
  destruct (r_done r') as [[|]|] eqn:Ed; [auto| |congruence]. right. destruct Hs' as [Hst _].
  destruct (serving r') eqn:Esv.
  - destruct (accepted r') as [c|] eqn:Eac; [|eexists; apply (step_stopped true); assumption].
    destruct (r_proto r') eqn:Ep; eexists; [apply (step_tcp true)|apply (step_udp 17)]; eassumption.
  - destruct (decide (handlers r' = ∅)) as [He|He]; [eexists; apply step_closed; assumption|].
    apply set_choose_L in He as [c Hc]. eexists. apply step_handler. exact Hc.
Qed.

(** ** Examples *)

Module RunExamples.

Definition started : run := snd (Start None (Ok 8443%nat) None (new_run CryptTCP)).
Definition busy : run := serveTCPLoop true 4 (receive 4 started).
Definition down : run := match Shutdown busy with Ok r => r | Err _ => busy end.
Definition over : run := close_done (handler_exit 4 (stop_serving true None down)).
(** Accepting fails while a connection is served. *)
Definition failed : run := stop_serving true (Some (Errorf "reading tcp message: %w" (New "too many open files"))) busy.

Lemma busy_reachable : reachable CryptTCP busy.
Proof.
  eapply reach_step; [|apply step_tcp; reflexivity].
  eapply reach_step; [|apply step_receive; [reflexivity..|vm_compute; set_solver]].
  eapply reach_step; [constructor|]. eapply (step_start None (Ok 8443%nat) None). reflexivity.
Qed.

Lemma over_reachable : reachable CryptTCP over.
Proof.
  eapply reach_step; [|apply step_closed; vm_compute; reflexivity].
  eapply reach_step; [|apply step_handler; vm_compute; set_solver].
  eapply reach_step; [|apply step_stopped; reflexivity].
  eapply reach_step; [exact busy_reachable|apply step_shutdown; reflexivity].
Qed.

Lemma failed_reachable : reachable CryptTCP failed.
Proof.
  eapply reach_step; [exact busy_reachable|].
  apply (step_error false (New "too many open files")); reflexivity.
Qed.

End RunExamples.

Lemma shutdown_leaves_nothing_witness :
  handlers RunExamples.over = ∅ /\ sockets RunExamples.over = ∅ /\ fst (Start None (Ok 53%nat) None RunExamples.over) = None.
Proof.
  destruct (shutdown_leaves_nothing CryptTCP RunExamples.over None RunExamples.over_reachable eq_refl eq_refl)
    as (Hh & _ & Hs & _ & _ & _ & Hst). auto.
Defined.

Lemma shutdown_terminates_witness :
  (0 <= remaining RunExamples.down)%nat
  /\ (r_done RunExamples.down = Some true \/ exists r'', step RunExamples.down LServer r'').
Proof.
  apply (shutdown_terminates CryptTCP RunExamples.busy RunExamples.down RunExamples.busy_reachable eq_refl 0).
  constructor.
Defined.

