(* ===== verification/Config.v ===== *)
(** * The configuration of the proxy (proxy/config.go, [New] and the validation
      of proxy/proxy.go, [initCache] of proxy/cache.go, proxy/middleware.go)

    [New] turns a configuration into the parts that the other files work on: the
    configuration of [Resolve], its initial state, the request pipeline and what
    the listeners need.  Slices that are compared with nil are options.
    Loggers, the contexts of requests and the channel of listener failures are
    left out. *)

From stdpp Require Import gmap.
From Stdlib Require Import QArith.
From S2P Require Import Prelude NetIP DnsMsg RefDns GlCache NetUtil Wire Cache CacheFacts CacheSpec Ecs.
From S2P Require Import Upstreams Dns64 Receipt Parallel Fastip Exchange Messages Stats Context Recursion.
From S2P Require Import ProxyCache ResolveCache Pending Resolve ResolveFacts ResolveSpec Server CryptCert.
#[local] Open Scope Z_scope.

Definition DefaultOptimisticMaxAge : Duration := 12 * (3600 * Second).
Definition DefaultOptimisticAnswerTTL : Duration := 30 * Second.

Definition AddrPort : Type := Addr * Z.

Record BindRetryConfig := mkBindRetry { Interval : Duration; Count : Z; Enabled : bool }.

(** The user and the password of a [url.Userinfo], if it has one. *)
Record HTTPConfig := mkHTTPConfig {
  Userinfo : option (bytes * option bytes);
  hc_ServerHeader : bytes;
  ListenAddresses : option (list AddrPort);
  Routes : list bytes;
  HTTP3Enabled : bool;
  InsecureEnabled : bool;
}.

(** What the listeners use of the proxy; [tlsConf] tells whether there is a TLS
    configuration. *)
Record listen_conf := mkListen {
  udpListenAddr : option (list AddrPort);
  tcpListenAddr : option (list AddrPort);
  tlsListenAddr : option (list AddrPort);
  quicListenAddr : option (list AddrPort);
  dnsCryptUDPListenAddr : option (list AddrPort);
  dnsCryptTCPListenAddr : option (list AddrPort);
  tlsConf : bool;
  httpConf : option HTTPConfig;
  dnsCryptResolverCert : option Certificate;
  dnsCryptProviderName : bytes;
  bindRetryCount : Z;
  bindRetryIvl : Duration;
  maxGoroutines : Z;
  udpBufferSize : Z;
}.

(** ** Listen addresses *)

Definition not_nil {A} (o : option A) : bool := match o with Some _ => true | None => false end.

Definition http_listens (l : listen_conf) : bool :=
  match httpConf l with Some hc => not_nil (ListenAddresses hc) | None => false end.

Definition hasListenAddrs (l : listen_conf) : bool :=
  not_nil (udpListenAddr l) || not_nil (tcpListenAddr l) || not_nil (tlsListenAddr l) || http_listens l
  || not_nil (quicListenAddr l) || not_nil (dnsCryptUDPListenAddr l) || not_nil (dnsCryptTCPListenAddr l).

Definition validateTLSConfig (l : listen_conf) : option error :=
  if tlsConf l then None
  else if not_nil (tlsListenAddr l) then Some (New "tls listener configuration not found")
  else if http_listens l then Some (New "https listener configuration not found")
  else if not_nil (quicListenAddr l) then Some (New "quic listener configuration not found")
  else None.

Definition validateListenAddrs (l : listen_conf) : option error :=
  if negb (hasListenAddrs l) then Some (Errorf "listen addresses: %w" (New "no value"))
  else match validateTLSConfig l with
  | Some err => Some (Errorf "invalid tls configuration: %w" err)
  | None =>
      if negb (not_nil (dnsCryptResolverCert l)) || bool_decide (dnsCryptProviderName l = []) then
        if not_nil (dnsCryptTCPListenAddr l)
        then Some (New "cannot create dnscrypt tcp listener without dnscrypt config")
        else if not_nil (dnsCryptUDPListenAddr l)
        then Some (New "cannot create dnscrypt udp listener without dnscrypt config")
        else None
      else None
  end.

(** ** New *)

Section Config.
Context {DL : DnsLib} {GC : GlCache} {NU : NetUtil} {MC : MessageConstructor}.
Context {N : Type} {Out : Outside N} {Co : Conns N}.

(** golibs: [netutil.IsLocallyServed] and [validate.NotEmptySlice], by the length
    of the slice. *)
Context (IsLocallyServed : Addr -> bool) (NotEmptySlice : nat -> option error).

(** A [Handler] gets the proxy; middleware returns a handler or nil. *)
Definition Handler : Type := Proxy -> handler (N := N).
Definition pipeline : Type := session -> handler (N := N).

Record Config := mkConfig {
  TrustedProxies : option (Addr -> bool);
  PrivateSubnets : option (Addr -> bool);
  PendingRequests : option bool;
  RequestHandler : option Handler;
  RequestMiddleware : option (pipeline -> option pipeline);
  ResponseHandler : option Handler;
  UpstreamConf : option UpstreamConfig;
  PrivateRDNSUpstreamConfig : option UpstreamConfig;
  Fallbacks : option UpstreamConfig;
  BindRetry : option BindRetryConfig;
  UpstreamMode : bytes;
  BogusNXDomain : list Prefix;
  DNS64Prefs : list Prefix;
  EDNSAddr : IP;
  CacheSizeBytes : Z;
  CacheMinTTL : Z;
  CacheMaxTTL : Z;
  CacheOptimisticAnswerTTL : Duration;
  CacheOptimisticMaxAge : Duration;
  RefuseAny : bool;
  DNSSECEnabled : bool;
  EnableEDNSClientSubnet : bool;
  CacheEnabled : bool;
  CacheOptimistic : bool;
  UseDNS64 : bool;
  UsePrivateRDNS : bool;
  PreferIPv6 : bool;
  (** The fields of the listeners, without the retries. *)
  Listen : listen_conf;
}.

Record proxy := mkNewProxy {
  p_conf : Proxy;
  p_state : proxy_state (N := N);
  requestPipeline : pipeline;
  (** Whether [p.pendingRequests] tracks requests. *)
  tracksPending : bool;
  trustedProxies : option (Addr -> bool);
  preferIPv6 : bool;
  p_listen : listen_conf;
}.

Definition pendingRequestsOrDefault (conf : option bool) : bool :=
  match conf with Some enabled => enabled | None => false end.

Definition validateBasicAuth (hc : option HTTPConfig) : option error :=
  match hc with
  | Some hc =>
      match Userinfo hc with
      | Some _ => NotEmptySlice (length (default [] (ListenAddresses hc)))
      | None => None
      end
  | None => None
  end.

(** The first error of checks made one after the other. *)
Definition first_error (checks : list (option error)) : option error := head (omap id checks).

Definition wrap_error (msg : string) (err : option error) : option error := Errorf msg <$> err.

Definition is_err (target : string) (err : option error) : bool :=
  match err with Some e => errors_Is e target | None => false end.

Definition validateConfig (c : Config) : go (option error) :=
  let general :=
    if negb (not_nil (RequestHandler c)) || not_nil (UpstreamConf c) then validate (UpstreamConf c) else None in
  match general with
  | Some err => Ret (Some (Errorf "general upstreams: %w" err))
  | None =>
      let! err := ValidatePrivateConfig ExtractReversedAddr (PrivateSubnets c) (PrivateRDNSUpstreamConfig c) in
      let private :=
        if UsePrivateRDNS c || is_err "no upstream specified" err then err else None in
      let err := validate (Fallbacks c) in
      let fallback := if is_err "no upstream specified" err then err else None in
      let mode :=
        if bool_decide (UpstreamMode c ∈ [[]; UpstreamModeFastestAddr; UpstreamModeLoadBalance; UpstreamModeParallel])
        then None else Some (New "bad enum value") in
      Ret (first_error
             [wrap_error "private rdns upstreams: %w" private;
              wrap_error "fallbacks: %w" fallback;
              wrap_error "upstream mode: %w: %q" mode;
              wrap_error "basic auth: %w" (validateBasicAuth (httpConf (Listen c)))])
  end.

(** [cmp.Or] of a value that is zero if [z]. *)
Definition cmp_Or {A} `{EqDecision A} (z v w : A) : A := if decide (v = z) then w else v.

(** The fields that [New] copies to the proxy, with the prefixes of [setupDNS64]
    and the defaults. *)
Definition proxy_of (c : Config) (dns64Prefs : list Prefix) : Proxy :=
  mkProxy (UpstreamConf c) (PrivateRDNSUpstreamConfig c) (Fallbacks c) (UsePrivateRDNS c)
    (default IsLocallyServed (PrivateSubnets c)) (cmp_Or [] (UpstreamMode c) UpstreamModeLoadBalance)
    dns64Prefs (BogusNXDomain c) (DNSSECEnabled c) (EnableEDNSClientSubnet c) (EDNSAddr c) (RefuseAny c)
    (CacheMinTTL c) (CacheMaxTTL c).

Definition initCache (c : Config) : option cache :=
  if negb (CacheEnabled c) then None
  else Some (newCache (mkCacheConfig (CacheSizeBytes c)
         (cmp_Or 0 (CacheOptimisticAnswerTTL c) DefaultOptimisticAnswerTTL)
         (cmp_Or 0 (CacheOptimisticMaxAge c) DefaultOptimisticMaxAge)
         (EnableEDNSClientSubnet c) (CacheOptimistic c))).

(** The cache of [fastip.New]; only the mode of fastest addresses uses it. *)
Definition new_state (c : Config) (n : N) : proxy_state (N := N) :=
  mkPx (initCache c) (newRecursionDetector recursionTTL cachedRecurrentReqNum) [] (glc_New (64 * 1024) true) n.

Definition with_retries (c : Config) : listen_conf :=
  let l := Listen c in
  let '(count, ivl) :=
    match BindRetry c with
    | Some br => if Enabled br then (Count br, Interval br) else (0, 0)
    | None => (0, 0)
    end in
  mkListen (udpListenAddr l) (tcpListenAddr l) (tlsListenAddr l) (quicListenAddr l) (dnsCryptUDPListenAddr l)
    (dnsCryptTCPListenAddr l) (tlsConf l) (httpConf l) (dnsCryptResolverCert l) (dnsCryptProviderName l)
    count ivl (maxGoroutines l) (udpBufferSize l).

(** [p.requestPipeline] with the result [pending] of an identical request, which
    the default handler gets; [None] is nil.  It refers to the proxy as [New]
    leaves it. *)
Definition request_pipeline (pending : option pendingResult) (c : Config) (p : Proxy) : option pipeline :=
  let requestHandler := default (fun p => DefaultHandler p pending) (RequestHandler c) in
  let process : pipeline := processDNSRequest p (requestHandler p) ((fun h => h p) <$> ResponseHandler c) in
  match RequestMiddleware c with Some mw => mw process | None => Some process end.

(** [New] *)
Definition New_proxy (pending : option pendingResult) (c : Config) (n : N) : go (result proxy) :=
  let! err := validateConfig c in
  match err with
  | Some err => Ret (Err err)
  | None =>
      let setup := setupDNS64 (UseDNS64 c) (DNS64Prefs c) in
      let p := proxy_of c (match setup with Ok prefs => prefs | Err _ => [] end) in
      match request_pipeline pending c p, setup with
      | None, _ => Ret (Err (New "request middleware returned a nil handler"))
      | Some _, Err err => Ret (Err (Errorf "setting up dns64: %w" err))
      | Some wrapped, Ok _ =>
          Ret (Ok (mkNewProxy p (new_state c n) wrapped (pendingRequestsOrDefault (PendingRequests c))
                     (TrustedProxies c) (PreferIPv6 c) (with_retries c)))
      end
  end.
End Config.

(** ** What [New] accepts *)

Section ConfigFacts.
Context {DL : DnsLib} {DLaws : DnsLaws} {GC : GlCache} {GLaws : GlCacheLaws} {NU : NetUtil} {NL : NetUtilLaws}.
Context {MC : MessageConstructor} {ML : MessageLaws}.
Context {N : Type} {Out : Outside N} {OL : OutsideLaws Out} {Co : Conns N}.
Context (IsLocallyServed : Addr -> bool) (NotEmptySlice : nat -> option error).
Hypothesis NotEmptySlice_spec : forall k, NotEmptySlice k = None <-> k <> O.
(** The errors of golibs are not those of the package upstream. *)
Hypothesis extract_errors : forall d e, ExtractReversedAddr d = Err e -> errors_Is e "no upstream specified" = false.

(** A configuration of upstreams with some upstream. *)
Definition configured (uc : UpstreamConfig) : Prop :=
  Upstreams uc <> [] \/ DomainReservedUpstreams uc <> ∅ \/ SpecifiedDomainUpstreams uc <> ∅.

Lemma validate_None uc : validate uc = None <-> exists u, uc = Some u /\ Upstreams u <> [].
Proof.
  destruct uc as [u|]; cbn; [|split; [discriminate|intros (? & [=] & _)]].
  destruct (Upstreams u) as [|x l] eqn:E.
  - repeat case_goal; (split; [discriminate|]); intros (? & [= <-] & H); congruence.
  - split; [|reflexivity]. intros _. exists u. rewrite E. split; congruence.
Qed.

Lemma validate_none_specified uc :
  is_err "no upstream specified" (validate uc) = true <-> exists u, uc = Some u /\ ~ configured u.
Proof.
  unfold configured. destruct uc as [u|]; cbn; [|split; [discriminate|intros (? & [=] & _)]].
  destruct (Upstreams u) as [|x l] eqn:E.
  - destruct (decide (DomainReservedUpstreams u = ∅ /\ SpecifiedDomainUpstreams u = ∅)) as [[H1 H2]|H].
    + rewrite !bool_decide_true by assumption. cbn. split; [|reflexivity]. intros _. exists u. rewrite E. tauto.
    + replace (_ && _) with false; [cbn|symmetry; apply not_true_iff_false; rewrite andb_true_iff, !bool_decide_eq_true; exact H].
      split; [discriminate|]. intros (? & [= <-] & Hc). rewrite E in Hc. destruct H. split; apply dec_stable; tauto.
  - split; [discriminate|]. intros (? & [= <-] & Hc). rewrite E in Hc. destruct Hc. left. discriminate.
Qed.

(** A domain that the private upstreams of the configuration may be reserved for. *)
Definition allowed_domain (c : Config (N := N)) (d : bytes) : Prop :=
  exists pref, ExtractReversedAddr d = Ok pref
    /\ (Bits pref = 0 \/ exists nets, PrivateSubnets c = Some nets /\ nets (Prefix_Addr pref) = true).

(** Reserved domains that are looked up in private subnets that are nil. *)
Definition nil_subnets (c : Config (N := N)) : Prop :=
  PrivateSubnets c = None /\ exists uc d, PrivateRDNSUpstreamConfig c = Some uc /\ Upstreams uc <> []
    /\ d ∈ dom (DomainReservedUpstreams uc) /\ subnet_domain ExtractReversedAddr d.

(** Private upstreams that may be used. *)
Definition usable_private (c : Config (N := N)) : Prop :=
  exists uc, PrivateRDNSUpstreamConfig c = Some uc /\ Upstreams uc <> []
    /\ forall d, d ∈ dom (DomainReservedUpstreams uc) -> allowed_domain c d.

Lemma private_errors_cases c ds :
  match private_errors ExtractReversedAddr (PrivateSubnets c) ds with
  | Panic => PrivateSubnets c = None /\ Exists (subnet_domain ExtractReversedAddr) ds
  | Ret es => ~ (PrivateSubnets c = None /\ Exists (subnet_domain ExtractReversedAddr) ds)
      /\ (es = [] <-> Forall (allowed_domain c) ds)
      /\ existsb (fun e => errors_Is e "no upstream specified") es = false
  end.
Proof using extract_errors.
  induction ds as [|d ds IH]; cbn.
  { split; [intros [_ H]; inversion H|]. split; [split; [constructor|reflexivity]|reflexivity]. }
  unfold private_domain_error. destruct (ExtractReversedAddr d) as [pref|e] eqn:Ed; cbn [gbind deref].
  - assert (Hx : subnet_domain ExtractReversedAddr d <-> Bits pref <> 0).
    { unfold subnet_domain. rewrite Ed. split; [intros (? & [= <-] & ?); auto|eauto]. }
    assert (Ha : allowed_domain c d <-> (Bits pref = 0 \/ exists nets, PrivateSubnets c = Some nets /\ nets (Prefix_Addr pref) = true)).
    { unfold allowed_domain. rewrite Ed. split; [intros (? & [= <-] & ?); auto|eauto]. }
    destruct (Z.eqb_spec (Bits pref) 0) as [Hz|Hz]; cbn [gbind].
    + destruct (private_errors _ _ ds) as [es|]; cbn [gbind option_list app]; rewrite Exists_cons, ?list.Forall_cons, ?Hx, ?Ha; [|tauto].
      destruct IH as (H1 & H2 & H3). rewrite H2. tauto.
    + destruct (PrivateSubnets c) as [nets|]; cbn [deref gbind]; [|rewrite Exists_cons, Hx; auto].
      destruct (private_errors _ _ ds) as [es|]; cbn [gbind]; [|destruct IH; discriminate].
      destruct IH as (H1 & H2 & H3). rewrite list.Forall_cons, Ha. split; [intros [? _]; discriminate|].
      destruct (nets (Prefix_Addr pref)) eqn:En; cbn.
      * rewrite H2. split; [|exact H3]. split; [intros H; split; [right; eauto|exact H]|tauto].
      * split; [|exact H3]. split; [discriminate|]. intros [[?|(? & [= <-] & ?)] _]; congruence.
  - assert (Hx : ~ subnet_domain ExtractReversedAddr d) by (intros (? & ? & _); congruence).
    assert (Ha : ~ allowed_domain c d) by (intros (? & ? & _); congruence).
    destruct (private_errors _ _ ds) as [es|]; cbn [gbind option_list app]; rewrite Exists_cons, ?list.Forall_cons; [|tauto].
    destruct IH as (H1 & H2 & H3). split; [tauto|]. split; [split; [discriminate|tauto]|].
    cbn. rewrite (extract_errors d e Ed). exact H3.
Qed.

Lemma ValidatePrivateConfig_cases c :
  match ValidatePrivateConfig ExtractReversedAddr (PrivateSubnets c) (PrivateRDNSUpstreamConfig c) with
  | Panic => nil_subnets c
  | Ret err => ~ nil_subnets c /\ (err = None <-> usable_private c)
      /\ (is_err "no upstream specified" err = true
          <-> exists uc, PrivateRDNSUpstreamConfig c = Some uc /\ ~ configured uc)
  end.
Proof using extract_errors.
  unfold ValidatePrivateConfig. pose proof (validate_None (PrivateRDNSUpstreamConfig c)) as Hv.
  pose proof (validate_none_specified (PrivateRDNSUpstreamConfig c)) as Hs.
  destruct (validate (PrivateRDNSUpstreamConfig c)) as [err|].
  { split; [|split; [|exact Hs]].
    - intros (_ & uc & d & Hu & Hn & _). enough (Some err = None) by discriminate. apply Hv. eauto.
    - split; [discriminate|]. intros (uc & Hu & Hn & _). apply Hv. eauto. }
  destruct (proj1 Hv eq_refl) as (uc & Hu & Hn). unfold nil_subnets, usable_private. rewrite Hu.
  pose proof (private_errors_cases c (sorted_keys (DomainReservedUpstreams uc))) as Hc.
  assert (Hex := List.Exists_exists (subnet_domain ExtractReversedAddr) (sorted_keys (DomainReservedUpstreams uc))).
  setoid_rewrite sorted_keys_In in Hex.
  destruct (private_errors _ _ _) as [es|]; cbn [gbind].
  - destruct Hc as (H1 & H2 & H3). rewrite List.Forall_forall in H2. setoid_rewrite sorted_keys_In in H2.
    split; [|split].
    + intros (Hns & ? & d & [= <-] & _ & Hd & Hx). apply H1. rewrite Hex. eauto.
    + rewrite join_errors_None, H2. split; [eauto|]. intros (? & [= <-] & _ & H). exact H.
    + rewrite Hu in Hs. rewrite <- Hs. destruct es; cbn in *; [reflexivity|]. rewrite H3. reflexivity.
  - destruct Hc as [Hns Hc]. rewrite Hex in Hc. destruct Hc as (d & Hd & Hx). split; [exact Hns|]. eauto 8.
Qed.

(** What the documentation asks of a configuration. *)
Record valid_config (pending : option pendingResult) (c : Config (N := N)) : Prop := {
  v_general : RequestHandler c = None \/ UpstreamConf c <> None ->
    exists uc, UpstreamConf c = Some uc /\ Upstreams uc <> [];
  v_private uc : PrivateRDNSUpstreamConfig c = Some uc -> configured uc;
  v_rdns : UsePrivateRDNS c = true -> usable_private c;
  v_fallbacks uc : Fallbacks c = Some uc -> configured uc;
  v_mode : UpstreamMode c ∈ [[]; UpstreamModeFastestAddr; UpstreamModeLoadBalance; UpstreamModeParallel];
  v_auth hc : httpConf (Listen c) = Some hc -> Userinfo hc <> None -> default [] (ListenAddresses hc) <> [];
  v_dns64 : UseDNS64 c = true -> Forall (fun p => Is6 (Prefix_Addr p) = true /\ Bits p <= maxNAT64PrefixBitLen) (DNS64Prefs c);
  v_middleware prefs : setupDNS64 (UseDNS64 c) (DNS64Prefs c) = Ok prefs ->
    request_pipeline pending c (proxy_of IsLocallyServed c prefs) <> None;
}.

Lemma setup_loop_Ok prefs : forall acc,
  (exists res, setup_loop acc prefs = Ok res)
  <-> Forall (fun p => Is6 (Prefix_Addr p) = true /\ Bits p <= maxNAT64PrefixBitLen) prefs.
Proof using Type.
  induction prefs as [|p ps IH]; intros acc; cbn [setup_loop]; [split; eauto; constructor|].
  rewrite list.Forall_cons. destruct (Is6 (Prefix_Addr p)); cbn [negb].
  - destruct (Z.ltb_spec maxNAT64PrefixBitLen (Bits p)).
    + split; [intros [? [=]]|]. intros [[_ ?] _]. lia.
    + rewrite IH. tauto.
  - split; [intros [? [=]]|]. intros [[[=] _] _].
Qed.

Lemma setupDNS64_Ok (c : Config (N := N)) :
  (exists prefs, setupDNS64 (UseDNS64 c) (DNS64Prefs c) = Ok prefs)
  <-> (UseDNS64 c = true -> Forall (fun p => Is6 (Prefix_Addr p) = true /\ Bits p <= maxNAT64PrefixBitLen) (DNS64Prefs c)).
Proof using Type.
  unfold setupDNS64. destruct (UseDNS64 c); cbn [negb].
  - destruct (DNS64Prefs c) as [|p ps] eqn:E; [split; eauto; constructor|].
    rewrite <- (setup_loop_Ok (p :: ps) []). split; eauto.
  - split; [discriminate|eauto].
Qed.

Lemma validateBasicAuth_None hc :
  validateBasicAuth NotEmptySlice hc = None
  <-> forall h, hc = Some h -> Userinfo h <> None -> default [] (ListenAddresses h) <> [].
Proof using NotEmptySlice_spec.
  unfold validateBasicAuth. destruct hc as [h|]; [|split; [discriminate|reflexivity]].
  destruct (Userinfo h) eqn:Eu; [|split; [intros _ ? [= <-]; congruence|reflexivity]].
  rewrite NotEmptySlice_spec. destruct (default [] (ListenAddresses h)) eqn:El; cbn.
  - split; [congruence|]. intros H. destruct (H h eq_refl); [congruence|assumption].
  - split; [|discriminate]. intros _ ? [= <-] _. congruence.
Qed.

Lemma wrap_error_None msg err : wrap_error msg err = None <-> err = None.
Proof using Type. destruct err; cbn; split; congruence. Qed.

Lemma first_error_None checks : first_error checks = None <-> Forall (fun e => e = None) checks.
Proof using Type.
  unfold first_error. induction checks as [|[e|] l IH]; cbn; [split; auto; constructor|..].
  - split; [discriminate|]. rewrite list.Forall_cons. intros [[=] _].
  - rewrite list.Forall_cons. unfold omap in IH. rewrite IH. tauto.
Qed.

Definition general_ok (c : Config (N := N)) : Prop :=
  RequestHandler c = None \/ UpstreamConf c <> None -> exists uc, UpstreamConf c = Some uc /\ Upstreams uc <> [].

Lemma general_check (c : Config (N := N)) :
  (if negb (not_nil (RequestHandler c)) || not_nil (UpstreamConf c) then validate (UpstreamConf c) else None) = None
  <-> general_ok c.
Proof using Type.
  unfold general_ok. rewrite <- validate_None.
  destruct (RequestHandler c), (UpstreamConf c) as [uc|]; cbn [not_nil negb orb]; intuition congruence.
Qed.

(** Whether the four checks after the general upstreams pass. *)
Lemma rest_check (c : Config (N := N)) err :
  first_error
    [wrap_error "private rdns upstreams: %w"
       (if UsePrivateRDNS c || is_err "no upstream specified" err then err else None);
     wrap_error "fallbacks: %w"
       (if is_err "no upstream specified" (validate (Fallbacks c)) then validate (Fallbacks c) else None);
     wrap_error "upstream mode: %w: %q"
       (if bool_decide (UpstreamMode c ∈ [[]; UpstreamModeFastestAddr; UpstreamModeLoadBalance; UpstreamModeParallel])
        then None else Some (New "bad enum value"));
     wrap_error "basic auth: %w" (validateBasicAuth NotEmptySlice (httpConf (Listen c)))] = None
  <-> (UsePrivateRDNS c = true -> err = None) /\ is_err "no upstream specified" err = false
    /\ is_err "no upstream specified" (validate (Fallbacks c)) = false
    /\ UpstreamMode c ∈ [[]; UpstreamModeFastestAddr; UpstreamModeLoadBalance; UpstreamModeParallel]
    /\ validateBasicAuth NotEmptySlice (httpConf (Listen c)) = None.
Proof using Type.
  rewrite first_error_None, !list.Forall_cons, !wrap_error_None.
  assert (He : (if UsePrivateRDNS c || is_err "no upstream specified" err then err else None) = None
    <-> (UsePrivateRDNS c = true -> err = None) /\ is_err "no upstream specified" err = false).
  { destruct (UsePrivateRDNS c), err as [e|]; cbn; [|tauto| |tauto].
    - split; [discriminate|]. intros [H _]. discriminate (H eq_refl).
    - destruct (errors_Is e _); intuition discriminate. }
  assert (Hf : (if is_err "no upstream specified" (validate (Fallbacks c)) then validate (Fallbacks c) else None) = None
    <-> is_err "no upstream specified" (validate (Fallbacks c)) = false).
  { destruct (validate (Fallbacks c)) as [e|]; cbn; [|tauto]. destruct (errors_Is e _); split; congruence. }
  assert (Hm : forall b : bool, (if b then None else Some (New "bad enum value")) = None <-> b = true) by (intros []; split; congruence).
  rewrite He, Hf, Hm, bool_decide_eq_true. intuition.
Qed.

Lemma validateConfig_cases c :
  match validateConfig NotEmptySlice c with
  | Panic => general_ok c /\ nil_subnets c
  | Ret err => ~ (general_ok c /\ nil_subnets c)
      /\ (err = None <-> general_ok c
            /\ (forall uc, PrivateRDNSUpstreamConfig c = Some uc -> configured uc)
            /\ (UsePrivateRDNS c = true -> usable_private c)
            /\ (forall uc, Fallbacks c = Some uc -> configured uc)
            /\ UpstreamMode c ∈ [[]; UpstreamModeFastestAddr; UpstreamModeLoadBalance; UpstreamModeParallel]
            /\ (forall hc, httpConf (Listen c) = Some hc -> Userinfo hc <> None -> default [] (ListenAddresses hc) <> []))
  end.
Proof using extract_errors NotEmptySlice_spec.
  unfold validateConfig. pose proof (general_check c) as Hg.
  destruct (if negb _ || _ then _ else _) as [e|].
  { assert (~ general_ok c) by (intros H; apply Hg in H; discriminate). split; [tauto|]. split; [discriminate|tauto]. }
  assert (Hg' : general_ok c) by (apply Hg; reflexivity).
  assert (Hnot : forall uc : option UpstreamConfig, (forall u, uc = Some u -> configured u) <->
    ~ exists u, uc = Some u /\ ~ configured u).
  { intros uc. unfold configured. split; [intros H (u & Hu & Hn); apply Hn, H, Hu|].
    intros H u Hu. destruct (decide (Upstreams u <> [])); [auto|].
    destruct (decide (DomainReservedUpstreams u <> ∅)); [auto|].
    destruct (decide (SpecifiedDomainUpstreams u <> ∅)); [auto|]. destruct H. exists u. tauto. }
  pose proof (ValidatePrivateConfig_cases c) as Hp. destruct (ValidatePrivateConfig _ _ _) as [err|]; cbn [gbind]; [|auto].
  destruct Hp as (H1 & H2 & H3). split; [tauto|].
  rewrite rest_check, !Hnot, <- H3, <- validate_none_specified, <- H2, <- validateBasicAuth_None, !not_true_iff_false.
  tauto.
Qed.


(** Values of the types of the fields, and upstreams as they are parsed. *)
Record typed_config (c : Config (N := N)) : Prop := {
  t_upstreams uc : UpstreamConf c = Some uc -> parsed_config uc;
  t_private uc : PrivateRDNSUpstreamConfig c = Some uc -> parsed_config uc;
  t_fallbacks uc : Fallbacks c = Some uc -> parsed_config uc;
  t_prefs : Forall (fun p => wf_addr (Prefix_Addr p) /\ 0 <= Bits p) (DNS64Prefs c);
  t_min : 0 <= CacheMinTTL c <= MaxUint32;
  t_max : 0 <= CacheMaxTTL c <= MaxUint32;
  t_ednsAddr : wf_bytes (slice (EDNSAddr c));
}.

(** What [New] returns is what resolving assumes of the proxy and its state. *)
Lemma New_fine pending c n p :
  typed_config c -> RequestHandler c = None \/ UpstreamConf c <> None ->
  New_proxy IsLocallyServed NotEmptySlice pending c n = Ret (Ok p) ->
  proxy_ok (p_conf p) /\ proxy_fine (p_conf p) (p_state p).
Proof using extract_errors NotEmptySlice_spec.
  intros Ht Hh. unfold New_proxy. pose proof (validateConfig_cases c) as Hc.
  destruct (validateConfig _ c) as [[err|]|]; cbn [gbind]; [discriminate| |discriminate].
  destruct Hc as [_ He]. destruct (proj1 He eq_refl) as (Hg & _). destruct (Hg Hh) as (uc & Hu & _).
  destruct (setupDNS64 _ _) as [prefs|e] eqn:Es; [|destruct (request_pipeline _ _ _); discriminate].
  destruct (request_pipeline _ _ _); [|discriminate]. intros [= <-]. cbn [p_conf p_state]. split; [split; cbn|split; [split|]]; cbn.
  - exists uc. split; [exact Hu|]. apply parsed_total, (t_upstreams c Ht), Hu.
  - intros u Hp. apply parsed_total, (t_private c Ht), Hp.
  - intros u Hp. apply parsed_total, (t_fallbacks c Ht), Hp.
  - unfold setupDNS64 in Es. destruct (UseDNS64 c); cbn [negb] in Es; [|left; congruence]. right.
    destruct (DNS64Prefs c) as [|q qs] eqn:Eq; [injection Es as <-; apply well_known_wf|].
    apply (setup_loop_wf [] (q :: qs)); [rewrite <- Eq; apply (t_prefs c Ht)|constructor|exact Es].
  - apply (t_min c Ht).
  - apply (t_max c Ht).
  - apply (t_ednsAddr c Ht).
  - constructor.
  - apply rec_ok_new.
  - unfold initCache. intros ca. destruct (CacheEnabled c); [|discriminate]. intros [= <-]. apply cache_fine_new. auto.
Qed.

Lemma New_listens pending c n p : New_proxy IsLocallyServed NotEmptySlice pending c n = Ret (Ok p) -> p_listen p = with_retries c.
Proof using Type.
  unfold New_proxy. destruct (validateConfig _ c) as [[|]|]; cbn [gbind]; try discriminate.
  destruct (setupDNS64 _ _), (request_pipeline _ _ _); try discriminate. intros [= <-]. reflexivity.
Qed.

(** Datagrams that a listener hands to [udpHandlePacket] one after the other. *)
Fixpoint serve_packets (pl : pipeline (N := N)) (packets : list (bytes * Addr * Addr)) (id : Z)
    (s : proxy_state (N := N)) : go (proxy_state (N := N)) :=
  match packets with
  | [] => Ret s
  | (packet, laddr, raddr) :: packets =>
      let! s := udpHandlePacket pl packet laddr raddr id s in serve_packets pl packets (id + 1) s
  end.

(** A safe handler keeps serving, if sending keeps what it relies on. *)
Lemma serve_safe (I : N -> Prop) p h packets : SafeHandler I p h ->
  (forall b raddr laddr n, I n -> I (snd (UDPWrite b raddr laddr n))) ->
  Forall (fun x => fields_ok (fst (Unpack (fst (fst x)))) /\ wf_addr (snd x)) packets ->
  forall id s, proxy_fine p s -> I (px_net s) ->
  exists s', serve_packets (processDNSRequest p h None) packets id s = Ret s' /\ proxy_fine p s' /\ I (px_net s').
Proof using DLaws GLaws ML NL OL.
  intros Hh Hw Hp. induction Hp as [|[[packet laddr] raddr] packets [Hf Ha] _ IH]; intros id s Hs Hi; cbn [serve_packets]; [eauto|].
  cbn [fst snd] in Hf, Ha. destruct (Unpack packet) as [req uerr] eqn:Eu. cbn [fst] in Hf.
  destruct (udp_total I p h packet laddr raddr id s req uerr Hh Eu Hf Ha Hs Hi) as (s' & -> & Hs' & Hn & _). cbn [gbind].
  apply IH; [exact Hs'|]. destruct Hn as [Hn|(n & b & Hn & ->)]; [exact Hn|apply Hw, Hn].
Qed.

(** A proxy that [New] returns keeps serving.  With the default handlers, for
    any typed configuration that [New] accepts, the proxy answers or drops every
    sequence of datagrams whatever, without a panic and with its caches, its
    statistics and its detector of recursion well formed all along. *)
Theorem new_proxy_serves (c : Config (N := N)) (n : N) (p : proxy (N := N)) (packets : list (bytes * Addr * Addr)) (id : Z)
    (Ht : typed_config c) (Hh : RequestHandler c = None) (Hr : ResponseHandler c = None) (Hm : RequestMiddleware c = None)
    (Hn : New_proxy IsLocallyServed NotEmptySlice None c n = Ret (Ok p))
    (Hp : Forall (fun x => fields_ok (fst (Unpack (fst (fst x)))) /\ wf_addr (snd x)) packets) :
  exists s', serve_packets (requestPipeline p) packets id (p_state p) = Ret s' /\ proxy_fine (p_conf p) s'.
Proof using extract_errors NotEmptySlice_spec DLaws GLaws ML NL OL.
  destruct (New_fine None c n p Ht (or_introl Hh) Hn) as [Hok Hfine].
  assert (Hpl : requestPipeline p = processDNSRequest (p_conf p) (DefaultHandler (p_conf p) None) None).
  { revert Hn. unfold New_proxy, request_pipeline. destruct (validateConfig _ c) as [[|]|]; cbn [gbind]; try discriminate.
    rewrite Hh, Hr, Hm. destruct (setupDNS64 _ _); [|discriminate]. intros [= <-]. reflexivity. }
  rewrite Hpl. destruct (serve_safe (fun _ => True) (p_conf p) (DefaultHandler (p_conf p) None) packets) with (id := id) (s := p_state p)
    as (s' & Hx & Hs' & _); eauto. apply DefaultHandler_safe; auto.
Qed.
End ConfigFacts.

Module ConfigExamples.
Import ResolveExamples.

Definition served (a : Addr) : bool := false.
Definition not_empty (k : nat) : option error := match k with O => Some (New "empty value") | S _ => None end.

Definition listen : listen_conf :=
  mkListen (Some [(Addr4 [127; 0; 0; 1], 53)]) None None None None None false None None [] 0 0 0 0.

(** General upstreams, private ones and fallbacks, a cache and DNS64. *)
Definition config (fallbacks : option UpstreamConfig) : Config (N := list nat) :=
  mkConfig None None None None None None (Some (conf [u1])) (Some (conf [u2])) fallbacks
    (Some (mkBindRetry Second 3 true)) [] [] [] None 0 0 0 0 0 true true true true false true true false listen.

Lemma not_empty_spec k : not_empty k = None <-> k <> O.
Proof. destruct k; cbn; split; congruence. Qed.

Lemma extract_err d e : ExtractReversedAddr d = Err e -> errors_Is e "no upstream specified" = false.
Proof. intros [= <-]. reflexivity. Qed.

Lemma conf_parsed l : parsed_config (conf l).
Proof.
  exists ∅. split; [reflexivity|]. split; [reflexivity|]. intros x. rewrite dom_empty, elem_of_empty. tauto.
Qed.

Lemma config_typed : typed_config (config (Some (conf [u1]))).
Proof.
  split; try (intros uc [= <-]; apply conf_parsed); cbn; try (unfold MaxUint32; lia); constructor.
Qed.

(** An empty set of fallbacks is refused. *)
Example empty_fallbacks :
  New_proxy served not_empty None (config (Some (conf []))) []
  = Ret (Err (Errorf "fallbacks: %w" ErrNoUpstreams)).
Proof. vm_compute. reflexivity. Qed.
End ConfigExamples.



Lemma new_proxy_serves_witness :
  exists p s', New_proxy ConfigExamples.served ConfigExamples.not_empty None
      (ConfigExamples.config (Some (ResolveExamples.conf [ResolveExamples.u1]))) [] = Ret (Ok p)
    /\ serve_packets (requestPipeline p)
         [(ServerExamples.packet, AddrZero, ResolveExamples.client); (ServerExamples.packet, AddrZero, ResolveExamples.client)]
         1 (p_state p) = Ret s'.
Proof.
  eexists. destruct (new_proxy_serves ConfigExamples.served ConfigExamples.not_empty ConfigExamples.not_empty_spec
    ConfigExamples.extract_err (ConfigExamples.config (Some (ResolveExamples.conf [ResolveExamples.u1]))) [] _
    [(ServerExamples.packet, AddrZero, ResolveExamples.client); (ServerExamples.packet, AddrZero, ResolveExamples.client)]
    1 ConfigExamples.config_typed eq_refl eq_refl eq_refl eq_refl) as (s' & Hs & _).
  - repeat constructor; cbn [fst snd]; try (rewrite ServerExamples.packet_unpacks; apply ServerExamples.a_req_fields);
      try reflexivity; vm_compute; discriminate.
  - exists s'. split; [reflexivity|exact Hs].
Defined.
