(* ===== verification/DoH.v ===== *)
(** * The DNS-over-HTTPS server (proxy/serverhttps.go)

    From an HTTP request to the request of the pipeline: the method and the data,
    basic authentication, and the address of the client behind trusted proxies.
    The request is as net/http parses it; header names are canonical. *)

From stdpp Require Import gmap.
From Stdlib Require Import QArith.
From S2P Require Import Prelude NetIP DnsMsg RefDns GlCache NetUtil GoStrings NetParse Wire Cache CacheFacts CacheSpec.
From S2P Require Import Upstreams Receipt Parallel Fastip Exchange Messages Stats Context Recursion.
From S2P Require Import ProxyCache ResolveCache Pending Resolve ResolveFacts ResolveSpec Server CryptCert Config.
#[local] Open Scope Z_scope.

Record HTTPRequest := mkRequest {
  Method : bytes;
  RawQuery : bytes;
  Headers : list (bytes * bytes);
  (** What reading the body gives: all of it or an error. *)
  Body : result bytes;
  TLS : bool;
  RemoteAddr : bytes;
  rq_ProtoMajor : Z;
}.

(** [r.Header.Get] *)
Definition Header_Get (r : HTTPRequest) (name : bytes) : bytes :=
  match List.find (fun kv => bool_decide (fst kv = name)) (Headers r) with Some (_, v) => v | None => [] end.

(** [r.BasicAuth()]: empty strings if the header is missing or malformed. *)
Definition BasicAuth (r : HTTPRequest) : bytes * bytes :=
  let auth := Header_Get r (str "Authorization") in
  if negb (EqualFold (take 6 auth) (str "Basic ")) then ([], [])
  else match Std_DecodeString (drop 6 auth) with
  | Err _ => ([], [])
  | Ok c => let '(user, pass, ok) := Cut c [58] in if ok then (user, pass) else ([], [])
  end.

Definition StatusOK : Z := 200.
Definition StatusBadRequest : Z := 400.
Definition StatusUnauthorized : Z := 401.
Definition StatusNotFound : Z := 404.
Definition StatusMethodNotAllowed : Z := 405.
Definition StatusUnsupportedMediaType : Z := 415.

(** golibs: [io.ReadAll(ioutil.LimitReader(body, n))]. *)
Class IoUtil := ReadAll_limited : bytes -> Z -> result bytes.
Class IoUtilLaws `{IoUtil} := {
  limited_short b n : len b < n -> ReadAll_limited b n = Ok b;
  limited_data b n b' : ReadAll_limited b n = Ok b' -> b' = b;
  limited_long b n : n < len b -> exists e, ReadAll_limited b n = Err e;
}.

Section DoH.
Context {DL : DnsLib} {GC : GlCache} {NU : NetUtil} {MC : MessageConstructor} {IO : IoUtil}.
Context {N : Type} {Out : Outside N} {Co : Conns N}.

Definition newDoHReq (r : HTTPRequest) : option Msg * Z :=
  let unpack buf := match Unpack buf with (req, None) => (Some req, StatusOK) | (_, Some _) => (None, StatusBadRequest) end in
  if bool_decide (Method r = str "GET") then
    match RawURL_DecodeString (query_Get (RawQuery r) (str "dns")) with
    | Ok (b :: buf) => unpack (b :: buf)
    | _ => (None, StatusBadRequest)
    end
  else if bool_decide (Method r = str "POST") then
    if negb (bool_decide (Header_Get r (str "Content-Type") = str "application/dns-message"))
    then (None, StatusUnsupportedMediaType)
    else match (let? body := Body r in ReadAll_limited body MaxMsgSize) with
    | Err _ => (None, StatusBadRequest)
    | Ok buf => unpack buf
    end
  else (None, StatusMethodNotAllowed).

Definition matchesUserinfo (userinfo : bytes * option bytes) (user pass : bytes) : bool :=
  bool_decide (user = fst userinfo) && bool_decide (pass = default [] (snd userinfo)).

Definition checkBasicAuth (hc : HTTPConfig) (r : HTTPRequest) : bool :=
  match Userinfo hc with
  | None => true
  | Some ui => let '(user, pass) := BasicAuth r in matchesUserinfo ui user pass
  end.

(** The headers of one address, in their order. *)
Fixpoint first_addr (r : HTTPRequest) (names : list bytes) : option Addr :=
  match names with
  | [] => None
  | h :: names =>
      match ParseAddr (TrimSpace (Header_Get r h)) with
      | Ok realIP => Some realIP
      | Err _ => first_addr r names
      end
  end.

Definition realIPFromHdrs (r : HTTPRequest) : result Addr :=
  match first_addr r [str "Cf-Connecting-Ip"; str "True-Client-Ip"; str "X-Real-Ip"] with
  | Some realIP => Ok realIP
  | None =>
      let xff := Header_Get r (str "X-Forwarded-For") in
      let xff := match IndexByte xff 44 with Some (S i) => take (S i) xff | _ => xff end in
      ParseAddr (TrimSpace xff)
  end.

(** The address of the client and that of the last proxy, if any. *)
Definition remoteAddr (r : HTTPRequest) : result (AddrPort * AddrPort) :=
  let? host := ParseAddrPort (RemoteAddr r) in
  match realIPFromHdrs r with
  | Err _ => Ok (host, (AddrZero, 0))
  | Ok realIP => Ok ((realIP, 0), host)
  end.

(** [conf] and [trusted] are [p.httpConf] and [p.trustedProxies], nil if [None]; the
    challenge of a refused authentication is part of the status. *)
Definition ServeHTTP (conf : option HTTPConfig) (trusted : option (Addr -> bool)) (pl : pipeline (N := N))
    (r : HTTPRequest) (id : Z) (s : proxy_state) : go proxy_state :=
  let refuse status := Ret (set_net (http_Error status (px_net s)) s) in
  let! hc := deref conf in
  if negb (InsecureEnabled hc) && negb (TLS r) then refuse StatusNotFound
  else
    let '(raddr, prx) := match remoteAddr r with Ok x => x | Err _ => ((AddrZero, 0), (AddrZero, 0)) end in
    if negb (checkBasicAuth hc r) then refuse StatusUnauthorized
    else match newDoHReq r with
    | (None, status) => refuse status
    | (Some req, _) =>
        let! raddr :=
          if IsValid (fst prx) then
            let! contains := deref trusted in
            Ret (if negb (contains (fst prx)) then prx else raddr)
          else Ret raddr in
        let d := newDNSContext ProtoHTTPS (Some req) (fst raddr) id in
        let! (_, _, s) := handleDNSRequest pl (mkSession AddrZero 0 (rq_ProtoMajor r) (hc_ServerHeader hc)) d s in
        Ret s
    end.
End DoH.

(** ** Facts *)

Section DoHFacts.
Context {DL : DnsLib} {DLaws : DnsLaws} {GC : GlCache} {GLaws : GlCacheLaws} {NU : NetUtil} {NL : NetUtilLaws}.
Context {MC : MessageConstructor} {ML : MessageLaws} {IO : IoUtil} {IOL : IoUtilLaws}.
Context {N : Type} {Out : Outside N} {OL : OutsideLaws Out} {Co : Conns N}.

(** The data of a request: the parameter of a GET or the body of a POST. *)
Inductive doh_data (r : HTTPRequest) : bytes -> Prop :=
  | data_get b : Method r = str "GET" -> RawURL_DecodeString (query_Get (RawQuery r) (str "dns")) = Ok b -> b <> [] ->
      doh_data r b
  | data_post b : Method r = str "POST" -> Header_Get r (str "Content-Type") = str "application/dns-message" ->
      Body r = Ok b -> len b <= MaxMsgSize -> doh_data r b.

(** The address that a request counts as coming from: that of the connection, or
    the one in the headers if the connection is a trusted proxy's. *)
Inductive client_of (trusted : Addr -> bool) (r : HTTPRequest) : Addr -> Prop :=
  | client_direct host port : ParseAddrPort (RemoteAddr r) = Ok (host, port) -> client_of trusted r host
  | client_proxied host port a : ParseAddrPort (RemoteAddr r) = Ok (host, port) -> trusted host = true ->
      realIPFromHdrs r = Ok a -> client_of trusted r a
  | client_unknown e : ParseAddrPort (RemoteAddr r) = Err e -> client_of trusted r AddrZero.

Lemma first_addr_wf r names a : first_addr r names = Some a -> wf_addr a /\ IsValid a = true.
Proof.
  induction names as [|h names IH]; cbn; [discriminate|]. destruct (ParseAddr _) as [x|] eqn:E; [|exact IH].
  intros [= <-]. eapply ParseAddr_wf, E.
Qed.

Lemma realIPFromHdrs_wf r a : realIPFromHdrs r = Ok a -> wf_addr a /\ IsValid a = true.
Proof.
  unfold realIPFromHdrs. destruct (first_addr _ _) as [x|] eqn:E; [intros [= <-]; eapply first_addr_wf, E|].
  apply ParseAddr_wf.
Qed.

Lemma client_of_wf trusted r a : client_of trusted r a -> wf_addr a.
Proof.
  intros [host port H|host port x _ _ H|e H]; [eapply ParseAddrPort_wf, H|eapply realIPFromHdrs_wf, H|exact I].
Qed.

Lemma newDoHReq_data r :
  match newDoHReq r with
  | (Some req, _) => exists b, doh_data r b /\ Unpack b = (req, None)
  | (None, status) => status ∈ [StatusBadRequest; StatusUnsupportedMediaType; StatusMethodNotAllowed]
  end.
Proof using IOL.
  assert (Hu : forall b, doh_data r b ->
    match (match Unpack b with (req, None) => (Some req, StatusOK) | (_, Some _) => (None, StatusBadRequest) end) with
    | (Some req, _) => exists b, doh_data r b /\ Unpack b = (req, None)
    | (None, status) => status ∈ [StatusBadRequest; StatusUnsupportedMediaType; StatusMethodNotAllowed]
    end).
  { intros b Hb. destruct (Unpack b) as [req [e|]] eqn:E; [constructor|eauto]. }
  unfold newDoHReq. case_bool_decide as Hg.
  - destruct (RawURL_DecodeString _) as [[|c buf]|e] eqn:E; [constructor| |constructor].
    apply Hu. apply data_get; auto; discriminate.
  - case_bool_decide as Hp; [|repeat constructor]. case_bool_decide as Hc; cbn [negb]; [|repeat constructor].
    destruct (Body r) as [body|] eqn:Eb; cbn [rbind]; [|constructor].
    destruct (ReadAll_limited _ _) as [buf|e] eqn:E; [|constructor].
    pose proof (limited_data _ _ _ E) as ->. apply Hu. apply data_post; auto.
    destruct (Z.le_gt_cases (len body) MaxMsgSize) as [?|H]; [assumption|].
    destruct (limited_long body MaxMsgSize) as [? ?]; [lia|congruence].
Qed.

(** The credentials of a request are those of the configuration. *)
Definition authorized (hc : HTTPConfig) (r : HTTPRequest) : Prop :=
  forall user pass, Userinfo hc = Some (user, pass) -> BasicAuth r = (user, default [] pass).

Lemma checkBasicAuth_spec hc r : checkBasicAuth hc r = true <-> authorized hc r.
Proof.
  unfold checkBasicAuth, authorized, matchesUserinfo. destruct (Userinfo hc) as [[u p]|].
  - destruct (BasicAuth r) as [user pass]. cbn [fst snd]. rewrite andb_true_iff, !bool_decide_eq_true. split.
    + intros [-> ->] user' pass' [= <- <-]. reflexivity.
    + intros H. specialize (H _ _ eq_refl). injection H as -> ->. auto.
  - split; [discriminate|auto].
Qed.

(** The address of [ServeHTTP] for the context of the request. *)
Lemma client_choice trusted r raddr prx :
  (raddr, prx) = match remoteAddr r with Ok x => x | Err _ => ((AddrZero, 0), (AddrZero, 0)) end ->
  exists a, (if IsValid (fst prx) then let! contains := deref (Some trusted) in
               Ret (if negb (contains (fst prx)) then prx else raddr) else Ret raddr) = Ret a
    /\ client_of trusted r (fst a).
Proof.
  unfold remoteAddr. destruct (ParseAddrPort (RemoteAddr r)) as [[host port]|e] eqn:E; cbn [rbind].
  - destruct (realIPFromHdrs r) as [a|e] eqn:Er; intros [= -> ->]; cbn [fst IsValid deref gbind].
    + destruct (ParseAddrPort_wf _ _ _ E) as [_ ->]. eexists. split; [reflexivity|].
      destruct (trusted host) eqn:Et; cbn [negb fst]; [eapply client_proxied|eapply client_direct]; eauto.
    + eexists. split; [reflexivity|]. eapply client_direct, E.
  - intros [= -> ->]. eexists. split; [reflexivity|]. eapply client_unknown, E.
Qed.

(** The requests for the pipeline, with their message and client. *)
Inductive admitted (hc : HTTPConfig) (trusted : Addr -> bool) (r : HTTPRequest) : Msg -> Addr -> Prop :=
  | admitted_intro b req a :
      InsecureEnabled hc = true \/ TLS r = true -> authorized hc r ->
      doh_data r b -> Unpack b = (req, None) -> client_of trusted r a -> admitted hc trusted r req a.

Definition refusals : list Z :=
  [StatusBadRequest; StatusUnsupportedMediaType; StatusMethodNotAllowed; StatusUnauthorized; StatusNotFound].

Lemma ServeHTTP_cases hc trusted r id s :
  (exists status, status ∈ refusals
     /\ forall pl, ServeHTTP (Some hc) (Some trusted) pl r id s = Ret (set_net (http_Error status (px_net s)) s))
  \/ (exists req a, admitted hc trusted r req a
       /\ forall pl, ServeHTTP (Some hc) (Some trusted) pl r id s
            = (let! (_, _, s') := handleDNSRequest pl (mkSession AddrZero 0 (rq_ProtoMajor r) (hc_ServerHeader hc))
                                    (newDNSContext ProtoHTTPS (Some req) a id) s in Ret s')).
Proof using IOL.
  unfold ServeHTTP. cbn [deref gbind]. destruct (negb (InsecureEnabled hc) && negb (TLS r)) eqn:Etls.
  { left. exists StatusNotFound. split; [repeat constructor|reflexivity]. }
  destruct (match remoteAddr r with Ok x => x | Err _ => _ end) as [raddr prx] eqn:Er. symmetry in Er.
  destruct (checkBasicAuth hc r) eqn:Ea; cbn [negb].
  2: { left. exists StatusUnauthorized. split; [repeat constructor|reflexivity]. }
  pose proof (newDoHReq_data r) as Hd. destruct (newDoHReq r) as [[req|] status].
  - right. destruct Hd as (b & Hb & Hu). destruct (client_choice trusted r raddr prx Er) as (a & Hx & Ha).
    exists req, (fst a). apply checkBasicAuth_spec in Ea. apply andb_false_iff in Etls. rewrite !negb_false_iff in Etls.
    split; [econstructor; eassumption|]. intros pl. cbn [deref gbind] in Hx. rewrite Hx. reflexivity.
  - left. exists status. split; [|reflexivity]. apply (elem_of_app [_; _; _] [_; _]). left. exact Hd.
Qed.


(** A message that a DNS-over-HTTPS client sends as RFC 8484 says arrives
    unchanged, both as the dns parameter of a GET, in base64url, and as the body
    of a POST, whatever the other headers. *)
Theorem doh_request_roundtrip (m : Msg) (b : bytes) (r : HTTPRequest) (Hp : Pack m = Ok b) (Hl : len b < MaxMsgSize)
    (Hr : (Method r = str "GET" /\ RawQuery r = str "dns=" ++ RawURL_EncodeToString b)
          \/ (Method r = str "POST" /\ Body r = Ok b /\ Header_Get r (str "Content-Type") = str "application/dns-message")) :
  exists m', newDoHReq r = (Some m', StatusOK) /\ msg_eqv m m'.
Proof using IOL DLaws.
  destruct (unpack_pack m b Hp) as (m' & Hu & Hm). destruct (pack_wf m b Hp) as [Hwf Hlen]. exists m'. split; [|exact Hm].
  unfold newDoHReq. destruct Hr as [[-> ->]|(-> & -> & ->)].
  - rewrite bool_decide_true by reflexivity. rewrite query_Get_only by apply RawURL_url_chars, Hwf.
    rewrite RawURL_roundtrip by exact Hwf. destruct b as [|c b]; [cbn in Hlen; lia|]. rewrite Hu. reflexivity.
  - rewrite (bool_decide_false (str "POST" = _)) by discriminate. rewrite !bool_decide_true by reflexivity.
    cbn [negb rbind]. rewrite limited_short by exact Hl. rewrite Hu. reflexivity.
Qed.
End DoHFacts.

Module DoHExamples.
Import ResolveExamples ServerExamples.

#[global] Instance limit : IoUtil := fun b n => if len b <? n then Ok b else Err (New "limit exceeded").
#[global] Instance limit_laws : IoUtilLaws.
Proof.
  split; unfold ReadAll_limited, limit.
  - intros b n H. apply Z.ltb_lt in H as ->. reflexivity.
  - intros b n b'. destruct (len b <? n); [|discriminate]. intros [= <-]. reflexivity.
  - intros b n H. assert (len b <? n = false) as -> by (apply Z.ltb_ge; lia). eauto.
Qed.

Definition http_conf : HTTPConfig := mkHTTPConfig (Some (str "user", Some (str "pass"))) [] None [] false false.
Definition trusted (a : Addr) : bool := bool_decide (a = Addr4 [10; 0; 0; 1]).

(** A GET of a client with the right credentials, through a proxy at an address. *)
Definition get (proxy_addr : bytes) : HTTPRequest :=
  mkRequest (str "GET") (str "dns=" ++ RawURL_EncodeToString packet)
    [(str "X-Real-Ip", str "192.0.2.7"); (str "Authorization", str "Basic dXNlcjpwYXNz")]
    (Ok []) true proxy_addr 2.

(** The pipeline only records the last byte of the client's address. *)
Definition record (ss : session) (d : DNSContext) (s : proxy_state (N := list nat)) : go (option error * DNSContext * proxy_state) :=
  Ret (None, d, set_net (match ClientAddr d with Addr4 b => map Z.to_nat (drop 3 b) | _ => [] end) s).
Definition seen (trusted : option (Addr -> bool)) (r : HTTPRequest) : go (list nat) :=
  let! s' := ServeHTTP (Some http_conf) trusted record r 1 s in Ret (px_net s').

(** A trusted proxy is believed, another one is not; with no set of trusted proxies
    the server panics. *)
Example forwarded :
  seen (Some trusted) (get (str "10.0.0.1:443")) = Ret [7%nat]
  /\ seen (Some trusted) (get (str "10.0.0.2:443")) = Ret [2%nat]
  /\ seen None (get (str "10.0.0.2:443")) = Panic.
Proof. vm_compute. auto. Qed.
End DoHExamples.

Lemma doh_request_roundtrip_witness :
  exists m', newDoHReq (DoHExamples.get (str "10.0.0.1:443")) = (Some m', StatusOK) /\ msg_eqv ServerExamples.a_req m'.
Proof.
  apply (doh_request_roundtrip ServerExamples.a_req ServerExamples.packet).
  - vm_compute. reflexivity.
  - vm_compute. reflexivity.
  - left. split; reflexivity.
Defined.

