(* ===== verification/DoHClient.v ===== *)
(** * The DNS-over-HTTPS upstream (upstream/doh.go)

    The shared HTTP client and its replacement, the choice of the version of HTTP,
    the query and the checks of the response.  What the outside does is the
    environment's, for each moment; a client is named by the moment it was
    made. *)

From stdpp Require Import gmap.
From S2P Require Import Prelude DnsMsg RefDns NetIP GoStrings NetParse Wire Receipt Response Plain.
From S2P Require Import DoH.
#[local] Open Scope Z_scope.

Inductive transport := H3 | HTTP (http1 http2 : bool).
Record client := mkClient { cl_id : nat; cl_transport : transport }.

#[export] Instance transport_eq_dec : EqDecision transport.
Proof. solve_decision. Defined.
#[export] Instance client_eq_dec : EqDecision client.
Proof. solve_decision. Defined.

Definition HTTPVersion11 : bytes := str "http/1.1".
Definition HTTPVersion2 : bytes := str "h2".
Definition HTTPVersion3 : bytes := str "h3".

(** A response; [r_body_err] is the error that reading the body ends with, none at
    its end.  [ContentLength] is negative if it is unknown. *)
Record http_response := mkHTTPResponse {
  StatusCode : Z;
  ContentType : bytes;
  ContentLength : Z;
  r_body : bytes;
  r_body_err : option error;
  r_observed : Time;
  r_rejected : Time;
}.

Record env := mkEnv {
  getDialer_err : nat -> option error;
  raw_err : nat -> option error;
  raw_is_udp : nat -> bool;
  (** The outcomes of dialing QUIC, as in DoQClient, and TLS, with the protocol that
      was negotiated, and whether the probe of QUIC is the first to end. *)
  quic_dial : nat -> option error;
  tls_dial : nat -> result bytes;
  quic_faster : nat -> bool;
  http2_err : nat -> option error;
  (** Whether waiting for the lock took longer than the timeout. *)
  lock_late : nat -> bool;
  new_request_err : nat -> option error;
  Do : nat -> result http_response;
  close_err : nat -> option error;
}.

Record upstream := mkUpstream {
  (** [p.networkDialer] is not nil *)
  custom : bool;
  NextProtos : list bytes;
}.

(** [sent] are the queries, with the clients that they were sent by. *)
Record world := mkWorld {
  w_time : nat;
  live : gset nat;
  cl : option client;
  closed : bool;
  closeErr : option error;
  tokens : nat;
  sent : list (client * bytes);
  w_state : state;
}.

Definition tick (w : world) : world :=
  mkWorld (S (w_time w)) (live w) (cl w) (closed w) (closeErr w) (tokens w) (sent w) (w_state w).
Definition set_live (l : gset nat) (w : world) : world :=
  mkWorld (w_time w) l (cl w) (closed w) (closeErr w) (tokens w) (sent w) (w_state w).
Definition set_client (c : option client) (w : world) : world :=
  mkWorld (w_time w) (live w) c (closed w) (closeErr w) (tokens w) (sent w) (w_state w).
Definition set_closed (err : option error) (w : world) : world :=
  mkWorld (w_time w) (live w) (cl w) true err (tokens w) (sent w) (w_state w).
Definition set_state (s : state) (w : world) : world :=
  mkWorld (w_time w) (live w) (cl w) (closed w) (closeErr w) (tokens w) (sent w) s.
Definition log_query (c : client) (q : bytes) (w : world) : world :=
  mkWorld (w_time w) (live w) (cl w) (closed w) (closeErr w) (tokens w) (sent w ++ [(c, q)]) (w_state w).
Definition resetQUICConfig (w : world) : world :=
  mkWorld (w_time w) (live w) (cl w) (closed w) (closeErr w) (S (tokens w)) (sent w) (w_state w).

Definition ErrClosed : error := New "use of closed network connection".

(** quic-go: the code of an [ApplicationError] or [TransportError], and whether an
    error is a [StatelessResetError], for errors that wrap no other. *)
Class QuicErrors := {
  quic_app_code : string -> option Z;
  quic_transport_code : string -> option Z;
  quic_reset : string -> option unit;
}.

(** [errors.As]: the first match. *)
Fixpoint errors_As {A} (f : string -> option A) (e : error) : option A :=
  match e with
  | New m => f m
  | Errorf _ e' => errors_As f e'
  | Join es =>
      (fix first (es : list error) : option A :=
         match es with
         | [] => None
         | e' :: es => match errors_As f e' with Some b => Some b | None => first es end
         end) es
  end.

Section DoHClient.
Context {DL : DnsLib} {NE : NetErrors} {WD : WithDeferredLib} {QE : QuicErrors}.
Context (ev : env) (p : upstream).

(** ** Clients *)

Definition supportsH3 : bool := bool_decide (HTTPVersion3 ∈ NextProtos p).
Definition supportsHTTP : bool :=
  existsb (fun v => bool_decide (v = HTTPVersion11) || bool_decide (v = HTTPVersion2)) (NextProtos p).
Definition isHTTP3 (c : client) : bool := match cl_transport c with H3 => true | _ => false end.

(** What the probes send to their channels. *)
Definition probeQUIC (t : nat) : option error :=
  match quic_dial ev t with
  | Some e => Some (Errorf "opening quic connection to %s: %w" e)
  | None => None
  end.

Definition probeTLS (t : nat) : option error :=
  match tls_dial ev t with
  | Err e => Some (Errorf "opening TLS connection: %w" e)
  | Ok negotiated =>
      if negb (bool_decide (HTTPVersion11 ∈ NextProtos p)) && negb (bool_decide (negotiated = HTTPVersion2))
      then Some (New "TLS probe did not negotiate required HTTP/2")
      else None
  end.

(** Whether to use HTTP/3. *)
Definition probeH3 (t : nat) : option error :=
  match (if custom p then None
         else match raw_err ev t with
         | Some e => Some (Errorf "failed to dial: %w" e)
         | None => if raw_is_udp ev t then None else Some (New "not a UDP connection to %s")
         end) with
  | Some e => Some e
  | None =>
      if supportsH3 && negb supportsHTTP then None
      else if quic_faster ev t then probeQUIC t
      else match probeTLS t with
      | Some _ => None
      | None => Some (New "TLS was faster than QUIC, prefer it")
      end
  end.

Definition createTransportH3 (t : nat) : result transport :=
  if negb supportsH3 then Err (New "HTTP3 support is not enabled")
  else match probeH3 t with Some e => Err e | None => Ok H3 end.

(** The transport of HTTP/1.1 and HTTP/2. *)
Definition createTransportHTTP (t : nat) : result transport :=
  if negb supportsHTTP then Err (New "HTTP1/1 and HTTP2 are not supported by this upstream")
  else
    let allowH1 := bool_decide (HTTPVersion11 ∈ NextProtos p) in
    let allowH2 := bool_decide (HTTPVersion2 ∈ NextProtos p) in
    match (if allowH2 then http2_err ev t else None) with
    | Some e => Err e
    | None => Ok (HTTP allowH1 allowH2)
    end.

Definition createTransport (t : nat) : result transport :=
  match getDialer_err ev t with
  | Some e => Err (Errorf "bootstrapping %s: %w" e)
  | None =>
      match createTransportH3 t with
      | Ok tr => Ok tr
      | Err _ => createTransportHTTP t
      end
  end.

(** The new client is also the shared one. *)
Definition createClient (w : world) : result client * world :=
  let t := w_time w in
  let w := tick w in
  match createTransport t with
  | Err e => (Err (Errorf "initializing http transport: %w" e), set_client None w)
  | Ok tr => let c := mkClient t tr in (Ok c, set_client (Some c) (set_live ({[t]} ∪ live w) w))
  end.

Definition closeClient (c : client) (w : world) : option error * world :=
  (if isHTTP3 c then close_err ev (w_time w) else None, set_live (live w ∖ {[cl_id c]}) (tick w)).

Definition getClient (w : world) : result (client * bool) * world :=
  if closed w then (Err ErrClosed, w)
  else match cl w with
  | Some c => (Ok (c, true), w)
  | None =>
      if lock_late ev (w_time w) then (Err (New "timeout exceeded: %s"), w)
      else let '(r, w) := createClient w in (match r with Ok c => Ok (c, false) | Err e => Err e end, w)
  end.

Definition resetClient (failed : client) (resetErr : error) (w : world) : result client * world :=
  if closed w then (Err ErrClosed, w)
  else match cl w with
  | Some c =>
      if negb (bool_decide (c = failed)) then (Ok c, w)
      else
        let w := if errors_Is resetErr "0-RTT rejected" then resetQUICConfig w else w in
        let '(r, w) := createClient w in
        let '(_, w) := closeClient c w in
        (r, w)
  | None =>
      let w := if errors_Is resetErr "0-RTT rejected" then resetQUICConfig w else w in
      createClient w
  end.

Definition shouldRetry (err : option error) : bool :=
  match err with
  | None => false
  | Some e =>
      if isExchangeTimeout err then false
      else
        (match errors_As quic_app_code e with Some code => (code =? 0) || (code =? 256) | None => false end)
        || (match errors_As quic_reset e with Some _ => true | None => false end)
        || (match errors_As quic_transport_code e with Some code => code =? 0 | None => false end)
        || errors_Is e "0-RTT rejected"
  end.

(** ** A query *)

(** [io.ReadAll(io.LimitReader(body, n))] *)
Definition read_limited (r : http_response) (n : Z) : result bytes :=
  if n <=? len (r_body r) then Ok (take (Z.to_nat n) (r_body r))
  else match r_body_err r with Some e => Err e | None => Ok (r_body r) end.

(** The body of an acceptable response. *)
Definition response_body (r : http_response) : result bytes :=
  if negb (StatusCode r =? 200) then Err (New "expected status %d, got %d from %s")
  else if negb (match ParseMediaType (ContentType r) with
                | Ok media => EqualFold media (str "application/dns-message")
                | Err _ => false
                end) then Err (New "invalid DNS response content type from %s")
  else if MaxMsgSize <? ContentLength r then Err (New "DNS response body too large from %s")
  else match read_limited r (MaxMsgSize + 1) with
  | Err e => Err (Errorf "reading %s: %w" e)
  | Ok body =>
      if (len body =? 0) || (MaxMsgSize <? len body) then Err (New "invalid DNS response body length from %s")
      else if (0 <=? ContentLength r) && negb (len body =? ContentLength r)
      then Err (New "DNS response body length from %s: got %d, declared %d")
      else Ok body
  end.

(** The parameters of the query, [q.Encode()]: the characters of base64url are not
    escaped. *)
Definition query_of (buf : bytes) : bytes := str "dns=" ++ RawURL_EncodeToString buf.

Definition exchangeHTTPSClient (c : client) (req : Msg) (buf : bytes) (w : world) : go (option Msg * option error * world) :=
  let t := w_time w in
  let w := tick w in
  match new_request_err ev t with
  | Some e => Ret (None, Some (Errorf "creating http request to %s: %w" e), w)
  | None =>
      let w := log_query c (query_of buf) w in
      match Do ev t with
      | Err e => Ret (None, Some (Errorf "requesting %s: %w" e), w)
      | Ok httpResp =>
          match response_body httpResp with
          | Err e => Ret (None, Some e, w)
          | Ok body =>
              let! (st, ticket) := state_reserve body 0 false (r_observed httpResp) (w_state w) in
              let fail e :=
                let! st := on_state (reject ticket (r_rejected httpResp)) st in Ret (None, Some e, set_state st w) in
              match Unpack body with
              | (_, Some e) => fail (Errorf "unpacking response from %s: body is %s: %w" e)
              | (resp, None) =>
                  if negb (Id (Hdr resp) =? 0) then fail (New "unexpected non-zero id in response: %d")
                  else
                    let resp := set_Id (Id (Hdr req)) resp in
                    let! verr := validateResponse req resp in
                    match verr with
                    | Some e => fail (Errorf "validating response: %w" e)
                    | None => let! st := on_state (accept ticket resp) st in Ret (Some resp, None, set_state st w)
                    end
              end
          end
      end
  end.

Definition exchangeHTTPS (c : client) (req : Msg) (w : world) : go (option Msg * option error * world) :=
  match Pack req with
  | Err e => Ret (None, Some (Errorf "packing message: %w" e), w)
  | Ok buf =>
      if len buf <? 2 then Panic
      else
        let! (resp, err, w) := exchangeHTTPSClient c req (be_put 2 0 ++ drop 2 buf) w in
        Ret (resp, Errorf "exchanging: %w" <$> err, w)
  end.

(** ** Exchanges *)

(** At most [n] more attempts, with no client if it cannot be replaced. *)
Fixpoint attempts (n : nat) (req : Msg) (c : client) (resp : option Msg) (err : option error) (w : world)
    : go (option client * option Msg * option error * world) :=
  match n, err with
  | S n, Some e =>
      if shouldRetry err then
        let '(r, w) := resetClient c e w in
        match r with
        | Err e => Ret (None, None, Some (Errorf "failed to reset http client: %w" e), w)
        | Ok c => let! (resp, err, w) := exchangeHTTPS c req w in attempts n req c resp err w
        end
      else Ret (Some c, resp, err, w)
  | _, _ => Ret (Some c, resp, err, w)
  end.

(** The body of [Exchange] after the state is started. *)
Definition exchange_body (req : Msg) (w : world) : go (option Msg * option error * world) :=
  let '(r, w) := getClient w in
  match r with
  | Err e => Ret (None, Some (Errorf "failed to init http client: %w" e), w)
  | Ok (c, isCached) =>
      let! (resp, err, w) := exchangeHTTPS c req w in
      let! (c, resp, err, w) := attempts (if isCached then 2 else 0) req c resp err w in
      match err, c with
      | Some e, Some c =>
          let! st := on_state (finish err) (w_state w) in
          let '(r, w) := resetClient c e (set_state st w) in
          Ret (None, WithDeferred err (match r with Err e => Some e | Ok _ => None end), w)
      | _, _ => Ret (resp, err, w)
      end
  end.

Definition Exchange (req : Msg) (w : world) : go (option Msg * option error * world) :=
  let '(st, err) := state_start (Id (Hdr req)) (w_state w) in
  match err with
  | Some e => Ret (None, Some e, set_state st w)
  | None =>
      let! (resp, err, w) := exchange_body req (set_state st w) in
      let! st := on_state (finish err) (w_state w) in
      Ret (resp, err, set_state st w)
  end.

Definition Close (w : world) : option error * world :=
  if closed w then (closeErr w, w)
  else match cl w with
  | Some c => let '(err, w) := closeClient c (set_client None w) in (err, set_closed err w)
  | None => (None, set_closed None w)
  end.
End DoHClient.

(** ** Facts *)

Section DoHClientFacts.
Context {DL : DnsLib} {DLaws : DnsLaws} {NE : NetErrors} {WD : WithDeferredLib} {WDL : WithDeferredLaws} {QE : QuicErrors}.
Context (ev : env) (p : upstream).

(** A version of HTTP that the upstream may use. *)
Definition allowed (tr : transport) : Prop :=
  match tr with
  | H3 => HTTPVersion3 ∈ NextProtos p
  | HTTP h1 h2 => (h1 = true -> HTTPVersion11 ∈ NextProtos p) /\ (h2 = true -> HTTPVersion2 ∈ NextProtos p)
                  /\ (h1 || h2 = true)
  end.

Lemma createTransportHTTP_allowed t tr : createTransportHTTP ev p t = Ok tr -> allowed tr.
Proof.
  unfold createTransportHTTP, supportsHTTP. destruct (existsb _ _) eqn:Es; cbn [negb]; [|discriminate].
  intros H. assert (tr = HTTP (bool_decide (HTTPVersion11 ∈ NextProtos p)) (bool_decide (HTTPVersion2 ∈ NextProtos p))) as ->.
  { revert H. destruct (bool_decide (HTTPVersion2 ∈ _)); [destruct (http2_err ev t); [discriminate|]|]; congruence. }
  cbn. rewrite !bool_decide_eq_true. split; [auto|]. split; [auto|].
  apply existsb_exists in Es as (v & Hv%list_elem_of_In & [Hb|Hb]%orb_true_iff); apply bool_decide_eq_true in Hb as ->.
  - rewrite bool_decide_true by exact Hv. reflexivity.
  - rewrite (bool_decide_true (HTTPVersion2 ∈ _)) by exact Hv. apply orb_true_r.
Qed.

Lemma createTransport_allowed t tr : createTransport ev p t = Ok tr -> allowed tr.
Proof.
  unfold createTransport, createTransportH3, supportsH3. destruct (getDialer_err ev t); [discriminate|].
  case_bool_decide as H3s; cbn [negb]; [|apply createTransportHTTP_allowed].
  destruct (probeH3 ev p t); [apply createTransportHTTP_allowed|]. intros [= <-]. exact H3s.
Qed.

(** The client in use is the shared one, of an allowed version, and there is none
    once the upstream is closed. *)
Definition client_set (c : option client) : gset nat := match c with Some c => {[cl_id c]} | None => ∅ end.
Record doh_ok (w : world) : Prop := {
  do_live : live w = client_set (cl w);
  do_past : forall c, cl w = Some c -> (cl_id c < w_time w)%nat /\ allowed (cl_transport c);
  do_closed : closed w = true -> cl w = None;
}.

(** What does not change but by [Close]. *)
Definition same (w w' : world) : Prop :=
  sent w' = sent w /\ w_state w' = w_state w /\ closed w' = closed w.

Lemma createClient_ok w : (forall c, cl w = Some c -> (cl_id c < w_time w)%nat) ->
  exists r w', createClient ev p w = (r, w') /\ same w w' /\ w_time w' = S (w_time w)
    /\ match r with
       | Ok c => cl w' = Some c /\ cl_id c = w_time w /\ live w' = {[cl_id c]} ∪ live w /\ allowed (cl_transport c)
       | Err _ => cl w' = None /\ live w' = live w
       end.
Proof.
  intros _. unfold createClient. destruct (createTransport ev p (w_time w)) as [tr|e] eqn:E;
    do 2 eexists; (split; [reflexivity|]); cbn; repeat split; eauto using createTransport_allowed.
Qed.

Lemma getClient_ok w : doh_ok w -> exists r w', getClient ev p w = (r, w') /\ doh_ok w' /\ same w w'
  /\ match r with
     | Ok (c, cached) => closed w = false /\ cl w' = Some c /\ if cached then cl w = Some c else cl w = None
     | Err e => closed w = true -> e = ErrClosed
     end.
Proof.
  intros Hw. pose proof Hw as [Hl Hp Hc]. unfold getClient.
  assert (Hsame : same w w) by (repeat split). destruct (closed w) eqn:Ec; [do 2 eexists; split; [reflexivity|]; auto|].
  destruct (cl w) as [c|] eqn:E; [do 2 eexists; split; [reflexivity|]; rewrite E; auto 10|].
  destruct (lock_late ev _); [do 2 eexists; split; [reflexivity|]; repeat (split; [solve [auto]|]); discriminate|].
  destruct (createClient_ok w) as (r & w' & -> & Hs & Ht & Hr); [rewrite E; discriminate|].
  do 2 eexists. split; [reflexivity|]. pose proof Hs as (_ & _ & Hcl). destruct r as [c|e].
  - destruct Hr as (Hc' & Hid & Hlv & Ha). split; [|split; [exact Hs|auto]]. split.
    + rewrite Hlv, Hl, Hc'. cbn. apply union_empty_r_L.
    + intros x. rewrite Hc'. intros [= <-]. rewrite Hid, Ht. auto with lia.
    + congruence.
  - destruct Hr as [Hc' Hlv]. split; [|split; [exact Hs|congruence]].
    split; [rewrite Hlv, Hl, Hc'; reflexivity|rewrite Hc'; discriminate|auto].
Qed.

Lemma resetClient_ok c e w : doh_ok w -> exists r w', resetClient ev p c e w = (r, w') /\ doh_ok w' /\ same w w'
  /\ match r with Ok c' => closed w = false /\ cl w' = Some c' | Err _ => True end.
Proof.
  intros Hw. pose proof Hw as [Hl Hp Hc]. unfold resetClient.
  destruct (closed w) eqn:Ec; [do 2 eexists; split; [reflexivity|]; split; [exact Hw|split; [repeat split; auto|exact I]]|].
  set (w1 := if errors_Is e "0-RTT rejected" then resetQUICConfig w else w).
  assert (H1 : cl w1 = cl w /\ live w1 = live w /\ w_time w1 = w_time w /\ same w w1).
  { subst w1. destruct (errors_Is e _); repeat split. }
  destruct H1 as (Hcl1 & Hl1 & Ht1 & Hs1).
  destruct (createClient_ok w1) as (r & w2 & Hx & Hs2 & Ht2 & Hr); [rewrite Hcl1, Ht1; apply Hp|].
  assert (Hs12 : same w w2).
  { unfold same in *. destruct Hs1 as (A1 & A2 & A3), Hs2 as (B1 & B2 & B3). repeat split; congruence. }
  pose proof Hs12 as (_ & _ & Hcl2).
  destruct (cl w) as [old|] eqn:E.
  - case_bool_decide as Hne; cbn [negb].
    2: { do 2 eexists. split; [reflexivity|]. split; [exact Hw|]. split; [repeat split; auto|auto]. }
    rewrite Hx. destruct (Hp old eq_refl) as [Hlt _]. do 2 eexists. split; [reflexivity|].
    destruct r as [c'|e'].
    + destruct Hr as (Hc' & Hid & Hlv & Ha). split; [|split; [exact Hs12|auto]]. split; cbn.
      * rewrite Hlv, Hl1, Hl, Hc'. cbn. apply set_eq. intros x. rewrite elem_of_difference, elem_of_union, !elem_of_singleton. lia.
      * intros x. rewrite Hc'. intros [= <-]. split; [rewrite Hid, Ht2; lia|exact Ha].
      * congruence.
    + destruct Hr as (Hc' & Hlv). split; [|split; [exact Hs12|auto]]. split; cbn.
      * rewrite Hlv, Hl1, Hl, Hc'. cbn. apply difference_diag_L.
      * rewrite Hc'. discriminate.
      * auto.
  - rewrite Hx. do 2 eexists. split; [reflexivity|]. split; [|split; [exact Hs12|destruct r; [split; [auto|apply Hr]|auto]]].
    destruct r as [c'|e'].
    + destruct Hr as (Hc' & Hid & Hlv & Ha). split.
      * rewrite Hlv, Hl1, Hl, Hc'. cbn. apply union_empty_r_L.
      * intros x. rewrite Hc'. intros [= <-]. split; [rewrite Hid, Ht2; lia|exact Ha].
      * congruence.
    + destruct Hr as (Hc' & Hlv). split; [rewrite Hlv, Hl1, Hl, Hc'; reflexivity|rewrite Hc'; discriminate|auto].
Qed.

(** A response is taken only if it is complete: the status, the type and the length
    are right and nothing is cut off. *)
Lemma response_body_Ok r b : response_body r = Ok b <->
  StatusCode r = 200
  /\ (exists media, ParseMediaType (ContentType r) = Ok media /\ EqualFold media (str "application/dns-message") = true)
  /\ b = r_body r /\ r_body_err r = None /\ 0 < len b <= MaxMsgSize /\ (ContentLength r < 0 \/ ContentLength r = len b).
Proof.
  unfold response_body, read_limited. change MaxMsgSize with 65535. split.
  - destruct (Z.eqb_spec (StatusCode r) 200) as [Hs|]; cbn [negb]; [|discriminate].
    destruct (ParseMediaType _) as [media|]; [|discriminate]. destruct (EqualFold _ _) eqn:Em; cbn [negb]; [|discriminate].
    destruct (Z.ltb_spec 65535 (ContentLength r)); [discriminate|].
    destruct (Z.leb_spec (65535 + 1) (len (r_body r))) as [Hl|Hl].
    { rewrite length_take. rewrite (proj2 (Z.ltb_lt _ _)), orb_true_r by lia. discriminate. }
    destruct (r_body_err r); [discriminate|]. destruct (Z.eqb_spec (len (r_body r)) 0); cbn [orb]; [discriminate|].
    destruct (Z.ltb_spec 65535 (len (r_body r))); [discriminate|].
    destruct (Z.leb_spec 0 (ContentLength r)), (Z.eqb_spec (len (r_body r)) (ContentLength r)); cbn [andb negb]; try discriminate;
      intros [= <-]; (split; [exact Hs|]); (split; [eauto|]); (split; [reflexivity|]); (split; [reflexivity|]); lia.
  - intros (-> & (media & -> & ->) & -> & -> & Hl & Hc). cbn [negb Z.eqb Pos.eqb].
    rewrite (proj2 (Z.ltb_ge 65535 _)), (proj2 (Z.leb_gt _ _)), (proj2 (Z.eqb_neq _ _)), (proj2 (Z.ltb_ge _ _)) by lia. cbn [orb].
    destruct (Z.leb_spec 0 (ContentLength r)); cbn [andb]; [|reflexivity]. rewrite (proj2 (Z.eqb_eq _ _)) by lia. reflexivity.
Qed.

(** A response that the environment gave, with the identifier zero and the question
    of the request. *)
Definition delivered (req : Msg) (r : option Msg) : Prop :=
  exists m b resp t, Do ev t = Ok resp /\ response_body resp = Ok b /\ Unpack b = (m, None) /\ Id (Hdr m) = 0
    /\ repeats_question req m /\ r = Some (set_Id (Id (Hdr req)) m).

(** A query of [req] over an allowed version. *)
Definition query (req : Msg) (x : client * bytes) : Prop :=
  allowed (cl_transport (fst x)) /\ exists b, Pack req = Ok b /\ snd x = query_of (be_put 2 0 ++ drop 2 b).

(** What [n] queries may do. *)
Definition asked (n : nat) (req : Msg) (w : world) (resp : option Msg) (err : option error) (w' : world) : Prop :=
  doh_ok w' /\ state_ok (w_state w') /\ closed w' = closed w
  /\ (exists l, sent w' = sent w ++ l /\ (length l <= n)%nat /\ Forall (query req) l)
  /\ match err with Some _ => resp = None | None => delivered req resp end.

Lemma exchangeHTTPSClient_ok c req b w :
  Question req <> [] -> Pack req = Ok b -> allowed (cl_transport c) -> doh_ok w -> state_ok (w_state w) ->
  exists resp err w', exchangeHTTPSClient ev c req (be_put 2 0 ++ drop 2 b) w = Ret (resp, err, w')
    /\ asked 1 req w resp err w' /\ cl w' = cl w.
Proof.
  intros Hq Hb Ha [Hl Hp Hc] Hs. unfold exchangeHTTPSClient. set (q := be_put 2 0 ++ drop 2 b).
  assert (Hok : forall w', live w' = live w -> cl w' = cl w -> closed w' = closed w -> w_time w' = S (w_time w) -> doh_ok w').
  { intros w' H1 H2 H3 H4. split; rewrite ?H1, ?H2, ?H3; auto. intros x Hx. destruct (Hp x Hx). split; [lia|auto]. }
  destruct (new_request_err ev _) as [e|].
  { do 3 eexists. split; [reflexivity|]. split; [|reflexivity]. split; [apply Hok; reflexivity|]. split; [exact Hs|].
    split; [reflexivity|]. split; [|reflexivity]. exists []. rewrite app_nil_r. split; [reflexivity|]. split; [cbn; lia|constructor]. }
  set (w1 := log_query c (query_of q) (tick w)).
  assert (Hdone : forall resp err st, state_ok st -> match err with Some _ => resp = None | None => delivered req resp end ->
    exists resp' err' w', Ret (resp, err, set_state st w1) = Ret (resp', err', w')
      /\ asked 1 req w resp' err' w' /\ cl w' = cl w).
  { intros resp err st Hst Hr. do 3 eexists. split; [reflexivity|]. split; [|reflexivity].
    split; [apply Hok; reflexivity|]. split; [exact Hst|]. split; [reflexivity|]. split; [|exact Hr].
    exists [(c, query_of q)]. split; [reflexivity|]. split; [cbn; lia|]. repeat constructor; [exact Ha|]. exists b. auto. }
  destruct (Do ev _) as [resp|e] eqn:Ed; [|exact (Hdone None (Some _) (w_state w) Hs eq_refl)].
  destruct (response_body resp) as [body|e] eqn:Er; [|exact (Hdone None (Some _) (w_state w) Hs eq_refl)].
  change (w_state w1) with (w_state w).
  destruct (state_reserve_ok body 0 false (r_observed resp) (w_state w) Hs) as (s1 & tk & -> & H1). cbn [gbind].
  destruct (reject_ok tk (r_rejected resp) s1 H1) as (s2 & Hrej & H2).
  destruct (Unpack body) as [m [e|]] eqn:Eu; [rewrite Hrej; apply Hdone; auto|].
  destruct (Z.eqb_spec (Id (Hdr m)) 0) as [Hid|]; cbn [negb]; [|rewrite Hrej; apply Hdone; auto].
  destruct (validateResponse_total req (set_Id (Id (Hdr req)) m) Hq) as [[e|] Hv]; rewrite Hv; cbn [gbind];
    [rewrite Hrej; apply Hdone; auto|].
  destruct (accept_ok tk (set_Id (Id (Hdr req)) m) s1 H1) as (s3 & -> & H3). cbn [gbind]. apply Hdone; [exact H3|].
  exists m, body, resp, (w_time w). repeat (split; [solve [auto]|]). split; [|reflexivity].
  exact (validateResponse_repeats _ _ Hv).
Qed.

Lemma exchangeHTTPS_ok c req w :
  Question req <> [] -> allowed (cl_transport c) -> doh_ok w -> state_ok (w_state w) ->
  exists resp err w', exchangeHTTPS ev c req w = Ret (resp, err, w') /\ asked 1 req w resp err w' /\ cl w' = cl w.
Proof using DLaws.
  intros Hq Ha Hw Hs. unfold exchangeHTTPS. destruct (Pack req) as [b|e] eqn:Eb.
  - rewrite (proj2 (Z.ltb_ge _ _)) by (pose proof (pack_wf _ _ Eb); lia).
    destruct (exchangeHTTPSClient_ok c req b w Hq Eb Ha Hw Hs) as (resp & err & w' & -> & (H1 & H2 & H3 & H4 & H5) & Hcl).
    cbn [gbind]. do 3 eexists. split; [reflexivity|]. split; [|exact Hcl]. repeat (split; [assumption|]). destruct err; exact H5.
  - do 3 eexists. split; [reflexivity|]. split; [|reflexivity]. split; [exact Hw|]. split; [exact Hs|]. split; [reflexivity|].
    split; [|reflexivity]. exists []. rewrite app_nil_r. split; [reflexivity|]. split; [cbn; lia|constructor].
Qed.

Lemma asked_trans n k req w resp1 err1 w1 resp err w' :
  asked n req w resp1 err1 w1 -> asked k req w1 resp err w' -> asked (n + k) req w resp err w'.
Proof.
  intros (_ & _ & Hc1 & (l1 & Hl1 & Hn & Hf1) & _) (Ho & Hs & Hc & (l2 & Hl2 & Hk & Hf2) & Hr).
  split; [exact Ho|]. split; [exact Hs|]. split; [congruence|]. split; [|exact Hr]. exists (l1 ++ l2).
  rewrite Hl2, Hl1, app_assoc. split; [reflexivity|]. rewrite length_app. split; [lia|]. apply Forall_app; auto.
Qed.

Lemma asked_none req w w' e : doh_ok w' -> state_ok (w_state w) -> same w w' -> asked 0 req w None (Some e) w'.
Proof.
  intros Ho Hs (H1 & H2 & H3). split; [exact Ho|]. rewrite H2. split; [exact Hs|]. split; [exact H3|]. split; [|reflexivity].
  exists []. rewrite app_nil_r. split; [exact H1|]. split; [cbn; lia|constructor].
Qed.

Lemma attempts_ok n req w0 k : Question req <> [] -> forall c resp err w,
  asked k req w0 resp err w ->
  exists c' resp' err' w', attempts ev p n req c resp err w = Ret (c', resp', err', w') /\ asked (k + n) req w0 resp' err' w'
    /\ (c' = None -> err' <> None).
Proof using DLaws.
  intros Hq. revert k. induction n as [|n IH]; intros k c resp err w Ha; cbn [attempts].
  { do 4 eexists. split; [reflexivity|]. rewrite Nat.add_0_r. split; [exact Ha|discriminate]. }
  assert (Hmore : forall r e w', asked k req w0 r e w' -> asked (k + S n) req w0 r e w').
  { intros r e w' (H1 & H2 & H3 & (l & H4 & H5 & H6) & H7). split; [exact H1|]. split; [exact H2|]. split; [exact H3|].
    split; [exists l; split; [exact H4|split; [lia|exact H6]]|exact H7]. }
  destruct err as [e|]; [|do 4 eexists; split; [reflexivity|]; split; [apply Hmore, Ha|discriminate]].
  destruct (shouldRetry (Some e)); [|do 4 eexists; split; [reflexivity|]; split; [apply Hmore, Ha|discriminate]].
  pose proof Ha as (Ho & Hs & _). destruct (resetClient_ok c e w Ho) as (r & w1 & -> & Ho1 & Hs1 & Hr).
  destruct r as [c'|e'].
  2: { do 4 eexists. split; [reflexivity|]. split; [|discriminate]. apply Hmore. rewrite <- (Nat.add_0_r k).
       eapply asked_trans; [exact Ha|]. apply asked_none; auto. }
  destruct Hr as [_ Hr]. destruct (exchangeHTTPS_ok c' req w1 Hq (proj2 (do_past _ Ho1 c' Hr)) Ho1) as (resp' & err' & w2 & -> & Ha2 & _).
  { destruct Hs1 as (_ & -> & _). exact Hs. }
  cbn [gbind]. replace (k + S n)%nat with (k + (0 + 1) + n)%nat by lia. apply IH.
  eapply asked_trans; [exact Ha|]. eapply asked_trans; [|exact Ha2]. apply (asked_none req w w1 e); auto.
Qed.

Lemma doh_exchange_body_ok req w :
  Question req <> [] -> doh_ok w -> state_ok (w_state w) ->
  exists resp err w', exchange_body ev p req w = Ret (resp, err, w') /\ asked 3 req w resp err w'
    /\ (closed w = true -> err = Some (Errorf "failed to init http client: %w" ErrClosed) /\ w' = w).
Proof using DLaws WDL.
  intros Hq Hw Hs. unfold exchange_body. destruct (getClient_ok w Hw) as (r & w1 & Hg & Hw1 & Hs1 & Hr). rewrite Hg.
  assert (Hmore : forall k r e w', (k <= 3)%nat -> asked k req w r e w' -> asked 3 req w r e w').
  { intros k x e w' Hk (H1 & H2 & H3 & (l & H4 & H5 & H6) & H7). split; [exact H1|]. split; [exact H2|]. split; [exact H3|].
    split; [exists l; split; [exact H4|split; [lia|exact H6]]|exact H7]. }
  assert (Hst1 : state_ok (w_state w1)) by (destruct Hs1 as (_ & -> & _); exact Hs).
  destruct r as [[c cached]|e].
  2: { do 3 eexists. split; [reflexivity|]. split; [apply (Hmore 0%nat); [lia|]; apply asked_none; auto|].
       intros Hc. rewrite (Hr Hc). split; [reflexivity|]. unfold getClient in Hg. rewrite Hc in Hg. injection Hg as _ <-. reflexivity. }
  destruct Hr as (Hopen & Hc & _).
  destruct (exchangeHTTPS_ok c req w1 Hq (proj2 (do_past _ Hw1 c Hc)) Hw1 Hst1) as (resp & err & w2 & -> & Ha & _). cbn [gbind].
  assert (Ha' : asked 1 req w resp err w2).
  { change 1%nat with (0 + 1)%nat. eapply asked_trans; [|exact Ha]. apply (asked_none req w w1 ErrClosed); auto. }
  destruct (attempts_ok (if cached then 2 else 0) req w 1 Hq c resp err w2 Ha') as (c' & resp' & err' & w3 & -> & Ha3 & Hn). cbn [gbind].
  apply Hmore in Ha3; [|destruct cached; lia]. destruct err' as [e|].
  2: { do 3 eexists. split; [destruct c'; reflexivity|]. split; [exact Ha3|congruence]. }
  destruct c' as [c'|]; [|do 3 eexists; split; [reflexivity|]; split; [exact Ha3|congruence]].
  destruct Ha3 as (Hw3 & Hs3 & Hc3 & Hl3 & Hr3). destruct (finish_ok (Some e) (w_state w3) Hs3) as (st & -> & Hst). cbn [gbind].
  assert (Hw3' : doh_ok (set_state st w3)) by (destruct Hw3; split; auto).
  destruct (resetClient_ok c' e _ Hw3') as (r & w4 & -> & Hw4 & (Hs4 & Hst4 & Hcl4) & _).
  destruct (withDeferred_some (Some e) (match r with Err e => Some e | Ok _ => None end)) as [e' He']; [left; eauto|].
  rewrite He'. do 3 eexists. split; [reflexivity|]. split; [|congruence]. split; [exact Hw4|]. rewrite Hst4. split; [exact Hst|].
  split; [rewrite Hcl4; exact Hc3|]. split; [rewrite Hs4; exact Hl3|reflexivity].
Qed.

Lemma doh_Exchange_ok req w :
  Question req <> [] -> doh_ok w -> state_ok (w_state w) ->
  exists resp err w', Exchange ev p req w = Ret (resp, err, w') /\ asked 3 req w resp err w'
    /\ (closed w = true -> err <> None /\ sent w' = sent w).
Proof using DLaws WDL.
  intros Hq Hw Hs. unfold Exchange. destruct (state_start_ok (Id (Hdr req)) (w_state w) Hs) as (st & err & -> & Hst).
  assert (Hw' : doh_ok (set_state st w)) by (destruct Hw; split; auto).
  destruct err as [e|].
  { do 3 eexists. split; [reflexivity|]. split; [|split; [discriminate|reflexivity]]. split; [exact Hw'|]. split; [exact Hst|].
    split; [reflexivity|]. split; [|reflexivity]. exists []. rewrite app_nil_r. split; [reflexivity|]. split; [cbn; lia|constructor]. }
  destruct (doh_exchange_body_ok req (set_state st w) Hq Hw' Hst) as (resp & err & w1 & -> & (H1 & H2 & H3 & H4 & H5) & Hcl).
  cbn [gbind]. destruct (finish_ok err (w_state w1) H2) as (st' & -> & Hst'). cbn [gbind].
  do 3 eexists. split; [reflexivity|]. split.
  - split; [destruct H1; split; auto|]. split; [exact Hst'|]. split; [exact H3|]. split; [exact H4|exact H5].
  - intros Hc. destruct (Hcl Hc) as [-> ->]. split; [discriminate|reflexivity].
Qed.

(** *** Sequences of calls *)

Inductive call := Ask (req : Msg) (st : state) | CloseCall.

(** The results of the exchanges, with their requests. *)
Fixpoint calls (cs : list call) (w : world) : go (list (Msg * option Msg * option error) * world) :=
  match cs with
  | [] => Ret ([], w)
  | Ask req st :: cs =>
      let! (r, err, w) := Exchange ev p req (set_state st w) in
      let! (rs, w) := calls cs w in
      Ret ((req, r, err) :: rs, w)
  | CloseCall :: cs => calls cs (snd (Close ev w))
  end.

Definition new_world : world := mkWorld 0 ∅ None false None 1 [] None.
Definition call_ok (c : call) : Prop :=
  match c with Ask req st => Question req <> [] /\ state_ok st | CloseCall => True end.

Lemma Close_ok w : doh_ok w -> doh_ok (snd (Close ev w)) /\ closed (snd (Close ev w)) = true /\ sent (snd (Close ev w)) = sent w.
Proof.
  intros Hw. pose proof Hw as [Hl Hp Hc]. unfold Close. destruct (closed w) eqn:Ec; [cbn; auto|].
  destruct (cl w) as [c|] eqn:E; cbn.
  - split; [|auto]. split; cbn; [rewrite Hl; cbn; apply difference_diag_L|discriminate|auto].
  - split; [|auto]. split; cbn; [rewrite E; exact Hl|rewrite E; discriminate|auto].
Qed.

Lemma calls_ok cs : Forall call_ok cs -> forall w, doh_ok w ->
  exists rs w', calls cs w = Ret (rs, w') /\ doh_ok w'
    /\ Forall (fun x => match snd x with Some _ => snd (fst x) = None | None => delivered (fst (fst x)) (snd (fst x)) end) rs
    /\ (exists l, sent w' = sent w ++ l /\ (length l <= 3 * length rs)%nat
          /\ Forall (fun q => exists x, x ∈ rs /\ query (fst (fst x)) q) l)
    /\ (closed w = true -> closed w' = true /\ sent w' = sent w /\ Forall (fun x => snd x <> None) rs)
    /\ (closed w = true \/ CloseCall ∈ cs -> closed w' = true).
Proof using DLaws WDL.
  induction 1 as [|[req st|] cs Hc _ IH]; intros w Hw; cbn [calls].
  - exists [], w. split; [reflexivity|]. split; [exact Hw|]. split; [constructor|]. split; [|split].
    + exists []. rewrite app_nil_r. split; [reflexivity|]. split; [cbn; lia|constructor].
    + intros Hcl. split; [exact Hcl|]. split; [reflexivity|constructor].
    + intros [Hcl|Hcl]; [exact Hcl|]. inversion Hcl.
  - destruct Hc as [Hq Hst]. assert (Hw' : doh_ok (set_state st w)) by (destruct Hw; split; auto).
    destruct (doh_Exchange_ok req (set_state st w) Hq Hw' Hst) as (r & err & w1 & -> & (H1 & _ & H3 & (l1 & Hl1 & Hn1 & Hf1) & H5) & Hcl1).
    destruct (IH w1 H1) as (rs & w2 & Hx & H2 & Hr2 & (l2 & Hl2 & Hn2 & Hf2) & Hcl2 & Hcl3). cbn [gbind]. rewrite Hx. cbn [gbind].
    cbn [set_state closed sent] in *. exists ((req, r, err) :: rs), w2. split; [reflexivity|]. split; [exact H2|].
    split; [constructor; [exact H5|exact Hr2]|]. split; [|split].
    + exists (l1 ++ l2). rewrite Hl2, Hl1, app_assoc. split; [reflexivity|]. split; [rewrite length_app; cbn [length]; lia|].
      apply Forall_app. split.
      * eapply list.Forall_impl; [exact Hf1|]. intros q Hq'. exists (req, r, err). split; [left|exact Hq'].
      * eapply list.Forall_impl; [exact Hf2|]. intros q (x & Hx' & Hq'). exists x. split; [right; exact Hx'|exact Hq'].
    + intros Hcl. destruct (Hcl1 Hcl) as [He Hs1]. rewrite <- H3 in Hcl. destruct (Hcl2 Hcl) as (Ha & Hb & Hd).
      split; [exact Ha|]. split; [congruence|]. constructor; [exact He|exact Hd].
    + intros [Hcl|Hin]; apply Hcl3; [left; congruence|right]. apply elem_of_cons in Hin as [|]; [discriminate|assumption].
  - destruct (Close_ok w Hw) as (H1 & H2 & H3). destruct (IH _ H1) as (rs & w2 & Hx & Ho & Hr & Hl & Hcl & Hcl').
    rewrite H3 in *. exists rs, w2. split; [exact Hx|]. split; [exact Ho|]. split; [exact Hr|]. split; [exact Hl|]. split; [|intros _; auto].
    intros _. apply Hcl, H2.
Qed.

End DoHClientFacts.

(** ** With the server *)

Section ClientServer.
Context {DL : DnsLib} {DLaws : DnsLaws} {IO : DoH.IoUtil}.

(** The proxy understands its own client: the query that the DNS-over-HTTPS
    upstream sends for a request is one that the DNS-over-HTTPS server takes,
    and the message it gets is the request with the identifier zero. *)
Theorem doh_client_server (req : Msg) (b : bytes) (r : DoH.HTTPRequest) (Hp : Pack req = Ok b)
    (Hm : DoH.Method r = str "GET") (Hq : DoH.RawQuery r = query_of (be_put 2 0 ++ drop 2 b)) :
  exists m', DoH.newDoHReq r = (Some m', DoH.StatusOK) /\ msg_eqv (set_Id 0 req) m'.
Proof using DLaws.
  pose proof (pack_set_id req b 0 Hp ltac:(unfold MaxUint16; lia)) as Hp0.
  destruct (unpack_pack _ _ Hp0) as (m' & Hu & He). destruct (pack_wf _ _ Hp0) as [Hwf _]. exists m'. split; [|exact He].
  unfold DoH.newDoHReq. rewrite Hm, bool_decide_true, Hq by reflexivity. unfold query_of.
  rewrite query_Get_only by apply RawURL_url_chars, Hwf. rewrite RawURL_roundtrip by exact Hwf. cbn [be_put app] in *. rewrite Hu. reflexivity.
Qed.
End ClientServer.

Module DoHClientExamples.
Import PlainExamples.

#[export] Instance quicErrors : QuicErrors := {|
  quic_app_code m := if String.eqb m "Application error 0x100" then Some 256 else None;
  quic_transport_code _ := None;
  quic_reset _ := None;
|}.

(** HTTP/3 is faster; its connection is closed by the server before the second
    query, and before the third one the server stops to answer QUIC. *)
Definition ok_response (t : nat) : http_response :=
  let b := wire_of (reply 0 false) in mkHTTPResponse 200 (str "application/dns-message") (len b) b None 1 2.
Definition server : env :=
  mkEnv (fun _ => None) (fun _ => None) (fun _ => true)
    (fun t => if (t <? 3)%nat then None else Some (New "i/o timeout")) (fun _ => Ok HTTPVersion2) (fun _ => true)
    (fun _ => None) (fun _ => false) (fun _ => None)
    (fun t => if bool_decide (t = 2%nat) then Err (New "Application error 0x100") else Ok (ok_response t)) (fun _ => None).
Definition ups : upstream := mkUpstream true [HTTPVersion3; HTTPVersion2].
Definition req9 : Msg := set_Id 9 req.

Example switches :
  (let! (rs, w) := calls server ups [Ask req9 None; Ask req9 None; CloseCall; Ask req9 None] new_world in
   Ret ((fun x => snd (fst x)) <$> rs, (fun x => cl_transport (fst x)) <$> sent w))
  = Ret ([Some (reply 9 false); Some (reply 9 false); None], [H3; H3; HTTP false true]).
Proof. vm_compute. reflexivity. Qed.
End DoHClientExamples.
Import PlainExamples DoHClientExamples.


Lemma doh_client_server_witness :
  exists m', DoH.newDoHReq (IO := DoH.DoHExamples.limit)
      (DoH.mkRequest (str "GET") (query_of (be_put 2 0 ++ drop 2 (wire_of req9))) [] (Ok []) true [] 2) = (Some m', DoH.StatusOK)
    /\ msg_eqv (set_Id 0 req9) m'.
Proof.
  apply (doh_client_server (IO := DoH.DoHExamples.limit) req9 (wire_of req9)); reflexivity.
Defined.
