(* ===== verification/HttpWork.v ===== *)
(** * The work of an exchange over HTTPS (upstream/http_work.go, and the dialing
      functions, the probes and the HTTP/3 transport of upstream/doh.go)

    An exchange and the goroutines that set up connections for it are one system.
    Each event is a part of a goroutine between two points where others may run:
    the critical sections of the mutex, the operations of the wait group and the
    ends of dials.  The HTTP transports call the dialing functions whenever they
    like, also when the exchange is over.  [exec] runs an event, if it can happen. *)

From stdpp Require Import gmap.
From S2P Require Import Prelude DoHClient.
#[local] Open Scope Z_scope.

(** ** The wait group and its seal *)

Record httpWork := mkHTTPWork { work : Z; sealed : bool }.

(** [WaitGroup.Add]; [waiting] tells whether [Wait] was called. *)
Definition work_Add (waiting : bool) (delta : Z) (w : httpWork) : go httpWork :=
  let v := work w + delta in
  if v <? 0 then Panic
  else if waiting && (0 <? delta) && (v =? delta) then Panic
  else Ret (mkHTTPWork v (sealed w)).

Definition begin (waiting : bool) (w : httpWork) : go (bool * httpWork) :=
  if sealed w then Ret (false, w) else let! w := work_Add waiting 1 w in Ret (true, w).

(** The part of [join] before the wait. *)
Definition seal (w : httpWork) : httpWork := mkHTTPWork (work w) true.

(** ** The system *)

(** The goroutines that hold a reference to the work: the calls of the dialing
    functions for a request, before they check their context and while they dial,
    the wait for the handshake of an early connection, and the probes. *)
Inductive child :=
  | Begun (h3 : bool) (request : nat)
  | DialingTLS (request : nat)
  | DialingQUIC (request : nat)
  | Handshaking
  | ProbingQUIC
  | ProbingTLS.

(** Where [Exchange] is: in a request, between requests, waiting in [join], or
    left. *)
Inductive owner := InRequest (request : nat) | Between | Joining | Returned.

#[export] Instance owner_eq_dec : EqDecision owner.
Proof. solve_decision. Defined.

(** [requests] counts the requests; [expired] are those whose deadline has passed;
    [pool] are the TLS connections handed to the HTTP transport, with the protocol. *)
Record sys := mkSys {
  wk : httpWork;
  own : owner;
  requests : nat;
  expired : gset nat;
  children : gmap nat child;
  pool : list (nat * bytes);
}.

Definition new_sys : sys := mkSys (mkHTTPWork 0 false) Between 0 ∅ ∅ [].

Definition set_work (w : httpWork) (s : sys) : sys := mkSys w (own s) (requests s) (expired s) (children s) (pool s).
Definition set_own (o : owner) (s : sys) : sys := mkSys (wk s) o (requests s) (expired s) (children s) (pool s).
Definition set_child (c : nat) (k : child) (s : sys) : sys :=
  mkSys (wk s) (own s) (requests s) (expired s) (<[c := k]> (children s)) (pool s).
Definition drop_child (c : nat) (s : sys) : sys :=
  mkSys (wk s) (own s) (requests s) (expired s) (delete c (children s)) (pool s).
Definition hand_over (c : nat) (proto : bytes) (s : sys) : sys :=
  mkSys (wk s) (own s) (requests s) (expired s) (children s) (pool s ++ [(c, proto)]).

Definition waiting (s : sys) : bool := match own s with Joining => true | _ => false end.

(** The context of a request is done at its deadline and when the request is left. *)
Definition request_done (r : nat) (s : sys) : bool :=
  negb (bool_decide (own s = InRequest r)) || bool_decide (r ∈ expired s).

(** The transports pass on the contexts of requests that were made, or others that
    have no scope. *)
Definition scope_of_exchange (scope : option nat) (s : sys) : bool :=
  match scope with Some r => (r <? requests s)%nat | None => true end.

(** [finish] *)
Definition release (c : nat) (s : sys) : go sys :=
  let! w := work_Add (waiting s) (-1) (wk s) in
  Ret (drop_child c (set_work w s)).

(** How [dialQUIC] ends in the dialing function of HTTP/3: with an error, with the
    handshake complete or the connection done, or with a handshake that goes on. *)
Inductive quic_dialed := QUICFailed | QUICComplete | QUICEarly.

Inductive event :=
  (* of the exchange *)
  | NewRequest
  | Deadline
  | EndRequest
  | StartProbes (quic tls : nat)
  | Join
  | Waited
  (* of the HTTP transports: a dial with the scope of its context *)
  | Dial (c : nat) (h3 : bool) (scope : option nat)
  (* of the children; [native] tells whether the context of the transport is done
     and that was seen *)
  | CheckContext (c : nat) (native : bool)
  | TLSDialed (c : nat) (negotiated : result bytes) (deadline_err : option error)
  | QUICDialed (c : nat) (r : quic_dialed)
  | Handshaked (c : nat)
  | Probed (c : nat).

Section System.
Context (p : upstream).

(** Whether the connection that [DialTLSContext] dialed is kept; it is closed
    otherwise. *)
Definition keep_tls (negotiated : bytes) (deadline_err : option error) : bool :=
  (bool_decide (HTTPVersion11 ∈ NextProtos p) || bool_decide (negotiated = HTTPVersion2))
  && match deadline_err with Some _ => false | None => true end.

(** The first part of [beginHTTPDial]. *)
Definition beginHTTPDial (c : nat) (h3 : bool) (scope : option nat) (s : sys) : go (result unit * sys) :=
  match scope with
  | None => Ret (Err ErrClosed, s)
  | Some r =>
      let! (ok, w) := begin (waiting s) (wk s) in
      Ret (if negb ok then (Err ErrClosed, s) else (Ok tt, set_child c (Begun h3 r) (set_work w s)))
  end.

(** Its second part, with the derived context. *)
Definition check_context (c : nat) (h3 : bool) (r : nat) (native : bool) (s : sys) : go sys :=
  if request_done r s || native then release c s
  else Ret (set_child c (if h3 then DialingQUIC r else DialingTLS r) s).

Definition exec (e : event) (s : sys) : option (go sys) :=
  match e with
  | NewRequest =>
      match own s with
      | Between => Some (Ret (mkSys (wk s) (InRequest (requests s)) (S (requests s)) (expired s) (children s) (pool s)))
      | _ => None
      end
  | Deadline =>
      match own s with
      | InRequest r => Some (Ret (mkSys (wk s) (own s) (requests s) ({[r]} ∪ expired s) (children s) (pool s)))
      | _ => None
      end
  | EndRequest => match own s with InRequest _ => Some (Ret (set_own Between s)) | _ => None end
  | StartProbes q t =>
      match own s, children s !! q, children s !! t, bool_decide (q = t) with
      | Between, None, None, false =>
          Some (let! w := work_Add (waiting s) 2 (wk s) in
                Ret (set_child t ProbingTLS (set_child q ProbingQUIC (set_work w s))))
      | _, _, _, _ => None
      end
  | Join => match own s with Between => Some (Ret (set_own Joining (set_work (seal (wk s)) s))) | _ => None end
  | Waited =>
      match own s with Joining => if work (wk s) =? 0 then Some (Ret (set_own Returned s)) else None | _ => None end
  | Dial c h3 scope =>
      match children s !! c with
      | None => if scope_of_exchange scope s
                then Some (let! (_, s) := beginHTTPDial c h3 scope s in Ret s) else None
      | Some _ => None
      end
  | CheckContext c native =>
      match children s !! c with Some (Begun h3 r) => Some (check_context c h3 r native s) | _ => None end
  | TLSDialed c negotiated deadline_err =>
      match children s !! c with
      | Some (DialingTLS _) =>
          Some (release c (match negotiated with
                           | Ok proto => if keep_tls proto deadline_err then hand_over c proto s else s
                           | Err _ => s
                           end))
      | _ => None
      end
  | QUICDialed c r =>
      match children s !! c with
      | Some (DialingQUIC _) =>
          Some (match r with QUICEarly => Ret (set_child c Handshaking s) | _ => release c s end)
      | _ => None
      end
  | Handshaked c => match children s !! c with Some Handshaking => Some (release c s) | _ => None end
  | Probed c => match children s !! c with Some ProbingQUIC | Some ProbingTLS => Some (release c s) | _ => None end
  end.

Inductive reachable : sys -> Prop :=
  | reach_new : reachable new_sys
  | reach_exec e s s' : reachable s -> exec e s = Some (Ret s') -> reachable s'.

(** ** The invariant *)

(** Each child holds one reference, and references are taken before the seal. *)
Record sys_inv (s : sys) : Prop := {
  si_count : work (wk s) = Z.of_nat (size (children s));
  si_sealed : sealed (wk s) = true <-> own s = Joining \/ own s = Returned;
  si_returned : own s = Returned -> children s = ∅;
  si_request : forall r, own s = InRequest r -> (r < requests s)%nat;
  si_pool : Forall (fun x => HTTPVersion11 ∈ NextProtos p \/ snd x = HTTPVersion2) (pool s);
}.

Lemma size_child_pos c k (m : gmap nat child) : m !! c = Some k -> (0 < size m)%nat.
Proof. intros H. rewrite <- (insert_delete_id m c k H), map_size_insert_None by apply lookup_delete_eq. lia. Qed.

(** The end of a child is never a negative counter. *)
Lemma release_ok c k s : sys_inv s -> children s !! c = Some k ->
  exists s', release c s = Ret s' /\ sys_inv s' /\ own s' = own s /\ children s' = delete c (children s)
    /\ sealed (wk s') = sealed (wk s).
Proof.
  intros [Hn Hs Hr Hq Hp] Hc. pose proof (size_child_pos _ _ _ Hc) as Hpos. unfold release, work_Add.
  rewrite (proj2 (Z.ltb_ge _ _)), andb_false_r by lia. cbn [andb gbind]. eexists. split; [reflexivity|].
  split; [|auto]. split; cbn; auto.
  - rewrite Hn, map_size_delete_Some by eauto. lia.
  - intros Ho. rewrite (Hr Ho). apply delete_empty.
Qed.

Lemma set_child_inv c k k' s : sys_inv s -> children s !! c = Some k' -> sys_inv (set_child c k s).
Proof.
  intros [Hn Hs Hr Hq Hp] Hc. split; cbn; auto.
  - rewrite map_size_insert_Some by eauto. exact Hn.
  - intros Ho. rewrite (Hr Ho) in Hc. discriminate.
Qed.

Lemma hand_over_inv c proto err s : sys_inv s -> keep_tls proto err = true -> sys_inv (hand_over c proto s).
Proof.
  intros [Hn Hs Hr Hq Hp] Hk. split; cbn; auto. apply Forall_app_2; [exact Hp|]. apply list.Forall_singleton. cbn.
  apply andb_prop in Hk as [[Hk|Hk]%orb_prop _]; apply bool_decide_eq_true in Hk; auto.
Qed.

Lemma waiting_sealed s : sys_inv s -> sealed (wk s) = false -> waiting s = false.
Proof.
  intros [_ Hs _ _ _] E. unfold waiting. destruct (own s) eqn:Eo; auto. rewrite (proj2 Hs) in E by auto. discriminate.
Qed.

(** A dial is admitted before the seal, and only then. *)
Lemma beginHTTPDial_ok c h3 scope s : sys_inv s -> children s !! c = None ->
  exists r s', beginHTTPDial c h3 scope s = Ret (r, s') /\ sys_inv s' /\ own s' = own s
    /\ (sealed (wk s) = true -> r = Err ErrClosed /\ s' = s).
Proof.
  intros Hinv Hc. pose proof Hinv as [Hn Hs Hr Hrq Hp]. unfold beginHTTPDial, begin.
  destruct scope as [r|]; [|do 2 eexists; split; [reflexivity|]; auto].
  destruct (sealed (wk s)) eqn:Es; cbn [gbind negb]; [do 2 eexists; split; [reflexivity|]; auto|].
  unfold work_Add. rewrite (waiting_sealed s Hinv Es), (proj2 (Z.ltb_ge _ _)) by lia. cbn [andb gbind negb].
  do 2 eexists. split; [reflexivity|]. split; [|split; [reflexivity|discriminate]]. split; cbn; auto.
  - rewrite Hn, map_size_insert_None by exact Hc. lia.
  - rewrite Es. exact Hs.
  - intros Ho. discriminate (proj2 Hs (or_intror Ho)).
Qed.

Lemma owner_unsealed s : sys_inv s -> own s = Between -> sealed (wk s) = false.
Proof. intros [_ Hs _ _ _] Ho. destruct (sealed _) eqn:E; [|reflexivity]. destruct (proj1 Hs eq_refl); congruence. Qed.

Lemma probes_ok q t s : sys_inv s -> own s = Between -> children s !! q = None -> children s !! t = None -> q <> t ->
  exists w, work_Add (waiting s) 2 (wk s) = Ret w
    /\ sys_inv (set_child t ProbingTLS (set_child q ProbingQUIC (set_work w s))).
Proof.
  intros Hinv Ho Hq Ht Hne. pose proof (owner_unsealed s Hinv Ho) as Hu. pose proof (waiting_sealed s Hinv Hu) as Hw.
  destruct Hinv as [Hn Hs Hr Hrq Hp]. unfold work_Add. rewrite Hw, (proj2 (Z.ltb_ge _ _)) by lia. cbn [andb].
  eexists. split; [reflexivity|]. split; cbn; auto; [|congruence].
  rewrite !map_size_insert_None by (try rewrite lookup_insert_ne by congruence; assumption). rewrite Hn. lia.
Qed.

(** No event panics, and each keeps the invariant. *)
Lemma exec_ok e s r : sys_inv s -> exec e s = Some r -> exists s', r = Ret s' /\ sys_inv s'.
Proof.
  intros Hinv H. pose proof Hinv as [Hn Hs Hr Hrq Hp].
  assert (Hrel : forall c k s, sys_inv s -> children s !! c = Some k -> exists s', release c s = Ret s' /\ sys_inv s').
  { intros c k s0 H0 Hc. destruct (release_ok c k s0 H0 Hc) as (s' & ? & ? & _). eauto. }
  assert (Hown : forall r0, own s = InRequest r0 \/ own s = Between -> sealed (wk s) = true <-> False).
  { intros r0 Ho. rewrite Hs. split; [|tauto]. destruct Ho; intros [|]; congruence. }
  destruct e as [| | |q t| | |c h3 scope|c native|c neg dl|c rq|c|c]; cbn [exec] in H;
    [destruct (own s) as [r0| | |] eqn:Ho; try discriminate H..| | | | | |].
  - injection H as <-. eexists. split; [reflexivity|]. split; cbn; auto; try discriminate; [|intros r0 [= <-]; lia].
    rewrite (Hown 0%nat) by auto. split; [tauto|]. intros [|]; discriminate.
  - injection H as <-. eexists. split; [reflexivity|]. split; cbn; rewrite ?Ho; auto.
  - injection H as <-. eexists. split; [reflexivity|]. split; cbn; auto; try discriminate.
    rewrite (Hown r0) by auto. split; [tauto|]. intros [|]; discriminate.
  - destruct (children s !! q) eqn:Eq; [discriminate|]. destruct (children s !! t) eqn:Et; [discriminate|].
    case_bool_decide as Hne; [discriminate|]. injection H as <-.
    destruct (probes_ok q t s) as (w & -> & ?); eauto.
  - injection H as <-. eexists. split; [reflexivity|]. split; cbn; auto; try discriminate. tauto.
  - destruct (Z.eqb_spec (work (wk s)) 0); [|discriminate]. injection H as <-. eexists. split; [reflexivity|].
    split; cbn; auto; try discriminate; [rewrite Hs; tauto|]. intros _. apply map_size_empty_inv. lia.
  - destruct (children s !! c) eqn:Ec; [discriminate|]. destruct (scope_of_exchange _ _); [|discriminate].
    injection H as <-. destruct (beginHTTPDial_ok c h3 scope s) as (r & s' & -> & ? & _); cbn [gbind]; eauto.
  - destruct (children s !! c) as [[]|] eqn:Ec; try discriminate. injection H as <-.
    unfold check_context. destruct (_ || _); eauto using set_child_inv.
  - destruct (children s !! c) as [[]|] eqn:Ec; try discriminate. injection H as <-.
    eapply Hrel; [|destruct neg; [destruct (keep_tls _ _)|]; exact Ec].
    destruct neg; [destruct (keep_tls _ _) eqn:Ek|]; eauto using hand_over_inv.
  - destruct (children s !! c) as [[]|] eqn:Ec; try discriminate. injection H as <-. destruct rq; eauto using set_child_inv.
  - destruct (children s !! c) as [[]|] eqn:Ec; try discriminate. injection H as <-. eauto.
  - destruct (children s !! c) as [[]|] eqn:Ec; try discriminate; injection H as <-; eauto.
Qed.

Lemma work_reachable_inv s : reachable s -> sys_inv s.
Proof.
  induction 1 as [|e s s' _ IH H]; [|destruct (exec_ok e s _ IH H) as (s1 & [= <-] & H1); exact H1].
  split; cbn; auto; try discriminate. split; [discriminate|]. intros [|]; discriminate.
Qed.

(** ** The end of the wait *)

Definition dialing_quic (k : child) : bool := match k with DialingQUIC _ => true | _ => false end.

(** What is left to do when the work is sealed. *)
Definition todo (s : sys) : nat :=
  size (children s) + size (filter (fun x => dialing_quic (snd x) = true) (children s))
  + (if waiting s then 1 else 0).

Definition is_dial (e : event) : bool := match e with Dial _ _ _ => true | _ => false end.

Lemma release_todo c k s s' : sys_inv s -> children s !! c = Some k -> release c s = Ret s' ->
  own s' = own s /\ (todo s' < todo s)%nat.
Proof.
  intros Hinv Hc H. destruct (release_ok c k s Hinv Hc) as (s1 & H1 & _ & Ho & Hch & _).
  rewrite H1 in H. injection H as <-. split; [exact Ho|]. unfold todo, waiting. rewrite Ho, Hch, map_filter_delete.
  pose proof (size_child_pos _ _ _ Hc). rewrite map_size_delete_Some by eauto.
  pose proof (map_subseteq_size _ _ (delete_subseteq (filter (fun x => dialing_quic (snd x) = true) (children s)) c)). lia.
Qed.

Lemma early_todo c r s : children s !! c = Some (DialingQUIC r) -> (todo (set_child c Handshaking s) < todo s)%nat.
Proof.
  intros Hc. unfold todo. cbn [children set_child waiting own].
  rewrite map_size_insert_Some, map_filter_insert_False, map_filter_delete by (cbn; eauto; discriminate).
  assert (Hf : filter (fun x => dialing_quic (snd x) = true) (children s) !! c = Some (DialingQUIC r))
    by (apply map_lookup_filter_Some; auto).
  pose proof (size_child_pos _ _ _ Hf). rewrite map_size_delete_Some by eauto. unfold waiting. cbn. lia.
Qed.

(** Once the work is sealed, dials are refused and all else brings the end nearer. *)
Lemma sealed_exec e s s' : sys_inv s -> own s = Joining -> exec e s = Some (Ret s') ->
  if is_dial e then s' = s else (todo s' < todo s)%nat /\ (own s' = Joining \/ own s' = Returned).
Proof.
  intros Hinv Ho H.
  assert (Hrel : forall c k, children s !! c = Some k -> release c s = Ret s' ->
    (todo s' < todo s)%nat /\ (own s' = Joining \/ own s' = Returned)).
  { intros c k Hc Hx. destruct (release_todo c k s s' Hinv Hc Hx) as [-> ?]. auto. }
  destruct e as [| | |q t| | |c h3 scope|c native|c neg dl|c rq|c|c]; cbn [exec is_dial] in *; rewrite ?Ho in H; try discriminate.
  - destruct (work (wk s) =? 0); [|discriminate]. injection H as <-. unfold todo, waiting. cbn. rewrite Ho. split; [lia|auto].
  - destruct (children s !! c) eqn:Ec; [discriminate|]. destruct (scope_of_exchange _ _); [|discriminate].
    destruct (beginHTTPDial_ok c h3 scope s Hinv Ec) as (r & s1 & Hx & _ & _ & Hsl). rewrite Hx in H. injection H as <-.
    apply Hsl. apply (si_sealed _ Hinv). auto.
  - destruct (children s !! c) as [[]|] eqn:Ec; try discriminate. injection H as H. revert H. unfold check_context, request_done.
    rewrite bool_decide_false by congruence. cbn [negb orb]. eauto.
  - destruct (children s !! c) as [[]|] eqn:Ec; try discriminate. injection H as H.
    set (s1 := match neg with Ok proto => _ | Err _ => s end) in H.
    assert (H1 : sys_inv s1 /\ own s1 = own s /\ children s1 = children s).
    { subst s1. destruct neg; [destruct (keep_tls _ _) eqn:Ek|]; eauto using hand_over_inv. }
    destruct H1 as (H1 & Ho1 & Hc1). rewrite <- Hc1 in Ec. destruct (release_todo c _ s1 s' H1 Ec H) as [-> Ht].
    unfold todo, waiting in Ht |- *. rewrite Ho1, Hc1 in *. auto.
  - destruct (children s !! c) as [[]|] eqn:Ec; try discriminate. injection H as H. destruct rq; eauto.
    injection H as <-. split; [eapply early_todo; exact Ec|auto].
  - destruct (children s !! c) as [[]|] eqn:Ec; try discriminate. injection H as H. eauto.
  - destruct (children s !! c) as [[]|] eqn:Ec; try discriminate; injection H as H; eauto.
Qed.

Lemma returned_exec e s s' : sys_inv s -> own s = Returned -> exec e s = Some (Ret s') -> s' = s.
Proof.
  intros Hinv Ho H. pose proof (si_returned _ Hinv Ho) as Hch.
  destruct e as [| | |q t| | |c h3 scope|c native|c neg dl|c rq|c|c]; cbn [exec] in H; rewrite ?Ho, ?Hch, ?lookup_empty in H;
    try discriminate. destruct (scope_of_exchange _ _); [|discriminate].
  destruct (beginHTTPDial_ok c h3 scope s Hinv) as (r & s1 & Hx & _ & _ & Hsl); [rewrite Hch; apply lookup_empty|].
  rewrite Hx in H. injection H as <-. apply Hsl. apply (si_sealed _ Hinv). auto.
Qed.

(** A child can go on when what it waits for ends. *)
Lemma child_goes_on c k s : sys_inv s -> children s !! c = Some k -> exists e s', is_dial e = false /\ exec e s = Some (Ret s').
Proof.
  intros Hinv Hc. destruct (release_ok c k s Hinv Hc) as (s1 & H1 & _).
  destruct k as [h3 r|r|r| | |].
  - exists (CheckContext c true), s1. cbn. rewrite Hc. unfold check_context. rewrite orb_true_r, H1. auto.
  - exists (TLSDialed c (Err ErrClosed) None), s1. cbn. rewrite Hc, H1. auto.
  - exists (QUICDialed c QUICFailed), s1. cbn. rewrite Hc, H1. auto.
  - exists (Handshaked c), s1. cbn. rewrite Hc, H1. auto.
  - exists (Probed c), s1. cbn. rewrite Hc, H1. auto.
  - exists (Probed c), s1. cbn. rewrite Hc, H1. auto.
Qed.
End System.

Section Joined.
Context (p : upstream).

(** C10: When an exchange over HTTPS returns, nothing that it started is still setting
    up a connection, and nothing will.  In any interleaving of its requests,
    deadlines and probes with the dials of the HTTP transports, which come at any
    moment, even after the exchange, the wait group never panics: no reference is
    released twice, and none is taken while the last ones are waited for.  Once
    [Exchange] has returned, no dial, handshake or probe of it runs, and whatever
    happens then changes nothing: late dials are refused.  Every TLS connection that
    a transport got has negotiated HTTP/2, unless the upstream allows HTTP/1.1. *)
Theorem https_work_joined (s : sys) (Hs : reachable p s) :
  (forall e, exec p e s <> Some Panic)
  /\ (own s = Returned -> children s = ∅ /\ work (wk s) = 0 /\ forall e s', exec p e s = Some (Ret s') -> s' = s)
  /\ Forall (fun x => HTTPVersion11 ∈ NextProtos p \/ snd x = HTTPVersion2) (pool s).
Proof.
  pose proof (work_reachable_inv p s Hs) as Hinv. split; [|split; [|apply Hinv]].
  - intros e He. destruct (exec_ok p e s _ Hinv He) as (s' & ? & _). discriminate.
  - intros Ho. pose proof (si_returned _ _ Hinv Ho) as Hc. split; [exact Hc|]. split.
    + rewrite (si_count _ _ Hinv), Hc. reflexivity.
    + intros e s'. exact (returned_exec p e s s' Hinv Ho).
Qed.

Inductive execs : list event -> sys -> sys -> Prop :=
  | execs_nil s : execs [] s s
  | execs_cons e es s s' s'' : exec p e s = Some (Ret s') -> execs es s' s'' -> execs (e :: es) s s''.

(** The events that are not dials of the transports. *)
Definition own_events (es : list event) : list event := filter (fun e => is_dial e = false) es.

Lemma execs_joined es s s' : execs es s s' -> sys_inv p s -> own s = Joining \/ own s = Returned ->
  (length (own_events es) + todo s' <= todo s)%nat /\ sys_inv p s' /\ (own s' = Joining \/ own s' = Returned).
Proof.
  unfold own_events. induction 1 as [s|e es s s1 s' He _ IH]; intros Hinv Ho; [cbn; auto with lia|].
  destruct (exec_ok p e s _ Hinv He) as (s2 & [= <-] & H1).
  rewrite filter_cons. destruct Ho as [Ho|Ho].
  - pose proof (sealed_exec p e s s1 Hinv Ho He) as Hx. destruct (is_dial e).
    + subst s1. rewrite decide_False by discriminate. apply IH; auto.
    + destruct Hx as [Hlt Ho1]. rewrite decide_True by reflexivity. destruct (IH H1 Ho1) as (? & ? & ?). cbn [length]. split; [lia|auto].
  - pose proof (returned_exec p e s s1 Hinv Ho He) as ->. destruct (IH H1 (or_intror Ho)) as (Hle & ? & ?). split; [|auto].
    assert (Hd : is_dial e = true).
    { pose proof (si_returned _ _ Hinv Ho) as Hch. destruct e; cbn [exec is_dial] in *; rewrite ?Ho, ?Hch, ?lookup_empty in He; congruence. }
    rewrite Hd, decide_False by discriminate. exact Hle.
Qed.

(** C11: The wait of an exchange over HTTPS for what it started ends.  From the moment
    it seals its work, at most [todo] events can happen besides refused dials,
    whatever their order; and until it returns, one is possible that needs nothing
    but that a dial, a handshake or a probe that was admitted ends. *)
Theorem https_join_ends (s : sys) (Hs : reachable p s) (Hj : own s = Joining) es s' (He : execs es s s') :
  (length (own_events es) <= todo s)%nat
  /\ (own s' = Returned \/ exists e s'', is_dial e = false /\ exec p e s' = Some (Ret s'')).
Proof.
  destruct (execs_joined es s s' He (work_reachable_inv p s Hs) (or_introl Hj)) as (Hle & Hinv & Ho). split; [lia|].
  destruct Ho as [Ho|Ho]; [right|auto]. destruct (map_choose_or_empty (children s')) as [(c & k & Hc)|Hc].
  - exact (child_goes_on p c k s' Hinv Hc).
  - exists Waited. cbn. rewrite Ho, (si_count _ _ Hinv), Hc. eexists. auto.
Qed.
End Joined.

(** ** The HTTP/3 transport *)

Module H3Transport.

(** What the transport underneath answers, with [OnlyCachedConn] or without. *)
Definition round_trip {R} (closed : bool) (base : bool -> result R) : result R * list bool :=
  if closed then (Err ErrClosed, [])
  else match base true with
  | Err e => if errors_Is e "http3: no cached connection was available" then (base false, [true; false]) else (Err e, [true])
  | r => (r, [true])
  end.

(** The calls that hold the lock for reading, the call of [Close] that waits for it or
    holds it, and the state of the transport underneath; [writing] is between [Lock]
    and [Unlock]. *)
Record http3Transport := mkH3 {
  closed : bool;
  readers : gset nat;
  writer : bool;
  writing : bool;
  base_closed : bool;
}.

Definition new_h3 : http3Transport := mkH3 false ∅ false false false.

(** [sync.RWMutex]: a waiting writer keeps new readers out. *)
Definition RLock (c : nat) (h : http3Transport) : option http3Transport :=
  if writer h || bool_decide (c ∈ readers h) then None
  else Some (mkH3 (closed h) ({[c]} ∪ readers h) (writer h) (writing h) (base_closed h)).
Definition RUnlock (c : nat) (h : http3Transport) : http3Transport :=
  mkH3 (closed h) (readers h ∖ {[c]}) (writer h) (writing h) (base_closed h).

Inductive h3_event := Enter (c : nat) | Leave (c : nat) | CloseCalled | CloseLocked | CloseDone.

Definition h3_exec (e : h3_event) (h : http3Transport) : option http3Transport :=
  match e with
  | Enter c => RLock c h
  | Leave c => if bool_decide (c ∈ readers h) then Some (RUnlock c h) else None
  | CloseCalled => if writer h then None else Some (mkH3 (closed h) (readers h) true false (base_closed h))
  | CloseLocked =>
      if writer h && negb (writing h) && bool_decide (readers h = ∅)
      then Some (mkH3 true (readers h) true true (base_closed h)) else None
  | CloseDone =>
      if writing h then Some (mkH3 (closed h) (readers h) false false true) else None
  end.

Inductive h3_reachable : http3Transport -> Prop :=
  | h3_reach_new : h3_reachable new_h3
  | h3_reach e h h' : h3_reachable h -> h3_exec e h = Some h' -> h3_reachable h'.

(** While [Close] works no call is in, and the transport underneath is closed only when
    the flag is set. *)
Record h3_inv (h : http3Transport) : Prop := {
  hi_writing : writing h = true -> readers h = ∅ /\ closed h = true /\ writer h = true;
  hi_base : base_closed h = true -> closed h = true;
}.

Lemma h3_reachable_inv h : h3_reachable h -> h3_inv h.
Proof.
  induction 1 as [|e h h' _ [Hw Hb] H]; [split; discriminate|].
  destruct e as [c|c| | |]; cbn in H; unfold RLock in H.
  - destruct (writer h) eqn:Ew; [discriminate|]. case_bool_decide; [discriminate|]. injection H as <-. split; cbn; auto.
    intros Hx. destruct (Hw Hx) as (_ & _ & ?). congruence.
  - case_bool_decide as Hin; [|discriminate]. injection H as <-. split; cbn; auto.
    intros Hx. destruct (Hw Hx) as (Hr & _). rewrite Hr in Hin. set_solver.
  - destruct (writer h); [discriminate|]. injection H as <-. split; cbn; auto. discriminate.
  - destruct (writer h), (writing h); cbn [andb negb] in H; try discriminate. case_bool_decide; [|discriminate].
    injection H as <-. split; cbn; auto.
  - destruct (writing h); [|discriminate]. injection H as <-. destruct (Hw eq_refl) as (? & ? & _). split; cbn; auto.
Qed.

(** [Close] waits for the calls in progress, and calls that come later do not touch
    the transport underneath. *)
Lemma h3_close_excludes h : h3_reachable h ->
  (writing h = true -> readers h = ∅)
  /\ (base_closed h = true -> forall R (base : bool -> result R), round_trip (closed h) base = (Err ErrClosed, [])).
Proof.
  intros Hr. destruct (h3_reachable_inv h Hr) as [Hw Hb]. split; [intros Hx; apply Hw, Hx|].
  intros Hx R base. rewrite (Hb Hx). reflexivity.
Qed.

(** A new connection is dialed only if there is none. *)
Lemma round_trip_dials {R} (base : bool -> result R) :
  false ∈ snd (round_trip false base) <->
  exists e, base true = Err e /\ errors_Is e "http3: no cached connection was available" = true.
Proof.
  unfold round_trip. destruct (base true) as [r|e]; cbn.
  - rewrite list_elem_of_singleton. split; [discriminate|]. intros (e & ? & _). discriminate.
  - destruct (errors_Is e _) eqn:E; cbn.
    + split; [eauto|set_solver].
    + rewrite list_elem_of_singleton. split; [discriminate|]. intros (e' & [= <-] & ?). congruence.
Qed.

End H3Transport.

(** ** Examples *)

Module HttpWorkExamples.

Fixpoint run (p : upstream) (es : list event) (s : sys) : option sys :=
  match es with
  | [] => Some s
  | e :: es => match exec p e s with Some (Ret s') => run p es s' | _ => None end
  end.

Lemma run_reachable p es : forall s s', reachable p s -> run p es s = Some s' -> reachable p s'.
Proof.
  induction es as [|e es IH]; intros s s' Hs H; cbn in H; [congruence|].
  destruct (exec p e s) as [[s1|]|] eqn:E; try discriminate. apply (IH s1); [eapply reach_exec; eassumption|exact H].
Qed.

(** HTTP/2 only: QUIC is probed, TLS is slower; a dial for the request ends after it,
    and the next is refused. *)
Definition ups : upstream := mkUpstream true [HTTPVersion3; HTTPVersion2].
Definition until_join : list event :=
  [StartProbes 0 1; Probed 0; NewRequest; Dial 2 false (Some 0%nat); CheckContext 2 false; Dial 3 true (Some 0%nat);
   EndRequest; Join].
Definition after_join : list event :=
  [Dial 4 false (Some 0%nat); TLSDialed 2 (Ok HTTPVersion2) None; CheckContext 3 false; Probed 1; Waited].
Definition joining : sys := default new_sys (run ups until_join new_sys).
Definition returned : sys := default new_sys (run ups after_join joining).

Lemma joining_reachable : reachable ups joining.
Proof. apply (run_reachable ups until_join new_sys); [constructor|vm_compute; reflexivity]. Qed.
Lemma returned_reachable : reachable ups returned.
Proof. apply (run_reachable ups after_join joining); [exact joining_reachable|vm_compute; reflexivity]. Qed.

End HttpWorkExamples.

Lemma https_work_joined_witness :
  own HttpWorkExamples.returned = Returned /\ children HttpWorkExamples.returned = ∅
  /\ pool HttpWorkExamples.returned = [(2%nat, HTTPVersion2)].
Proof.
  destruct (https_work_joined HttpWorkExamples.ups HttpWorkExamples.returned HttpWorkExamples.returned_reachable)
    as (_ & Hr & _).
  split; [vm_compute; reflexivity|]. split; [apply Hr; vm_compute; reflexivity|vm_compute; reflexivity].
Defined.

Lemma https_join_ends_witness :
  todo HttpWorkExamples.joining = 4%nat /\ exists e s'', is_dial e = false /\ exec HttpWorkExamples.ups e HttpWorkExamples.joining = Some (Ret s'').
Proof.
  split; [vm_compute; reflexivity|].
  destruct (https_join_ends HttpWorkExamples.ups HttpWorkExamples.joining HttpWorkExamples.joining_reachable eq_refl
    [] HttpWorkExamples.joining (execs_nil _ _)) as [_ [Hr|Hr]]; [discriminate|exact Hr].
Defined.
