(* ===== verification/DoQ.v ===== *)
(** * The DNS-over-QUIC server (proxy/serverquic.go)

    One query of a stream: reading it, telling the version by its framing, the
    protocol errors of RFC 9250 and the request for the pipeline; and the choice
    of the clients that must prove their address.  A stream is the sequence of
    the results of its reads. *)

From stdpp Require Import gmap.
From Stdlib Require Import QArith.
From S2P Require Import Prelude NetIP DnsMsg RefDns GlCache NetUtil GoStrings Wire Cache CacheFacts CacheSpec.
From S2P Require Import Upstreams Receipt Parallel Fastip Exchange Messages Stats Context Recursion.
From S2P Require Import ProxyCache ResolveCache Pending Resolve ResolveFacts ResolveSpec Server Config.
#[local] Open Scope Z_scope.

(** ** Reading *)

Definition EOF : error := New "EOF".
(** [err == io.EOF] *)
Definition is_EOF (e : error) : bool := match e with New "EOF" => true | _ => false end.
Definition ErrShortBuffer : error := New "short buffer".
Definition ErrDeadlineExceeded : error := New "i/o timeout".

(** What arrives on a stream: data, each with the error that comes with its last
    byte, if any.  With nothing left a read waits until its deadline. *)
Definition stream := list (bytes * option error).

(** [acc] is [buf[:n]] and [size] is [len(buf)].  A read that is longer than the rest
    of the buffer leaves its tail, and its error, for the next one. *)
Fixpoint readAll (r : stream) (size : Z) (acc : bytes) : bytes * option error :=
  if len acc =? size then (acc, Some ErrShortBuffer)
  else match r with
  | [] => (acc, Some ErrDeadlineExceeded)
  | (c, err) :: r =>
      if size - len acc <? len c then (acc ++ take (Z.to_nat (size - len acc)) c, Some ErrShortBuffer)
      else match err with
      | Some e => (acc ++ c, if is_EOF e then None else Some e)
      | None => readAll r size (acc ++ c)
      end
  end.

(** ** A stream *)

Definition EDNS0TCPKEEPALIVE : Z := 11.
Definition DoQCodeProtocolError : Z := 2.
Definition minDNSPacketSize : Z := 12 + 5.

(** The state of a connection when the request is read. *)
Record quic_conn := mkConn {
  Used0RTT : bool;
  HandshakeComplete : bool;
  conn_RemoteAddr : Addr;
}.

(** [Option()] of an option *)
Definition option_code (o : EDNS0) : Z :=
  match o with EDNS0_SUBNET _ _ _ _ _ => EDNS0SUBNET | EDNS0_Other c _ => c end.

Definition isReplayableOpcode (opcode : Z) : bool := (opcode =? OpcodeQuery) || (opcode =? OpcodeNotify).

Definition isNonReplayableEarlyData (conn : quic_conn) (req : Msg) : bool :=
  if isReplayableOpcode (Opcode (Hdr req)) then false
  else if negb (Used0RTT conn) then false
  else negb (HandshakeComplete conn).

Section DoQ.
Context {DL : DnsLib} {GC : GlCache} {NU : NetUtil} {MC : MessageConstructor}.
Context {N : Type} {Out : Outside N} {Co : Conns N}.

(** The options of a message, none if it has no OPT record. *)
Definition opt_options (req : Msg) : list EDNS0 :=
  match IsEdns0 req with
  | Some i => match Extra req !! i with Some (mkRR _ (RD_OPT opts)) => opts | _ => [] end
  | None => []
  end.

Definition validQUICMsg (conn : quic_conn) (req : Msg) : bool :=
  if existsb (fun o => option_code o =? EDNS0TCPKEEPALIVE) (opt_options req) then false
  else negb (isNonReplayableEarlyData conn req).

Definition quic_request (buf : bytes) : (Msg * option error) * Z :=
  let packetLen := be_get (take 2 buf) in
  if packetLen =? len buf - 2 then (Unpack (drop 2 buf), DoQv1) else (Unpack buf, DoQv1Draft).

Definition handleQUICStream (pl : pipeline (N := N)) (st : stream) (conn : quic_conn) (id : Z) (s : proxy_state)
    : go proxy_state :=
  let abort := Ret (set_net (CloseWithError DoQCodeProtocolError (px_net s)) s) in
  let '(buf, err) := readAll st (2 + MaxMsgSize) [] in
  if match err with Some e => negb (is_EOF e) | None => false end || (len buf <? minDNSPacketSize) then Ret s
  else
    let '((req, err), doqVersion) := quic_request buf in
    match err with
    | Some _ => abort
    | None =>
        if negb (validQUICMsg conn req) then abort
        else
          let d := newDNSContext ProtoQUIC (Some req) (conn_RemoteAddr conn) id in
          let! (_, _, s) := handleDNSRequest pl (mkSession AddrZero doqVersion 0 []) d s in
          Ret s
    end.
End DoQ.

(** ** The address validator *)

(** gcache: an LRU cache with expiration; a time is that of the call. *)
Class GCache (C : Type) := {
  gc_Has : bytes -> Time -> C -> bool;
  gc_SetWithExpire : bytes -> Duration -> Time -> C -> option error * C;
}.

Section Validator.
Context {C : Type} {G : GCache C}.

(** The state is [v.cache]; the key is the text of the address. *)
Definition requiresValidation (ttl : Duration) (key : bytes) (now : Time) (cache : C) : go (bool * C) :=
  if gc_Has key now cache then Ret (false, cache)
  else match gc_SetWithExpire key ttl now cache with
  | (Some _, _) => Panic
  | (None, cache) => Ret (true, cache)
  end.
End Validator.

(** ** Facts *)

(** A stream with [b] and then its end. *)
Inductive arrives : stream -> bytes -> Prop :=
  | arrives_end c : arrives [(c, Some EOF)] c
  | arrives_more c st b : arrives st b -> arrives ((c, None) :: st) (c ++ b).

Lemma readAll_arrives st b size acc :
  arrives st b -> len acc + len b < size -> readAll st size acc = (acc ++ b, None).
Proof.
  intros H. revert acc. induction H as [c|c st b _ IH]; intros acc Hl; cbn [readAll].
  - rewrite (proj2 (Z.eqb_neq _ _)), (proj2 (Z.ltb_ge _ _)) by lia.
    reflexivity.
  - rewrite length_app in Hl.
    rewrite (proj2 (Z.eqb_neq _ _)), (proj2 (Z.ltb_ge _ _)) by lia.
    rewrite IH, app_assoc; [reflexivity|]. rewrite length_app. lia.
Qed.

(** A message with its length before it is of the first version, and one without it
    is of a draft unless the ID is the length less two. *)
Lemma quic_request_framed `{DnsLib} b :
  len b <= MaxUint16 -> quic_request (be_put 2 (len b) ++ b) = (Unpack b, DoQv1).
Proof.
  intros Hl. unfold quic_request. rewrite take_app_length' by reflexivity. rewrite drop_app_length' by reflexivity.
  rewrite be_get_put_small by (unfold MaxUint16 in *; cbn; lia).
  rewrite (proj2 (Z.eqb_eq _ _)); [reflexivity|]. rewrite length_app. change (length (be_put 2 _)) with 2%nat. lia.
Qed.

Section DoQFacts.
Context {DL : DnsLib} {DLaws : DnsLaws} {GC : GlCache} {GLaws : GlCacheLaws} {NU : NetUtil} {NL : NetUtilLaws}.
Context {MC : MessageConstructor} {ML : MessageLaws}.
Context {N : Type} {Out : Outside N} {OL : OutsideLaws Out} {Co : Conns N}.

(** A query that RFC 9250 lets the server process. *)
Definition doq_valid (conn : quic_conn) (req : Msg) : Prop :=
  Forall (fun o => option_code o <> EDNS0TCPKEEPALIVE) (opt_options req)
  /\ (Opcode (Hdr req) = OpcodeQuery \/ Opcode (Hdr req) = OpcodeNotify \/ Used0RTT conn = false \/ HandshakeComplete conn = true).

Lemma validQUICMsg_spec conn req : validQUICMsg conn req = true <-> doq_valid conn req.
Proof.
  unfold doq_valid, validQUICMsg, isNonReplayableEarlyData, isReplayableOpcode. rewrite list.Forall_forall.
  destruct (existsb _ _) eqn:E.
  - split; [discriminate|]. intros [H _]. apply existsb_exists in E as (o & Ho & Hc). apply list_elem_of_In in Ho.
    apply Z.eqb_eq in Hc. destruct (H o Ho Hc).
  - assert (H : forall o, o ∈ opt_options req -> option_code o <> EDNS0TCPKEEPALIVE).
    { intros o Ho Hc. apply list_elem_of_In in Ho. apply Z.eqb_eq in Hc.
      assert (existsb (fun o => option_code o =? EDNS0TCPKEEPALIVE) (opt_options req) = true) by (apply existsb_exists; eauto).
      congruence. }
    destruct (Z.eqb_spec (Opcode (Hdr req)) OpcodeQuery), (Z.eqb_spec (Opcode (Hdr req)) OpcodeNotify),
      (Used0RTT conn), (HandshakeComplete conn); cbn; intuition discriminate.
Qed.

(** What a stream comes to: nothing, an abort of the connection, or a request. *)
Inductive stream_outcome := Dropped | Aborted | Served (req : Msg) (version : Z).

Definition outcome_state (pl : pipeline (N := N)) (conn : quic_conn) (id : Z) (s : proxy_state) (o : stream_outcome)
    : go proxy_state :=
  match o with
  | Dropped => Ret s
  | Aborted => Ret (set_net (CloseWithError DoQCodeProtocolError (px_net s)) s)
  | Served req version =>
      let! (_, _, s) := handleDNSRequest pl (mkSession AddrZero version 0 [])
                          (newDNSContext ProtoQUIC (Some req) (conn_RemoteAddr conn) id) s in Ret s
  end.

Lemma handleQUICStream_cases st conn id s :
  exists o, (forall pl, handleQUICStream pl st conn id s = outcome_state pl conn id s o)
    /\ match o with
       | Served req version =>
           doq_valid conn req /\ (version = DoQv1 \/ version = DoQv1Draft)
           /\ fst (quic_request (fst (readAll st (2 + MaxMsgSize) []))) = (req, None)
       | _ => True
       end.
Proof.
  unfold handleQUICStream. destruct (readAll _ _ _) as [buf err]. cbn [fst].
  destruct (_ || _); [exists Dropped; auto|].
  destruct (quic_request buf) as [[req [e|]] version] eqn:E; [exists Aborted; auto|].
  destruct (validQUICMsg conn req) eqn:Ev; cbn [negb]; [|exists Aborted; auto].
  exists (Served req version). split; [reflexivity|]. split; [apply validQUICMsg_spec, Ev|]. split; [|reflexivity].
  unfold quic_request in E. destruct (_ =? _); injection E; auto.
Qed.

(** Whatever arrives on a DNS-over-QUIC stream, the server drops it, aborts the
    connection with a protocol error, or calls the pipeline once, with a request
    that has no TCP keepalive option and, in early data, is a query or a notify
    only (RFC 9250, sections 4.3.3 and 4.5); and with the default handler no
    stream can stop the proxy or break its state. *)
Theorem handleQUICStream_safe (p : Proxy) (st : stream) (conn : quic_conn) (id : Z) (s : proxy_state (N := N))
    (Hp : proxy_ok p) (Hs : proxy_fine p s) (Ha : wf_addr (conn_RemoteAddr conn))
    (Hf : fields_ok (fst (fst (quic_request (fst (readAll st (2 + MaxMsgSize) [])))))) :
  (exists o, (forall pl, handleQUICStream pl st conn id s = outcome_state pl conn id s o)
     /\ match o with Served req _ => doq_valid conn req | _ => True end)
  /\ exists s', handleQUICStream (processDNSRequest p (DefaultHandler p None) None) st conn id s = Ret s' /\ proxy_fine p s'.
Proof using DLaws GLaws ML NL OL.
  destruct (handleQUICStream_cases st conn id s) as (o & Ho & Hc). rewrite Ho. split.
  { exists o. split; [exact Ho|]. destruct o; tauto. }
  destruct o as [| |req version]; cbn [outcome_state]; [eauto| |].
  { eexists. split; [reflexivity|]. exact Hs. }
  destruct Hc as (_ & _ & Hq). rewrite Hq in Hf.
  destruct (process_total (fun _ => True) p (DefaultHandler p None) (mkSession AddrZero version 0 [])
    (newDNSContext ProtoQUIC (Some req) (conn_RemoteAddr conn) id) s req) as (err & d' & s' & He & Hs' & _); auto.
  { apply DefaultHandler_safe; auto. }
  { repeat split; auto. }
  unfold handleDNSRequest. rewrite He. eauto.
Qed.

(** A query arrives unchanged over a DNS-over-QUIC stream, in whatever pieces
    its bytes come: with its length before it, as RFC 9250 says, it is answered
    by the first version of the protocol; without it, as in the drafts, by the
    draft version, provided that its ID is not by chance its length less two (it
    is zero in the drafts). *)
Theorem doq_query_arrives (m : Msg) (b : bytes) (st : stream) (conn : quic_conn) (framed : bool) (pl : pipeline (N := N))
    (id : Z) (s : proxy_state) (Hp : Pack m = Ok b) (Hl : minDNSPacketSize <= len b < MaxMsgSize)
    (Hst : arrives st (if framed then be_put 2 (len b) ++ b else b))
    (Hid : framed = false -> be_get (take 2 b) <> len b - 2)
    (Hv : forall m', Unpack b = (m', None) -> doq_valid conn m') :
  exists m', msg_eqv m m'
    /\ handleQUICStream pl st conn id s
       = outcome_state pl conn id s (Served m' (if framed then DoQv1 else DoQv1Draft)).
Proof using DLaws.
  destruct (unpack_pack m b Hp) as (m' & Hu & Hm). exists m'. split; [exact Hm|].
  unfold handleQUICStream. assert (Hlen : len (be_put 2 (len b) ++ b) = 2 + len b).
  { rewrite length_app. change (length (be_put 2 _)) with 2%nat. lia. }
  rewrite (readAll_arrives st _ _ [] Hst) by (destruct framed; change (len []) with 0; lia).
  cbn [app is_EOF negb orb]. rewrite (proj2 (Z.ltb_ge _ _)) by (destruct framed; lia).
  assert (Hq : quic_request (if framed then be_put 2 (len b) ++ b else b)
               = ((m', None), if framed then DoQv1 else DoQv1Draft)).
  { destruct framed; [rewrite quic_request_framed, Hu; [reflexivity|unfold MaxMsgSize, MaxUint16 in *; lia]|].
    unfold quic_request. rewrite (proj2 (Z.eqb_neq _ _)), Hu by auto. reflexivity. }
  rewrite Hq, (proj2 (validQUICMsg_spec conn m')) by auto. reflexivity.
Qed.
End DoQFacts.

(** *** The validator *)

Section ValidatorFacts.
Context {C : Type} {G : GCache C}.
(** Setting works, and what is set is there until it expires. *)
Hypothesis set_works : forall k ttl now c, exists c', gc_SetWithExpire k ttl now c = (None, c').
Hypothesis set_has : forall k ttl now c c' now', gc_SetWithExpire k ttl now c = (None, c') ->
  now <= now' < now + ttl -> gc_Has k now' c' = true.

(** The validator never panics.  It asks a client to prove its address once in the
    time-to-live: the next connection from that address need not, and nothing
    that the client did in between matters, so also if it proved nothing. *)
Lemma requiresValidation_once ttl k now now' cache :
  gc_Has k now cache = false -> now <= now' < now + ttl ->
  exists cache', requiresValidation ttl k now cache = Ret (true, cache')
    /\ requiresValidation ttl k now' cache' = Ret (false, cache').
Proof using set_works set_has.
  intros Hh Ht. unfold requiresValidation. rewrite Hh. destruct (set_works k ttl now cache) as [c' Hc]. rewrite Hc.
  exists c'. split; [reflexivity|]. rewrite (set_has _ _ _ _ _ _ Hc Ht). reflexivity.
Qed.
End ValidatorFacts.

Module DoQExamples.
Import ServerExamples.

Definition conn0 : quic_conn := mkConn true false (Addr4 [192; 0; 2; 7]).

(** A framed query in three pieces. *)
Definition query : stream :=
  [(be_put 2 (len packet), None); (take 5 packet, None); (drop 5 packet, Some EOF)].

Lemma query_arrives : arrives query (be_put 2 (len packet) ++ packet).
Proof.
  pose proof (arrives_more (take 5 packet) _ _ (arrives_end (drop 5 packet))) as H. rewrite take_drop in H.
  exact (arrives_more _ _ _ H).
Qed.

(** A message that just fills the buffer is refused if its end is read on its own. *)
Example full_buffer :
  let b := make_bytes 20 in
  readAll [(b, Some EOF)] 20 [] = (b, None) /\ readAll [(b, None); ([], Some EOF)] 20 [] = (b, Some ErrShortBuffer).
Proof. vm_compute. auto. Qed.

(** An update in early data aborts the connection; once the handshake is complete it
    is served. *)
Definition update : Msg := upd_hdr (fun h => mkMsgHdr (Id h) false 5 false false true false false false false 0) a_req.
Example early_update :
  validQUICMsg conn0 update = false /\ validQUICMsg (mkConn true true AddrZero) update = true
  /\ validQUICMsg conn0 a_req = true.
Proof. vm_compute. auto. Qed.
End DoQExamples.

Lemma doq_query_arrives_witness :
  exists m', msg_eqv ServerExamples.a_req m'
    /\ handleQUICStream (processDNSRequest ResolveExamples.p (DefaultHandler ResolveExamples.p None) None)
         DoQExamples.query DoQExamples.conn0 1 ResolveExamples.s
       = outcome_state (processDNSRequest ResolveExamples.p (DefaultHandler ResolveExamples.p None) None)
           DoQExamples.conn0 1 ResolveExamples.s (Served m' DoQv1).
Proof.
  apply (doq_query_arrives ServerExamples.a_req ServerExamples.packet DoQExamples.query DoQExamples.conn0 true).
  - vm_compute. reflexivity.
  - vm_compute. split; [discriminate|reflexivity].
  - exact DoQExamples.query_arrives.
  - discriminate.
  - intros m'. rewrite ServerExamples.packet_unpacks. intros [= <-]. split; [constructor|]. left. reflexivity.
Defined.

Lemma handleQUICStream_safe_witness :
  exists s', handleQUICStream (processDNSRequest ResolveExamples.p (DefaultHandler ResolveExamples.p None) None)
      DoQExamples.query DoQExamples.conn0 1 ResolveExamples.s = Ret s' /\ proxy_fine ResolveExamples.p s'.
Proof.
  apply (handleQUICStream_safe ResolveExamples.p DoQExamples.query DoQExamples.conn0 1 ResolveExamples.s
    ResolveExamples.p_ok ServerExamples.s_fine).
  - split; [reflexivity|]. repeat constructor; vm_compute; discriminate.
  - assert (fst (fst (quic_request (fst (readAll DoQExamples.query (2 + MaxMsgSize) [])))) = ServerExamples.a_req) as ->
      by (vm_compute; reflexivity).
    exact ServerExamples.a_req_fields.
Defined.
