(* ===== verification/Accept.v ===== *)
(** * The loops of the listeners (proxy/server.go, serverudp.go, servertcp.go, serverquic.go)

    The goroutines that [serveListeners] starts and those that they start, as threads
    that share the semaphore of requests, the context of the listeners and the
    channel of failures.  A step is one event of one thread. *)

From stdpp Require Import list.
From S2P Require Import Prelude.
#[local] Open Scope nat_scope.

(** Where a goroutine is.  The loop of a UDP listener that acquires remembers
    whether its read also failed. *)
Inductive thread :=
  | UDPTop | UDPReading | UDPAcquire (failed : bool) | UDPPacket
  | TCPAccept | TCPAcquire | TCPConn
  | QUICAccept | QUICAcquire | QUICConn | QUICStreamAcquire | QUICStream
  | CryptAcquire | CryptRequest.

Inductive event :=
  | Check
  | ReadResult (data : bool) (err : option error)
  | Accepted
  | AcceptErr (err : error)
  (** What [acceptStream] meets: the state of its context after the deadline was set,
      and the outcomes of accepting and of setting the two deadlines. *)
  | AcceptStream (ctx_err accept_err read_err write_err : option error)
  | Acquired
  | AcquireErr (err : error)
  | Done
  (** A DNSCrypt server calls its handler; the proxy is stopped; the context of the
      listeners is cancelled; the owner of the proxy receives a failure. *)
  | NewCryptRequest | Stop | Cancel | Receive.

Record sys := mkSys {
  threads : list thread;
  held : nat;
  started : bool;
  cancelled : bool;
  listenerFailures : list error;
  received : list error;
}.

Definition with_threads (ts : list thread) (s : sys) : sys :=
  mkSys ts (held s) (started s) (cancelled s) (listenerFailures s) (received s).
Definition hold (s : sys) : sys :=
  mkSys (threads s) (S (held s)) (started s) (cancelled s) (listenerFailures s) (received s).
Definition release (s : sys) : sys :=
  mkSys (threads s) (pred (held s)) (started s) (cancelled s) (listenerFailures s) (received s).

(** golibs: whether a semaphore of a size gives a slot, with a number held. *)
Class Semaphores := NewChanSemaphore : nat -> nat -> bool.
Class SemaphoreLaws `{Semaphores} := chan_semaphore n h : NewChanSemaphore n h = true <-> h < n.

Section Accept.
Context {Sem : Semaphores}.
(** [Timeout()] of a [net.Error]; the sizes of the channel and of the semaphore. *)
Context (is_timeout : error -> bool) (fcap : nat) (maxGoroutines : nat).

(** [p.requestsSema] of [New] *)
Definition may_acquire (h : nat) : bool :=
  if 0 <? maxGoroutines then NewChanSemaphore maxGoroutines h else true.

Definition isNonCriticalNetError (err : error) : bool :=
  if errors_Is err "context deadline exceeded" then true else is_timeout err.

Definition reportListenerFailure (err : error) (s : sys) : sys :=
  if cancelled s then s
  else if length (listenerFailures s) <? fcap
  then mkSys (threads s) (held s) (started s) (cancelled s) (listenerFailures s ++ [err]) (received s)
  else s.

(** The threads in place of one, and the state, after its event. *)
Definition acquire (ts : list thread) (s : sys) : option (list thread * sys) :=
  if may_acquire (held s) then Some (ts, hold s) else None.

Definition udpPacketLoop (t : thread) (e : event) (s : sys) : option (list thread * sys) :=
  match t, e with
  | UDPTop, Check => Some (if started s then [UDPReading] else [], s)
  | UDPReading, ReadResult data err =>
      let s := match err with Some e => reportListenerFailure e s | None => s end in
      let failed := match err with Some _ => true | None => false end in
      Some (if data then [UDPAcquire failed] else if failed then [] else [UDPTop], s)
  | UDPAcquire failed, Acquired => acquire ((if failed then [] else [UDPTop]) ++ [UDPPacket]) s
  | UDPAcquire _, AcquireErr err => if cancelled s then Some ([], reportListenerFailure err s) else None
  | UDPPacket, Done => Some ([], release s)
  | _, _ => None
  end.

Definition tcpPacketLoop (t : thread) (e : event) (s : sys) : option (list thread * sys) :=
  match t, e with
  | TCPAccept, Accepted => Some ([TCPAcquire], s)
  | TCPAccept, AcceptErr err => Some ([], reportListenerFailure err s)
  | TCPAcquire, Acquired => acquire [TCPAccept; TCPConn] s
  | TCPAcquire, AcquireErr err => if cancelled s then Some ([], reportListenerFailure err s) else None
  | TCPConn, Done => Some ([], release s)
  | _, _ => None
  end.

Definition quicPacketLoop (t : thread) (e : event) (s : sys) : option (list thread * sys) :=
  match t, e with
  | QUICAccept, Accepted => Some ([QUICAcquire], s)
  | QUICAccept, AcceptErr err =>
      Some (if isNonCriticalNetError err then ([QUICAccept], s) else ([], reportListenerFailure err s))
  | QUICAcquire, Acquired => acquire [QUICAccept; QUICConn] s
  | QUICAcquire, AcquireErr err => if cancelled s then Some ([], reportListenerFailure err s) else None
  | _, _ => None
  end.

Definition acceptStream (ctx_err accept_err read_err write_err : option error) : option error :=
  match ctx_err, accept_err, read_err, write_err with
  | Some e, _, _, _ => Some (Errorf "checking accept ctx: %w" e)
  | None, Some e, _, _ => Some (Errorf "accepting quic stream: %w" e)
  | None, None, Some e, _ => Some (Errorf "setting read deadline: %w" e)
  | None, None, None, Some e => Some (Errorf "setting write deadline: %w" e)
  | None, None, None, None => None
  end.

Definition handleQUICConnection (t : thread) (e : event) (s : sys) : option (list thread * sys) :=
  match t, e with
  | QUICConn, AcceptStream ctx_err accept_err read_err write_err =>
      Some (match acceptStream ctx_err accept_err read_err write_err with
            | None => ([QUICStreamAcquire], s)
            | Some _ => ([], release s)
            end)
  | QUICStreamAcquire, Acquired => acquire [QUICConn; QUICStream] s
  | QUICStreamAcquire, AcquireErr _ => if cancelled s then Some ([], release s) else None
  | QUICStream, Done => Some ([], release s)
  | _, _ => None
  end.

(** [dnsCryptHandler.ServeDNS], whose context is that of the request. *)
Definition dnsCryptHandler_ServeDNS (t : thread) (e : event) (s : sys) : option (list thread * sys) :=
  match t, e with
  | CryptAcquire, Acquired => acquire [CryptRequest] s
  | CryptAcquire, AcquireErr _ => Some ([], s)
  | CryptRequest, Done => Some ([], release s)
  | _, _ => None
  end.

Definition step_thread (t : thread) (e : event) (s : sys) : option (list thread * sys) :=
  match t with
  | UDPTop | UDPReading | UDPAcquire _ | UDPPacket => udpPacketLoop t e s
  | TCPAccept | TCPAcquire | TCPConn => tcpPacketLoop t e s
  | QUICAccept | QUICAcquire => quicPacketLoop t e s
  | QUICConn | QUICStreamAcquire | QUICStream => handleQUICConnection t e s
  | CryptAcquire | CryptRequest => dnsCryptHandler_ServeDNS t e s
  end.

(** An event of the thread at [i], or of the proxy. *)
Definition step (i : nat) (e : event) (s : sys) : option sys :=
  match e with
  | NewCryptRequest => Some (with_threads (threads s ++ [CryptAcquire]) s)
  | Stop => Some (mkSys (threads s) (held s) false (cancelled s) (listenerFailures s) (received s))
  | Cancel => Some (mkSys (threads s) (held s) (started s) true (listenerFailures s) (received s))
  | Receive =>
      match listenerFailures s with
      | [] => None
      | f :: fs => Some (mkSys (threads s) (held s) (started s) (cancelled s) fs (received s ++ [f]))
      end
  | _ =>
      match threads s !! i with
      | None => None
      | Some t =>
          match step_thread t e s with
          | None => None
          | Some (ts, s') => Some (with_threads (take i (threads s) ++ ts ++ drop (S i) (threads s)) s')
          end
      end
  end.

Fixpoint run (es : list (nat * event)) (s : sys) : option sys :=
  match es with
  | [] => Some s
  | (i, e) :: es => match step i e s with Some s => run es s | None => None end
  end.

(** [serveListeners], for the numbers of listeners; TLS listeners are as TCP ones. *)
Definition serveListeners (udp tcp tls quic : nat) : sys :=
  mkSys (replicate udp UDPTop ++ replicate (tcp + tls) TCPAccept ++ replicate quic QUICAccept) 0 true false [] [].

(** ** Facts *)

(** The threads with a slot, and the handlers of requests among them; the loops that
    will go on. *)
Definition holds (t : thread) : bool :=
  match t with UDPPacket | TCPConn | QUICConn | QUICStreamAcquire | QUICStream | CryptRequest => true | _ => false end.
Definition handling (t : thread) : bool :=
  match t with UDPPacket | TCPConn | QUICStream | CryptRequest => true | _ => false end.
Definition looping (t : thread) : bool :=
  match t with
  | UDPTop | UDPReading | UDPAcquire false | TCPAccept | TCPAcquire | QUICAccept | QUICAcquire => true
  | _ => false
  end.
Definition count (f : thread -> bool) (ts : list thread) : nat := length (List.filter f ts).

Lemma count_app f ts ts' : count f (ts ++ ts') = count f ts + count f ts'.
Proof. unfold count. rewrite List.filter_app, length_app. reflexivity. Qed.

Lemma count_at f ts i t : ts !! i = Some t ->
  count f ts = count f (take i ts) + (if f t then 1 else 0) + count f (drop (S i) ts).
Proof.
  intros H. rewrite <- (take_drop_middle ts i t H) at 1. rewrite count_app. unfold count at 2.
  cbn [List.filter]. destruct (f t); cbn [length]; unfold count; lia.
Qed.

Lemma count_replicate f n t : count f (replicate n t) = if f t then n else 0.
Proof. induction n as [|n IH]; unfold count in *; cbn; destruct (f t); cbn; lia. Qed.

Lemma report_same err s :
  threads (reportListenerFailure err s) = threads s /\ held (reportListenerFailure err s) = held s
  /\ cancelled (reportListenerFailure err s) = cancelled s /\ started (reportListenerFailure err s) = started s
  /\ received (reportListenerFailure err s) = received s.
Proof. unfold reportListenerFailure. destruct (cancelled s) eqn:E; [|destruct (_ <? _)]; cbn; auto. Qed.

Lemma report_nonempty err s :
  cancelled s = false -> 0 < fcap -> listenerFailures (reportListenerFailure err s) <> [].
Proof.
  intros Hc Hf. unfold reportListenerFailure. rewrite Hc. destruct (Nat.ltb_spec (length (listenerFailures s)) fcap).
  - cbn. intros [_ H']%app_eq_nil. discriminate.
  - intros E. rewrite E in *. cbn in *. lia.
Qed.

(** Why a loop may have ended: the proxy is being stopped, or its owner is told. *)
Definition excused (s : sys) : Prop :=
  started s = false \/ cancelled s = true \/ (0 < fcap -> listenerFailures s ++ received s <> []).

(** What the step of a thread does to the slots, the flags and the loops. *)
Record effect (t : thread) (s : sys) (ts : list thread) (s' : sys) : Prop := {
  ef_held : held s' + (if holds t then 1 else 0) = held s + count holds ts;
  ef_acquired : held s' <= held s \/ (may_acquire (held s) = true /\ held s' = S (held s));
  ef_excused : excused s -> excused s';
  ef_loops : count looping ts = (if looping t then 1 else 0) \/ excused s';
}.

Lemma excused_report err s : excused (reportListenerFailure err s).
Proof.
  unfold excused. destruct (report_same err s) as (_ & _ & -> & -> & ->).
  destruct (cancelled s) eqn:E; [auto|]. right; right. intros Hf [H _]%app_eq_nil. revert H. apply report_nonempty; auto.
Qed.

Ltac effect_cases :=
  repeat match goal with
  | err : option error |- _ => destruct err as [?|]
  | |- context [if ?b then _ else _] => destruct b eqn:?
  end.

Lemma step_thread_effect t e s ts s' :
  (holds t = true -> 0 < held s) -> step_thread t e s = Some (ts, s') -> effect t s ts s'.
Proof.
  intros Hh Hx. assert (Hs : forall ts', effect t s ts' s <-> (if holds t then 1 else 0) = count holds ts'
      /\ (count looping ts' = (if looping t then 1 else 0) \/ excused s)).
  { intros ts'. split; [intros []; split; [lia|auto]|]. intros [? ?]. split; auto; lia. }
  assert (Hrep : forall ts' err, holds t = false -> count holds ts' = 0 -> effect t s ts' (reportListenerFailure err s)).
  { intros ts' err Ht Hc. destruct (report_same err s) as (_ & Hhe & _).
    split; rewrite ?Hhe, ?Ht, ?Hc; auto using excused_report. }
  assert (Hrel : forall ts', holds t = true -> looping t = false -> count holds ts' = 0 -> count looping ts' = 0 ->
    effect t s ts' (release s)).
  { intros ts' Ht Hl Hc Hc'. specialize (Hh Ht). split; rewrite ?Ht, ?Hl, ?Hc, ?Hc'; cbn; auto; lia. }
  assert (Hac : forall ts' r, acquire ts' s = Some r -> count holds ts' = (if holds t then 2 else 1) ->
    count looping ts' = (if looping t then 1 else 0) -> effect t s (fst r) (snd r)).
  { intros ts' r. unfold acquire. destruct (may_acquire (held s)) eqn:E; [|discriminate]. intros [= <-] Hc Hl. cbn.
    split; cbn; auto. destruct (holds t); lia. }
  revert Hx. unfold step_thread, udpPacketLoop, tcpPacketLoop, quicPacketLoop, handleQUICConnection, dnsCryptHandler_ServeDNS.
  destruct t as [| |[]| | | | | | | | | | |]; destruct e; try discriminate;
    try (intros Hx; refine (Hac _ (ts, s') Hx _ _); reflexivity); effect_cases; try discriminate;
    intros Hx; injection Hx as Hts Hs'; rewrite <- Hs', <- Hts;
    solve [apply Hrep; reflexivity | apply Hrel; reflexivity | apply Hs; split; [reflexivity|unfold excused; auto]].
Qed.

(** The slots are those of the threads that have one, within the size, and every
    loop goes on or has an excuse. *)
Record sys_inv (loops : nat) (s : sys) : Prop := {
  inv_held : held s = count holds (threads s);
  inv_bound : 0 < maxGoroutines -> held s <= maxGoroutines;
  inv_loops : count looping (threads s) = loops \/ excused s;
}.

Context {SL : SemaphoreLaws}.

Lemma may_acquire_bound h : may_acquire h = true -> 0 < maxGoroutines -> h < maxGoroutines.
Proof using SL. unfold may_acquire. intros H Hm. apply Nat.ltb_lt in Hm. rewrite Hm in H. apply chan_semaphore, H. Qed.

Lemma step_inv loops i e s s' : sys_inv loops s -> step i e s = Some s' -> sys_inv loops s'.
Proof using SL.
  intros [Hh Hb Hl] Hx.
  assert (Hth : forall t ts s1, threads s !! i = Some t -> step_thread t e s = Some (ts, s1) ->
    sys_inv loops (with_threads (take i (threads s) ++ ts ++ drop (S i) (threads s)) s1)).
  { intros t ts s1 Ht He. pose proof (count_at holds _ _ _ Ht) as Hc. pose proof (count_at looping _ _ _ Ht) as Hc'.
    destruct (step_thread_effect t e s ts s1) as [H1 H2 H3 H4]; [intros E; rewrite E in Hc; lia|exact He|].
    split; cbn [held threads with_threads]; rewrite ?count_app.
    - lia.
    - intros Hm. destruct H2 as [H2|[H2 ->]]; [specialize (Hb Hm); lia|]. apply may_acquire_bound; auto.
    - destruct H4 as [H4|H4]; [|right; exact H4]. destruct Hl as [Hl|Hl]; [left; lia|right; apply H3, Hl]. }
  destruct e; cbn [step] in Hx;
    try (destruct (threads s !! i) as [t|] eqn:Ht; [|discriminate];
         destruct (step_thread t _ s) as [[ts s1]|] eqn:He; [|discriminate]; injection Hx as <-; exact (Hth t ts s1 eq_refl He)).
  - injection Hx as <-. split; cbn [held threads with_threads]; rewrite ?count_app, ?(Nat.add_0_r _ : _ + count holds [CryptAcquire] = _); [exact Hh|exact Hb|].
    destruct Hl as [Hl|Hl]; [left|right; exact Hl]. change (count looping [CryptAcquire]) with 0. lia.
  - injection Hx as <-. split; cbn; [exact Hh|exact Hb|right; left; reflexivity].
  - injection Hx as <-. split; cbn; [exact Hh|exact Hb|right; right; left; reflexivity].
  - destruct (listenerFailures s) as [|f fs] eqn:E; [discriminate|]. injection Hx as <-. split; cbn; [exact Hh|exact Hb|].
    destruct Hl as [Hl|[Hl|[Hl|Hl]]]; [left; exact Hl|right; left; exact Hl|right; right; left; exact Hl|].
    right; right; right. intros _ [_ H]%app_eq_nil. apply app_eq_nil in H as [_ H]. discriminate.
Qed.

Lemma serveListeners_inv udp tcp tls quic :
  sys_inv (udp + (tcp + tls) + quic) (serveListeners udp tcp tls quic).
Proof.
  split; cbn [serveListeners held threads]; [|lia|left]; rewrite !count_app, !count_replicate; cbn; lia.
Qed.

Lemma accept_run_inv loops es : forall s s', sys_inv loops s -> run es s = Some s' -> sys_inv loops s'.
Proof using SL.
  induction es as [|[i e] es IH]; intros s s' Hs; cbn [run]; [intros [= <-]; exact Hs|].
  destruct (step i e s) as [s1|] eqn:E; [|discriminate]. apply IH. eapply step_inv; eauto.
Qed.

Lemma count_le f g ts : (forall t, f t = true -> g t = true) -> count f ts <= count g ts.
Proof.
  intros H. unfold count. induction ts as [|t ts IH]; [reflexivity|]. cbn. specialize (H t).
  destruct (f t), (g t); cbn; lia.
Qed.


(** *** Connections that wait for their own slots *)

(** Every slot is that of a connection whose next stream waits for a slot. *)
Definition starved (s : sys) : Prop :=
  cancelled s = false /\ may_acquire (held s) = false /\ 0 < held s
  /\ Forall (fun t => holds t = true -> t = QUICStreamAcquire) (threads s).

Lemma starved_thread t e s ts s' :
  starved s -> (holds t = true -> t = QUICStreamAcquire) -> step_thread t e s = Some (ts, s') ->
  cancelled s' = false /\ held s' = held s /\ Forall (fun t => holds t = true -> t = QUICStreamAcquire) ts.
Proof.
  intros (Hc & Hm & _ & _) Ht. pose proof (fun err => report_same err s) as Hr.
  unfold step_thread, udpPacketLoop, tcpPacketLoop, quicPacketLoop, handleQUICConnection, dnsCryptHandler_ServeDNS, acquire.
  rewrite Hm, Hc. destruct t; try (specialize (Ht eq_refl); discriminate); destruct e; try discriminate;
    effect_cases; try discriminate; intros Hx; injection Hx as Hts Hs'; rewrite <- Hs', <- Hts;
    try (edestruct Hr as (_ & -> & -> & _)); (split; [exact Hc|]); (split; [reflexivity|]);
    repeat constructor; intros ?; discriminate.
Qed.

Lemma starved_step i e s s' : starved s -> e <> Cancel -> step i e s = Some s' -> starved s'.
Proof.
  intros Hs He Hx. pose proof Hs as (Hc & Hm & Hp & Hf).
  assert (Hth : forall t ts s1, threads s !! i = Some t -> step_thread t e s = Some (ts, s1) ->
    starved (with_threads (take i (threads s) ++ ts ++ drop (S i) (threads s)) s1)).
  { intros t ts s1 Ht Hst. destruct (starved_thread t e s ts s1 Hs) as (H1 & H2 & H3); [|exact Hst|].
    { eapply Forall_lookup_1 in Hf; [|exact Ht]. exact Hf. }
    unfold starved. cbn [with_threads held cancelled threads]. rewrite H2. repeat split; auto.
    apply Forall_app. split; [apply Forall_take, Hf|]. apply Forall_app. split; [exact H3|apply Forall_drop, Hf]. }
  destruct e; cbn [step] in Hx; try congruence;
    try (destruct (threads s !! i) as [t|] eqn:Ht; [|discriminate];
         destruct (step_thread t _ s) as [[ts s1]|] eqn:Hst; [|discriminate]; injection Hx as <-; exact (Hth t ts s1 eq_refl Hst)).
  - injection Hx as <-. unfold starved. cbn. repeat split; auto. apply Forall_app. split; [exact Hf|].
    repeat constructor. discriminate.
  - injection Hx as <-. exact Hs.
  - destruct (listenerFailures s); [discriminate|]. injection Hx as <-. exact Hs.
Qed.

Lemma starved_run es : forall s s', starved s -> Forall (fun x => snd x <> Cancel) es -> run es s = Some s' -> starved s'.
Proof.
  induction es as [|[i e] es IH]; intros s s' Hs Hc; cbn [run]; [intros [= <-]; exact Hs|].
  apply Forall_cons_1 in Hc as [He Hc]. destruct (step i e s) as [s1|] eqn:E; [|discriminate].
  apply IH; [|exact Hc]. eapply starved_step; eauto.
Qed.

Lemma run_app es es' s : run (es ++ es') s = match run es s with Some s' => run es' s' | None => None end.
Proof. revert s. induction es as [|[i e] es IH]; intros s; cbn; [reflexivity|]. destruct (step i e s); auto. Qed.

(** A QUIC listener with as many connections as there are slots; then each of them
    gets a stream. *)
Definition quic_sys (conns waiting : nat) : sys :=
  mkSys (QUICAccept :: replicate waiting QUICStreamAcquire ++ replicate conns QUICConn) (conns + waiting) true false [] [].

Lemma may_acquire_lt h : h < maxGoroutines -> may_acquire h = true.
Proof using SL. intros H. unfold may_acquire. destruct (0 <? maxGoroutines); [|reflexivity]. apply chan_semaphore, H. Qed.

Lemma connect_one c : c < maxGoroutines -> run [(0, Accepted); (0, Acquired)] (quic_sys c 0) = Some (quic_sys (S c) 0).
Proof using SL.
  intros Hc. unfold quic_sys. rewrite !Nat.add_0_r. cbn. unfold acquire. cbn [held with_threads].
  rewrite may_acquire_lt by exact Hc. reflexivity.
Qed.

(** A stream is accepted. *)
Definition opened : event := AcceptStream None None None None.

Lemma step_at l1 t l2 s ts s1 :
  threads s = l1 ++ t :: l2 -> step_thread t opened s = Some (ts, s1) ->
  step (length l1) opened s = Some (with_threads (l1 ++ ts ++ l2) s1).
Proof.
  intros Ht He. cbn [step opened]. change (AcceptStream None None None None) with opened. rewrite Ht, list_lookup_middle, He by reflexivity. rewrite take_app_length.
  rewrite drop_app_ge by lia. replace (S (length l1) - length l1) with 1 by lia. reflexivity.
Qed.

Lemma open_one c w : run [(S w, opened)] (quic_sys (S c) w) = Some (quic_sys c (S w)).
Proof.
  cbn [run]. pose proof (step_at (QUICAccept :: replicate w QUICStreamAcquire) QUICConn (replicate c QUICConn)
    (quic_sys (S c) w) [QUICStreamAcquire] (quic_sys (S c) w) eq_refl eq_refl) as H.
  cbn [length] in H. rewrite length_replicate in H. rewrite H. unfold quic_sys, with_threads. cbn [held started cancelled listenerFailures received].
  f_equal. f_equal; [|lia]. cbn [app]. f_equal. rewrite replicate_S_end, <- app_assoc. reflexivity.
Qed.

Lemma connect k : forall c, c + k <= maxGoroutines ->
  exists es, Forall (fun x => snd x <> Cancel) es /\ run es (quic_sys c 0) = Some (quic_sys (k + c) 0).
Proof using SL.
  induction k as [|k IH]; intros c Hk; [exists []; split; [constructor|reflexivity]|].
  destruct (IH (S c)) as (es & He & Hr); [lia|]. exists ([(0, Accepted); (0, Acquired)] ++ es).
  split; [repeat constructor; auto; discriminate|].
  rewrite run_app, connect_one, Hr by lia. do 2 f_equal. lia.
Qed.

Lemma open_streams k : forall w,
  exists es, Forall (fun x => snd x <> Cancel) es /\ run es (quic_sys k w) = Some (quic_sys 0 (k + w)).
Proof.
  induction k as [|k IH]; intros w; [exists []; split; [constructor|reflexivity]|].
  destruct (IH (S w)) as (es & He & Hr). exists ([(S w, opened)] ++ es).
  split; [constructor; [discriminate|exact He]|]. rewrite run_app, open_one, Hr. do 2 f_equal. lia.
Qed.

(** C20: A connection of DNS over QUIC keeps its slot of the semaphore while the next
    of its streams waits for one.  So with any limit there is a run, of one
    listener and as many connections with a stream each as the limit, after which
    no request of any protocol is ever processed again until the context of the
    listeners is cancelled, that is, until the proxy is shut down. *)
Theorem quic_starvation (Hm : 0 < maxGoroutines) :
  exists es s, Forall (fun x => snd x <> Cancel) es /\ run es (serveListeners 0 0 0 1) = Some s
    /\ count holds (threads s) = maxGoroutines
    /\ forall es' s', Forall (fun x => snd x <> Cancel) es' -> run es' s = Some s' -> count handling (threads s') = 0.
Proof using SL.
  destruct (connect maxGoroutines 0) as (es1 & H1 & R1); [lia|]. destruct (open_streams maxGoroutines 0) as (es2 & H2 & R2).
  rewrite !Nat.add_0_r in *. exists (es1 ++ es2), (quic_sys 0 maxGoroutines).
  split; [apply Forall_app; auto|]. split; [rewrite run_app; change (serveListeners 0 0 0 1) with (quic_sys 0 0); rewrite R1; exact R2|].
  split. { cbn [quic_sys threads replicate]. change (QUICAccept :: ?l) with ([QUICAccept] ++ l). rewrite !count_app, !count_replicate. cbn. lia. }
  intros es' s' Hc Hr.
  assert (Hs : starved (quic_sys 0 maxGoroutines)).
  { split; [reflexivity|]. split; [|split; [exact Hm|]].
    - unfold may_acquire. cbn [quic_sys held]. destruct (Nat.ltb_spec 0 maxGoroutines); [|lia].
      apply not_true_is_false. intros E. apply chan_semaphore in E. lia.
    - constructor; [discriminate|]. rewrite app_nil_r. apply Forall_replicate. reflexivity. }
  destruct (starved_run es' _ _ Hs Hc Hr) as (_ & _ & _ & Hf). clear -Hf. unfold count.
  induction Hf as [|t ts Ht _ IH]; [reflexivity|]. cbn. destruct t; try exact IH; discriminate (Ht eq_refl).
Qed.
End Accept.

Module AcceptExamples.
#[global] Instance sema : Semaphores := fun n h => h <? n.
#[global] Instance sema_laws : SemaphoreLaws.
Proof. intros n h. apply Nat.ltb_lt. Qed.

(** A UDP and a TCP listener with one slot: a connection waits for the packet, whose
    socket then fails. *)
Definition events : list (nat * event) :=
  [(0, Check); (0, ReadResult true (Some (New "lost"))); (1, Accepted); (0, Acquired); (0, Done); (0, Acquired); (0, Receive)].
Definition final : sys :=
  mkSys [TCPAccept; TCPConn] 1 true false [] [New "lost"].
End AcceptExamples.


Lemma quic_starvation_witness :
  exists es s, run (fun _ => false) 1 2 es (serveListeners 0 0 0 1) = Some s /\ count holds (threads s) = 2.
Proof.
  destruct (quic_starvation (fun _ => false) 1 2) as (es & s & _ & Hr & Hc & _); [lia|]. exists es, s. auto.
Defined.
