(* ===== verification/Lookup.v ===== *)
(** * Looking up addresses through the proxy (proxy/lookup.go)

    [LookupNetIP] resolves a host for A and AAAA with two calls of [Resolve] in
    goroutines of their own and puts the addresses in the preferred order.  The two
    calls run one after the other here, in either order, and their results are
    received in either order. *)

From stdpp Require Import gmap.
From Stdlib Require Import QArith.
From S2P Require Import Prelude NetIP DnsMsg RefDns GlCache NetUtil Wire Cache CacheFacts CacheSpec Ecs.
From S2P Require Import Upstreams Bootstrap Dns64 Receipt Parallel Fastip Exchange Messages Stats Context Recursion.
From S2P Require Import ProxyCache ResolveCache Pending Resolve ResolveFacts ResolveSpec Server.
#[local] Open Scope Z_scope.

Record lookupResult := mkLookupResult { lr_resp : option Msg; lr_err : option error }.

Definition ErrEmptyHost : error := New "host is empty".

Fixpoint appendAnswerAddrs (addrs : list Addr) (ans : list RR) : list Addr :=
  match ans with
  | [] => addrs
  | rr :: ans =>
      let a := IPFromRR rr in
      appendAnswerAddrs (if bool_decide (a = AddrZero) then addrs else addrs ++ [a]) ans
  end.

Section Lookup.
Context {DL : DnsLib} {DN : DnsNames} {GC : GlCache} {NU : NetUtil} {MC : MessageConstructor} {PR : Preference}.
Context {N : Type} {Out : Outside N}.
(** [dns.Msg.SetQuestion] of an empty message, with a random identifier, and
    [errors.FromRecovered] of golibs for a panic. *)
Context (SetQuestion : bytes -> Z -> N -> Msg) (recovered : error).

(** [id] is the value of the request counter. *)
Definition lookupIPAddr (p : Proxy) (host : bytes) (qtype : Z) (id : Z) (s : proxy_state (N := N))
    : lookupResult * proxy_state (N := N) :=
  let d := newDNSContext ProtoUDP (Some (SetQuestion host qtype (px_net s))) AddrZero id in
  match Resolve p None d s with
  | Ret (d, err, s, _) => (mkLookupResult (Res d) err, s)
  | Panic => (mkLookupResult None (Some recovered), s)
  end.

(** The error of the context if it is done at the [i]-th receive. *)
Definition done_at (cancel : option (nat * error)) (i : nat) : option error :=
  match cancel with Some (k, err) => if (k <=? i)%nat then Some err else None | None => None end.

(** The loop that receives the results. *)
Fixpoint receive_results (i : nat) (cancel : option (nat * error)) (results : list lookupResult) (addrs : list Addr)
    (errs : list error) : go (result (list Addr * list error)) :=
  match results with
  | [] => Ret (Ok (addrs, errs))
  | r :: results =>
      match done_at cancel i with
      | Some err => Ret (Err err)
      | None =>
          match lr_err r with
          | Some err => receive_results (S i) cancel results addrs (errs ++ [err])
          | None =>
              let! resp := deref (lr_resp r) in
              receive_results (S i) cancel results (appendAnswerAddrs addrs (Answer resp)) errs
          end
      end
  end.

(** The two goroutines: [swap_run] and [swap] are the orders in which they run and
    in which their results are received. *)
Definition run_lookups (p : Proxy) (host : bytes) (swap_run swap : bool) (id : Z) (s : proxy_state (N := N))
    : list lookupResult * proxy_state (N := N) :=
  let first := if swap_run then TypeAAAA else TypeA in
  let second := if swap_run then TypeA else TypeAAAA in
  let '(r1, s) := lookupIPAddr p host first id s in
  let '(r2, s) := lookupIPAddr p host second (id + 1) s in
  (if swap then [r2; r1] else [r1; r2], s).

(** [ctxErr] is [ctx.Err()] at the start; [p.preferIPv6] is [preferV6]. *)
Definition LookupNetIP (p : Proxy) (preferV6 : bool) (ctxErr : option error) (cancel : option (nat * error))
    (swap_run swap : bool) (host : bytes) (id : Z) (s : proxy_state (N := N))
    : go (list Addr * option error * proxy_state (N := N)) :=
  match host with
  | [] => Ret ([], Some ErrEmptyHost, s)
  | _ =>
      match ctxErr with
      | Some err => Ret ([], Some err, s)
      | None =>
          let '(results, s) := run_lookups p (Fqdn host) swap_run swap id s in
          let! x := receive_results 0 cancel results [] [] in
          match x with
          | Err err => Ret ([], Some err, s)
          | Ok (addrs, errs) =>
              if (length addrs =? 0)%nat && negb (length errs =? 0)%nat then Ret (addrs, join_errors errs, s)
              else Ret (SortStableFunc (if preferV6 then PreferIPv6 else PreferIPv4) addrs, None, s)
          end
      end
  end.
End Lookup.

(** ** Facts *)

Lemma appendAnswerAddrs_omap ans : forall addrs,
  appendAnswerAddrs addrs ans = addrs ++ omap (fun rr => if bool_decide (IPFromRR rr = AddrZero) then None else Some (IPFromRR rr)) ans.
Proof.
  induction ans as [|rr ans IH]; intros addrs; cbn [appendAnswerAddrs omap list_omap]; [rewrite app_nil_r; reflexivity|].
  rewrite IH. destruct (bool_decide _); [reflexivity|]. rewrite <- app_assoc. reflexivity.
Qed.

(** The addresses and the errors of results. *)
Definition result_addrs (r : lookupResult) : list Addr :=
  match lr_err r, lr_resp r with
  | None, Some m => omap (fun rr => if bool_decide (IPFromRR rr = AddrZero) then None else Some (IPFromRR rr)) (Answer m)
  | _, _ => []
  end.
Definition answers (r : lookupResult) : Prop := lr_err r <> None \/ lr_resp r <> None.

Lemma receive_results_all results : forall i addrs errs, Forall answers results ->
  receive_results i None results addrs errs
  = Ret (Ok (addrs ++ (results ≫= result_addrs), errs ++ omap lr_err results)).
Proof.
  induction results as [|r results IH]; intros i addrs errs Hf; cbn [receive_results done_at].
  { cbn. rewrite !app_nil_r. reflexivity. }
  apply Forall_cons_1 in Hf as [Hr Hf]. cbn [mbind list_bind omap list_omap]. unfold answers in Hr. unfold result_addrs at 1.
  destruct (lr_err r) as [e|].
  - rewrite IH by exact Hf. rewrite <- app_assoc. reflexivity.
  - destruct (lr_resp r) as [m|]; [|destruct Hr; congruence]. cbn [deref gbind]. rewrite IH by exact Hf.
    rewrite appendAnswerAddrs_omap, <- app_assoc. reflexivity.
Qed.

(** Whatever is received before the context is done, its error is returned. *)
Lemma receive_results_cancelled results : forall i k err addrs errs, Forall answers results -> (i <= k < i + length results)%nat ->
  receive_results i (Some (k, err)) results addrs errs = Ret (Err err).
Proof.
  induction results as [|r results IH]; intros i k err addrs errs Hf Hk; cbn [length receive_results done_at] in *.
  { lia. }
  apply Forall_cons_1 in Hf as [Hr Hf]. destruct (Nat.leb_spec k i); [reflexivity|]. unfold answers in Hr.
  destruct (lr_err r); [apply IH; [exact Hf|lia]|]. destruct (lr_resp r); [|destruct Hr; congruence]. cbn [deref gbind].
  apply IH; [exact Hf|lia].
Qed.

(** A context that is done later does not matter. *)
Lemma receive_results_late results : forall i cancel addrs errs, done_at cancel (i + length results - 1) = None ->
  receive_results i cancel results addrs errs = receive_results i None results addrs errs.
Proof.
  induction results as [|r results IH]; intros i cancel addrs errs Hd; [reflexivity|]. cbn [receive_results length] in *.
  assert (Hi : done_at cancel i = None).
  { revert Hd. destruct cancel as [[k e]|]; [|reflexivity]. cbn. destruct (Nat.leb_spec k i), (Nat.leb_spec k (i + S (length results) - 1)); try reflexivity; [discriminate|lia]. }
  assert (Hd' : done_at cancel (S i + length results - 1) = None) by (rewrite <- Hd; f_equal; lia).
  rewrite Hi. cbn [done_at]. destruct (lr_err r); [apply IH, Hd'|]. destruct (lr_resp r); cbn [deref gbind]; [apply IH, Hd'|reflexivity].
Qed.

Section LookupFacts.
Context {DL : DnsLib} {DLaws : DnsLaws} {DN : DnsNames} {GC : GlCache} {GLaws : GlCacheLaws} {NU : NetUtil} {NL : NetUtilLaws}.
Context {MC : MessageConstructor} {ML : MessageLaws} {PR : Preference} {PL : PreferenceLaws}.
Context {N : Type} {Out : Outside N} {OL : OutsideLaws Out}.
Context (SetQuestion : bytes -> Z -> N -> Msg) (recovered : error).
Hypothesis SetQuestion_spec : forall name ty n,
  let m := SetQuestion name ty n in Question m = [mkQ name ty ClassINET] /\ Answer m = [] /\ Ns m = [] /\ Extra m = [].

Definition host_ok (host : bytes) : Prop := Forall (fun c => 0 < c < 256) (Fqdn host).

Lemma lookupIPAddr_answers p host qtype id s :
  proxy_ok p -> proxy_fine p s -> host_ok host -> 0 <= qtype <= MaxUint16 ->
  let '(r, s') := lookupIPAddr SetQuestion recovered p (Fqdn host) qtype id s in answers r /\ proxy_fine p s'.
Proof using SetQuestion_spec DLaws GLaws ML NL OL.
  intros Hp Hs Hh Hq. unfold lookupIPAddr. set (req := SetQuestion _ _ _). set (d := newDNSContext _ _ _ _).
  destruct (SetQuestion_spec (Fqdn host) qtype (px_net s)) as (HQ & HA & HN & HE). fold req in HQ, HA, HN, HE.
  destruct (DefaultHandler_safe (fun _ => True) (fun _ _ _ H => H) p Hp d s req (mkQ (Fqdn host) qtype ClassINET)) as (err & d' & s' & Hx & Hs' & _ & Hr & _); auto.
  - repeat split.
  - split; [unfold typed_msg; rewrite HA, HN, HE; constructor|]. rewrite HQ. repeat constructor; cbn; try lia; try discriminate. exact Hh.
  - unfold DefaultHandler in Hx. destruct (Resolve p None d s) as [[[[d1 e1] s1] rf]|]; [|discriminate]. cbn [gbind] in Hx.
    injection Hx as -> -> ->. split; [|exact Hs']. unfold answers. cbn. destruct err as [e|]; [left; discriminate|right].
    destruct Hr as [[=]|[res ->]]. discriminate.
Qed.

Lemma run_lookups_answer p host swap_run swap id s :
  proxy_ok p -> proxy_fine p s -> host_ok host ->
  let '(rs, s') := run_lookups SetQuestion recovered p (Fqdn host) swap_run swap id s in
  Forall answers rs /\ length rs = 2%nat /\ proxy_fine p s'.
Proof using SetQuestion_spec DLaws GLaws ML NL OL.
  intros Hp Hs Hh. unfold run_lookups.
  pose proof (lookupIPAddr_answers p host (if swap_run then TypeAAAA else TypeA) id s Hp Hs Hh) as H1.
  destruct (lookupIPAddr _ _ _ _ _ id s) as [r1 s1]. destruct H1 as [H1 Hs1]; [destruct swap_run; vm_compute; split; discriminate|].
  pose proof (lookupIPAddr_answers p host (if swap_run then TypeA else TypeAAAA) (id + 1) s1 Hp Hs1 Hh) as H2.
  destruct (lookupIPAddr _ _ _ _ _ (id + 1) s1) as [r2 s2]. destruct H2 as [H2 Hs2]; [destruct swap_run; vm_compute; split; discriminate|].
  destruct swap; (split; [constructor; [assumption|constructor; [assumption|constructor]]|split; [reflexivity|exact Hs2]]).
Qed.

(** C23: Looking up a host through the proxy always returns, in whatever order the two
    requests run and finish, and keeps the state of the proxy well formed.  Without
    cancellation the result is all addresses of the answers to both requests, each
    as often as they have it, those of the preferred family first; one failed request
    does not spoil the addresses of the other, and there is an error only if no
    address was found and a request failed.  If the context is done before both
    results are there, its error is returned. *)
Theorem lookup_returns (p : Proxy) (preferV6 : bool) (cancel : option (nat * error)) (swap_run swap : bool) (host : bytes)
    (id : Z) (s : proxy_state (N := N)) (Hp : proxy_ok p) (Hs : proxy_fine p s) (Hh : host_ok host) (Hne : host <> []) :
  exists addrs err s', LookupNetIP SetQuestion recovered p preferV6 None cancel swap_run swap host id s = Ret (addrs, err, s')
    /\ proxy_fine p s'
    /\ match done_at cancel 1 with
       | Some e => addrs = [] /\ err = Some e
       | None =>
           let rs := fst (run_lookups SetQuestion recovered p (Fqdn host) swap_run swap id s) in
           addrs ≡ₚ rs ≫= result_addrs
           /\ (forall i j a b, (i < j)%nat -> addrs !! i = Some a -> addrs !! j = Some b ->
                 if preferV6 then ~ (Is4 a = true /\ Is6 b = true) else ~ (Is6 a = true /\ Is4 b = true))
           /\ (err = None <-> (rs ≫= result_addrs) <> [] \/ Forall (fun r => lr_err r = None) rs)
       end.
Proof using SetQuestion_spec DLaws GLaws ML NL OL PL.
  unfold LookupNetIP. destruct host as [|c host]; [contradiction|].
  pose proof (run_lookups_answer p (c :: host) swap_run swap id s Hp Hs Hh) as Hrun.
  destruct (run_lookups _ _ _ _ _ _ id s) as [rs s']. destruct Hrun as (Hf & Hlen & Hs'). cbn [fst].
  destruct (done_at cancel 1) as [e|] eqn:Ed.
  - destruct cancel as [[k e']|]; [|discriminate]. cbn in Ed. destruct (Nat.leb_spec k 1); [injection Ed as ->|discriminate].
    rewrite receive_results_cancelled by (auto; lia). cbn [gbind]. eauto 10.
  - rewrite receive_results_late by (rewrite Hlen; exact Ed). rewrite receive_results_all by exact Hf. cbn [gbind app].
    set (found := rs ≫= result_addrs).
    assert (He : Forall (fun r => lr_err r = None) rs <-> omap lr_err rs = []).
    { clear. induction rs as [|r rs IH]; cbn; [split; constructor|]. rewrite list.Forall_cons, IH. destruct (lr_err r); intuition congruence. }
    destruct found as [|a l] eqn:Ef; [destruct (omap lr_err rs) as [|e es] eqn:Ee|]; cbn [length Nat.eqb negb andb].
    + do 3 eexists. split; [reflexivity|]. split; [exact Hs'|]. cbn. split; [reflexivity|]. split; [|split; [intros _; right; apply He; reflexivity|reflexivity]]. intros i j a b _ Ha. rewrite lookup_nil in Ha. discriminate.
    + do 3 eexists. split; [reflexivity|]. split; [exact Hs'|]. split; [reflexivity|]. split; [intros i j a b _ Ha; rewrite lookup_nil in Ha; discriminate|].
      cbn. split; [discriminate|intros [H|H%He]; congruence].
    + do 3 eexists. split; [reflexivity|]. split; [exact Hs'|]. split; [apply SortStableFunc_Permutation|]. split; [|split; [left; discriminate|reflexivity]].
      intros i j x y Hij. apply (sorted_by_family preferV6 (a :: l) i j x y Hij).
Qed.
End LookupFacts.

Module LookupExamples.
Import ResolveExamples.
#[global] Instance names : DnsNames := BootstrapExamples.names.
#[global] Instance preference : Preference := BootstrapExamples.preference.
Definition question (name : bytes) (ty : Z) (_ : list nat) : Msg := req name ty.
End LookupExamples.

Lemma lookup_returns_witness :
  exists addrs s', LookupNetIP LookupExamples.question (New "panic") ResolveExamples.p true None None true false (str "a.test") 1 ResolveExamples.s
                   = Ret (addrs, None, s') /\ addrs <> [].
Proof.
  destruct (lookup_returns LookupExamples.question (New "panic") ltac:(repeat split) ResolveExamples.p true None true false (str "a.test") 1
    ResolveExamples.s) as (addrs & err & s' & Hx & _ & Hp & _ & He).
  - exact ResolveExamples.p_ok.
  - exact ServerExamples.s_fine.
  - repeat constructor; vm_compute; reflexivity.
  - discriminate.
  - assert (Hf : fst (run_lookups LookupExamples.question (New "panic") ResolveExamples.p (Fqdn (str "a.test")) true false 1 ResolveExamples.s)
              ≫= result_addrs <> []) by (vm_compute; discriminate).
    rewrite (proj2 He (or_introl Hf)) in Hx. exists addrs, s'. split; [exact Hx|]. intros ->. apply Hf. symmetry in Hp.
    apply Permutation_nil_r in Hp. exact Hp.
Defined.
