(* ===== verification/RateLimit.v ===== *)
(** * Rate limiting (ratelimit)

    The middleware that drops UDP requests of clients that ask too often: the key of
    a client's subnet, its bucket, and the handler that is wrapped.  The buckets
    hold pointers to limiters, which are in a heap. *)

From stdpp Require Import gmap.
From Stdlib Require Import QArith.
From S2P Require Import Prelude NetIP Strconv DnsMsg RefDns GlCache NetUtil Upstreams Context ProxyCache Resolve Server ResolveSpec.
#[local] Open Scope Z_scope.

Definition Hour : Duration := 3600 * Second.

(** go-cache: getting at a time, and setting with an expiration.  Its keys are the
    texts of addresses without zones, which are as good as the addresses. *)
Class GoCache (C : Type) := {
  gocache_New : C;
  gocache_Get : Addr -> Time -> C -> option nat;
  gocache_Set : Addr -> nat -> Duration -> Time -> C -> C;
}.

(** go-rate: a limiter of a number of actions in a time; [Try] tells whether one is
    allowed now.  It panics for a limiter of no actions. *)
Class Rate (L : Type) := {
  rate_New : Z -> Duration -> L;
  rate_Try : Time -> L -> go (bool * L);
}.

Record config := mkConfig {
  hasLogger : bool;
  allowlistAddrs : list Prefix;
  ratelimit : Z;
  subnetLenIPv4 : Z;
  subnetLenIPv6 : Z;
}.

(** golibs: checks of a property of a configuration, by its name. *)
Class Validators := {
  validate_Positive : string -> Z -> option error;
  validate_NotNil : string -> bool -> option error;
  validate_NoGreaterThan : string -> Z -> Z -> option error;
}.
Class ValidatorLaws `{Validators} := {
  Positive_None name v : validate_Positive name v = None <-> 0 < v;
  NotNil_None name v : validate_NotNil name v = None <-> v = true;
  NoGreaterThan_None name v max : validate_NoGreaterThan name v max = None <-> v <= max;
}.

Definition Validate `{Validators} (c : option config) : option error :=
  match c with
  | None => Some (New "no value")
  | Some c =>
      join_errors (option_list (validate_Positive "Ratelimit" (ratelimit c))
        ++ option_list (validate_NotNil "Logger" (hasLogger c))
        ++ option_list (validate_NoGreaterThan "SubnetLenIPv4" (subnetLenIPv4 c) 32)
        ++ option_list (validate_NoGreaterThan "SubnetLenIPv4" (subnetLenIPv6 c) 128))
  end.

(** [netip.PrefixFrom] *)
Section RateLimit.
Context {NU : NetUtil} {C L : Type} {GC : GoCache C} {RL : Rate L}.
Context (m : config).

(** The cache of buckets, nil at first, and the limiters. *)
Record limiter_state := mkLimiters { buckets : option C; heap : gmap nat L; next : nat }.
Definition new_limiters : limiter_state := mkLimiters None ∅ 0.

Definition client_addr (a : Addr) : Addr := Unmap (withoutZone a).

(** The key of the subnet of a client. *)
Definition subnet_key (a : Addr) : Addr :=
  let addr := client_addr a in
  Prefix_Addr (Masked (PrefixFrom addr (if Is4 addr then int64 (subnetLenIPv4 m) else int64 (subnetLenIPv6 m)))).

Definition limiterForIP (key : Addr) (now : Time) (st : limiter_state) : nat * limiter_state :=
  let c := default gocache_New (buckets st) in
  match gocache_Get key now c with
  | Some id => (id, mkLimiters (Some c) (heap st) (next st))
  | None =>
      let id := next st in
      (id, mkLimiters (Some (gocache_Set key id Hour now c)) (<[id := rate_New (int64 (ratelimit m)) Second]> (heap st)) (S id))
  end.

Definition isRatelimited (a : Addr) (now : Time) (st : limiter_state) : go (bool * limiter_state) :=
  if SliceSubnetSet_Contains (allowlistAddrs m) (client_addr a) then Ret (false, st)
  else
    let '(id, st) := limiterForIP (subnet_key a) now st in
    let! rl := deref (heap st !! id) in
    let! (allow, rl) := rate_Try now rl in
    Ret (negb allow, mkLimiters (buckets st) (<[id := rl]> (heap st)) (next st)).

(** The handler, where the limiters are a part of the outside. *)
Class HasLimiters (N : Type) := {
  limiters : N -> limiter_state;
  set_limiters : limiter_state -> N -> N;
}.
Context {DL : DnsLib} {GLC : GlCache} {N : Type} {Out : Outside N} {HL : HasLimiters N}.

Definition Wrap (h : handler (N := N)) : handler (N := N) := fun d s =>
  let! (limited, s) :=
    if bool_decide (d_Proto d = ProtoUDP) then
      let! (limited, st) := isRatelimited (ClientAddr d) (px_now s) (limiters (px_net s)) in
      Ret (limited, set_net (set_limiters st (px_net s)) s)
    else Ret (false, s) in
  if limited then Ret (Some ErrDrop, d, s) else h d s.

(** ** Facts *)

Lemma Validate_None `{ValidatorLaws} c :
  Validate (Some c) = None <-> 0 < ratelimit c /\ hasLogger c = true /\ subnetLenIPv4 c <= 32 /\ subnetLenIPv6 c <= 128.
Proof.
  unfold Validate. rewrite join_errors_None, <- (Positive_None "Ratelimit"), <- (NotNil_None "Logger"),
    <- (NoGreaterThan_None "SubnetLenIPv4" _ 32), <- (NoGreaterThan_None "SubnetLenIPv4" _ 128).
  destruct (validate_Positive _ _), (validate_NotNil _ _), (validate_NoGreaterThan _ _ 32), (validate_NoGreaterThan _ _ 128); cbn; intuition congruence.
Qed.

(** A client is known by its subnet alone: zones and the mapping of IPv4 addresses
    to IPv6 ones do not get it another bucket. *)
Lemma subnet_key_zone b z z' : subnet_key (Addr6 b z) = subnet_key (Addr6 b z').
Proof. reflexivity. Qed.

Lemma subnet_key_mapped b : subnet_key (Addr6 (v4InV6Prefix ++ b) []) = subnet_key (Addr4 b).
Proof. reflexivity. Qed.

(** Two clients of one subnet have one key. *)
Lemma subnet_key_subnet a b :
  let bits := int64 (if Is4 (client_addr a) then subnetLenIPv4 m else subnetLenIPv6 m) in
  same_family (client_addr a) (client_addr b) = true ->
  mask_bytes (addr_bytes (client_addr a)) bits = mask_bytes (addr_bytes (client_addr b)) bits ->
  subnet_key a = subnet_key b.
Proof.
  unfold subnet_key, Masked, Prefix_IsValid, PrefixFrom. cbn [Prefix_Addr Bits].
  destruct (client_addr a) as [|x|x zx], (client_addr b) as [|y|y zy]; cbn [withoutZone IsValid Is4 same_family BitLen andb]; try discriminate;
    cbn [addr_bytes AsSlice slice]; intros _ H.
  - change (mask_bytes x (int64 (subnetLenIPv4 m)) = mask_bytes y (int64 (subnetLenIPv4 m))) in H.
    destruct ((0 <=? int64 (subnetLenIPv4 m)) && (int64 (subnetLenIPv4 m) <=? 32)); [|reflexivity].
    destruct (_ && _); cbn [Prefix_Addr]; [rewrite H|]; reflexivity.
  - change (mask_bytes x (int64 (subnetLenIPv6 m)) = mask_bytes y (int64 (subnetLenIPv6 m))) in H.
    destruct ((0 <=? int64 (subnetLenIPv6 m)) && (int64 (subnetLenIPv6 m) <=? 128)); [|reflexivity].
    destruct (_ && _); cbn [Prefix_Addr]; [rewrite H|]; reflexivity.
Qed.

(** What the libraries promise: an entry is there for its time, and a limiter allows
    an action only if fewer than its number were allowed in its last time. *)
Class GoCacheLaws := {
  get_new k t : gocache_Get k t gocache_New = None;
  get_set k v ttl now c t : now <= t <= now + ttl -> gocache_Get k t (gocache_Set k v ttl now c) = Some v;
  get_set_only k v ttl now c t id : gocache_Get k t (gocache_Set k v ttl now c) = Some id -> id = v;
  get_set_other k k' v ttl now c t : k <> k' -> gocache_Get k' t (gocache_Set k v ttl now c) = gocache_Get k' t c;
}.
Definition recent (now : Time) (d : Duration) (l : list Time) : list Time := List.filter (fun t => now - t <? d) l.
Class RateLaws := {
  rate_log : L -> Z * Duration * list Time;
  log_new n d : rate_log (rate_New n d) = (n, d, []);
  log_try now l n d ts : rate_log l = (n, d, ts) -> 0 < n ->
    exists allow l', rate_Try now l = Ret (allow, l') /\ rate_log l' = (n, d, if allow then now :: ts else ts)
      /\ (allow = true -> len (recent now d ts) < n);
}.
Context {GL : GoCacheLaws} {RLL : RateLaws}.
Context (Hpos : 0 < int64 (ratelimit m)).

(** A sequence of UDP requests; whether each of them was let through. *)
Fixpoint requests (l : list (Time * Addr)) (st : limiter_state) : go (list bool) :=
  match l with
  | [] => Ret []
  | (now, a) :: l =>
      let! (limited, st) := isRatelimited a now st in
      let! rs := requests l st in
      Ret (negb limited :: rs)
  end.

(** The times of the requests of a subnet that were let through, the last first. *)
Definition limited_client (k : Addr) (a : Addr) : bool :=
  negb (SliceSubnetSet_Contains (allowlistAddrs m) (client_addr a)) && bool_decide (subnet_key a = k).
Definition passed (k : Addr) (l : list (Time * Addr)) (rs : list bool) : list Time :=
  rev (omap (fun '((t, a), r) => if limited_client k a && r then Some t else None) (zip l rs)).

(** Up to [until], the bucket of a key has allowed [P k]. *)
Definition bucket_ok (now until : Time) (c : C) (st : limiter_state) (P : Addr -> list Time) (k : Addr) : Prop :=
  (exists id l, (forall t, now <= t <= until -> gocache_Get k t c = Some id) /\ (id < next st)%nat
     /\ heap st !! id = Some l /\ rate_log l = (int64 (ratelimit m), Second, P k))
  \/ ((forall t, now <= t <= until -> gocache_Get k t c = None) /\ P k = []).
Record limiters_ok (now until : Time) (st : limiter_state) (P : Addr -> list Time) : Prop := {
  lo_bucket k : bucket_ok now until (default gocache_New (buckets st)) st P k;
  lo_distinct k k' id : gocache_Get k now (default gocache_New (buckets st)) = Some id ->
    gocache_Get k' now (default gocache_New (buckets st)) = Some id -> k = k';
}.

Lemma limiters_later now now' until st P :
  now <= now' <= until -> limiters_ok now until st P -> limiters_ok now' until st P.
Proof.
  intros Ht [Hb Hd]. split.
  - intros k. destruct (Hb k) as [(id & l & Hg & H)|[Hg H]]; [left; exists id, l|right]; (split; [intros t Hle; apply Hg; lia|exact H]).
  - intros k k' id Hk Hk'. apply (Hd k k' id).
    + destruct (Hb k) as [(i & l & Hg & _)|[Hg _]]; rewrite Hg in Hk |- * by lia; exact Hk.
    + destruct (Hb k') as [(i & l & Hg & _)|[Hg _]]; rewrite Hg in Hk' |- * by lia; exact Hk'.
Qed.

(** The bucket of a key, found or made. *)
Lemma limiterForIP_ok key now until st P :
  now <= until <= now + Hour -> limiters_ok now until st P ->
  exists id st' l, limiterForIP key now st = (id, st') /\ limiters_ok now until st' P
    /\ gocache_Get key now (default gocache_New (buckets st')) = Some id
    /\ heap st' !! id = Some l /\ rate_log l = (int64 (ratelimit m), Second, P key).
Proof using GL.
  intros Ht [Hb Hd]. unfold limiterForIP. set (c := default gocache_New (buckets st)) in *.
  destruct (Hb key) as [(id & l & Hg & Hlt & Hh & Hl)|[Hg HP]].
  - rewrite (Hg now) by lia. do 3 eexists. split; [reflexivity|]. cbn [buckets heap default].
    split; [split; [exact Hb|exact Hd]|]. split; [apply Hg; lia|]. eauto.
  - rewrite (Hg now) by lia. do 3 eexists. split; [reflexivity|]. cbn [buckets heap default next Datatypes.id].
    split; [|split; [apply get_set; unfold Hour, Second; lia|split; [apply lookup_insert_eq|rewrite log_new, HP; reflexivity]]].
    split; cbn [buckets heap next default Datatypes.id].
    + intros k. destruct (decide (k = key)) as [->|Hne].
      * left. exists (next st), (rate_New (int64 (ratelimit m)) Second). split; [intros t Hle; apply get_set; lia|]. cbn [next heap].
        split; [lia|]. split; [apply lookup_insert_eq|]. rewrite log_new, HP. reflexivity.
      * destruct (Hb k) as [(id & l & Hg' & Hlt & Hh & Hl)|[Hg' HP']].
        -- left. exists id, l. split; [intros t Hle; cbn [buckets default Datatypes.id]; rewrite get_set_other by auto; apply Hg', Hle|]. cbn [next heap].
           split; [lia|]. split; [rewrite lookup_insert_ne by lia; exact Hh|exact Hl].
        -- right. split; [intros t Hle; cbn [buckets default Datatypes.id]; rewrite get_set_other by auto; apply Hg', Hle|exact HP'].
    + intros k k' id Hk Hk'. assert (Hfresh : forall k0, k0 <> key -> gocache_Get k0 now c = Some (next st) -> False).
      { intros k0 _ H0. destruct (Hb k0) as [(i & l & Hg' & Hlt & _)|[Hg' _]]; rewrite Hg' in H0 by lia; [injection H0 as ->; lia|discriminate]. }
      destruct (decide (k = key)) as [->|H1], (decide (k' = key)) as [->|H2]; [reflexivity|..].
      * rewrite get_set in Hk by (unfold Hour, Second; lia). injection Hk as <-. rewrite get_set_other in Hk' by auto. destruct (Hfresh k' H2 Hk').
      * rewrite get_set in Hk' by (unfold Hour, Second; lia). injection Hk' as <-. rewrite get_set_other in Hk by auto. destruct (Hfresh k H1 Hk).
      * rewrite get_set_other in Hk, Hk' by auto. exact (Hd k k' id Hk Hk').
Qed.

Definition add_pass (P : Addr -> list Time) (now : Time) (a : Addr) (allowed : bool) : Addr -> list Time := fun k =>
  if limited_client k a && allowed then now :: P k else P k.

Lemma isRatelimited_ok a now until st P :
  now <= until <= now + Hour -> limiters_ok now until st P ->
  exists limited st', isRatelimited a now st = Ret (limited, st') /\ limiters_ok now until st' (add_pass P now a (negb limited))
    /\ forall k, limited_client k a = true -> limited = false -> len (recent now Second (P k)) < int64 (ratelimit m).
Proof using GL RLL Hpos.
  intros Ht Hok. unfold isRatelimited, limited_client, add_pass. destruct (SliceSubnetSet_Contains _ _) eqn:Ea.
  { exists false, st. split; [reflexivity|]. split; [|discriminate]. destruct Hok as [Hb Hd].
    split; [|exact Hd]. intros k. unfold limited_client, add_pass, bucket_ok. rewrite Ea. exact (Hb k). }
  destruct (limiterForIP_ok (subnet_key a) now until st P Ht Hok) as (id & st1 & l & -> & [Hb Hd] & Hg & Hh & Hl).
  rewrite Hh. cbn [deref gbind]. destruct (log_try now l _ _ _ Hl Hpos) as (allow & l' & -> & Hl' & Hlt). do 2 eexists. split; [reflexivity|]. rewrite negb_involutive. split.
  - split; cbn [buckets heap next]; [|exact Hd]. intros k. unfold bucket_ok, add_pass, limited_client. rewrite Ea. cbn [negb andb heap next].
    destruct (bool_decide_reflect (subnet_key a = k)) as [<-|Hne]; cbn [andb].
    + left. exists id, l'. destruct (Hb (subnet_key a)) as [(i & l0 & Hg' & Hi & _)|[Hg' _]]; rewrite Hg' in Hg by lia; [|discriminate].
      injection Hg as ->. split; [exact Hg'|]. split; [exact Hi|]. split; [apply lookup_insert_eq|exact Hl'].
    + destruct (Hb k) as [(i & l0 & Hg' & Hi & Hh' & Hl0)|[Hg' HP']]; [left|right; auto].
      exists i, l0. split; [exact Hg'|]. split; [exact Hi|]. split; [|exact Hl0]. rewrite lookup_insert_ne; [exact Hh'|].
      intros ->. apply Hne. apply (Hd _ _ i Hg). apply Hg'. lia.
  - intros k [_ Hk]%andb_true_iff Hal. apply bool_decide_eq_true in Hk as <-. apply Hlt. destruct allow; [reflexivity|discriminate].
Qed.

(** Every pass of a subnet is one of fewer than the limit and one in its second. *)
Fixpoint spaced (l : list Time) : Prop :=
  match l with [] => True | t :: l => len (recent t Second l) < int64 (ratelimit m) /\ spaced l end.

Fixpoint ascending (now : Time) (l : list (Time * Addr)) : Prop :=
  match l with [] => True | (t, _) :: l => now <= t /\ ascending t l end.

Lemma requests_ok until k : forall l now st P, limiters_ok now until st P -> ascending now l -> until <= now + Hour ->
  Forall (fun x => fst x <= until) l -> spaced (P k) ->
  exists rs, requests l st = Ret rs /\ length rs = length l /\ spaced (passed k l rs ++ P k).
Proof using GL RLL Hpos.
  induction l as [|[t a] l IH]; intros now st P Hok Ha Hu Hf Hs; cbn [requests].
  { exists []. split; [reflexivity|]. split; [reflexivity|]. exact Hs. }
  destruct Ha as [Ht Ha]. apply Forall_cons_1 in Hf as [Htu Hf]. cbn [fst] in Htu.
  apply (limiters_later now t) in Hok; [|lia].
  destruct (isRatelimited_ok a t until st P) as (limited & st1 & -> & Hok1 & Hlt); [lia|exact Hok|]. cbn [gbind].
  destruct (IH t st1 _ Hok1 Ha) as (rs & -> & Hlen & Hsp); [lia|exact Hf| |].
  { unfold add_pass. destruct (limited_client k a) eqn:Ek; cbn [andb]; [|exact Hs]. destruct limited; cbn [negb]; [exact Hs|].
    split; [apply (Hlt k Ek eq_refl)|exact Hs]. }
  cbn [gbind]. exists (negb limited :: rs). split; [reflexivity|]. split; [cbn; lia|]. unfold passed, add_pass in *.
  cbn [zip zip_with omap list_omap]. destruct (limited_client k a && negb limited); [|exact Hsp].
  cbn [rev]. rewrite <- app_assoc. exact Hsp.
Qed.

(** C36: Within an hour of the start, the limiter lets a request of a client's subnet
    through only if fewer than the limit of that subnet's requests, UDP and not
    on the allowlist, were let through in the second before; however its clients
    and others interleave, it never panics. *)
Theorem ratelimit_bounds (l : list (Time * Addr)) (t0 : Time) (k : Addr)
    (Ha : ascending t0 l) (Hf : Forall (fun x => fst x <= t0 + Hour) l) :
  exists rs, requests l new_limiters = Ret rs /\ length rs = length l /\ spaced (passed k l rs).
Proof using GL RLL Hpos.
  destruct (requests_ok (t0 + Hour) k l t0 new_limiters (fun _ => [])) as (rs & H1 & H2 & H3); auto.
  - split; cbn [buckets new_limiters default].
    + intros k0. right. split; [intros; apply get_new|reflexivity].
    + intros k0 k' id. rewrite get_new. discriminate.
  - lia.
  - exact I.
  - exists rs. rewrite app_nil_r in H3. auto.
Qed.

(** At any time the limiters are there, and the middleware keeps what its handler
    promises. *)
Definition limiters_there (st : limiter_state) : Prop :=
  forall k t id, gocache_Get k t (default gocache_New (buckets st)) = Some id ->
    exists l d ts, heap st !! id = Some l /\ rate_log l = (int64 (ratelimit m), d, ts).

Lemma isRatelimited_total a now st :
  limiters_there st -> exists limited st', isRatelimited a now st = Ret (limited, st') /\ limiters_there st'.
Proof using GL RLL Hpos.
  intros Hst. unfold isRatelimited. case_goal; [eauto|]. set (key := subnet_key a).
  assert (Hf : exists id st1 l d ts, limiterForIP key now st = (id, st1) /\ limiters_there st1 /\ heap st1 !! id = Some l
    /\ rate_log l = (int64 (ratelimit m), d, ts)).
  { unfold limiterForIP. destruct (gocache_Get key now _) as [id|] eqn:Eg.
    - destruct (Hst _ _ _ Eg) as (l & d & ts & H). do 5 eexists. split; [reflexivity|]. split; [exact Hst|]. exact H.
    - do 5 eexists. split; [reflexivity|]. cbn [heap]. split; [|split; [apply lookup_insert_eq|apply log_new]].
      intros k t id. cbn [buckets heap default Datatypes.id]. destruct (decide (id = next st)) as [->|Hne].
      + intros _. do 3 eexists. split; [apply lookup_insert_eq|apply log_new].
      + rewrite lookup_insert_ne by auto. destruct (decide (k = key)) as [->|Hk].
        * intros ->%get_set_only. contradiction.
        * rewrite get_set_other by auto. apply Hst. }
  destruct Hf as (id & st1 & l & d & ts & -> & Hst1 & Hh & Hl). rewrite Hh. cbn [deref gbind].
  destruct (log_try now l _ _ _ Hl Hpos) as (allow & l' & -> & Hl' & _). cbn [gbind]. do 2 eexists. split; [reflexivity|].
  intros k t i Hi. cbn [heap buckets] in *. destruct (decide (i = id)) as [->|Hne].
  - rewrite lookup_insert_eq. eauto.
  - rewrite lookup_insert_ne by auto. apply (Hst1 _ _ _ Hi).
Qed.

Lemma Wrap_safe (I : N -> Prop) p h :
  (forall n, I n -> limiters_there (limiters n)) ->
  (forall n st, I n -> limiters_there st -> I (set_limiters st n)) ->
  SafeHandler I p h -> SafeHandler I p (Wrap h).
Proof using GL RLL Hpos.
  intros Hthere Hset Hh d s req q Hn Hf Hq Hs Hi. unfold Wrap. case_goal; [|cbn [gbind]; eauto].
  destruct (isRatelimited_total (ClientAddr d) (px_now s) _ (Hthere _ Hi)) as (limited & st & -> & Hst). cbn [gbind].
  pose proof (Hset _ _ Hi Hst) as Hi'. destruct limited.
  - do 3 eexists. split; [reflexivity|]. split; [exact Hs|]. split; [exact Hi'|]. split; [left; reflexivity|auto].
  - apply (Hh d (set_net _ s) req q); auto.
Qed.
End RateLimit.

Module RateLimitExamples.
(** A cache that forgets nothing but what expired, and a limiter by the times of the
    allowed actions. *)
#[global] Instance buckets_ex : GoCache (Addr -> option (nat * Time * Time)) := {|
  gocache_New _ := None;
  gocache_Get k t c := match c k with Some (v, a, b) => if (a <=? t) && (t <=? b) then Some v else None | None => None end;
  gocache_Set k v ttl now c k' := if bool_decide (k = k') then Some (v, now, now + ttl) else c k';
|}.
#[global] Instance rate_ex : Rate (Z * Duration * list Time) := {|
  rate_New n d := (n, d, []);
  rate_Try now '(n, d, ts) :=
    if n <=? 0 then Panic else if len (recent now d ts) <? n then Ret (true, (n, d, now :: ts)) else Ret (false, (n, d, ts));
|}.
#[global] Instance buckets_laws : GoCacheLaws (GC := buckets_ex).
Proof.
  split; cbn; try reflexivity; intros.
  - rewrite bool_decide_true by reflexivity. rewrite (proj2 (Z.leb_le _ _)), (proj2 (Z.leb_le _ _)) by lia. reflexivity.
  - revert H. rewrite bool_decide_true by reflexivity. destruct (_ && _); congruence.
  - rewrite bool_decide_false by assumption. reflexivity.
Qed.
#[global] Instance rate_laws : RateLaws (RL := rate_ex).
Proof.
  exists (fun l => l); [reflexivity|]. intros now l n d ts -> Hn. cbn. destruct (Z.leb_spec n 0); [lia|].
  destruct (Z.ltb_spec (len (recent now d ts)) n); do 2 eexists; (split; [reflexivity|]); split; auto; discriminate.
Defined.

Definition conf : config := mkConfig true [] 2 24 56.
Definition a1 : Addr := Addr4 [192; 0; 2; 1].
Definition a2 : Addr := Addr6 (v4InV6Prefix ++ [192; 0; 2; 9]) (str "eth0").

(** Two of one subnet, and the third is dropped; a second later one is let through. *)
Definition burst (t : Time) : list (Time * Addr) := [(t, a1); (t + 1, a2); (t + 2, a1); (t + Second, a2)].
Example limited : requests conf (burst 0) new_limiters = Ret [true; true; false; true].
Proof. vm_compute. reflexivity. Qed.

(** A bucket ends an hour after it was made, also if it is in use: then a subnet gets
    twice its limit within a second. *)
Example hourly_burst :
  requests conf [(0, a1); (Hour - 2, a1); (Hour - 1, a1); (Hour, a1); (Hour + 1, a1); (Hour + 2, a1)] new_limiters
  = Ret [true; true; true; false; true; true].
Proof. vm_compute. reflexivity. Qed.
End RateLimitExamples.

Lemma ratelimit_bounds_witness :
  exists rs, requests RateLimitExamples.conf (RateLimitExamples.burst 0) new_limiters = Ret rs
    /\ spaced RateLimitExamples.conf (passed RateLimitExamples.conf (Addr4 [192; 0; 2; 0]) (RateLimitExamples.burst 0) rs).
Proof.
  destruct (ratelimit_bounds RateLimitExamples.conf eq_refl (RateLimitExamples.burst 0) 0 (Addr4 [192; 0; 2; 0])) as (rs & H1 & _ & H2).
  - cbn. unfold Second. lia.
  - repeat constructor; cbn; unfold Hour, Second; lia.
  - exists rs. auto.
Defined.
