(* ===== verification/Middleware.v ===== *)
(** * The middleware of the command (internal/middleware)

    Answers from hosts files and halted AAAA requests in front of a handler, with
    the constructor of their responses, and the handler that the command puts
    together from the middleware, the rate limiter and [Resolve]
    ([createProxyConfig] of internal/cmd/proxy.go). *)

From stdpp Require Import gmap.
From Stdlib Require Import QArith.
From S2P Require Import Prelude NetIP DnsMsg RefDns GlCache NetUtil Wire Cache CacheFacts CacheSpec Ecs.
From S2P Require Import Upstreams Dns64 Receipt Parallel Fastip Exchange Messages Stats Context Recursion.
From S2P Require Import ProxyCache ResolveCache Pending Resolve ResolveFacts ResolveSpec Server RateLimit.
#[local] Open Scope Z_scope.

(** golibs: [hostsfile.Storage], and its default implementation with the parser
    that fills it. *)
Record Storage := mkStorage { ByAddr : Addr -> list bytes; ByName : bytes -> list Addr }.
Class HostsFile (D : Type) := {
  NewDefaultStorage : D;
  hosts_Parse : D -> bytes -> option error * D;
  (** Whether [RangeAddrs] calls its function. *)
  has_addrs : D -> bool;
  storage_of : D -> Storage;
}.

Definition emptyStorage : Storage := mkStorage (fun _ => []) (fun _ => []).

Section ReadHosts.
Context {D : Type} {HF : HostsFile D}.

(** A file: why it does not open, or its contents and the error of closing it. *)
Definition readHostsFile (open : bytes -> result (bytes * option error)) (strg : D) (path : bytes) : option error * D :=
  match open path with
  | Err e => (Some e, strg)
  | Ok (contents, closeErr) =>
      let '(err, strg) := hosts_Parse strg contents in
      let err := match err with Some e => Some (Errorf "parsing hosts file %q: %w" e) | None => None end in
      (* errors.WithDeferred *)
      (match err, closeErr with
       | None, c => c
       | Some e, None => Some e
       | Some e, Some c => Some (Join [e; c])
       end, strg)
  end.

Fixpoint read_hosts_loop (open : bytes -> result (bytes * option error)) (paths : list bytes) (errs : list error) (strg : D)
    : list error * D :=
  match paths with
  | [] => (errs, strg)
  | path :: paths =>
      let '(err, strg) := readHostsFile open strg path in
      read_hosts_loop open paths (errs ++ option_list err) strg
  end.

Definition ReadHosts (open : bytes -> result (bytes * option error)) (paths : list bytes) : Storage * option error :=
  let '(errs, strg) := read_hosts_loop open paths [] NewDefaultStorage in
  (if has_addrs strg then storage_of strg else emptyStorage, join_errors errs).
End ReadHosts.

(** ** The constructor *)

Class messageConstructor := {
  mc_base : MessageConstructor;
  NewCompressedResponse : Msg -> Z -> Msg;
  NewPTRAnswer : bytes -> bytes -> RR;
  NewIPResponse : Msg -> list Addr -> go Msg;
}.

Section Constructor.
Context {DL : DnsLib} {DN : DnsNames}.

Definition defaultResponseTTL : Z := 10.
Definition hdr (name : bytes) (rrType : Z) : RR_Header := mkHdr name rrType ClassINET defaultResponseTTL.
Definition reply (req : Msg) (code : Z) : Msg := set_RecursionAvailable true (SetRcode empty_msg req code).

Definition newAnswerA (req : Msg) (ip : Addr) : go RR :=
  let! q := index (Question req) 0 in Ret (mkRR (hdr (QName q) TypeA) (RD_A (AsSlice ip))).
Definition newAnswerAAAA (req : Msg) (ip : Addr) : go RR :=
  let! q := index (Question req) 0 in Ret (mkRR (hdr (QName q) TypeAAAA) (RD_AAAA (AsSlice ip))).

Fixpoint genAnswersWithIPv4s (req : Msg) (ips : list Addr) (ans : list RR) : go (list RR) :=
  match ips with
  | [] => Ret ans
  | ip :: ips =>
      if negb (Is4 ip) then Ret []
      else let! a := newAnswerA req ip in genAnswersWithIPv4s req ips (ans ++ [a])
  end.

Fixpoint genAnswersWithIPv6s (req : Msg) (ips : list Addr) (ans : list RR) : go (list RR) :=
  match ips with
  | [] => Ret ans
  | ip :: ips =>
      if Is6 ip then let! a := newAnswerAAAA req ip in genAnswersWithIPv6s req ips (ans ++ [a])
      else genAnswersWithIPv6s req ips ans
  end.

Definition default_NewCompressedResponse (req : Msg) (code : Z) : Msg := set_Compress true (reply req code).
Definition default_NewIPResponse (req : Msg) (ips : list Addr) : go Msg :=
  let! q := index (Question req) 0 in
  let! ans :=
    if Qtype q =? TypeA then genAnswersWithIPv4s req ips []
    else if Qtype q =? TypeAAAA then genAnswersWithIPv6s req ips []
    else Ret [] in
  Ret (set_Answer ans (default_NewCompressedResponse req RcodeSuccess)).

Definition defaultConstructor (mc : MessageConstructor) : messageConstructor := {|
  mc_base := mc;
  NewCompressedResponse := default_NewCompressedResponse;
  NewPTRAnswer fqdn ptrFQDN := mkRR (hdr fqdn TypePTR) (RD_PTR (Fqdn ptrFQDN));
  NewIPResponse := default_NewIPResponse;
|}.
End Constructor.

(** ** The handler *)

Record Default := mkDefault { hosts : Storage; messages : messageConstructor; haltIPv6 : bool }.

(** A configured constructor may have the further methods itself. *)
Definition New `{DnsLib} `{DnsNames} (HostsFiles : Storage) (mc : MessageConstructor + messageConstructor) (HaltIPv6 : bool) : Default :=
  mkDefault HostsFiles (match mc with inl mc => defaultConstructor mc | inr mc => mc end) HaltIPv6.

Section Handler.
Context {DL : DnsLib} {DN : DnsNames} {GC : GlCache} {NU : NetUtil} {N : Type}.

Definition haltAAAA (mw : Default) (req : Msg) : go (option Msg) :=
  if haltIPv6 mw then
    let! q := index (Question req) 0 in
    if Qtype q =? TypeAAAA then let! m := @NewMsgNODATA (@mc_base (messages mw)) req in Ret (Some m) else Ret None
  else Ret None.

Definition resolveFromHosts (mw : Default) (req : Msg) : go (option Msg) :=
  let! q := index (Question req) 0 in
  let name := TrimSuffix (QName q) (str ".") in
  (* Without addresses and names there is no response. *)
  let respond (addrs : list Addr) (ptrs : list bytes) :=
    match addrs, ptrs with
    | _ :: _, _ => let! m := @NewIPResponse (messages mw) req addrs in Ret (Some m)
    | [], _ :: _ =>
        let resp := @NewCompressedResponse (messages mw) req RcodeSuccess in
        Ret (Some (set_Answer (Answer resp ++ map (fun ptr => @NewPTRAnswer (messages mw) (QName q) (Fqdn ptr)) ptrs) resp))
    | [], [] => Ret None
    end in
  if Qtype q =? TypeA then respond (List.filter (fun a => negb (Is6 a)) (ByName (hosts mw) name)) []
  else if Qtype q =? TypeAAAA then respond (List.filter (fun a => negb (Is4 a)) (ByName (hosts mw) name)) []
  else if Qtype q =? TypePTR then
    match IPFromReversedAddr name with
    | Err _ => Ret None
    | Ok addr => respond [] (ByAddr (hosts mw) addr)
    end
  else Ret None.

Definition mw_Wrap (mw : Default) (h : handler (N := N)) : handler (N := N) := fun d s =>
  let! req := deref (Req d) in
  let! _ := index (Question req) 0 in
  let! res := haltAAAA mw req in
  match res with
  | Some res => Ret (None, set_Res (Some res) d, s)
  | None =>
      let! res := resolveFromHosts mw req in
      match res with
      | Some res => Ret (None, set_Res (Some res) d, s)
      | None => h (set_Res None d) s
      end
  end.
End Handler.

(** [newRatelimitMw] and the handler of [createProxyConfig]. *)
Section Command.
Context {DL : DnsLib} {DN : DnsNames} {GC : GlCache} {NU : NetUtil} {MC : MessageConstructor} {VA : Validators}.
Context {C L N : Type} {GOC : GoCache C} {RA : Rate L} {Out : Outside N} {HL : HasLimiters (C := C) (L := L) N}.

Definition newRatelimitMw (Ratelimit SubnetLenIPv4 SubnetLenIPv6 : Z) : result (handler (N := N) -> handler (N := N)) :=
  if Ratelimit =? 0 then Ok (fun h => h)
  else
    let rlConf := mkConfig true [] Ratelimit SubnetLenIPv4 SubnetLenIPv6 in
    match Validate (Some rlConf) with
    | Some e => Err (Errorf "invalid configuration: %w" e)
    | None => Ok (Wrap rlConf)
    end.

Definition request_handler (strg : Storage) (IPv6Disabled : bool) (Ratelimit SubnetLenIPv4 SubnetLenIPv6 : Z)
    (p : Proxy) (pending : option pendingResult) : result (handler (N := N)) :=
  let preMw := New strg (inl DefaultMessageConstructor) IPv6Disabled in
  match newRatelimitMw Ratelimit SubnetLenIPv4 SubnetLenIPv6 with
  | Err e => Err (Errorf "ratelimit mw: %w" e)
  | Ok ratelimitMw => Ok (ratelimitMw (mw_Wrap preMw (DefaultHandler p pending)))
  end.
End Command.

(** ** Facts *)

Section MiddlewareFacts.
Context {DL : DnsLib} {DLaws : DnsLaws} {DN : DnsNames} {GC : GlCache} {NU : NetUtil} {N : Type}.

(** What the hosts files say to a question. *)
Definition hosts_records (strg : Storage) (q : Question_t) : list RR :=
  let name := TrimSuffix (QName q) (str ".") in
  if Qtype q =? TypeA then
    (fun a => mkRR (hdr (QName q) TypeA) (RD_A (AsSlice a))) <$> List.filter Is4 (ByName strg name)
  else if Qtype q =? TypeAAAA then
    (fun a => mkRR (hdr (QName q) TypeAAAA) (RD_AAAA (AsSlice a))) <$> List.filter Is6 (ByName strg name)
  else if Qtype q =? TypePTR then
    match IPFromReversedAddr name with
    | Err _ => []
    | Ok a => (fun ptr => mkRR (hdr (QName q) TypePTR) (RD_PTR (Fqdn (Fqdn ptr)))) <$> ByAddr strg a
    end
  else [].

(** Hosts files have only valid addresses. *)
Definition valid_storage (strg : Storage) : Prop := forall name, Forall (fun a => IsValid a = true) (ByName strg name).

Lemma genAnswersWithIPv4s_all req q : Question req = [q] -> forall ips ans, Forall (fun a => Is4 a = true) ips ->
  genAnswersWithIPv4s req ips ans = Ret (ans ++ ((fun a => mkRR (hdr (QName q) TypeA) (RD_A (AsSlice a))) <$> ips)).
Proof.
  intros Hq ips. induction ips as [|ip ips IH]; intros ans Hf; cbn [genAnswersWithIPv4s fmap list_fmap].
  - rewrite app_nil_r. reflexivity.
  - apply Forall_cons_1 in Hf as [H4 Hf]. rewrite H4. unfold newAnswerA. rewrite Hq. cbn. rewrite IH, <- app_assoc by exact Hf. reflexivity.
Qed.

Lemma genAnswersWithIPv6s_all req q : Question req = [q] -> forall ips ans, Forall (fun a => Is6 a = true) ips ->
  genAnswersWithIPv6s req ips ans = Ret (ans ++ ((fun a => mkRR (hdr (QName q) TypeAAAA) (RD_AAAA (AsSlice a))) <$> ips)).
Proof.
  intros Hq ips. induction ips as [|ip ips IH]; intros ans Hf; cbn [genAnswersWithIPv6s fmap list_fmap].
  - rewrite app_nil_r. reflexivity.
  - apply Forall_cons_1 in Hf as [H6 Hf]. rewrite H6. unfold newAnswerAAAA. rewrite Hq. cbn. rewrite IH, <- app_assoc by exact Hf. reflexivity.
Qed.

Lemma filter_family f g l : Forall (fun a => IsValid a = true) l -> (forall a, IsValid a = true -> negb (f a) = g a) ->
  List.filter (fun a => negb (f a)) l = List.filter g l /\ Forall (fun a => g a = true) (List.filter g l).
Proof.
  intros Hv Hfg. split.
  - induction Hv as [|a l Ha _ IH]; cbn; [reflexivity|]. rewrite (Hfg a Ha), IH. reflexivity.
  - apply list.Forall_forall. intros a Ha. apply list_elem_of_In, filter_In in Ha as [_ Ha]. exact Ha.
Qed.

(** The response with some records. *)
Definition hosts_response (req : Msg) (recs : list RR) : Msg := set_Answer recs (default_NewCompressedResponse req RcodeSuccess).

Lemma hosts_response_replies req recs :
  let r := hosts_response req recs in
  Rcode (Hdr r) = RcodeSuccess /\ Id (Hdr r) = Id (Hdr req) /\ Response (Hdr r) = true /\ RecursionAvailable (Hdr r) = true
  /\ (length (Question req) = 1%nat -> Question r = Question req) /\ Answer r = recs /\ Extra r = [].
Proof using DLaws.
  destruct (setrcode_spec empty_msg req RcodeSuccess) as (Hc & Hid & Hr & Hq & _ & _ & He).
  unfold hosts_response, default_NewCompressedResponse, reply. cbn. auto 10.
Qed.

Lemma resolveFromHosts_spec strg mc halt req q :
  valid_storage strg -> Question req = [q] ->
  resolveFromHosts (New strg (inl mc) halt) req
  = Ret (match hosts_records strg q with [] => None | recs => Some (hosts_response req recs) end).
Proof using DLaws.
  intros Hv Hq. unfold resolveFromHosts, hosts_records. rewrite Hq. cbn [index lookup list_lookup gbind New hosts messages].
  set (name := TrimSuffix (QName q) (str ".")).
  destruct (Qtype q =? TypeA) eqn:EA; [|destruct (Qtype q =? TypeAAAA) eqn:E6; [|destruct (Qtype q =? TypePTR) eqn:EP; [|reflexivity]]].
  - destruct (filter_family Is6 Is4 (ByName strg name) (Hv name)) as [-> Hf]; [intros []; reflexivity || discriminate|].
    destruct (List.filter Is4 _) as [|a l]; [reflexivity|]. cbn [NewIPResponse defaultConstructor].
    unfold default_NewIPResponse. rewrite Hq. cbn [index lookup list_lookup gbind]. rewrite EA, (genAnswersWithIPv4s_all req q Hq _ _ Hf). reflexivity.
  - destruct (filter_family Is4 Is6 (ByName strg name) (Hv name)) as [-> Hf]; [intros []; reflexivity || discriminate|].
    destruct (List.filter Is6 _) as [|a l]; [reflexivity|]. cbn [NewIPResponse defaultConstructor].
    unfold default_NewIPResponse. rewrite Hq. cbn [index lookup list_lookup gbind]. rewrite EA, E6, (genAnswersWithIPv6s_all req q Hq _ _ Hf). reflexivity.
  - destruct (IPFromReversedAddr name) as [addr|]; [|reflexivity]. destruct (ByAddr strg addr) as [|ptr ptrs]; [reflexivity|].
    cbn [gbind fmap list_fmap]. do 2 f_equal. unfold hosts_response. destruct (setrcode_spec empty_msg req RcodeSuccess) as (_ & _ & _ & _ & Ha & _).
    cbn [NewCompressedResponse NewPTRAnswer defaultConstructor]. unfold default_NewCompressedResponse, reply. cbn [Answer set_Compress set_RecursionAvailable upd_hdr].
    rewrite Ha. reflexivity.
Qed.

(** C37: In front of any handler, the middleware answers a request itself or leaves
    it to the handler, and nothing in between.  If AAAA requests are halted, one gets
    the response without data; a request to which the hosts files have records gets
    a response with exactly them, of the family or direction that was asked, to
    its name, whatever else is cached or configured, and neither the state nor the
    outside changes; for every other request the handler is called, with no response
    set before. *)
Theorem middleware_answers (strg : Storage) (mc : MessageConstructor) (halt : bool) (h : handler (N := N)) (d : DNSContext)
    (s : proxy_state (N := N)) (req : Msg) (q : Question_t)
    (Hv : valid_storage strg) (Hr : Req d = Some req) (Hq : Question req = [q]) :
  if halt && (Qtype q =? TypeAAAA)
  then mw_Wrap (New strg (inl mc) halt) h d s = let! m := NewMsgNODATA req in Ret (None, set_Res (Some m) d, s)
  else match hosts_records strg q with
  | [] => mw_Wrap (New strg (inl mc) halt) h d s = h (set_Res None d) s
  | recs => exists r, mw_Wrap (New strg (inl mc) halt) h d s = Ret (None, set_Res (Some r) d, s)
      /\ Rcode (Hdr r) = RcodeSuccess /\ Id (Hdr r) = Id (Hdr req) /\ Response (Hdr r) = true
      /\ Question r = [q] /\ Answer r = recs /\ Extra r = []
  end.
Proof using DLaws.
  unfold mw_Wrap, haltAAAA. rewrite Hr. cbn [deref gbind]. rewrite (resolveFromHosts_spec strg mc halt req q Hv Hq), Hq.
  cbn [index lookup list_lookup gbind New haltIPv6 messages mc_base defaultConstructor]. destruct halt; cbn [andb gbind].
  1: destruct (Qtype q =? TypeAAAA); [destruct (NewMsgNODATA req); reflexivity|cbn [gbind]].
  all: destruct (hosts_records strg q) as [|rr recs] eqn:E; [reflexivity|]; exists (hosts_response req (rr :: recs));
    (split; [reflexivity|]); destruct (hosts_response_replies req (rr :: recs)) as (H1 & H2 & H3 & _ & H4 & H5 & H6);
    rewrite Hq in H4; auto 10.
Qed.
End MiddlewareFacts.

Section CommandFacts.
Context {DL : DnsLib} {DLaws : DnsLaws} {DN : DnsNames} {GC : GlCache} {GLaws : GlCacheLaws} {NU : NetUtil} {NL : NetUtilLaws}.
Context {MC : MessageConstructor} {ML : MessageLaws} {VA : Validators} {VL : ValidatorLaws}.
Context {C L N : Type} {GOC : GoCache C} {RA : Rate L} {GL : GoCacheLaws} {RLL : RateLaws}.
Context {Out : Outside N} {OL : OutsideLaws Out} {Co : Conns N} {HL : HasLimiters (C := C) (L := L) N}.

Lemma mw_Wrap_safe (I : N -> Prop) strg halt p h :
  valid_storage strg -> SafeHandler I p h -> SafeHandler I p (mw_Wrap (New strg (inl DefaultMessageConstructor) halt) h).
Proof using DLaws.
  intros Hv Hh d s req q Hn Hf Hq Hs Hi. pose proof Hn as (Hr & _). unfold mw_Wrap, haltAAAA. rewrite Hr. cbn [deref gbind].
  rewrite (resolveFromHosts_spec strg _ halt req q Hv Hq), Hq. cbn [index lookup list_lookup gbind New haltIPv6 messages mc_base defaultConstructor].
  assert (Hdone : forall r, exists err d' s', Ret (None, set_Res (Some r) d, s) = Ret (err, d', s') /\ proxy_fine p s' /\ I (px_net s')
    /\ (is_drop err = true \/ exists res, Res d' = Some res) /\ d_Proto d' = d_Proto d /\ ClientAddr d' = ClientAddr d).
  { intros r. do 3 eexists. split; [reflexivity|]. cbn. eauto 10. }
  assert (Hrest : exists err d' s', match (match hosts_records strg q with [] => None | recs => Some (hosts_response req recs) end) with
    | Some r => Ret (None, set_Res (Some r) d, s) | None => h (set_Res None d) s end = Ret (err, d', s') /\ proxy_fine p s' /\ I (px_net s')
    /\ (is_drop err = true \/ exists res, Res d' = Some res) /\ d_Proto d' = d_Proto d /\ ClientAddr d' = ClientAddr d).
  { destruct (hosts_records strg q); [apply (Hh (set_Res None d) s req q); auto|apply Hdone]. }
  destruct halt; cbn [gbind]; [destruct (Qtype q =? TypeAAAA); cbn [gbind]|]; [|exact Hrest..].
  unfold NewMsgNODATA, DefaultMessageConstructor, no_data. rewrite Hq. apply Hdone.
Qed.

(** What the outside keeps together with its limiters. *)
Definition with_limiters (rl : config) (I : N -> Prop) (n : N) : Prop := I n /\ limiters_there rl (limiters n).

Lemma request_handler_safe (I : N -> Prop) strg halt rl l4 l6 p h :
  valid_storage strg -> 0 <= rl < 2 ^ 63 -> proxy_ok p ->
  (forall u m n, I n -> I (snd (net_ex u m n)) /\ limiters (snd (net_ex u m n)) = limiters n) ->
  (forall n st, I n -> I (set_limiters st n) /\ limiters (set_limiters st n) = st) ->
  request_handler strg halt rl l4 l6 p None = Ok h ->
  SafeHandler (with_limiters (mkConfig true [] rl l4 l6) I) p h.
Proof using DLaws GLaws GL RLL VL NL ML OL.
  intros Hv Hrl Hp Hk Hset. set (J := with_limiters _ I). unfold request_handler.
  assert (Hd : SafeHandler J p (mw_Wrap (New strg (inl DefaultMessageConstructor) halt) (DefaultHandler p None))).
  { apply mw_Wrap_safe; [exact Hv|]. apply DefaultHandler_safe; [|exact Hp]. intros u m n [Hi Hl].
    destruct (Hk u m n Hi) as [Hi' Hl']. split; [exact Hi'|rewrite Hl'; exact Hl]. }
  unfold newRatelimitMw. destruct (Z.eqb_spec rl 0); [intros [= <-]; exact Hd|].
  destruct (Validate _) eqn:Ev; [discriminate|]. intros [= <-]. refine (Wrap_safe (mkConfig true [] rl l4 l6) _ J p _ _ _ Hd).
  - cbn [ratelimit]. unfold int64, uint64. rewrite Z.mod_small by lia. rewrite (proj2 (Z.ltb_lt _ _)); lia.
  - intros n' [_ H]. exact H.
  - intros n' st [Hi _] Hst. destruct (Hset n' st Hi) as [Hi' Hl]. split; [exact Hi'|rewrite Hl; exact Hst].
Qed.

(** No UDP packet can stop the dnsproxy command.  With the handler that the
    command makes from its configuration, that is [Resolve] behind the hosts files
    and the rate limiter, handling any packet returns, keeps the caches, the limiters
    and the rest of the state well formed, and outside does nothing but exchange with
    upstreams, update the limiters and at the end send at most one datagram to the
    sender. *)
Theorem command_udp_safe (strg : Storage) (halt : bool) (rl l4 l6 : Z) (p : Proxy) (h : handler (N := N)) (I : N -> Prop)
    (packet : bytes) (laddr raddr : Addr) (id : Z) (s : proxy_state (N := N)) (req : Msg) (uerr : option error)
    (Hh : request_handler strg halt rl l4 l6 p None = Ok h)
    (Hv : valid_storage strg) (Hrl : 0 <= rl < 2 ^ 63) (Hp : proxy_ok p)
    (Hk : forall u m n, I n -> I (snd (net_ex u m n)) /\ limiters (snd (net_ex u m n)) = limiters n)
    (Hset : forall n st, I n -> I (set_limiters st n) /\ limiters (set_limiters st n) = st)
    (Hu : Unpack packet = (req, uerr)) (Hf : fields_ok req) (Ha : wf_addr raddr) (Hs : proxy_fine p s)
    (Hi : with_limiters (mkConfig true [] rl l4 l6) I (px_net s)) :
  exists s', udpHandlePacket (processDNSRequest p h None) packet laddr raddr id s = Ret s' /\ proxy_fine p s'
    /\ (with_limiters (mkConfig true [] rl l4 l6) I (px_net s')
        \/ exists n b, with_limiters (mkConfig true [] rl l4 l6) I n /\ px_net s' = snd (UDPWrite b raddr laddr n)).
Proof using DLaws GLaws GL RLL VL NL ML OL.
  pose proof (request_handler_safe I strg halt rl l4 l6 p h Hv Hrl Hp Hk Hset Hh) as Hsafe.
  destruct (udp_total _ p h packet laddr raddr id s req uerr Hsafe Hu Hf Ha Hs Hi) as (s' & Hx & Hs' & Hn & _). eauto.
Qed.
End CommandFacts.

Module MiddlewareExamples.
Import ResolveExamples ServerExamples RateLimitExamples.
#[global] Instance names : DnsNames := fun s => if HasSuffix s (str ".") then s else s ++ str ".".
#[global] Instance validators : Validators := {|
  validate_Positive name v := if 0 <? v then None else Some (Prelude.New name);
  validate_NotNil name v := if v then None else Some (Prelude.New name);
  validate_NoGreaterThan name v max := if v <=? max then None else Some (Prelude.New name);
|}.
#[global] Instance validators_laws : ValidatorLaws.
Proof.
  split; intros; cbn; [destruct (Z.ltb_spec 0 v)|destruct v|destruct (Z.leb_spec v max)]; (split; intros; [first [lia|congruence]|first [reflexivity|lia|congruence]]).
Qed.

(** The outside of the examples of the servers, with limiters. *)
Definition limits : Type := limiter_state (C := Addr -> option (nat * Time * Time)) (L := Z * Duration * list Time).
#[global] Instance out_limits : Outside (list nat * limits) := {|
  net_ex u m n := let '(r, e, l) := net_ex u m (fst n) in (r, e, (l, snd n));
  Now n := Now (fst n);
  arrival l _ := l;
  take_order ws _ := seq 0 (length ws);
  values l := l;
  ping _ g := ([], g);
  dns_Id _ := 7;
|}.
#[global] Instance out_limits_laws : OutsideLaws out_limits.
Proof.
  split; cbn; auto; try reflexivity.
  - intros sched g r [].
  - intros u m n r e n'. exact (fun H => net_typed u m (fst n) r e (fst n') ltac:(injection H as <- <- <-; reflexivity)).
  - intros n. exact (now_range (fst n)).
Qed.
#[global] Instance conns_limits : Conns (list nat * limits) := {|
  UDPWrite b a a' n := let '(k, e, l) := UDPWrite b a a' (fst n) in (k, e, (l, snd n));
  conn_Write b n := (None, n);
  conn_Close n := (None, n);
  conn_closed _ := false;
  stream_Write b n := (len b, None, n);
  CloseWithError _ n := n;
  http_Error _ n := n;
  http_Write _ b n := (None, n);
  WriteMsg _ n := (None, n);
  validate_Equal a b := if a =? b then None else Some (Prelude.New "not equal");
|}.
#[global] Instance has_limits : HasLimiters (list nat * limits) := {|
  limiters := snd;
  set_limiters st n := (fst n, st);
|}.

(** A hosts file with two addresses for the name of the examples. *)
Definition strg : Storage :=
  mkStorage (fun _ => []) (fun n => if bool_decide (n = str "a.test") then [Addr4 [192; 0; 2; 80]; Addr6 (replicate 15 0 ++ [1]) []] else []).
Lemma strg_valid : valid_storage strg.
Proof. intros n. cbn. destruct (bool_decide _); repeat constructor. Qed.

Definition s0 : proxy_state (N := list nat * limits) := mkPx (px_cache s) (px_rec s) [] [] ([], new_limiters).

(** Two requests are answered from the hosts file, and the third one in the second
    is dropped. *)
Definition served (n : nat) : go (list nat) :=
  match request_handler strg false 2 24 56 p None with
  | Err _ => Panic
  | Ok h => let! s := Nat.iter n (fun x => let! s := x in
                udpHandlePacket (processDNSRequest p h None) packet AddrZero client 1 s) (Ret s0) in
            Ret (fst (px_net s))
  end.
Example limited_hosts : (let! a := served 2 in let! b := served 3 in Ret (length a, bool_decide (a = b))) = Ret (2%nat, true).
Proof. vm_compute. reflexivity. Qed.
End MiddlewareExamples.

Lemma middleware_answers_witness :
  let d := newDNSContext ProtoUDP (Some ServerExamples.a_req) ResolveExamples.client 1 in
  exists r, mw_Wrap (New MiddlewareExamples.strg (inl DefaultMessageConstructor) true) (fun _ _ => Panic) d ResolveExamples.s
            = Ret (None, set_Res (Some r) d, ResolveExamples.s)
    /\ Answer r = [mkRR (hdr (str "a.test.") TypeA) (RD_A (Some [192; 0; 2; 80]))].
Proof.
  intros d.
  destruct (middleware_answers MiddlewareExamples.strg DefaultMessageConstructor true (fun _ _ => Panic) d ResolveExamples.s
    ServerExamples.a_req ResolveExamples.a_q MiddlewareExamples.strg_valid eq_refl eq_refl) as (r & Hx & _ & _ & _ & _ & Ha & _).
  exists r. split; [exact Hx|exact Ha].
Defined.

Lemma command_udp_safe_witness :
  match request_handler MiddlewareExamples.strg false 2 24 56 ResolveExamples.p None with
  | Err _ => False
  | Ok h => exists s', udpHandlePacket (processDNSRequest ResolveExamples.p h None) ServerExamples.packet AddrZero
                         ResolveExamples.client 1 MiddlewareExamples.s0 = Ret s' /\ proxy_fine ResolveExamples.p s'
  end.
Proof.
  destruct (request_handler MiddlewareExamples.strg false 2 24 56 ResolveExamples.p None) as [h|] eqn:E; [|discriminate].
  destruct (command_udp_safe MiddlewareExamples.strg false 2 24 56 ResolveExamples.p h (fun _ => True) ServerExamples.packet AddrZero
    ResolveExamples.client 1 MiddlewareExamples.s0 ServerExamples.a_req None E MiddlewareExamples.strg_valid) as (s' & Hx & Hs & _).
  - lia.
  - exact ResolveExamples.p_ok.
  - intros u m n _. split; [exact I|reflexivity].
  - intros n st _. split; [exact I|reflexivity].
  - exact ServerExamples.packet_unpacks.
  - exact ServerExamples.a_req_fields.
  - split; [reflexivity|]. repeat constructor; vm_compute; discriminate.
  - exact ServerExamples.s_fine.
  - split; [exact I|]. intros k t id [=].
  - exists s'. auto.
Defined.
