(* ===== verification/Life.v ===== *)
(** * Starting and stopping the proxy ([Start], [Shutdown] and the closing
      functions of proxy/proxy.go, [startListeners] of proxy/server.go, the
      listeners of serverudp.go, servertcp.go, serverhttps.go and serverquic.go,
      serverdnscrypt.go, retry.go and route.go)

    The calls run under the mutex of the proxy, so a run is a sequence of them.
    Sockets and the other closable objects are numbers, and the world tracks
    those that are open.  What the operating system answers is the environment
    [E], indexed by a counter of the calls.  A computation is [None] if it does
    not return. *)

From stdpp Require Import gmap.
From S2P Require Import Prelude NetIP Context GlCache GoStrings Upstreams CryptCert CryptClient CryptRun Config.
#[local] Open Scope Z_scope.

(** The lists of closable objects that the proxy holds. *)
Inductive kind := udpListen | tcpListen | tlsListen | httpsListen | h3Listen | quicListen | quicTransports | quicConns.

#[export] Instance kind_eq_dec : EqDecision kind.
Proof. solve_decision. Defined.

(** The fields of the proxy that [Start] and [Shutdown] change.  The lists are one
    list with the kinds of its entries; the DNSCrypt servers are as in CryptRun. *)
Record life := mkLife {
  started : bool;
  servingCancel : bool;
  listeners : list (kind * nat);
  httpsServer : bool;
  h3Server : bool;
  dnsCryptServers : list run;
}.

Definition new_life : life := mkLife false false [] false false [].

Definition of_kind (k : kind) (l : life) : list nat := snd <$> filter (fun x => x.1 = k) (listeners l).

Definition add_listener (k : kind) (c : nat) (l : life) : life :=
  mkLife (started l) (servingCancel l) (listeners l ++ [(k, c)]) (httpsServer l) (h3Server l) (dnsCryptServers l).
(** The list is set to nil. *)
Definition drop_kind (k : kind) (l : life) : life :=
  mkLife (started l) (servingCancel l) (filter (fun x => x.1 <> k) (listeners l)) (httpsServer l) (h3Server l) (dnsCryptServers l).
Definition set_servers (https h3 : bool) (l : life) : life :=
  mkLife (started l) (servingCancel l) (listeners l) https h3 (dnsCryptServers l).
Definition set_crypt (rs : list run) (l : life) : life :=
  mkLife (started l) (servingCancel l) (listeners l) (httpsServer l) (h3Server l) rs.
Definition set_started (b cancel : bool) (l : life) : life :=
  mkLife b cancel (listeners l) (httpsServer l) (h3Server l) (dnsCryptServers l).

(** [live] are the open objects, [retired] the DNSCrypt servers that were given up
    and [closedUpstreams] the upstreams that were closed. *)
Record world := mkWorld {
  w_time : nat;
  live : gset nat;
  lf : life;
  retired : list run;
  closedUpstreams : list Upstream;
}.

Record env := mkEnv {
  bind_err : nat -> option error;
  setup_err : nat -> option error;
  close_err : nat -> option error;
  ctx_err : nat -> option error;
  (** Whether [Serve] took the listener before the server was closed. *)
  taken : nat -> nat -> bool;
  (** How waiting for a DNSCrypt server ends. *)
  wait_err : nat -> option error;
  upstream_err : Upstream -> option error;
  cert_now : nat -> Time;
}.

Definition ErrClosed : error := New "use of closed network connection".

(** ** Addresses *)

(** [collectAddrs] and [firstAddr], with the address function [af]. *)
Fixpoint collectAddrs {A} (af : A -> go (option nat)) (addressers : list A) : go (list (option nat)) :=
  match addressers with
  | [] => Ret []
  | l :: ls => let! a := af l in let! addrs := collectAddrs af ls in Ret (a :: addrs)
  end.

Definition firstAddr {A} (af : A -> go (option nat)) (addressers : list A) : go (option nat) :=
  match addressers with [] => Ret None | l :: _ => af l end.

(** The address of a socket is as its name. *)
Definition socket_Addr (c : nat) : go (option nat) := Ret (Some c).

Definition Addrs (proto : Proto) (l : life) : go (list (option nat)) :=
  match proto with
  | ProtoTCP => collectAddrs socket_Addr (of_kind tcpListen l)
  | ProtoTLS => collectAddrs socket_Addr (of_kind tlsListen l)
  | ProtoHTTPS => collectAddrs socket_Addr (of_kind httpsListen l)
  | ProtoUDP => collectAddrs socket_Addr (of_kind udpListen l)
  | ProtoQUIC => collectAddrs socket_Addr (of_kind quicListen l)
  | ProtoDNSCrypt => collectAddrs LocalAddr (dnsCryptServers l)
  | ProtoNone => Panic
  end.

(** [Proxy.Addr] *)
Definition proxy_Addr (proto : Proto) (l : life) : go (option nat) :=
  match proto with
  | ProtoTCP => firstAddr socket_Addr (of_kind tcpListen l)
  | ProtoTLS => firstAddr socket_Addr (of_kind tlsListen l)
  | ProtoHTTPS => firstAddr socket_Addr (of_kind httpsListen l)
  | ProtoUDP => firstAddr socket_Addr (of_kind udpListen l)
  | ProtoQUIC => firstAddr socket_Addr (of_kind quicListen l)
  | ProtoDNSCrypt => firstAddr LocalAddr (dnsCryptServers l)
  | ProtoNone => Panic
  end.

(** ** Computations *)

Definition M (A : Type) : Type := world -> option (A * world).
Definition ret {A} (a : A) : M A := fun w => Some (a, w).
Definition bind {A B} (m : M A) (f : A -> M B) : M B := fun w =>
  match m w with Some (a, w') => f a w' | None => None end.

Declare Scope life_scope.
Delimit Scope life_scope with life.
Notation "'do' x <- m ; k" := (bind m (fun x => k)) (at level 10, x pattern, m at level 100, k at level 200) : life_scope.
#[local] Open Scope life_scope.

Definition get_life : M life := fun w => Some (lf w, w).
Definition modify (f : life -> life) : M unit := fun w =>
  Some (tt, mkWorld (w_time w) (live w) (f (lf w)) (retired w) (closedUpstreams w)).
Definition next : M nat := fun w =>
  Some (w_time w, mkWorld (S (w_time w)) (live w) (lf w) (retired w) (closedUpstreams w)).
Definition set_live (f : gset nat -> gset nat) : M unit := fun w =>
  Some (tt, mkWorld (w_time w) (f (live w)) (lf w) (retired w) (closedUpstreams w)).
Definition retire (rs : list run) : M unit := fun w =>
  Some (tt, mkWorld (w_time w) (live w) (lf w) (retired w ++ rs) (closedUpstreams w)).
Definition log_closed (us : list Upstream) : M unit := fun w =>
  Some (tt, mkWorld (w_time w) (live w) (lf w) (retired w) (closedUpstreams w ++ us)).

(** Stops at the first error. *)
Fixpoint for_each {A} (l : list A) (f : A -> M (option error)) : M (option error) :=
  match l with
  | [] => ret None
  | a :: l => do e <- f a; match e with Some e => ret (Some e) | None => for_each l f end
  end.

Section Life.
Context (E : env).

(** A new object, or an error. *)
Definition acquire : M nat := do t <- next; do _ <- set_live (fun l => {[t]} ∪ l); ret t.
Definition open_socket : M (result nat) :=
  do t <- next;
  match bind_err E t with
  | Some e => ret (Err e)
  | None => do c <- acquire; ret (Ok c)
  end.

Definition ask (f : nat -> option error) : M (option error) := do t <- next; ret (f t).

(** [Close]: a second one fails with [net.ErrClosed]. *)
Definition close_one (c : nat) : M (option error) := fun w =>
  if bool_decide (c ∈ live w)
  then (do t <- next; do _ <- set_live (fun l => l ∖ {[c]}); ret (close_err E t)) w
  else Some (Some ErrClosed, w).

Fixpoint closeAll (errs : list error) (closers : list nat) : M (list error) :=
  match closers with
  | [] => ret errs
  | c :: closers =>
      do err <- close_one c;
      closeAll (match err with
                | Some e => if errors_Is e "use of closed network connection" then errs else errs ++ [e]
                | None => errs
                end) closers
  end.

(** [http.Server.Close] closes the listeners that the server serves. *)
Fixpoint close_taken (t : nat) (ls : list nat) : M unit :=
  match ls with
  | [] => ret tt
  | c :: ls => if taken E t c then do _ <- close_one c; close_taken t ls else close_taken t ls
  end.

Definition close_server (ls : list nat) (errs : list error) : M (list error) :=
  do t <- next;
  do _ <- close_taken t ls;
  ret (match close_err E t with
       | Some e => if errors_Is e "use of closed network connection" then errs else errs ++ [e]
       | None => errs
       end).

(** ** Listening (retry.go and the listen functions) *)

Fixpoint retry_loop (fuel : nat) (count : Z) (bindFunc : M (result nat)) (err : error) (attempt : Z) : M (result nat) :=
  match fuel with
  | O => fun _ => None
  | S f =>
      if attempt <=? count then
        do r <- bindFunc;
        match r with
        | Ok c => ret (Ok c)
        | Err _ => retry_loop f count bindFunc err (uint64 (attempt + 1))
        end
      else ret (Err err)
  end.

(** The attempts are as many as [count], unless the counter wraps around. *)
Definition bindWithRetry (count : Z) (bindFunc : M (result nat)) : M (result nat) :=
  do r <- bindFunc;
  match r with
  | Ok c => ret (Ok c)
  | Err err => retry_loop (S (Z.to_nat count)) count bindFunc err 1
  end.

Context (conf : listen_conf).

Definition bind_socket : M (result nat) := bindWithRetry (bindRetryCount conf) open_socket.

(** Closes the socket after a failed setting. *)
Definition or_close (c : nat) (msg : string) (err : option error) (k : M (result nat)) : M (result nat) :=
  match err with
  | Some e => do _ <- close_one c; ret (Err (Errorf msg e))
  | None => k
  end.

Definition listenUDP : M (result nat) :=
  do r <- bind_socket;
  match r with
  | Err e => ret (Err (Errorf "listening to udp socket: %w" e))
  | Ok c =>
      do err <- (if 0 <? udpBufferSize conf then ask (setup_err E) else ret None);
      or_close c "setting udp buf size: %w" err
        (do err <- ask (setup_err E);
         or_close c "setting udp opts: %w" err (ret (Ok c)))
  end.

Definition listenTCP : M (result nat) :=
  do r <- bind_socket;
  ret (match r with Err e => Err (Errorf "listening to tcp socket: %w" e) | Ok c => Ok c end).

(** Adds the listener or returns the error. *)
Definition keep (k : kind) (msg : string) (r : result nat) : M (option error) :=
  match r with
  | Err e => ret (Some (Errorf msg e))
  | Ok c => do _ <- modify (add_listener k c); ret None
  end.

Definition initUDPListeners : M (option error) :=
  for_each (default [] (udpListenAddr conf)) (fun _ => do r <- listenUDP; keep udpListen "listening on udp addr %s: %w" r).

Definition initTCPListeners : M (option error) :=
  for_each (default [] (tcpListenAddr conf)) (fun _ => do r <- listenTCP; keep tcpListen "listening on tcp addr %s: %w" r).

Definition initTLSListeners : M (option error) :=
  for_each (default [] (tlsListenAddr conf)) (fun _ => do r <- bind_socket; keep tlsListen "listening on tls addr %s: %w" r).

(** [listenHTTP]: the address of a TCP listener is a TCP address. *)
Definition listenHTTP : M (result nat) :=
  do r <- bind_socket;
  ret (match r with Err e => Err (Errorf "tcp listener: %w" e) | Ok c => Ok c end).

(** [listenH3] does not retry. *)
Definition listenH3 : M (result nat) :=
  do r <- open_socket;
  ret (match r with Err e => Err (Errorf "quic listener: %w" e) | Ok c => Ok c end).

(** [routeDoH]: the patterns that get the handler. *)
Definition routeDoH (routes : list bytes) : list bytes :=
  match routes with
  | [] => [str "GET /"; str "POST /"; str "GET /dns-query"; str "POST /dns-query"]
  | _ => routes
  end.

Definition initHTTPSListeners : M (option error) :=
  match httpConf conf with
  | None => ret None
  | Some hc =>
      do l <- get_life;
      do _ <- modify (set_servers true (h3Server l || HTTP3Enabled hc));
      for_each (default [] (ListenAddresses hc)) (fun _ =>
        do r <- listenHTTP;
        do err <- keep httpsListen "failed to start https server on %s: %w" r;
        match err with
        | Some e => ret (Some e)
        | None =>
            if HTTP3Enabled hc
            then do r <- listenH3; keep h3Listen "failed to start h3 server on %s: %w" r
            else ret None
        end)
  end.

(** [listenQUIC]: the socket, the transport on it and the listener. *)
Definition listenQUIC : M (result (nat * nat * nat)) :=
  do r <- bind_socket;
  match r with
  | Err e => ret (Err (Errorf "listening to udp socket: %w" e))
  | Ok conn =>
      do tr <- acquire;
      do err <- ask (setup_err E);
      match err with
      | Some e => do _ <- close_one tr; do _ <- close_one conn; ret (Err (Errorf "listening early: %w" e))
      | None => do ln <- acquire; ret (Ok (conn, tr, ln))
      end
  end.

Definition initQUICListeners : M (option error) :=
  for_each (default [] (quicListenAddr conf)) (fun _ =>
    do r <- listenQUIC;
    match r with
    | Err e => ret (Some (Errorf "listening on quic addr %s: %w" e))
    | Ok (conn, tr, ln) =>
        do _ <- modify (fun l => add_listener quicListen ln (add_listener quicTransports tr (add_listener quicConns conn l)));
        ret None
    end).

(** Runs the steps until one fails. *)
Definition startListeners : M (option error) :=
  for_each [initUDPListeners; initTCPListeners; initTLSListeners; initHTTPSListeners; initQUICListeners] id.

(** ** DNSCrypt servers (serverdnscrypt.go) *)

(** golibs: [validate.NotEmpty] of a value that is empty or not, and
    [validate.NotNil] of one that is nil or not. *)
Context (NotEmpty NotNil : bool -> option error).

(** [Proto.Validate] *)
Definition proto_Validate (proto : bytes) : option error :=
  if bool_decide (proto = str "tcp") || bool_decide (proto = str "udp") then None
  else Some (New "proto: bad enum value").

(** [ServerConfig.Validate] *)
Definition server_Validate (provider : bytes) (addr : AddrPort) (cert : option Certificate) (proto : bytes) (now : Time)
    : option error :=
  join_errors (omap id
    [NotEmpty (bool_decide (provider = [])); NotEmpty (bool_decide (addr = (AddrZero, 0)));
     NotNil (match cert with Some _ => false | None => true end); proto_Validate proto;
     match cert with Some c => wrap_error "ResolverCert: %w" (cert_Validate now c) | None => None end]).

(** [dnscrypt.NewServer] for a protocol of the constants. *)
Definition NewServer (provider : bytes) (addr : AddrPort) (cert : option Certificate) (proto : dproto) (now : Time)
    : result run :=
  match server_Validate provider addr cert (match proto with CryptTCP => str "tcp" | CryptUDP => str "udp" end) now with
  | Some err => Err (Errorf "validating config: %w" err)
  | None => Ok (new_run proto)
  end.

Definition newDNSCryptServer (cert : Certificate) (proto : dproto) (msg : string) (addr : AddrPort) : M (option error) :=
  do t <- next;
  match NewServer (dnsCryptProviderName conf) addr (Some cert) proto (cert_now E t) with
  | Err e => ret (Some (Errorf msg e))
  | Ok r => do _ <- modify (fun l => set_crypt (dnsCryptServers l ++ [r]) l); ret None
  end.

Definition initDNSCryptServers : M (option error) :=
  match default [] (dnsCryptUDPListenAddr conf), default [] (dnsCryptTCPListenAddr conf) with
  | [], [] => ret None
  | udp, tcp =>
      match dnsCryptResolverCert conf with
      | None => ret (Some (New "invalid dnscrypt configuration: no certificate or provider name"))
      | Some cert =>
          if bool_decide (dnsCryptProviderName conf = [])
          then ret (Some (New "invalid dnscrypt configuration: no certificate or provider name"))
          else
            do err <- for_each udp (newDNSCryptServer cert CryptUDP "listening to dnscrypt udp on addr %s: %w");
            match err with
            | Some e => ret (Some e)
            | None => for_each tcp (newDNSCryptServer cert CryptTCP "listening to dnscrypt tcp on addr %s: %w")
            end
      end
  end.

(** What [Start] of a DNSCrypt server gets: the error of its context, the outcomes of
    [net.ListenTCP] or [net.ListenUDP] and of the options of the socket, on Linux. *)
Definition start_outcomes : M (option error * result nat * option error) :=
  do c <- ask (ctx_err E);
  do t <- next;
  do e6 <- ask (setup_err E);
  do e4 <- ask (setup_err E);
  ret (c, match bind_err E t with Some e => Err e | None => Ok t end, setUDPSocketOptions (str "linux") e6 e4).

(** [startDNSCryptServers] with the servers before and after [i]. *)
Fixpoint start_servers (before servers : list run) : M (option error) :=
  match servers with
  | [] => ret None
  | s :: servers =>
      do (c, l, opts) <- start_outcomes;
      let '(err, s') := CryptRun.Start c l opts s in
      do _ <- modify (set_crypt (before ++ s' :: servers));
      match err with
      | Some e => ret (Some (Errorf "starting dnscrypt server at index %d: %w" e))
      | None => start_servers (before ++ [s']) servers
      end
  end.

Definition startDNSCryptServers : M (option error) := do l <- get_life; start_servers [] (dnsCryptServers l).

(** The servers after [Shutdown] and the errors. *)
Fixpoint shutdown_servers (servers : list run) : M (list run * list error) :=
  match servers with
  | [] => ret ([], [])
  | s :: servers =>
      match CryptRun.Shutdown s with
      | Err _ => do (rs, errs) <- shutdown_servers servers; ret (s :: rs, errs)
      | Ok s' =>
          do err <- ask (wait_err E);
          do (rs, errs) <- shutdown_servers servers;
          ret (s' :: rs, option_list (wrap_error "shutting down dnscrypt server at index %d: %w" err) ++ errs)
      end
  end.

(** [shutdownDNSCryptServers] of the servers, which are then given up. *)
Definition shutdownDNSCryptServers : M (option error) :=
  do l <- get_life;
  do (rs, errs) <- shutdown_servers (dnsCryptServers l);
  do _ <- modify (set_crypt []);
  do _ <- retire rs;
  ret (join_errors errs).

(** ** Start and Shutdown *)

Definition close_kind (k : kind) (errs : list error) : M (list error) :=
  do l <- get_life;
  do errs <- closeAll errs (of_kind k l);
  do _ <- modify (drop_kind k);
  ret errs.

Definition closeListeners (errs : list error) : M (list error) :=
  do errs <- close_kind tcpListen errs;
  do errs <- close_kind udpListen errs;
  do errs <- close_kind tlsListen errs;
  do l <- get_life;
  do errs <- (if httpsServer l then close_server (of_kind httpsListen l) errs else ret errs);
  do _ <- modify (set_servers false (h3Server l));
  do errs <- close_kind httpsListen errs;
  do l <- get_life;
  do errs <- (if h3Server l then close_server (of_kind h3Listen l) errs else ret errs);
  do _ <- modify (set_servers false false);
  do errs <- close_kind h3Listen errs;
  do errs <- close_kind quicListen errs;
  do errs <- close_kind quicTransports errs;
  close_kind quicConns errs.

(** What [Start] does between its checks and its deferred function. *)
Definition start_body : M (option error) :=
  do err <- startListeners;
  match err with
  | Some e => ret (Some (Errorf "configuring listeners: %w" e))
  | None =>
      do err <- initDNSCryptServers;
      match err with
      | Some e => ret (Some e)
      | None =>
          do err <- startDNSCryptServers;
          match err with
          | Some e => ret (Some e)
          | None =>
              do err <- ask (ctx_err E);
              match err with
              | Some e => ret (Some e)
              | None => do _ <- modify (set_started true true); ret None
              end
          end
      end
  end.

Definition Start : M (option error) :=
  do l <- get_life;
  if started l then ret (Some (New "server has been already started"))
  else match validateListenAddrs conf with
  | Some err => ret (Some err)
  | None =>
      do err <- ask (ctx_err E);
      match err with
      | Some e => ret (Some e)
      | None =>
          do _ <- modify (set_started false true);
          do err <- start_body;
          match err with
          | None => ret None
          | Some e =>
              do errs <- closeListeners [];
              do serr <- shutdownDNSCryptServers;
              do _ <- modify (set_started false false);
              ret (Some (Join (e :: option_list (join_errors errs) ++ option_list serr)))
          end
      end
  end.

(** The configurations of upstreams that [Shutdown] closes. *)
Context (ucs : list UpstreamConfig).

(** The upstreams that [UpstreamConfig.Close] closes, in their order. *)
Definition closers (uc : UpstreamConfig) : list Upstream :=
  Upstreams uc
  ++ (d ← sorted_keys (DomainReservedUpstreams uc); default [] (DomainReservedUpstreams uc !! d))
  ++ (d ← sorted_keys (SpecifiedDomainUpstreams uc); default [] (SpecifiedDomainUpstreams uc !! d)).

Definition UpstreamConfig_Close (uc : UpstreamConfig) : M (option error) :=
  do _ <- log_closed (closers uc);
  ret (wrap_error "failed to close some upstreams: %w"
         (join_errors (filter (fun e => errors_Is e "use of closed network connection" = false)
                         (omap (upstream_err E) (closers uc))))).

Fixpoint close_configs (errs : list error) (l : list UpstreamConfig) : M (list error) :=
  match l with
  | [] => ret errs
  | uc :: l =>
      do err <- UpstreamConfig_Close uc;
      close_configs (errs ++ filter (fun e => errors_Is e "use of closed network connection" = false) (option_list err)) l
  end.

Definition Shutdown : M (option error) :=
  do l <- get_life;
  if negb (started l) then ret None
  else
    do _ <- modify (set_started false false);
    do errs <- closeListeners [];
    do errs <- close_configs errs ucs;
    do serr <- shutdownDNSCryptServers;
    ret (wrap_error "stopping dns proxy server: %w" (join_errors (errs ++ option_list serr))).
End Life.

(** ** Weakest preconditions: the computation returns, with the postcondition *)

Definition wp {A} (m : M A) (Q : A -> world -> Prop) (w : world) : Prop :=
  match m w with Some (a, w') => Q a w' | None => False end.

Lemma wp_ret {A} (a : A) Q w : Q a w -> wp (ret a) Q w.
Proof. exact (fun H => H). Qed.

Lemma wp_bind {A B} (m : M A) (f : A -> M B) Q w : wp m (fun a => wp (f a) Q) w -> wp (bind m f) Q w.
Proof. unfold wp, bind. destruct (m w) as [[a w']|]; auto. Qed.

Lemma wp_mono {A} (m : M A) (Q Q' : A -> world -> Prop) w :
  wp m Q w -> (forall a w', Q a w' -> Q' a w') -> wp m Q' w.
Proof. unfold wp. destruct (m w) as [[a w']|]; auto. Qed.

Lemma wp_get Q w : Q (lf w) w -> wp get_life Q w.
Proof. exact (fun H => H). Qed.

Lemma wp_modify f Q w :
  Q tt (mkWorld (w_time w) (live w) (f (lf w)) (retired w) (closedUpstreams w)) -> wp (modify f) Q w.
Proof. exact (fun H => H). Qed.

Create HintDb wp.
#[export] Hint Resolve wp_ret wp_get wp_modify : wp.

(** A loop whose body takes [I n] to [I (S n)], or stops with [J]. *)
Lemma wp_for_each {A} (I : nat -> world -> Prop) (J : world -> Prop) (f : A -> M (option error)) :
  (forall n a w, I n w -> wp (f a) (fun e w' => match e with None => I (S n) w' | Some _ => J w' end) w) ->
  forall l n w, I n w ->
  wp (for_each l f) (fun e w' => match e with None => I (n + length l)%nat w' | Some _ => J w' end) w.
Proof.
  intros Hf. induction l as [|a l IH]; intros n w Hw; cbn [for_each length].
  - apply wp_ret. rewrite Nat.add_0_r. exact Hw.
  - apply wp_bind. eapply wp_mono; [apply (Hf n), Hw|]. intros [e|] w' H; [apply wp_ret, H|].
    rewrite <- Nat.add_succ_comm. apply IH, H.
Qed.

Section Objects.
Context (E : env).

(** Nothing changed but the open objects and the time; the open ones are [S]. *)
Definition opened (w : world) (S : gset nat) (w' : world) : Prop :=
  live w' = S /\ (forall c, c ∈ S -> (c < w_time w')%nat)
  /\ lf w' = lf w /\ retired w' = retired w /\ closedUpstreams w' = closedUpstreams w.

Definition fresh_ids (w : world) : Prop := forall c, c ∈ live w -> (c < w_time w)%nat.

Lemma opened_refl w : fresh_ids w -> opened w (live w) w.
Proof. repeat split; auto. Qed.

Lemma opened_eq w S T w' : opened w S w' -> S = T -> opened w T w'.
Proof. intros H ->. exact H. Qed.

Lemma opened_fresh w S w' : opened w S w' -> fresh_ids w'.
Proof. intros (Hl & H & _) c Hc. rewrite Hl in Hc. auto. Qed.

Lemma opened_trans w S w' T w'' : opened w S w' -> opened w' T w'' -> opened w T w''.
Proof. intros (_ & _ & ? & ? & ?) (? & ? & ? & ? & ?). repeat split; congruence || auto. Qed.

Lemma wp_ask f w : fresh_ids w -> wp (ask f) (fun _ w' => opened w (live w) w') w.
Proof. intros H. cbn. repeat split. intros c Hc. apply H in Hc. cbn. lia. Qed.

Lemma wp_acquire w : fresh_ids w -> wp acquire (fun c w' => c ∉ live w /\ opened w ({[c]} ∪ live w) w') w.
Proof.
  intros H. cbn. split; [intros Hc; apply H in Hc; lia|]. repeat split. cbn. intros c Hc.
  apply elem_of_union in Hc as [Hc%elem_of_singleton|Hc]; [lia|]. apply H in Hc. lia.
Qed.

(** What opening one object gives: it, or an error and nothing else open. *)
Definition new_one (w : world) (r : result nat) (w' : world) : Prop :=
  match r with
  | Ok c => c ∉ live w /\ opened w ({[c]} ∪ live w) w'
  | Err _ => opened w (live w) w'
  end.

Lemma wp_open w : fresh_ids w -> wp (open_socket E) (new_one w) w.
Proof.
  intros H. unfold open_socket, next. apply wp_bind. cbn [wp].
  set (w1 := mkWorld _ _ _ _ _). assert (H1 : fresh_ids w1) by (intros c Hc; apply H in Hc; cbn; lia).
  destruct (bind_err E (w_time w)) as [e|].
  - apply wp_ret. repeat split; auto.
  - apply wp_bind. eapply wp_mono; [apply wp_acquire, H1|]. intros c w' [Hc Ho]. apply wp_ret. split; [exact Hc|].
    eapply opened_trans; [|exact Ho]. repeat split; auto.
Qed.

Lemma new_one_trans w w' r w'' : opened w (live w) w' -> new_one w' r w'' -> new_one w r w''.
Proof.
  intros Ho Hn. pose proof Ho as (Hl & _). destruct r; cbn in *; rewrite Hl in Hn.
  - split; [apply Hn|]. eapply opened_trans; [exact Ho|apply Hn].
  - eapply opened_trans; eauto.
Qed.

Lemma uint64_next a : 0 <= a < 2 ^ 64 - 1 -> uint64 (a + 1) = a + 1.
Proof. intros H. unfold uint64. apply Z.mod_small. lia. Qed.


(** *** Closing *)

Lemma wp_close c w : fresh_ids w -> wp (close_one E c) (fun _ w' => opened w (live w ∖ {[c]}) w') w.
Proof using Type.
  intros H. unfold wp, close_one. case_bool_decide as Hc.
  - cbn. repeat split. cbn. intros x Hx. apply elem_of_difference in Hx as [Hx _]. apply H in Hx. lia.
  - eapply opened_eq; [apply opened_refl, H|set_solver].
Qed.

Lemma wp_closeAll cs : forall errs w, fresh_ids w ->
  wp (closeAll E errs cs) (fun _ w' => opened w (live w ∖ list_to_set cs) w') w.
Proof using Type.
  induction cs as [|c cs IH]; intros errs w H; cbn [closeAll list_to_set].
  - apply wp_ret. eapply opened_eq; [apply opened_refl, H|set_solver].
  - apply wp_bind. eapply wp_mono; [apply wp_close, H|]. intros e w' Ho.
    eapply wp_mono; [apply IH; eapply opened_fresh, Ho|]. intros es w'' Ho'.
    eapply opened_trans; [exact Ho|]. destruct Ho as [Hl _]. rewrite Hl in Ho'.
    eapply opened_eq; [exact Ho'|set_solver].
Qed.

Lemma wp_close_taken t ls : forall w, fresh_ids w ->
  wp (close_taken E t ls) (fun _ w' => exists T : gset nat, T ⊆ list_to_set ls /\ opened w (live w ∖ T) w') w.
Proof using Type.
  assert (Hsame : forall w, fresh_ids w -> opened w (live w ∖ ∅) w).
  { intros w H. eapply opened_eq; [apply opened_refl, H|set_solver]. }
  induction ls as [|c ls IH]; intros w H; cbn [close_taken list_to_set].
  - apply wp_ret. exists ∅. split; [set_solver|auto].
  - destruct (taken E t c); [|eapply wp_mono; [apply IH, H|]; intros _ w' (T & HT & Ho); exists T; split; [set_solver|exact Ho]].
    apply wp_bind. eapply wp_mono; [apply wp_close, H|]. intros e w' Ho.
    eapply wp_mono; [apply IH; eapply opened_fresh, Ho|]. intros _ w'' (T & HT & Ho').
    exists ({[c]} ∪ T). split; [set_solver|]. eapply opened_trans; [exact Ho|]. destruct Ho as [Hl _]. rewrite Hl in Ho'.
    eapply opened_eq; [exact Ho'|set_solver].
Qed.

Lemma wp_close_server ls errs w : fresh_ids w ->
  wp (close_server E ls errs) (fun _ w' => exists T : gset nat, T ⊆ list_to_set ls /\ opened w (live w ∖ T) w') w.
Proof using Type.
  intros H. unfold close_server, next. apply wp_bind. cbn [wp]. set (w1 := mkWorld _ _ _ _ _).
  assert (H1 : fresh_ids w1) by (intros c Hc; apply H in Hc; cbn; lia).
  apply wp_bind. eapply wp_mono; [apply wp_close_taken, H1|]. intros _ w' (T & HT & Ho). apply wp_ret.
  exists T. split; [exact HT|]. eapply opened_trans; [|exact Ho]. apply (opened_refl w1) in H1.
  repeat split; apply H1.
Qed.

(** *** Opening listeners *)

Lemma wp_or_close c msg err k w0 w : fresh_ids w -> c ∉ live w0 -> opened w0 ({[c]} ∪ live w0) w ->
  (err = None -> wp k (new_one w0) w) -> wp (or_close E c msg err k) (new_one w0) w.
Proof using Type.
  intros H Hc Ho Hk. destruct err as [e|]; [|apply Hk; reflexivity]. cbn [or_close].
  apply wp_bind. eapply wp_mono; [apply wp_close, H|]. intros x w' Ho'. apply wp_ret. cbn.
  eapply opened_trans; [exact Ho|]. destruct Ho as [Hl _]. rewrite Hl in Ho'.
  eapply opened_eq; [exact Ho'|set_solver].
Qed.

Lemma wp_ask_opened f w0 S w : opened w0 S w -> wp (ask f) (fun _ w' => opened w0 S w') w.
Proof using Type.
  intros Ho. eapply wp_mono; [apply wp_ask; eapply opened_fresh, Ho|]. intros e w' Ho'.
  eapply opened_trans; [exact Ho|]. destruct Ho as [Hl _]. rewrite Hl in Ho'. exact Ho'.
Qed.

(** Only the text of the error changes. *)
Lemma wp_renamed (m : M (result nat)) (f : error -> error) w :
  wp m (new_one w) w -> wp (do r <- m; ret (match r with Err e => Err (f e) | Ok c => Ok c end)) (new_one w) w.
Proof using Type. intros H. apply wp_bind. eapply wp_mono; [exact H|]. intros [c|e] w' Hn; apply wp_ret, Hn. Qed.
End Objects.

(** ** What the proxy holds *)

Definition held (l : life) : list nat := snd <$> listeners l.

(** The open objects are those that the proxy holds, each once. *)
Definition tight (w : world) : Prop :=
  live w = list_to_set (held (lf w)) /\ NoDup (held (lf w)) /\ fresh_ids w.

(** Nothing is leaked: neither by the proxy nor by the DNSCrypt servers that it
    gave up. *)
Definition no_leak (w : world) : Prop :=
  tight w /\ Forall run_inv (dnsCryptServers (lf w)) /\ Forall stopped (retired w).

(** Starting, with [f k] objects of the kind [k] and the servers [rs]. *)
Definition starting (f : kind -> nat) (rs : list run) (w : world) : Prop :=
  no_leak w /\ started (lf w) = false /\ (forall k, length (of_kind k (lf w)) = f k) /\ dnsCryptServers (lf w) = rs.

Definition failed (w : world) : Prop := no_leak w /\ started (lf w) = false.

Definition one (k k' : kind) : nat := if decide (k' = k) then 1 else 0.

Lemma starting_ext f g rs w : starting f rs w -> (forall k, f k = g k) -> starting g rs w.
Proof. intros (H1 & H2 & H3 & H4) Hfg. repeat split; try apply H1; auto. intros k. rewrite <- Hfg. apply H3. Qed.

Lemma starting_failed f rs w : starting f rs w -> failed w.
Proof. intros (H1 & H2 & _). split; assumption. Qed.

Lemma of_kind_add k c l k' : of_kind k' (add_listener k c l) = of_kind k' l ++ (if decide (k' = k) then [c] else []).
Proof.
  unfold of_kind. cbn. rewrite list.filter_app, fmap_app. f_equal. rewrite list.filter_cons. cbn.
  destruct (decide (k' = k)) as [->|Hk]; [rewrite decide_True by reflexivity|rewrite decide_False by congruence]; reflexivity.
Qed.

(** Adding new objects that are open. *)
Lemma tight_add cs l' w w' :
  tight w -> NoDup cs.*2 -> (forall c, c ∈ cs.*2 -> c ∉ live w) -> opened w (list_to_set cs.*2 ∪ live w) w' ->
  listeners l' = listeners (lf w) ++ cs ->
  tight (mkWorld (w_time w') (live w') l' (retired w') (closedUpstreams w')).
Proof.
  intros (Hl & Hn & Hf) Hcs Hc (Hl' & Hf' & _) El. unfold tight, held in *. cbn [live lf]. rewrite El, Hl', fmap_app.
  split; [rewrite list_to_set_app_L, Hl; set_solver|]. split; [|intros x Hx; apply Hf'; exact Hx].
  apply list.NoDup_app. split; [exact Hn|]. split; [|exact Hcs].
  intros x Hx Hx'. apply (Hc x Hx'). rewrite Hl. apply elem_of_list_to_set, Hx.
Qed.

Lemma opened_tight w w' : tight w -> opened w (live w) w' -> tight w'.
Proof.
  intros (Hl & Hn & _) Ho. pose proof (opened_fresh _ _ _ Ho) as Hf.
  destruct Ho as (Hl' & _ & Hlf & _). unfold tight. rewrite Hlf, Hl'. auto.
Qed.

Lemma opened_starting f rs w w' : starting f rs w -> opened w (live w) w' -> starting f rs w'.
Proof.
  intros ((Ht & Hr & Hs) & H2 & H3 & H4) Ho. pose proof (opened_tight _ _ Ht Ho). destruct Ho as (_ & _ & Hlf & Hre & _).
  unfold starting, no_leak. rewrite Hlf, Hre. auto.
Qed.

(** [keep] after opening one object. *)
Lemma wp_keep k msg f rs w r w' : starting f rs w -> new_one w r w' ->
  wp (keep k msg r) (fun e w'' => match e with None => starting (fun k' => f k' + one k k')%nat rs w'' | Some _ => failed w'' end) w'.
Proof.
  intros Hs Hn. destruct r as [c|e]; cbn [keep].
  - destruct Hn as [Hc Ho], Hs as ((Ht & Hr & Hst) & H2 & H3 & H4). apply wp_bind, wp_modify, wp_ret.
    assert (Ht' : tight (mkWorld (w_time w') (live w') (add_listener k c (lf w')) (retired w') (closedUpstreams w'))).
    { apply (tight_add [(k, c)] _ w); auto.
      - apply NoDup_singleton.
      - intros x Hx. apply list_elem_of_singleton in Hx. subst x. exact Hc.
      - eapply opened_eq; [exact Ho|set_solver].
      - destruct Ho as (_ & _ & -> & _). reflexivity. }
    destruct Ho as (_ & _ & Hlf & Hre & _).
    unfold starting, no_leak. cbn [lf retired]. rewrite Hlf, Hre in *. split; [auto|]. split; [exact H2|]. split; [|exact H4].
    intros k'. rewrite of_kind_add, length_app, H3. unfold one. destruct (decide _); reflexivity.
  - apply wp_ret. eapply starting_failed, opened_starting; eauto.
Qed.

Lemma starting_fresh f rs w : starting f rs w -> fresh_ids w.
Proof. intros (((_ & _ & H) & _) & _). exact H. Qed.

(** Listening on each of some addresses, with [inc k] new objects for each. *)
Lemma wp_listen_each {A} (inc : kind -> nat) rs (step : A -> M (option error)) :
  (forall a f w, starting f rs w ->
    wp (step a) (fun e w' => match e with None => starting (fun k => f k + inc k)%nat rs w' | Some _ => failed w' end) w) ->
  forall l f w, starting f rs w ->
  wp (for_each l step) (fun e w' => match e with None => starting (fun k => f k + length l * inc k)%nat rs w' | Some _ => failed w' end) w.
Proof.
  intros Hstep l f w Hs.
  apply (wp_for_each (fun n => starting (fun k => f k + n * inc k)%nat rs) failed step) with (n := O).
  - intros n a w1 H1. eapply wp_mono; [apply (Hstep a), H1|]. intros [e|] w2 H2; [exact H2|].
    eapply starting_ext; [exact H2|]. intros k. cbn [Nat.mul]. lia.
  - eapply starting_ext; [exact Hs|]. intros k. lia.
Qed.

Section Closing.
Context (E : env).

(** *** Closing the listeners *)

Lemma held_drop k l : NoDup (held l) -> forall c, c ∈ held (drop_kind k l) <-> c ∈ held l /\ c ∉ of_kind k l.
Proof using Type.
  unfold held, of_kind, drop_kind. cbn. intros Hn c. rewrite !list_elem_of_fmap. setoid_rewrite list_elem_of_filter. split.
  - intros (x & -> & Hk & Hx). split; [eauto|]. intros (y & Hy & Hky & Hyin).
    apply Hk. rewrite <- Hky. f_equal.
    destruct (list_elem_of_lookup_1 _ _ Hx) as [i Hi], (list_elem_of_lookup_1 _ _ Hyin) as [j Hj].
    assert (i = j) as ->.
    { apply (NoDup_lookup _ i j (snd x) Hn); rewrite list_lookup_fmap; [rewrite Hi|rewrite Hj, Hy]; reflexivity. }
    congruence.
  - intros [(x & -> & Hx) Hnk]. exists x. split; [reflexivity|]. split; [|exact Hx]. intros Hk. apply Hnk. eauto.
Qed.

(** [close_kind] when some of the objects may be closed already. *)
Lemma wp_close_kind k errs T w :
  live w = list_to_set (held (lf w)) ∖ T -> NoDup (held (lf w)) -> fresh_ids w -> T ⊆ list_to_set (of_kind k (lf w)) ->
  wp (close_kind E k errs) (fun _ w' => tight w' /\ lf w' = drop_kind k (lf w) /\ retired w' = retired w
    /\ closedUpstreams w' = closedUpstreams w) w.
Proof using Type.
  intros Hl Hn Hf HT. apply wp_bind, wp_get, wp_bind. eapply wp_mono; [apply wp_closeAll, Hf|].
  intros es w1 (Hl1 & Hf1 & Hlf & Hre & Hcl). apply wp_bind, wp_modify, wp_ret. unfold tight. cbn [lf live retired closedUpstreams].
  rewrite Hlf. pose proof (held_drop k (lf w) Hn) as Hh. split; [|auto]. split; [|split].
  - rewrite Hl1, Hl. apply set_eq. intros c. rewrite elem_of_list_to_set, Hh, !elem_of_difference, !elem_of_list_to_set.
    split; [tauto|]. intros [Hc Hk]. repeat split; auto. intros Hx. apply Hk. apply HT in Hx. apply elem_of_list_to_set in Hx. exact Hx.
  - unfold held, drop_kind in *. cbn. eapply sublist_NoDup; [exact Hn|]. apply fmap_sublist, sublist_filter.
  - intros c Hc. cbn in *. apply Hf1. rewrite <- Hl1. exact Hc.
Qed.

(** The kinds [ks] are closed, and of the kind [k] the objects [T]. *)
Record closing (k : kind) (T : gset nat) (ks : list kind) (w w' : world) : Prop := {
  cl_live : live w' = list_to_set (held (lf w')) ∖ T;
  cl_nodup : NoDup (held (lf w'));
  cl_fresh : fresh_ids w';
  cl_kind : T ⊆ list_to_set (of_kind k (lf w'));
  cl_left : listeners (lf w') = filter (fun x => x.1 ∉ ks) (listeners (lf w));
  cl_retired : retired w' = retired w;
  cl_upstreams : closedUpstreams w' = closedUpstreams w;
  cl_servers : dnsCryptServers (lf w') = dnsCryptServers (lf w);
  cl_started : started (lf w') = started (lf w);
}.

Lemma closing_start k w : tight w -> closing k ∅ [] w w.
Proof.
  intros (Hl & Hn & Hf). split; auto; [rewrite difference_empty_L; exact Hl|apply empty_subseteq|]. clear.
  induction (listeners (lf w)) as [|x l IH]; [reflexivity|]. rewrite list.filter_cons, decide_True by apply not_elem_of_nil.
  f_equal. exact IH.
Qed.

Lemma closing_next k k' ks w w' : closing k ∅ ks w w' -> closing k' ∅ ks w w'.
Proof. intros []. split; auto. apply empty_subseteq. Qed.

Lemma closing_set k T ks w w' https h3 : closing k T ks w w' ->
  closing k T ks w (mkWorld (w_time w') (live w') (set_servers https h3 (lf w')) (retired w') (closedUpstreams w')).
Proof. intros []. split; auto. Qed.

Lemma wp_closing k T ks es w w' : closing k T ks w w' -> wp (close_kind E k es) (fun _ => closing k ∅ (k :: ks) w) w'.
Proof.
  intros [Hl Hn Hf HT Hleft Hre Hup Hsv Hst]. eapply wp_mono; [eapply wp_close_kind; eauto|].
  intros _ w1 ((Hl1 & Hn1 & Hf1) & Hlf & Hre1 & Hup1). split; [rewrite difference_empty_L; exact Hl1|exact Hn1|exact Hf1|apply empty_subseteq| | | | |]; try congruence; rewrite Hlf; auto.
  cbn. rewrite Hleft, list_filter_filter. apply list_filter_iff. intros x. rewrite not_elem_of_cons. tauto.
Qed.

(** Closing the server of the listeners of the kind first. *)
Lemma wp_closing_server (b : bool) k ks es w w' : closing k ∅ ks w w' ->
  wp (if b then close_server E (of_kind k (lf w')) es else ret es) (fun _ w1 => exists T, closing k T ks w w1) w'.
Proof.
  intros Hc. destruct b; [|apply wp_ret; eauto]. destruct Hc as [Hl Hn Hf HT Hleft Hre Hup Hsv Hst].
  eapply wp_mono; [apply wp_close_server, Hf|]. intros _ w1 (T & HTk & Ho). exists T.
  pose proof (opened_fresh _ _ _ Ho). destruct Ho as (Hl1 & _ & Hlf & Hre1 & Hup1).
  split; rewrite ?Hlf; auto; try congruence. rewrite Hl1, Hl, difference_empty_L. reflexivity.
Qed.

(** What is left of the proxy when its listeners are closed. *)
Lemma wp_closeListeners errs w : tight w ->
  wp (closeListeners E errs) (fun _ w' => tight w' /\ listeners (lf w') = [] /\ retired w' = retired w
    /\ closedUpstreams w' = closedUpstreams w /\ dnsCryptServers (lf w') = dnsCryptServers (lf w)
    /\ started (lf w') = started (lf w)) w.
Proof.
  intros Ht. unfold closeListeners.
  apply wp_bind. eapply wp_mono; [eapply wp_closing, closing_start, Ht|]. intros e1 w1 H1.
  apply wp_bind. eapply wp_mono; [eapply wp_closing, closing_next, H1|]. intros e2 w2 H2.
  apply wp_bind. eapply wp_mono; [eapply wp_closing, closing_next, H2|]. intros e3 w3 H3.
  apply wp_bind, wp_get, wp_bind. eapply wp_mono; [eapply wp_closing_server, closing_next, H3|]. intros e4 w4 (T & H4).
  apply wp_bind, wp_modify, wp_bind. eapply wp_mono; [eapply wp_closing, closing_set, H4|]. intros e5 w5 H5.
  apply wp_bind, wp_get, wp_bind. eapply wp_mono; [eapply wp_closing_server, closing_next, H5|]. intros e6 w6 (T' & H6).
  apply wp_bind, wp_modify, wp_bind. eapply wp_mono; [eapply wp_closing, closing_set, H6|]. intros e7 w7 H7.
  apply wp_bind. eapply wp_mono; [eapply wp_closing, closing_next, H7|]. intros e8 w8 H8.
  apply wp_bind. eapply wp_mono; [eapply wp_closing, closing_next, H8|]. intros e9 w9 H9.
  eapply wp_mono; [eapply wp_closing, closing_next, H9|]. intros e10 w10 [Hl Hn Hf _ Hleft Hre Hup Hsv Hst].
  rewrite difference_empty_L in Hl. split; [split; auto|]. split; [|auto]. rewrite Hleft.
  clear. induction (listeners (lf w)) as [|[k c] l IH]; [reflexivity|]. rewrite list.filter_cons, decide_False; [exact IH|].
  intros H. apply H. cbn [fst]. apply list_elem_of_In. destruct k; cbn; tauto.
Qed.
End Closing.

Section LifeFacts.
Context (E : env) (conf : listen_conf) (NotEmpty NotNil : bool -> option error).
Hypothesis retries : 0 <= bindRetryCount conf < 2 ^ 64 - 1.

Lemma wp_retry err w0 : forall fuel attempt w, fresh_ids w -> opened w0 (live w0) w -> 1 <= attempt ->
  bindRetryCount conf + 1 - attempt < Z.of_nat fuel -> attempt <= bindRetryCount conf + 1 ->
  wp (retry_loop fuel (bindRetryCount conf) (open_socket E) err attempt) (new_one w0) w.
Proof using retries.
  induction fuel as [|f IH]; intros attempt w Hw Ho Ha Hf Hc; [lia|]. cbn [retry_loop].
  destruct (Z.leb_spec attempt (bindRetryCount conf)); [|apply wp_ret, Ho].
  apply wp_bind. eapply wp_mono; [apply wp_open, Hw|]. intros [c|e] w' Hn.
  - apply wp_ret. eapply new_one_trans; eauto.
  - rewrite uint64_next by lia. cbn in Hn. apply IH; try lia; [eapply opened_fresh, Hn|].
    destruct Ho as (Hl & Ho). rewrite Hl in Hn. eapply opened_trans; [|exact Hn]. split; [exact Hl|exact Ho].
Qed.

(** Binding returns after at most as many retries as configured. *)
Lemma wp_bind_socket w : fresh_ids w -> wp (bind_socket E conf) (new_one w) w.
Proof using retries.
  intros Hw. apply wp_bind. eapply wp_mono; [apply wp_open, Hw|]. intros [c|e] w' Hn; [apply wp_ret, Hn|].
  apply wp_retry; try lia; [eapply opened_fresh, Hn|exact Hn].
Qed.

Lemma wp_listenUDP w : fresh_ids w -> wp (listenUDP E conf) (new_one w) w.
Proof using retries.
  intros H. apply wp_bind. eapply wp_mono; [apply wp_bind_socket, H|]. intros [c|e] w1 Hn; [|apply wp_ret, Hn].
  destruct Hn as [Hc Ho]. apply wp_bind.
  apply (wp_mono _ (fun _ w' => opened w ({[c]} ∪ live w) w')); [case_goal; [apply wp_ask_opened|apply wp_ret]; exact Ho|].
  intros err w2 Ho2. apply wp_or_close; auto; [eapply opened_fresh, Ho2|]. intros _.
  apply wp_bind. eapply wp_mono; [apply wp_ask_opened, Ho2|]. intros err2 w3 Ho3.
  apply wp_or_close; auto; [eapply opened_fresh, Ho3|]. intros _. apply wp_ret. split; assumption.
Qed.


(** *** The listeners *)

Lemma wp_keep_each {A} k msg (m : M (result nat)) rs (l : list A) f w :
  (forall w, fresh_ids w -> wp m (new_one w) w) -> starting f rs w ->
  wp (for_each l (fun _ => do r <- m; keep k msg r))
    (fun e w' => match e with None => starting (fun k' => f k' + length l * one k k')%nat rs w' | Some _ => failed w' end) w.
Proof using Type.
  intros Hm. apply wp_listen_each. intros _ g w1 H1. apply wp_bind.
  eapply wp_mono; [apply Hm, (starting_fresh g rs), H1|]. intros r w2 Hn. eapply wp_keep; eauto.
Qed.

Lemma wp_listenHTTP w : fresh_ids w -> wp (listenHTTP E conf) (new_one w) w.
Proof using retries. intros H. apply wp_renamed, wp_bind_socket; auto. Qed.

(** The objects of one QUIC address. *)
Lemma wp_listenQUIC w : fresh_ids w ->
  wp (listenQUIC E conf) (fun r w' => match r with
    | Ok (conn, tr, ln) => let cs := [conn; tr; ln] in
        NoDup cs /\ (forall c, c ∈ cs -> c ∉ live w) /\ opened w (list_to_set cs ∪ live w) w'
    | Err _ => opened w (live w) w'
    end) w.
Proof using retries.
  intros H. apply wp_bind. eapply wp_mono; [apply wp_bind_socket; auto|]. intros [conn|e] w1 Hn; [|apply wp_ret, Hn].
  destruct Hn as [Hc Ho]. apply wp_bind. eapply wp_mono; [apply wp_acquire; eapply opened_fresh, Ho|]. intros tr w2 [Ht Ho2].
  assert (Hl1 := proj1 Ho). rewrite Hl1 in Ht, Ho2. pose proof (opened_trans _ _ _ _ _ Ho Ho2) as Ho2'.
  apply wp_bind. eapply wp_mono; [apply wp_ask_opened, Ho2'|]. intros [e|] w3 Ho3.
  - apply wp_bind. eapply wp_mono; [apply wp_close; eapply opened_fresh, Ho3|]. intros e1 w4 Ho4.
    apply wp_bind. eapply wp_mono; [apply wp_close; eapply opened_fresh, Ho4|]. intros e2 w5 Ho5. apply wp_ret.
    assert (Hl3 := proj1 Ho3). assert (Hl4 := proj1 Ho4). rewrite Hl3 in Ho4, Hl4. rewrite Hl4 in Ho5.
    eapply opened_eq; [eapply opened_trans; [|exact Ho5]; eapply opened_trans; [exact Ho3|exact Ho4]|set_solver].
  - apply wp_bind. eapply wp_mono; [apply wp_acquire; eapply opened_fresh, Ho3|]. intros ln w4 [Hn4 Ho4]. apply wp_ret.
    assert (Hl3 := proj1 Ho3). rewrite Hl3 in Hn4, Ho4. cbn zeta. split; [|split].
    + apply not_elem_of_union in Ht as [Ht _]. rewrite elem_of_singleton in Ht.
      rewrite !not_elem_of_union, !elem_of_singleton in Hn4. destruct Hn4 as (? & ? & ?).
      repeat constructor; rewrite ?list_elem_of_In; cbn; intuition congruence.
    + intros c. rewrite list_elem_of_In. cbn. intros [<-|[<-|[<-|[]]]]; set_solver.
    + eapply opened_eq; [eapply opened_trans; [exact Ho3|exact Ho4]|set_solver].
Qed.

Lemma wp_quic_each {A} rs (l : list A) f w : starting f rs w ->
  wp (for_each l (fun _ =>
    do r <- listenQUIC E conf;
    match r with
    | Err e => ret (Some (Errorf "listening on quic addr %s: %w" e))
    | Ok (conn, tr, ln) =>
        do _ <- modify (fun l => add_listener quicListen ln (add_listener quicTransports tr (add_listener quicConns conn l)));
        ret None
    end)) (fun e w' => match e with
             | None => starting (fun k => f k + length l * (one quicConns k + one quicTransports k + one quicListen k))%nat rs w'
             | Some _ => failed w' end) w.
Proof using retries.
  apply wp_listen_each. intros _ g w1 Hs. apply wp_bind. eapply wp_mono; [apply wp_listenQUIC; eapply starting_fresh, Hs|].
  intros [[[conn tr] ln]|e] w2 Hn; [|apply wp_ret; eapply starting_failed, opened_starting; eauto].
  destruct Hn as (Hnd & Hc & Ho). apply wp_bind, wp_modify, wp_ret. destruct Hs as ((Ht & Hr & Hst) & H2 & H3 & H4).
  pose proof Ho as (_ & _ & Hlf & Hre & _). unfold starting, no_leak. cbn [lf retired].
  split; [split|].
  - apply (tight_add [(quicConns, conn); (quicTransports, tr); (quicListen, ln)] _ w1); auto.
    rewrite Hlf. cbn. rewrite <- !app_assoc. reflexivity.
  - rewrite Hlf, Hre. cbn. auto.
  - rewrite Hlf. split; [exact H2|]. split; [|exact H4]. intros k. rewrite !of_kind_add, !length_app, H3.
    unfold one. repeat destruct (decide _); cbn; lia.
Qed.

Definition https_inc (hc : HTTPConfig) (k : kind) : nat := one httpsListen k + (if HTTP3Enabled hc then one h3Listen k else 0).

Lemma wp_https_each {A} hc rs (l : list A) f w : starting f rs w ->
  wp (for_each l (fun _ =>
        do r <- listenHTTP E conf;
        do err <- keep httpsListen "failed to start https server on %s: %w" r;
        match err with
        | Some e => ret (Some e)
        | None =>
            if HTTP3Enabled hc
            then do r <- listenH3 E; keep h3Listen "failed to start h3 server on %s: %w" r
            else ret None
        end)) (fun e w' => match e with
                 | None => starting (fun k => f k + length l * https_inc hc k)%nat rs w'
                 | Some _ => failed w' end) w.
Proof using retries.
  apply wp_listen_each. intros _ g w1 H1. apply wp_bind.
  eapply wp_mono; [apply wp_listenHTTP, (starting_fresh g rs), H1|]. intros r w2 Hn.
  apply wp_bind. eapply wp_mono; [eapply wp_keep; eauto|]. intros [e|] w3 H3; [apply wp_ret, H3|].
  unfold https_inc. destruct (HTTP3Enabled hc).
  - apply wp_bind. eapply wp_mono; [apply wp_renamed, wp_open; eapply starting_fresh, H3|]. intros r3 w4 Hn4.
    eapply wp_mono; [eapply wp_keep; eauto|]. intros [e|] w5 H5; [exact H5|]. eapply starting_ext; [exact H5|]. intros k. cbn. lia.
  - apply wp_ret. eapply starting_ext; [exact H3|]. intros k. cbn. lia.
Qed.

(** How many objects of each kind the configuration asks for. *)
Definition n_of {A} (o : option (list A)) : nat := length (default [] o).
Definition wanted (k : kind) : nat :=
  match k with
  | udpListen => n_of (udpListenAddr conf)
  | tcpListen => n_of (tcpListenAddr conf)
  | tlsListen => n_of (tlsListenAddr conf)
  | httpsListen => match httpConf conf with Some hc => n_of (ListenAddresses hc) | None => 0 end
  | h3Listen => match httpConf conf with Some hc => if HTTP3Enabled hc then n_of (ListenAddresses hc) else 0 | None => 0 end
  | quicListen | quicTransports | quicConns => n_of (quicListenAddr conf)
  end.

Lemma wp_startListeners rs w : starting (fun _ => O) rs w ->
  wp (startListeners E conf) (fun e w' => match e with None => starting wanted rs w' | Some _ => failed w' end) w.
Proof using retries.
  intros Hs. unfold startListeners, for_each at 1. cbn [id].
  apply wp_bind. eapply wp_mono; [apply wp_keep_each; [intros; apply wp_listenUDP; auto|exact Hs]|].
  intros [e|] w1 H1; [apply wp_ret, H1|].
  apply wp_bind. eapply wp_mono; [apply wp_keep_each; [intros; apply wp_renamed, wp_bind_socket; auto|exact H1]|].
  intros [e|] w2 H2; [apply wp_ret, H2|].
  apply wp_bind. eapply wp_mono; [apply wp_keep_each; [intros; apply wp_bind_socket; auto|exact H2]|].
  intros [e|] w3 H3; [apply wp_ret, H3|]. clear w w1 w2 Hs H1 H2. revert H3. set (f := fun k => _). intros H3.
  set (https := fun k => match httpConf conf with Some hc => (n_of (ListenAddresses hc) * https_inc hc k)%nat | None => O end).
  apply wp_bind. apply (wp_mono _ (fun e w' => match e with None => starting (fun k => f k + https k)%nat rs w' | Some _ => failed w' end)).
  { unfold initHTTPSListeners, https. destruct (httpConf conf) as [hc|].
    - apply wp_bind, wp_get, wp_bind, wp_modify, wp_https_each. exact H3.
    - apply wp_ret. eapply starting_ext; [exact H3|]. intros k. lia. }
  intros [e|] w4 H4; [apply wp_ret, H4|].
  apply wp_bind. eapply wp_mono; [apply wp_quic_each, H4|]. intros [e|] w5 H5; [apply wp_ret, H5|].
  apply wp_ret. eapply starting_ext; [exact H5|]. intros k. unfold f, https, wanted, https_inc, n_of.
  destruct (httpConf conf) as [hc|]; [destruct (HTTP3Enabled hc)|]; destruct k; cbv [one decide decide_rel kind_eq_dec kind_rec kind_rect]; cbn; lia.
Qed.

(** *** DNSCrypt servers *)

Lemma new_run_inv proto : run_inv (new_run proto).
Proof using Type. split; cbn; auto; congruence || set_solver. Qed.

(** Changing the servers only. *)
Lemma starting_servers f rs rs' w : starting f rs w -> Forall run_inv rs' ->
  starting f rs' (mkWorld (w_time w) (live w) (set_crypt rs' (lf w)) (retired w) (closedUpstreams w)).
Proof using Type. intros ((Ht & _ & Hst) & H2 & H3 & _) Hr. repeat split; auto; apply Ht. Qed.

Lemma wp_new_each cert proto msg f (l : list AddrPort) : forall rs w, starting f rs w ->
  wp (for_each l (newDNSCryptServer E conf NotEmpty NotNil cert proto msg))
    (fun e w' => match e with None => starting f (rs ++ replicate (length l) (new_run proto)) w' | Some _ => failed w' end) w.
Proof using Type.
  induction l as [|a l IH]; intros rs w Hs; cbn [for_each length replicate].
  - apply wp_ret. rewrite app_nil_r. exact Hs.
  - apply wp_bind. unfold newDNSCryptServer, next. apply wp_bind. cbn [wp]. set (w1 := mkWorld _ _ _ _ _).
    assert (H1 : starting f rs w1).
    { eapply opened_starting; [exact Hs|]. repeat split. intros c Hc. apply (starting_fresh f rs w Hs) in Hc. cbn. lia. }
    unfold NewServer. destruct (server_Validate _ _ _ _ _ _ _); [apply wp_ret, wp_ret; eapply starting_failed, H1|].
    apply wp_bind, wp_modify, wp_ret. rewrite (proj2 (proj2 (proj2 H1))).
    rewrite cons_middle, app_assoc. apply IH. eapply starting_servers; [exact H1|].
    apply Forall_app. split; [|constructor; [apply new_run_inv|constructor]].
    rewrite <- (proj2 (proj2 (proj2 H1))). apply H1.
Qed.

(** The servers that the configuration asks for. *)
Definition wanted_servers : list run :=
  replicate (n_of (dnsCryptUDPListenAddr conf)) (new_run CryptUDP) ++ replicate (n_of (dnsCryptTCPListenAddr conf)) (new_run CryptTCP).

Lemma wp_initDNSCryptServers f w : starting f [] w ->
  wp (initDNSCryptServers E conf NotEmpty NotNil)
    (fun e w' => match e with None => starting f wanted_servers w' | Some _ => failed w' end) w.
Proof using Type.
  intros Hs. pose proof (starting_failed _ _ _ Hs) as Hf. unfold initDNSCryptServers, wanted_servers, n_of.
  assert (Hboth : forall cert, wp (do err <- for_each (default [] (dnsCryptUDPListenAddr conf)) (newDNSCryptServer E conf NotEmpty NotNil cert CryptUDP "listening to dnscrypt udp on addr %s: %w");
            match err with
            | Some e => ret (Some e)
            | None => for_each (default [] (dnsCryptTCPListenAddr conf)) (newDNSCryptServer E conf NotEmpty NotNil cert CryptTCP "listening to dnscrypt tcp on addr %s: %w")
            end) (fun e w' => match e with None => starting f (replicate (length (default [] (dnsCryptUDPListenAddr conf))) (new_run CryptUDP) ++ replicate (length (default [] (dnsCryptTCPListenAddr conf))) (new_run CryptTCP)) w' | Some _ => failed w' end) w).
  { intros cert. apply wp_bind. eapply wp_mono; [apply wp_new_each, Hs|]. intros [e|] w1 H1; [apply wp_ret, H1|].
    apply wp_new_each, H1. }
  destruct (default [] (dnsCryptUDPListenAddr conf)) as [|u us], (default [] (dnsCryptTCPListenAddr conf)) as [|t ts];
    [apply wp_ret, Hs|..]; (destruct (dnsCryptResolverCert conf) as [cert|]; [|apply wp_ret, Hf]);
    (case_bool_decide; [apply wp_ret, Hf|apply Hboth]).
Qed.

Lemma crypt_Start_inv c l opts r e r' : run_inv r -> CryptRun.Start c l opts r = (e, r') ->
  run_inv r' /\ (e = None -> r_started r' = true).
Proof using Type.
  intros Hr Hs. split; [eapply Start_inv; eassumption|].
  intros ->. revert Hs. unfold CryptRun.Start. destruct c; [discriminate|]. destruct (r_started r); [discriminate|].
  destruct (r_done r) as [[]|]; cbn [negb]; try discriminate;
    (destruct (bind_listener _ _ _) as [x [e|]]; [discriminate|]); intros [= <-]; reflexivity.
Qed.

Lemma wp_start_outcomes w : fresh_ids w -> wp (start_outcomes E) (fun _ w' => opened w (live w) w') w.
Proof using Type.
  intros Hw. unfold start_outcomes. apply wp_bind. eapply wp_mono; [apply wp_ask, Hw|]. intros c w1 H1.
  apply wp_bind. cbn [wp next]. set (w2 := mkWorld _ _ _ _ _).
  assert (H2 : opened w1 (live w1) w2).
  { repeat split. intros x Hx. apply (opened_fresh _ _ _ H1) in Hx. cbn. lia. }
  apply wp_bind. eapply wp_mono; [apply wp_ask; eapply opened_fresh, H2|]. intros e6 w3 H3.
  apply wp_bind. eapply wp_mono; [apply wp_ask; eapply opened_fresh, H3|]. intros e4 w4 H4. apply wp_ret.
  pose proof H1 as [<- _]. pose proof H2 as [E2 _]. pose proof H3 as [E3 _]. rewrite E3, E2 in H4. rewrite E2 in H3.
  eapply opened_trans; [|eapply opened_trans; [exact H2|eapply opened_trans; [exact H3|exact H4]]]. exact H1.
Qed.

Lemma wp_start_servers f : forall servers before w, starting f (before ++ servers) w ->
  Forall (fun r => r_started r = true) before ->
  wp (start_servers E before servers)
    (fun e w' => match e with
       | None => exists rs, starting f rs w' /\ Forall (fun r => r_started r = true) rs /\ length rs = length (before ++ servers)
       | Some _ => failed w' end) w.
Proof using Type.
  induction servers as [|s servers IH]; intros before w Hs Hb; cbn [start_servers].
  - apply wp_ret. exists before. rewrite app_nil_r in *. auto.
  - apply wp_bind. eapply wp_mono; [apply wp_start_outcomes; eapply starting_fresh, Hs|]. intros [[c l] opts] w2 Ho2.
    pose proof (opened_starting _ _ _ _ Hs Ho2) as H2.
    assert (Hinv : Forall run_inv (before ++ s :: servers)) by (rewrite <- (proj2 (proj2 (proj2 H2))); apply H2).
    apply Forall_app in Hinv as [Hi1 Hi2]. apply Forall_cons_1 in Hi2 as [Hi2 Hi3].
    destruct (CryptRun.Start c l opts s) as [err s'] eqn:Es. destruct (crypt_Start_inv _ _ _ _ _ _ Hi2 Es) as [Hs' Hst].
    apply wp_bind, wp_modify. pose proof (starting_servers f _ (before ++ s' :: servers) _ H2) as H3.
    destruct err as [e|].
    + apply wp_ret. eapply starting_failed, H3. apply Forall_app. auto.
    + replace (before ++ s :: servers) with ((before ++ [s]) ++ servers) by (rewrite <- app_assoc; reflexivity).
      replace (length ((before ++ [s]) ++ servers)) with (length ((before ++ [s']) ++ servers)) by (rewrite !length_app; reflexivity).
      apply IH; [rewrite <- app_assoc; apply H3, Forall_app; auto|]. apply Forall_app. auto.
Qed.

Lemma crypt_Shutdown_stopped r : run_inv r -> match CryptRun.Shutdown r with Ok r' => stopped r' | Err _ => stopped r end.
Proof using Type.
  intros [? ? ? Hst ? Hs _ _]. unfold CryptRun.Shutdown, stopped. destruct (r_done r) as [d|] eqn:Ed.
  - destruct (r_started r) eqn:Er; [auto|]. destruct (Hst eq_refl). auto.
  - destruct (r_started r) eqn:Er; [destruct (proj1 (Hs eq_refl) eq_refl)|]. destruct (Hst eq_refl). auto.
Qed.

Lemma wp_shutdown_servers rs : forall w, fresh_ids w -> Forall run_inv rs ->
  wp (shutdown_servers E rs) (fun r w' => Forall stopped r.1 /\ opened w (live w) w') w.
Proof using Type.
  induction rs as [|s rs IH]; intros w Hw Hr; cbn [shutdown_servers].
  - apply wp_ret. split; [constructor|apply opened_refl, Hw].
  - apply Forall_cons_1 in Hr as [Hs Hr]. pose proof (crypt_Shutdown_stopped s Hs) as Hst.
    destruct (CryptRun.Shutdown s) as [s'|e].
    + apply wp_bind. eapply wp_mono; [apply wp_ask, Hw|]. intros e w1 Ho1. apply wp_bind.
      eapply wp_mono; [apply IH; [eapply opened_fresh, Ho1|exact Hr]|]. intros [rs' es] w2 [Hs2 Ho2]. apply wp_ret.
      split; [constructor; auto|]. eapply opened_trans; [exact Ho1|]. destruct Ho1 as [Hl _]. rewrite Hl in Ho2. exact Ho2.
    + apply wp_bind. eapply wp_mono; [apply IH; auto|]. intros [rs' es] w2 [Hs2 Ho2]. apply wp_ret. split; [constructor; auto|exact Ho2].
Qed.

Lemma wp_shutdownDNSCryptServers w : no_leak w ->
  wp (shutdownDNSCryptServers E) (fun _ w' => no_leak w' /\ dnsCryptServers (lf w') = []
    /\ listeners (lf w') = listeners (lf w) /\ started (lf w') = started (lf w) /\ closedUpstreams w' = closedUpstreams w) w.
Proof using Type.
  intros (Ht & Hr & Hst). apply wp_bind, wp_get, wp_bind. eapply wp_mono; [apply wp_shutdown_servers; [apply Ht|exact Hr]|].
  intros [rs es] w1 [Hs Ho]. apply wp_bind, wp_modify, wp_bind. cbn [wp retire]. apply wp_ret.
  pose proof (opened_tight _ _ Ht Ho) as (Hl & Hn & Hf). destruct Ho as (_ & _ & Hlf & Hre & Hcl).
  unfold no_leak, tight, held. cbn. rewrite Hlf, Hre, Hcl in *.
  repeat split; auto. apply Forall_app. auto.
Qed.


(** *** Start and Shutdown *)

(** Stopped, with nothing left open. *)
Definition idle (w : world) : Prop :=
  no_leak w /\ started (lf w) = false /\ listeners (lf w) = [] /\ dnsCryptServers (lf w) = [].

(** Started, with the listeners and the servers that the configuration asks for. *)
Definition serving (w : world) : Prop :=
  no_leak w /\ started (lf w) = true /\ (forall k, length (of_kind k (lf w)) = wanted k)
  /\ Forall (fun r => r_started r = true) (dnsCryptServers (lf w))
  /\ length (dnsCryptServers (lf w)) = length wanted_servers.

Lemma wp_start_body w : starting (fun _ => O) [] w ->
  wp (start_body E conf NotEmpty NotNil) (fun e w' => match e with None => serving w' | Some _ => failed w' end) w.
Proof using retries.
  intros Hs. apply wp_bind. eapply wp_mono; [apply wp_startListeners, Hs|]. intros [e|] w1 H1; [apply wp_ret, H1|].
  apply wp_bind. eapply wp_mono; [apply wp_initDNSCryptServers, H1|]. intros [e|] w2 H2; [apply wp_ret, H2|].
  apply wp_bind. unfold startDNSCryptServers. apply wp_bind, wp_get. rewrite (proj2 (proj2 (proj2 H2))).
  eapply wp_mono; [apply wp_start_servers with (before := []); [exact H2|constructor]|].
  intros [e|] w3 H3; [apply wp_ret, H3|]. destruct H3 as (rs & H3 & Hrs & Hlen).
  apply wp_bind. eapply wp_mono; [apply wp_ask; eapply starting_fresh, H3|]. intros [e|] w4 Ho;
    pose proof (opened_starting _ _ _ _ H3 Ho) as H4; [apply wp_ret; eapply starting_failed, H4|].
  apply wp_bind, wp_modify, wp_ret. destruct H4 as ((Ht & Hr & Hst) & _ & Hk & Hsv).
  repeat split; auto; cbn; rewrite ?Hsv; auto; apply Ht.
Qed.

Lemma idle_starting w b : idle w ->
  starting (fun _ => O) [] (mkWorld (w_time w) (live w) (set_started false b (lf w)) (retired w) (closedUpstreams w)).
Proof using Type.
  intros ((Ht & Hr & Hst) & _ & Hl & Hs). repeat split; auto; try apply Ht. intros k. unfold of_kind. cbn. rewrite Hl. reflexivity.
Qed.

Lemma wp_Start w : idle w ->
  wp (Start E conf NotEmpty NotNil) (fun e w' => match e with None => serving w' | Some _ => idle w' end) w.
Proof using retries.
  intros Hi. pose proof Hi as ((Ht & _) & Hst & _). apply wp_bind, wp_get. rewrite Hst.
  destruct (validateListenAddrs conf); [apply wp_ret, Hi|].
  apply wp_bind. eapply wp_mono; [apply wp_ask, Ht|]. intros err w1 Ho.
  assert (Hi1 : idle w1).
  { destruct Hi as ((_ & Hr & Hre) & _ & Hl & Hs). pose proof (opened_tight _ _ Ht Ho). destruct Ho as (_ & _ & Hlf & Hr1 & _).
    unfold idle, no_leak. rewrite Hlf, Hr1. auto. }
  destruct err as [e|]; [apply wp_ret, Hi1|]. apply wp_bind, wp_modify.
  apply wp_bind. eapply wp_mono; [apply wp_start_body, idle_starting, Hi1|]. intros [e|] w2 H2; [|apply wp_ret, H2].
  destruct H2 as [(Ht2 & Hr2 & Hst2) Hs2].
  apply wp_bind. eapply wp_mono; [apply wp_closeListeners, Ht2|]. intros es w3 (Ht3 & Hl3 & Hre3 & _ & Hsv3 & Hs3).
  apply wp_bind. eapply wp_mono; [apply wp_shutdownDNSCryptServers; unfold no_leak; rewrite Hsv3, Hre3; auto|].
  intros serr w4 ((Ht4 & Hr4 & Hst4) & Hsv4 & Hl4 & _). apply wp_bind, wp_modify, wp_ret.
  repeat split; auto; cbn; try apply Ht4; congruence.
Qed.

Context (ucs : list UpstreamConfig).

Lemma wp_close_configs : forall l errs w,
  wp (close_configs E errs l) (fun _ w' => w_time w' = w_time w /\ live w' = live w /\ lf w' = lf w /\ retired w' = retired w
    /\ closedUpstreams w' = closedUpstreams w ++ concat (closers <$> l)) w.
Proof using Type.
  induction l as [|uc l IH]; intros errs w; cbn [close_configs].
  - apply wp_ret. cbn. rewrite app_nil_r. auto.
  - apply wp_bind. cbn [wp UpstreamConfig_Close bind log_closed ret]. eapply wp_mono; [apply IH|].
    intros es w' (? & ? & ? & ? & Hc). cbn in *. rewrite <- app_assoc in Hc. auto.
Qed.

Lemma wp_Shutdown w : serving w ->
  wp (Shutdown E ucs) (fun _ w' => idle w' /\ closedUpstreams w' = closedUpstreams w ++ concat (closers <$> ucs)) w.
Proof using Type.
  intros ((Ht & Hr & Hre) & Hst & _). apply wp_bind, wp_get. rewrite Hst. cbn [negb]. apply wp_bind, wp_modify, wp_bind.
  eapply wp_mono; [apply wp_closeListeners; exact Ht|]. cbn. intros es w1 (Ht1 & Hl1 & Hre1 & Hup1 & Hsv1 & Hs1).
  apply wp_bind. eapply wp_mono; [apply wp_close_configs|]. intros es2 w2 (Htm & Hlv & Hlf & Hre2 & Hup2).
  apply wp_bind. eapply wp_mono; [apply wp_shutdownDNSCryptServers|].
  - unfold no_leak, tight, fresh_ids. rewrite Htm, Hlv, Hlf, Hre2, Hsv1, Hre1. repeat split; auto; apply Ht1.
  - intros serr w3 (Hn3 & Hsv3 & Hl3 & Hs3 & Hup3). apply wp_ret. split; [|congruence].
    split; [exact Hn3|]. rewrite Hs3, Hl3, Hlf. auto.
Qed.

Inductive call := CStart | CShutdown.

Definition do_call (c : call) : M (option error) :=
  match c with CStart => Start E conf NotEmpty NotNil | CShutdown => Shutdown E ucs end.

Fixpoint calls (l : list call) : M (list (option error)) :=
  match l with
  | [] => ret []
  | c :: l => do e <- do_call c; do es <- calls l; ret (e :: es)
  end.

Definition new_world : world := mkWorld 0 ∅ new_life [] [].

Definition stable (w : world) : Prop := if started (lf w) then serving w else idle w.

Lemma new_idle : idle new_world.
Proof using Type.
  repeat split; cbn; auto; [constructor|]. intros c Hc. destruct (not_elem_of_empty c Hc).
Qed.

Lemma new_stable : stable new_world.
Proof using Type. exact new_idle. Qed.

Lemma wp_call c w : stable w ->
  wp (do_call c) (fun e w' => stable w' /\ match c with
      | CStart => if started (lf w) then w' = w /\ e <> None else started (lf w') = true <-> e = None
      | CShutdown => started (lf w') = false /\ closedUpstreams w'
          = closedUpstreams w ++ (if started (lf w) then concat (closers <$> ucs) else [])
      end) w.
Proof using retries.
  unfold stable. intros Hw. destruct (started (lf w)) eqn:Es; destruct c; cbn [do_call].
  - apply wp_bind, wp_get. rewrite Es. apply wp_ret. rewrite Es. split; [exact Hw|]. split; [reflexivity|discriminate].
  - eapply wp_mono; [apply wp_Shutdown, Hw|]. intros e w' [Hi Hup]. pose proof Hi as (_ & Hs & _). rewrite Hs. auto.
  - eapply wp_mono; [apply wp_Start, Hw|]. intros [e|] w' H; pose proof H as (_ & Hs & _); rewrite Hs; (split; [exact H|]);
      split; congruence.
  - apply wp_bind, wp_get. rewrite Es. apply wp_ret. rewrite Es, app_nil_r. auto.
Qed.

(** The number of addresses of a started proxy. *)
Definition wanted_addrs (proto : Proto) : nat :=
  match proto with
  | ProtoTCP => wanted tcpListen
  | ProtoTLS => wanted tlsListen
  | ProtoHTTPS => wanted httpsListen
  | ProtoUDP => wanted udpListen
  | ProtoQUIC => wanted quicListen
  | ProtoDNSCrypt => length wanted_servers
  | ProtoNone => 0
  end.

(** [n] addresses are known, and the first of them is that of [Addr]. *)
Definition known_addrs (n : nat) (all : go (list (option nat))) (first : go (option nat)) : Prop :=
  exists as_, all = Ret (Some <$> as_) /\ length as_ = n /\ first = Ret (head as_).

Lemma known_collect {A} (af : A -> go (option nat)) ls :
  Forall (fun l => exists a, af l = Ret (Some a)) ls -> known_addrs (length ls) (collectAddrs af ls) (firstAddr af ls).
Proof using Type.
  induction 1 as [|l ls [a Ha] _ (as_ & IH & Hn & _)]; [exists []; auto|]. exists (a :: as_). cbn. rewrite Ha, IH. cbn. auto.
Qed.

Lemma stable_addrs proto w : stable w -> proto <> ProtoNone ->
  known_addrs (if started (lf w) then wanted_addrs proto else 0) (Addrs proto (lf w)) (proxy_Addr proto (lf w)).
Proof using Type.
  intros Hw Hp. unfold stable in Hw.
  assert (Hk : forall k, known_addrs (length (of_kind k (lf w))) (collectAddrs socket_Addr (of_kind k (lf w))) (firstAddr socket_Addr (of_kind k (lf w)))).
  { intros k. apply known_collect, list.Forall_forall. unfold socket_Addr. eauto. }
  assert (Hc : Forall (fun r => r_started r = true) (dnsCryptServers (lf w)) -> Forall run_inv (dnsCryptServers (lf w)) ->
    known_addrs (length (dnsCryptServers (lf w))) (collectAddrs LocalAddr (dnsCryptServers (lf w))) (firstAddr LocalAddr (dnsCryptServers (lf w)))).
  { intros H1 H2. apply known_collect. rewrite list.Forall_forall in *. intros r Hr.
    destruct (ri_started _ (H2 r Hr) (H1 r Hr)) as [_ [a Ha]]. exists a. unfold LocalAddr. rewrite Ha. reflexivity. }
  destruct (started (lf w)).
  - destruct Hw as (Hl & _ & Hn & Hs & Hd). destruct proto; cbn [wanted_addrs Addrs proxy_Addr]; try congruence; rewrite <- ?Hn, <- ?Hd; auto. apply Hc; [exact Hs|apply Hl].
  - destruct Hw as (_ & _ & Hn & Hd). destruct proto; cbn [Addrs proxy_Addr]; try congruence; rewrite ?Hd; unfold of_kind; rewrite ?Hn;
      exists []; auto.
Qed.

End LifeFacts.

(** A retry count of the largest [uint] is no bound: the counter of attempts wraps
    around and the loop goes on as long as binding fails. *)
Lemma retry_never_ends (bindFunc : M (result nat)) (err : error) :
  (forall w, exists e w', bindFunc w = Some (Err e, w')) ->
  forall fuel attempt w, 0 <= attempt < 2 ^ 64 -> retry_loop fuel (2 ^ 64 - 1) bindFunc err attempt w = None.
Proof.
  intros Hb. induction fuel as [|f IH]; intros attempt w Ha; [reflexivity|]. cbn [retry_loop].
  rewrite (proj2 (Z.leb_le _ _)) by lia. unfold bind. destruct (Hb w) as (e & w' & ->).
  apply IH. unfold uint64. apply Z.mod_pos_bound. lia.
Qed.

Module LifeExamples.

(** The fourth socket cannot be bound at the first attempt. *)
Definition outside : env :=
  mkEnv (fun t => if (t =? 9)%nat then Some (New "address already in use") else None) (fun _ => None)
    (fun _ => None) (fun _ => None) (fun _ _ => true) (fun _ => None) (fun _ => None) (fun _ => CertExamples.t0).

Definition addr (port : Z) : AddrPort := (Addr4 [127; 0; 0; 1], port).

(** Plain UDP and TCP, HTTPS with HTTP/3, QUIC and DNSCrypt. *)
Definition conf (retries : Z) : listen_conf :=
  mkListen (Some [addr 53; addr 5353]) (Some [addr 53]) None (Some [addr 853]) (Some [addr 5443]) None true
    (Some (mkHTTPConfig None [] (Some [addr 443]) [] true false)) (Some (CertExamples.cert_of 1 1)) (str "2.dnscrypt-cert.example.org")
    retries 0 0 0.

Definition not_empty (empty : bool) : option error := if empty then Some (New "empty value") else None.
Definition upstreams : list UpstreamConfig := [mkUpstreamConfig ∅ ∅ ∅ [mkUpstream 1 (str "192.0.2.1")]].

(** Without a retry the failure undoes what was bound; with one, [Start] works. *)
Example start_fails :
  option_map (fun r => (bool_decide (fst r = None), live (snd r), started (lf (snd r))))
    (Start outside (conf 0) not_empty not_empty new_world) = Some (false, ∅, false).
Proof. vm_compute. reflexivity. Qed.

Example start_retries :
  option_map (fun r => (fst r, size (live (snd r)), started (lf (snd r))))
    (Start outside (conf 1) not_empty not_empty new_world) = Some (None, 8%nat, true).
Proof. vm_compute. reflexivity. Qed.
End LifeExamples.

