(* ===== verification/Flags.v ===== *)
(** * The command line and the configuration file (internal/cmd/args.go,
      internal/cmd/flag.go, internal/cmd/config.go)

    The options of the command, their flags over the flag package of Go, the two
    passes over the command line around the configuration file, and the usage text.
    A [configuration] is indexed by the options, as the pointers to its fields are;
    every field has the type of its kind.  The theorems say what a command line
    means, that it has priority over the file and that values stay in the ranges of
    their types. *)

From stdpp Require Import gmap.
From Stdlib Require Import SpecFloat Eqdep_dec.
From S2P Require Import Prelude NetIP GoStrings NetParse Strconv NetURL Exchange Config.
#[local] Open Scope Z_scope.

(** ** Options *)

Inductive option_idx :=
  | configPathIdx | logOutputIdx | tlsCertPathIdx | tlsKeyPathIdx | httpsServerNameIdx | httpsUserinfoIdx
  | dnsCryptConfigPathIdx | ednsAddrIdx | upstreamModeIdx | listenAddrsIdx | listenPortsIdx
  | httpsListenPortsIdx | tlsListenPortsIdx | quicListenPortsIdx | dnsCryptListenPortsIdx | upstreamsIdx
  | bootstrapDNSIdx | fallbacksIdx | privateRDNSUpstreamsIdx | dns64PrefixIdx | privateSubnetsIdx
  | bogusNXDomainIdx | hostsFilesIdx | timeoutIdx | cacheMinTTLIdx | cacheMaxTTLIdx
  | cacheOptimisticAnswerTTLIdx | cacheOptimisticMaxAgeIdx | cacheSizeBytesIdx | ratelimitIdx
  | ratelimitSubnetLenIPv4Idx | ratelimitSubnetLenIPv6Idx | udpBufferSizeIdx | maxGoRoutinesIdx
  | tlsMinVersionIdx | tlsMaxVersionIdx | helpIdx | hostsFileEnabledIdx | pprofIdx | versionIdx | verboseIdx
  | insecureIdx | ipv6DisabledIdx | http3Idx | cacheOptimisticIdx | cacheIdx | refuseAnyIdx
  | enableEDNSSubnetIdx | pendingRequestsEnabledIdx | dns64Idx | usePrivateRDNSIdx | dohRoutesIdx
  | dohInsecureEnabledIdx | dnssecEnabledIdx.

#[export] Instance option_idx_eq : EqDecision option_idx.
Proof. solve_decision. Defined.

Definition all_options : list option_idx :=
  [configPathIdx; logOutputIdx; tlsCertPathIdx; tlsKeyPathIdx; httpsServerNameIdx; httpsUserinfoIdx;
  dnsCryptConfigPathIdx; ednsAddrIdx; upstreamModeIdx; listenAddrsIdx; listenPortsIdx; httpsListenPortsIdx;
  tlsListenPortsIdx; quicListenPortsIdx; dnsCryptListenPortsIdx; upstreamsIdx; bootstrapDNSIdx; fallbacksIdx;
  privateRDNSUpstreamsIdx; dns64PrefixIdx; privateSubnetsIdx; bogusNXDomainIdx; hostsFilesIdx; timeoutIdx;
  cacheMinTTLIdx; cacheMaxTTLIdx; cacheOptimisticAnswerTTLIdx; cacheOptimisticMaxAgeIdx; cacheSizeBytesIdx;
  ratelimitIdx; ratelimitSubnetLenIPv4Idx; ratelimitSubnetLenIPv6Idx; udpBufferSizeIdx; maxGoRoutinesIdx;
  tlsMinVersionIdx; tlsMaxVersionIdx; helpIdx; hostsFileEnabledIdx; pprofIdx; versionIdx; verboseIdx;
  insecureIdx; ipv6DisabledIdx; http3Idx; cacheOptimisticIdx; cacheIdx; refuseAnyIdx; enableEDNSSubnetIdx;
  pendingRequestsEnabledIdx; dns64Idx; usePrivateRDNSIdx; dohRoutesIdx; dohInsecureEnabledIdx;
  dnssecEnabledIdx].

(** The types of fields. *)
Inductive kind := KString | KBool | KInt | KUint | KUint32 | KFloat32 | KUint16s | KStrings | KDuration.

#[export] Instance kind_eq : EqDecision kind.
Proof. solve_decision. Defined.

(** One value of the kind, and a field of the kind. *)
Definition elem (k : kind) : Type :=
  match k with
  | KString | KStrings => bytes
  | KBool => bool
  | KInt | KUint | KUint32 | KUint16s | KDuration => Z
  | KFloat32 => float32
  end.
Definition field (k : kind) : Type :=
  match k with KUint16s => list Z | KStrings => list bytes | k => elem k end.

Definition field_kind (i : option_idx) : kind :=
  match i with
  | configPathIdx | logOutputIdx | tlsCertPathIdx | tlsKeyPathIdx | httpsServerNameIdx | httpsUserinfoIdx
  | dnsCryptConfigPathIdx | ednsAddrIdx | upstreamModeIdx => KString
  | cacheSizeBytesIdx | udpBufferSizeIdx => KInt
  | ratelimitIdx | ratelimitSubnetLenIPv4Idx | ratelimitSubnetLenIPv6Idx | maxGoRoutinesIdx => KUint
  | cacheMinTTLIdx | cacheMaxTTLIdx => KUint32
  | tlsMinVersionIdx | tlsMaxVersionIdx => KFloat32
  | listenPortsIdx | httpsListenPortsIdx | tlsListenPortsIdx | quicListenPortsIdx | dnsCryptListenPortsIdx => KUint16s
  | listenAddrsIdx | upstreamsIdx | bootstrapDNSIdx | fallbacksIdx | privateRDNSUpstreamsIdx | dns64PrefixIdx
  | privateSubnetsIdx | bogusNXDomainIdx | hostsFilesIdx | dohRoutesIdx => KStrings
  | timeoutIdx | cacheOptimisticAnswerTTLIdx | cacheOptimisticMaxAgeIdx => KDuration
  | _ => KBool
  end.

Definition configuration : Type := forall i : option_idx, field (field_kind i).

Definition set_field (i : option_idx) (v : field (field_kind i)) (conf : configuration) : configuration :=
  fun j => match decide (i = j) with
           | left e => eq_rect i (fun k => field (field_kind k)) v j e
           | right _ => conf j
           end.

Record commandLineOption := mkOption { description : bytes; long : bytes; short : bytes; valueType : bytes }.

Definition commandLineOptions (i : option_idx) : commandLineOption :=
  match i with
  | configPathIdx => mkOption
      (str "YAML configuration file. Minimal working configuration in config.yaml.dist. Options passed through command line will override the ones from this file.")
      (str "config-path") [] (str "path")
  | logOutputIdx => mkOption
      (str "Path to the log file.")
      (str "output") (str "o") (str "path")
  | tlsCertPathIdx => mkOption
      (str "Path to a file with the certificate chain.")
      (str "tls-crt") (str "c") (str "path")
  | tlsKeyPathIdx => mkOption
      (str "Path to a file with the private key.")
      (str "tls-key") (str "k") (str "path")
  | httpsServerNameIdx => mkOption
      (str "Set the Server header for the responses from the HTTPS server.")
      (str "https-server-name") [] (str "name")
  | httpsUserinfoIdx => mkOption
      (str "If set, all DoH queries are required to have this basic authentication information.")
      (str "https-userinfo") [] (str "name")
  | dnsCryptConfigPathIdx => mkOption
      (str "Path to a file with DNSCrypt configuration. You can generate one using https://github.com/holandyoung/dnsproxy/dnscrypt.")
      (str "dnscrypt-config") (str "g") (str "path")
  | ednsAddrIdx => mkOption
      (str "Send EDNS Client Address.")
      (str "edns-addr") [] (str "address")
  | upstreamModeIdx => mkOption
      (str "Defines the upstreams logic mode, possible values: load_balance, parallel, fastest_addr (default: load_balance).")
      (str "upstream-mode") [] (str "mode")
  | listenAddrsIdx => mkOption
      (str "Listening addresses.")
      (str "listen") (str "l") (str "address")
  | listenPortsIdx => mkOption
      (str "Listening ports. Zero value disables TCP and UDP listeners.")
      (str "port") (str "p") (str "port")
  | httpsListenPortsIdx => mkOption
      (str "Listening ports for DNS-over-HTTPS.")
      (str "https-port") (str "s") (str "port")
  | tlsListenPortsIdx => mkOption
      (str "Listening ports for DNS-over-TLS.")
      (str "tls-port") (str "t") (str "port")
  | quicListenPortsIdx => mkOption
      (str "Listening ports for DNS-over-QUIC.")
      (str "quic-port") (str "q") (str "port")
  | dnsCryptListenPortsIdx => mkOption
      (str "Listening ports for DNSCrypt.")
      (str "dnscrypt-port") (str "y") (str "port")
  | upstreamsIdx => mkOption
      (str "An upstream to be used (can be specified multiple times). You can also specify path to a file with the list of servers.")
      (str "upstream") (str "u") []
  | bootstrapDNSIdx => mkOption
      (str "Bootstrap DNS for DoH and DoT, can be specified multiple times (default: use system-provided).")
      (str "bootstrap") (str "b") []
  | fallbacksIdx => mkOption
      (str "Fallback resolvers to use when regular ones are unavailable, can be specified multiple times. You can also specify path to a file with the list of servers.")
      (str "fallback") (str "f") []
  | privateRDNSUpstreamsIdx => mkOption
      (str "Private DNS upstreams to use for reverse DNS lookups of private addresses, can be specified multiple times.")
      (str "private-rdns-upstream") [] []
  | dns64PrefixIdx => mkOption
      (str "Prefix used to handle DNS64. If not specified, dnsproxy uses the 'Well-Known Prefix' 64:ff9b::.  Can be specified multiple times.")
      (str "dns64-prefix") [] (str "subnet")
  | privateSubnetsIdx => mkOption
      (str "Private subnets to use for reverse DNS lookups of private addresses.")
      (str "private-subnets") [] (str "subnet")
  | bogusNXDomainIdx => mkOption
      (str "Transform the responses containing at least a single IP that matches specified addresses and CIDRs into NXDOMAIN.  Can be specified multiple times.")
      (str "bogus-nxdomain") [] (str "subnet")
  | hostsFilesIdx => mkOption
      (str "List of paths to the hosts files, can be specified multiple times.")
      (str "hosts-files") [] (str "path")
  | timeoutIdx => mkOption
      (str "Timeout for outbound DNS queries to remote upstream servers in a human-readable form")
      (str "timeout") [] (str "duration")
  | cacheMinTTLIdx => mkOption
      (str "Minimum TTL value for DNS entries, in seconds. Capped at 3600. Artificially extending TTLs should only be done with careful consideration.")
      (str "cache-min-ttl") [] (str "uint32")
  | cacheMaxTTLIdx => mkOption
      (str "Maximum TTL value for DNS entries, in seconds.")
      (str "cache-max-ttl") [] (str "uint32")
  | cacheOptimisticAnswerTTLIdx => mkOption
      (str "Default TTL value for expired answers from optimistic cache")
      (str "optimistic-answer-ttl") [] (str "duration")
  | cacheOptimisticMaxAgeIdx => mkOption
      (str "Period of time after which entries are removed from the optimistic cache")
      (str "optimistic-max-age") [] (str "duration")
  | cacheSizeBytesIdx => mkOption
      (str "Cache size (in bytes). Default: 64k.")
      (str "cache-size") [] (str "int")
  | ratelimitIdx => mkOption
      (str "Ratelimit (requests per second).")
      (str "ratelimit") (str "r") (str "int")
  | ratelimitSubnetLenIPv4Idx => mkOption
      (str "Ratelimit subnet length for IPv4.")
      (str "ratelimit-subnet-len-ipv4") [] (str "int")
  | ratelimitSubnetLenIPv6Idx => mkOption
      (str "Ratelimit subnet length for IPv6.")
      (str "ratelimit-subnet-len-ipv6") [] (str "int")
  | udpBufferSizeIdx => mkOption
      (str "Set the size of the UDP buffer in bytes. A value <= 0 will use the system default.")
      (str "udp-buf-size") [] (str "int")
  | maxGoRoutinesIdx => mkOption
      (str "Set the maximum number of go routines. A zero value will not not set a maximum.")
      (str "max-go-routines") [] (str "uint")
  | tlsMinVersionIdx => mkOption
      (str "Minimum TLS version, for example 1.0.")
      (str "tls-min-version") [] (str "version")
  | tlsMaxVersionIdx => mkOption
      (str "Maximum TLS version, for example 1.3.")
      (str "tls-max-version") [] (str "version")
  | helpIdx => mkOption
      (str "Print this help message and quit.")
      (str "help") (str "h") []
  | hostsFileEnabledIdx => mkOption
      (str "If specified, use hosts files for resolving.")
      (str "hosts-file-enabled") [] []
  | pprofIdx => mkOption
      (str "If present, exposes pprof information on localhost:6060.")
      (str "pprof") [] []
  | versionIdx => mkOption
      (str "Prints the program version.")
      (str "version") [] []
  | verboseIdx => mkOption
      (str "Verbose output.")
      (str "verbose") (str "v") []
  | insecureIdx => mkOption
      (str "Disable secure TLS certificate validation.")
      (str "insecure") [] []
  | ipv6DisabledIdx => mkOption
      (str "If specified, all AAAA requests will be replied with NoError RCode and empty answer.")
      (str "ipv6-disabled") [] []
  | http3Idx => mkOption
      (str "Enable HTTP/3 support.")
      (str "http3") [] []
  | cacheOptimisticIdx => mkOption
      (str "If specified, optimistic DNS cache is enabled.")
      (str "cache-optimistic") [] []
  | cacheIdx => mkOption
      (str "If specified, DNS cache is enabled.")
      (str "cache") [] []
  | refuseAnyIdx => mkOption
      (str "If specified, refuses ANY requests.")
      (str "refuse-any") [] []
  | enableEDNSSubnetIdx => mkOption
      (str "Use EDNS Client Subnet extension.")
      (str "edns") [] []
  | pendingRequestsEnabledIdx => mkOption
      (str "If specified, the server will track duplicate queries and only send the first of them to the upstream server, propagating its result to others. Disabling it introduces a vulnerability to cache poisoning attacks.")
      (str "pending-requests-enabled") [] []
  | dns64Idx => mkOption
      (str "If specified, dnsproxy will act as a DNS64 server.")
      (str "dns64") [] []
  | usePrivateRDNSIdx => mkOption
      (str "If specified, use private upstreams for reverse DNS lookups of private addresses.")
      (str "use-private-rdns") [] []
  | dohRoutesIdx => mkOption
      (str "List of routes for DNS-over-HTTPS, can be specified multiple times.")
      (str "doh-routes") [] (str "route")
  | dohInsecureEnabledIdx => mkOption
      (str "If specified, the DoH server will skip TLS certificate verification.")
      (str "doh-insecure-enabled") [] []
  | dnssecEnabledIdx => mkOption
      (str "Defines whether the proxy should set the DO bits in the upstream requests.")
      (str "dnssec") [] []
  end.

(** ** Values *)

Section Flags.
(** golibs: [timeutil.Duration.UnmarshalText]. *)
Context (UnmarshalDuration : bytes -> result Duration).

Definition parse_text (k : kind) (s : bytes) : result (elem k) :=
  match k with
  | KString => Ok s
  | KBool => ParseBool s
  | KInt => ParseInt s 0 64
  | KUint => ParseUint s 0 64
  | KUint32 => ParseUint s 0 32
  | KFloat32 => ParseFloat32 s
  | KUint16s => ParseUint s 10 16
  | KStrings => Ok s
  | KDuration => UnmarshalDuration s
  end.

(** What [Set] makes of the field.  The values of a slice are appended to those that
    are set already. *)
Definition store (k : kind) (isSet : bool) : field k -> elem k -> field k :=
  match k with
  | KUint16s | KStrings => fun values v => (if isSet then values else []) ++ [v]
  | _ => fun _ v => v
  end.

(** [Set] of the flags.  The field that a failing one may leave changed is not used. *)
Definition Set_value (k : kind) (isSet : bool) (cur : field k) (s : bytes) : result (field k) :=
  let? v := parse_text k s in Ok (store k isSet cur v).

(** [String] of the flags of flag.go. *)
Definition uint32_String (v : Z) : bytes := Itoa v.
Fixpoint strings_String (values : list bytes) : bytes :=
  match values with
  | [] => []
  | [v] => v
  | v :: values => v ++ str "," ++ strings_String values
  end.
Definition uint16s_String (values : list Z) : bytes := strings_String (Itoa <$> values).

(** A configuration, and the options that are set. *)
Definition flag_state : Type := configuration * (option_idx -> bool).

Definition set_flag (i : option_idx) (s : bytes) (st : flag_state) : result flag_state :=
  let '(conf, isSet) := st in
  let? v := Set_value (field_kind i) (isSet i) (conf i) s in
  Ok (set_field i v conf, fun j => bool_decide (i = j) || isSet j).

(** ** The flag package *)

Definition ErrHelp : error := New "flag: help requested".

Definition formal : Type := list (bytes * option_idx).

Definition lookup_flag (flags : formal) (name : bytes) : option option_idx :=
  snd <$> List.find (fun f => bool_decide (f.1 = name)) flags.

(** [FlagSet.Var] *)
Definition Var (flags : formal) (name : bytes) (i : option_idx) : go formal :=
  if HasPrefix name (str "-") then Panic
  else if bool_decide (61 ∈ name) then Panic
  else match lookup_flag flags name with Some _ => Panic | None => Ret (flags ++ [(name, i)]) end.

(** An argument: none of the flags, their end, or a flag with its value. *)
Inductive argument := NotFlag | Terminator | BadFlag | Flag (name : bytes) (value : option bytes).

Definition read_argument (s : bytes) : argument :=
  match s with
  | 45 :: (c :: r) as t =>
      let name := if c =? 45 then r else t in
      if (c =? 45) && bool_decide (r = []) then Terminator
      else match name with
      | [] => BadFlag
      | c :: _ =>
          if (c =? 45) || (c =? 61) then BadFlag
          else match Cut name [61] with
          | (name, value, true) => Flag name (Some value)
          | (name, _, false) => Flag name None
          end
      end
  | _ => NotFlag
  end.

(** [FlagSet.Parse]: the state and the arguments that remain. *)
Fixpoint Parse (flags : formal) (args : list bytes) (st : flag_state) : result (flag_state * list bytes) :=
  match args with
  | [] => Ok (st, [])
  | s :: rest =>
      match read_argument s with
      | NotFlag => Ok (st, args)
      | Terminator => Ok (st, rest)
      | BadFlag => Err (New "bad flag syntax: %s")
      | Flag name value =>
          match lookup_flag flags name with
          | None =>
              if bool_decide (name ∈ [str "help"; str "h"]) then Err ErrHelp
              else Err (New "flag provided but not defined: -%s")
          | Some i =>
              if bool_decide (field_kind i = KBool) then
                match set_flag i (default (str "true") value) st with
                | Err e => Err (Errorf "invalid boolean value %q for -%s: %v" e)
                | Ok st => Parse flags rest st
                end
              else
                match value, rest with
                | Some v, _ =>
                    match set_flag i v st with
                    | Err e => Err (Errorf "invalid value %q for flag -%s: %v" e)
                    | Ok st => Parse flags rest st
                    end
                | None, v :: rest =>
                    match set_flag i v st with
                    | Err e => Err (Errorf "invalid value %q for flag -%s: %v" e)
                    | Ok st => Parse flags rest st
                    end
                | None, [] => Err (New "flag needs an argument: -%s")
                end
          end
      end
  end.

(** ** The command line *)

Definition addOption (flags : formal) (i : option_idx) : go formal :=
  let o := commandLineOptions i in
  let! flags := Var flags (long o) i in
  match short o with [] => Ret flags | s => Var flags s i end.

Fixpoint add_options (flags : formal) (opts : list option_idx) : go formal :=
  match opts with
  | [] => Ret flags
  | i :: opts => let! flags := addOption flags i in add_options flags opts
  end.

Definition parseCmdLineOptions (args : list bytes) (conf : configuration) : go (result configuration) :=
  let! flags := add_options [] all_options in
  Ret (match Parse flags args (conf, fun _ => false) with
       | Err e => Err e
       | Ok (_, _ :: _) => Err (New "positional arguments are not allowed, please check your command line arguments; detected positional arguments: %s")
       | Ok ((conf, _), []) => Ok conf
       end).

(** ** Usage *)

Definition writeUsageLine (o : commandLineOption) : bytes :=
  let nl := [10] in
  match short o, valueType o with
  | [], [] => str "  --" ++ long o ++ nl
  | [], t => str "  --" ++ long o ++ str "=" ++ t ++ nl
  | s, [] => str "  --" ++ long o ++ str "/-" ++ s ++ nl
  | s, t => str "  --" ++ long o ++ str "=" ++ t ++ str "/-" ++ s ++ str " " ++ t ++ nl
  end.

(** [strings.Compare(a, b) <= 0] *)
Fixpoint text_le (a b : bytes) : bool :=
  match a, b with
  | [], _ => true
  | _ :: _, [] => false
  | x :: a, y :: b => if x <? y then true else if y <? x then false else text_le a b
  end.

Fixpoint insert_option (o : commandLineOption) (l : list commandLineOption) : list commandLineOption :=
  match l with
  | [] => [o]
  | p :: l' => if text_le (long o) (long p) then o :: l else p :: insert_option o l'
  end.

Definition sorted_options : list commandLineOption := foldr insert_option [] (commandLineOptions <$> all_options).

Definition usage_entry (o : commandLineOption) : bytes := writeUsageLine o ++ str "    " ++ [9] ++ description o ++ [10].

Definition usage (cmdName : bytes) : bytes :=
  str "Usage of " ++ cmdName ++ str ":" ++ [10] ++ concat (usage_entry <$> sorted_options).

(** ** The configuration *)

Inductive exit_code := ExitCodeSuccess | ExitCodeFailure | ExitCodeArgumentError.

(** What the command line asks for: the exit code with what is printed, or to go on. *)
Definition processCmdLineOptions (cmdName version : bytes) (parsed : result configuration) : option (exit_code * bytes) :=
  match parsed with
  | Err _ => Some (ExitCodeArgumentError, [])
  | Ok conf =>
      if conf helpIdx then Some (ExitCodeSuccess, usage cmdName)
      else if conf versionIdx then Some (ExitCodeSuccess, str "dnsproxy version " ++ version ++ [10])
      else None
  end.

(** The zero values of fields. *)
Definition zero_field (k : kind) : field k :=
  match k with
  | KString | KUint16s | KStrings => []
  | KBool => false
  | KInt | KUint | KUint32 | KDuration => 0
  | KFloat32 => S754_zero false
  end.
Definition empty_configuration : configuration := fun i => zero_field (field_kind i).

Definition default_configuration : configuration :=
  set_field httpsServerNameIdx (str "dnsproxy")
  (set_field upstreamModeIdx UpstreamModeLoadBalance
  (set_field cacheSizeBytesIdx (64 * 1024)
  (set_field timeoutIdx (10 * Second)
  (set_field cacheOptimisticAnswerTTLIdx DefaultOptimisticAnswerTTL
  (set_field cacheOptimisticMaxAgeIdx DefaultOptimisticMaxAge
  (set_field ratelimitSubnetLenIPv4Idx 24
  (set_field ratelimitSubnetLenIPv6Idx 56
  (set_field dnssecEnabledIdx true
  (set_field hostsFileEnabledIdx true
  (set_field pendingRequestsEnabledIdx true empty_configuration)))))))))).

(** [ReadFile] reads files; [Unmarshal] is the decoder of yaml.v3, which fills a
    configuration. *)
Context (ReadFile : bytes -> result bytes) (Unmarshal : bytes -> configuration -> result configuration).

Definition parseConfigFile (conf : configuration) (confPath : bytes) : result configuration :=
  match ReadFile confPath with
  | Err e => Err (Errorf "reading file: %w" e)
  | Ok b =>
      match Unmarshal b conf with
      | Err e => Err (Errorf "unmarshalling file: %w" e)
      | Ok conf => Ok conf
      end
  end.

(** The configuration or nil, the exit code and the error.  [cmdName] and [args] are
    [os.Args]. *)
Definition parseConfig (cmdName version : bytes) (args : list bytes) : go (option configuration * exit_code * option error) :=
  let! parsed := parseCmdLineOptions args default_configuration in
  match processCmdLineOptions cmdName version parsed with
  | Some (code, _) => Ret (None, code, match parsed with Err e => Some e | Ok _ => None end)
  | None =>
      let conf := match parsed with Ok conf => conf | Err _ => default_configuration end in
      match conf configPathIdx with
      | [] => Ret (Some conf, ExitCodeSuccess, None)
      | confPath =>
          match parseConfigFile conf confPath with
          | Err e => Ret (None, ExitCodeFailure, Some (Errorf "parsing config file %s: %w" e))
          | Ok conf =>
              let! parsed := parseCmdLineOptions args conf in
              Ret (match parsed with
                   | Err e => (None, ExitCodeFailure, Some e)
                   | Ok conf => (Some conf, ExitCodeSuccess, None)
                   end)
          end
      end
  end.
End Flags.

(** ** What a command line means *)

(** The names of an option. *)
Definition names (i : option_idx) : list bytes :=
  let o := commandLineOptions i in
  long o :: match short o with [] => [] | s => [s] end.

(** The options that a command line gives, with their values in order: [-name],
    [-name=value], [-name value] and the same with two dashes. *)
Inductive gives : list bytes -> list (option_idx * bytes) -> Prop :=
  | gives_nothing : gives [] []
  | gives_end : gives [str "--"] []
  | gives_switch i n dash rest l :
      field_kind i = KBool -> n ∈ names i -> dash ∈ [str "-"; str "--"] -> gives rest l ->
      gives ((dash ++ n) :: rest) ((i, str "true") :: l)
  | gives_equals i n dash v rest l :
      n ∈ names i -> dash ∈ [str "-"; str "--"] -> gives rest l ->
      gives ((dash ++ n ++ str "=" ++ v) :: rest) ((i, v) :: l)
  | gives_next i n dash v rest l :
      field_kind i <> KBool -> n ∈ names i -> dash ∈ [str "-"; str "--"] -> gives rest l ->
      gives ((dash ++ n) :: v :: rest) ((i, v) :: l).

(** The values that are given to one option. *)
Definition given (i : option_idx) (l : list (option_idx * bytes)) : list bytes :=
  omap (fun p => if bool_decide (p.1 = i) then Some p.2 else None) l.

Fixpoint parse_all {A} (parse : bytes -> result A) (texts : list bytes) : result (list A) :=
  match texts with
  | [] => Ok []
  | s :: texts => let? v := parse s in let? vs := parse_all parse texts in Ok (v :: vs)
  end.

(** The field for the values given to it: the last one, or all of them if the field
    has many; without any it stays. *)
Definition assign (k : kind) : list (elem k) -> field k -> field k :=
  match k with
  | KUint16s | KStrings => fun vs cur => match vs with [] => cur | _ => vs end
  | _ => fun vs cur => default cur (list.last vs)
  end.

Section FlagFacts.
Context (UnmarshalDuration : bytes -> result Duration).
#[local] Notation parse_text := (parse_text UnmarshalDuration).
#[local] Notation set_flag := (set_flag UnmarshalDuration).
#[local] Notation Parse := (Parse UnmarshalDuration).
#[local] Notation parseCmdLineOptions := (parseCmdLineOptions UnmarshalDuration).

Definition settled (i : option_idx) (texts : list bytes) (cur v : field (field_kind i)) : Prop :=
  exists vs, parse_all (parse_text (field_kind i)) texts = Ok vs /\ v = assign (field_kind i) vs cur.

Lemma set_field_eq i v conf : set_field i v conf i = v.
Proof.
  unfold set_field. destruct (decide (i = i)) as [e|]; [|contradiction].
  symmetry. exact (eq_rect_eq_dec (fun x y => decide (x = y)) (fun k => field (field_kind k)) v e).
Qed.

Lemma set_field_ne i j v conf : i <> j -> set_field i v conf j = conf j.
Proof. unfold set_field. intros. destruct (decide (i = j)); [contradiction|reflexivity]. Qed.

(** *** The flags that are registered *)

Definition all_flags : formal := concat ((fun i => (fun n => (n, i)) <$> names i) <$> all_options).

Lemma registered : add_options [] all_options = Ret all_flags.
Proof. vm_compute. reflexivity. Qed.

Lemma all_options_all i : i ∈ all_options.
Proof. destruct i; vm_compute; repeat constructor. Qed.

Definition name_ok (i : option_idx) (n : bytes) : bool :=
  bool_decide (lookup_flag all_flags n = Some i) && bool_decide (61 ∉ n)
  && match n with c :: _ => negb (c =? 45) | [] => false end.

Lemma names_checked : forallb (fun i => forallb (name_ok i) (names i)) all_options = true.
Proof. vm_compute. reflexivity. Qed.

Lemma names_ok i n : n ∈ names i ->
  lookup_flag all_flags n = Some i /\ 61 ∉ n /\ exists c r, n = c :: r /\ c <> 45 /\ c <> 61.
Proof.
  intros Hn. pose proof (proj1 (forallb_forall _ _) names_checked i (proj1 (list_elem_of_In _ _) (all_options_all i))) as H.
  cbn beta in H. apply list_elem_of_In, (proj1 (forallb_forall _ _) H n), andb_true_iff in Hn as [Hn H3].
  apply andb_true_iff in Hn as [H1 H2]. apply bool_decide_eq_true in H1, H2. split; [exact H1|]. split; [exact H2|].
  destruct n as [|c r]; [discriminate|]. exists c, r. split; [reflexivity|]. to_prop. split; [assumption|].
  intros ->. apply H2. left.
Qed.

Lemma lookup_names n i : lookup_flag all_flags n = Some i -> n ∈ names i.
Proof.
  unfold lookup_flag. destruct (List.find _ _) as [[n' i']|] eqn:E; [|discriminate]. intros [= <-].
  apply List.find_some in E as [Hin Hn]. apply bool_decide_eq_true in Hn. cbn in Hn. subst n'.
  unfold all_flags in Hin. apply in_concat in Hin as (l & Hl & Hin). apply in_map_iff in Hl as (j & <- & _).
  apply in_map_iff in Hin as (m & [= <- <-] & Hm). apply list_elem_of_In, Hm.
Qed.

(** *** Arguments *)

Lemma Cut_char a b c : c ∉ a -> Cut (a ++ c :: b) [c] = (a, b, true).
Proof.
  intros Ha. unfold Cut. rewrite Index_singleton, IndexByte_app by (apply not_elem_Forall, Ha). cbn. rewrite Z.eqb_refl. cbn.
  rewrite Nat.add_0_r, take_app_length. do 2 f_equal. replace (length a + 1)%nat with (length a + 1 + 0)%nat by lia.
  rewrite <- (Nat.add_assoc), drop_app_add. reflexivity.
Qed.

Lemma Cut_found s c : (exists a b, s = a ++ c :: b /\ c ∉ a /\ Cut s [c] = (a, b, true)) \/ Cut s [c] = (s, [], false).
Proof.
  destruct (decide (c ∈ s)) as [Hin|Hn].
  - left. apply list_elem_of_split_l in Hin as (a & b & -> & Ha). exists a, b. auto using Cut_char.
  - right. apply Cut_none, not_elem_Forall, Hn.
Qed.

Lemma read_argument_spec s :
  match read_argument s with
  | Flag n None => exists dash, dash ∈ [str "-"; str "--"] /\ s = dash ++ n
  | Flag n (Some v) => exists dash, dash ∈ [str "-"; str "--"] /\ s = dash ++ n ++ str "=" ++ v
  | Terminator => s = str "--"
  | _ => True
  end.
Proof.
  destruct s as [|c [|c2 r]]; [exact I|destruct c as [| |]; try exact I; repeat (destruct p as [p|p|]; try exact I)|].
  destruct (Z.eq_dec c 45) as [->|Hc]; [|unfold read_argument; repeat (destruct c as [|c|c]; try exact I); repeat (destruct c as [c|c|]; try exact I); contradiction].
  cbn [read_argument]. set (dash := if c2 =? 45 then str "--" else str "-").
  set (name := if c2 =? 45 then r else c2 :: r).
  assert (Hd : dash ∈ [str "-"; str "--"]) by (unfold dash; destruct (c2 =? 45); set_solver).
  assert (Hs : 45 :: c2 :: r = dash ++ name) by (unfold dash, name; destruct (Z.eqb_spec c2 45) as [->|]; reflexivity).
  destruct (_ && bool_decide _) eqn:E; [apply andb_true_iff in E as [E1 E2]; apply bool_decide_eq_true in E2; to_prop; subst; reflexivity|].
  rewrite Hs. destruct name as [|n name']; [exact I|]. destruct (_ || _); [exact I|].
  destruct (Cut_found (n :: name') 61) as [(a & b & Hn & _ & ->)| ->]; exists dash; [rewrite Hn|]; auto.
Qed.

Lemma read_flag n dash : (exists i, n ∈ names i) -> dash ∈ [str "-"; str "--"] ->
  read_argument (dash ++ n) = Flag n None /\ forall v, read_argument (dash ++ n ++ str "=" ++ v) = Flag n (Some v).
Proof.
  intros [i Hn] Hd. destruct (names_ok i n Hn) as (_ & H61 & c & r & En & Hc & Hc').
  assert (Hcut : forall t, read_argument (dash ++ n ++ t) = match Cut (n ++ t) [61] with (name, v, true) => Flag name (Some v) | (name, _, false) => Flag name None end).
  { intros t. rewrite En. apply Z.eqb_neq in Hc, Hc'.
    change (str "-") with [45] in Hd. change (str "--") with [45; 45] in Hd. set_unfold in Hd. destruct Hd as [->| [->|[]]]; cbn; rewrite ?Hc, ?Hc'; cbn; reflexivity. }
  split; [rewrite <- (app_nil_r n) at 1; rewrite Hcut, app_nil_r, Cut_none by (apply not_elem_Forall, H61)|intros v; rewrite Hcut; change (str "=" ++ v) with (61 :: v); rewrite (Cut_char n v 61 H61)]; reflexivity.
Qed.

(** *** Parsing is setting what is given *)

Fixpoint set_all (l : list (option_idx * bytes)) (st : flag_state) : result flag_state :=
  match l with
  | [] => Ok st
  | (i, s) :: l => let? st := set_flag i s st in set_all l st
  end.

Lemma Parse_gives n : forall args st st', (length args <= n)%nat ->
  Parse all_flags args st = Ok (st', []) -> exists l, gives args l /\ set_all l st = Ok st'.
Proof.
  induction n as [|n IH]; intros [|s rest] st st' Hl H; cbn [length] in Hl; [|lia| |];
    [injection H as <-; exists []; split; [constructor|reflexivity]..|].
  cbn [Flags.Parse] in H. pose proof (read_argument_spec s) as Hs. destruct (read_argument s) as [| | |name v];
    [discriminate|injection H as -> ->; exists []; rewrite Hs; split; [constructor|reflexivity]|discriminate|].
  destruct (lookup_flag all_flags name) as [i|] eqn:Ei; [|destruct (bool_decide _) in H; discriminate]. apply lookup_names in Ei.
  assert (Hnext : forall t st1 rest', set_flag i t st = Ok st1 -> (length rest' <= n)%nat -> Parse all_flags rest' st1 = Ok (st', []) ->
    (forall l, gives rest' l -> gives (s :: rest) ((i, t) :: l)) -> exists l, gives (s :: rest) l /\ set_all l st = Ok st').
  { intros t st1 rest' Ht Hr Hp Hg. destruct (IH rest' st1 st' Hr Hp) as (l & Hgl & Hset). exists ((i, t) :: l).
    split; [exact (Hg l Hgl)|]. cbn [set_all]. rewrite Ht. exact Hset. }
  case_bool_decide as Hk; [|destruct v as [v|]; [|destruct rest as [|v rest]; [discriminate|]]];
    (destruct (set_flag i _ st) as [st1|] eqn:Et; [|discriminate]); apply (Hnext _ st1 _ Et) in H; try exact H; try (cbn [length] in Hl; lia);
    intros l Hg.
  - destruct v as [v|]; destruct Hs as (dash & Hd & ->); [apply (gives_equals i)|apply (gives_switch i)]; assumption.
  - destruct Hs as (dash & Hd & ->). apply (gives_equals i); assumption.
  - destruct Hs as (dash & Hd & ->). apply (gives_next i); assumption.
Qed.

Lemma gives_Parse args l : gives args l -> forall st,
  match set_all l st with
  | Ok st' => Parse all_flags args st = Ok (st', [])
  | Err _ => exists e, Parse all_flags args st = Err e
  end.
Proof.
  induction 1 as [| |i n dash rest l Hk Hn Hd _ IH|i n dash v rest l Hn Hd _ IH|i n dash v rest l Hk Hn Hd _ IH]; intros st;
    [reflexivity..| | |]; cbn [Flags.Parse set_all];
    destruct (read_flag n dash (ex_intro _ i Hn) Hd) as [Hr Hrv]; rewrite ?Hr, ?Hrv; destruct (names_ok i n Hn) as [-> _];
    [rewrite bool_decide_true by exact Hk|case_bool_decide|rewrite bool_decide_false by exact Hk]; cbn [default];
    (destruct (set_flag i _ st) as [st1|e] eqn:E; cbn [rbind]; [apply IH|]); cbn [Datatypes.id] in *; rewrite ?E; eauto.
Qed.
(** *** Fields *)

Fixpoint store_all (k : kind) (isSet : bool) (cur : field k) (vs : list (elem k)) : field k :=
  match vs with
  | [] => cur
  | v :: vs => store_all k true (store k isSet cur v) vs
  end.

Lemma store_slice k (Hk : k = KUint16s \/ k = KStrings) :
  match k return (bool -> field k -> list (elem k) -> field k) -> Prop with
  | KUint16s | KStrings => fun f => forall cur vs, f true cur vs = cur ++ vs
  | _ => fun _ => True
  end (store_all k).
Proof.
  destruct k; try exact I; intros cur vs; revert cur; induction vs as [|v vs IH]; intros cur; cbn;
    rewrite ?app_nil_r; [reflexivity|setoid_rewrite IH; rewrite <- app_assoc; reflexivity..|reflexivity|setoid_rewrite IH; rewrite <- app_assoc; reflexivity].
Qed.

Lemma store_scalar k : k <> KUint16s -> k <> KStrings ->
  forall vs isSet cur, store_all k isSet cur vs = assign k vs cur.
Proof.
  intros H1 H2 vs. induction vs as [|v vs IH]; intros isSet cur; [destruct k; try contradiction; reflexivity|].
  cbn [store_all]. rewrite IH. destruct vs as [|w vs]; [destruct k; try contradiction; reflexivity|].
  destruct (list.last (w :: vs)) as [x|] eqn:E; [|apply last_None in E; discriminate].
  destruct k; try contradiction; unfold assign; change (list.last (v :: w :: vs)) with (list.last (w :: vs)); rewrite E; reflexivity.
Qed.

Lemma store_all_assign k vs cur : store_all k false cur vs = assign k vs cur.
Proof.
  destruct (decide (k = KUint16s)) as [->|H1]; [|destruct (decide (k = KStrings)) as [->|H2]; [|apply store_scalar; assumption]].
  - destruct vs as [|v vs]; [reflexivity|]. exact (store_slice KUint16s (or_introl eq_refl) [v] vs).
  - destruct vs as [|v vs]; [reflexivity|]. exact (store_slice KStrings (or_intror eq_refl) [v] vs).
Qed.

(** A value that is printed is read back; of a slice, each of the values. *)
Lemma flags_read_back isSet :
  (forall cur v, 0 <= v < 2 ^ 32 -> Set_value UnmarshalDuration KUint32 isSet cur (uint32_String v) = Ok v)
  /\ (forall cur v, 0 <= v < 2 ^ 16 -> Set_value UnmarshalDuration KUint16s isSet cur (uint16s_String [v]) = Ok ((if isSet then cur else []) ++ [v]))
  /\ (forall cur v, Set_value UnmarshalDuration KStrings isSet cur (strings_String [v]) = Ok ((if isSet then cur else []) ++ [v])).
Proof.
  split; [|split]; intros cur v; unfold Set_value; cbn [parse_text]; [..|reflexivity];
    intros Hv; unfold uint32_String, uint16s_String; cbn [fmap list_fmap strings_String]; rewrite ParseUint_Itoa by (auto; lia); reflexivity.
Qed.

(** Several values are printed with commas, which [Set] does not take. *)
Lemma ports_not_read_back isSet cur : exists e, Set_value UnmarshalDuration KUint16s isSet cur (uint16s_String [80; 443]) = Err e.
Proof. eexists. reflexivity. Qed.

Lemma given_cons i j s l : given i ((j, s) :: l) = if bool_decide (j = i) then s :: given i l else given i l.
Proof. unfold given. cbn. case_bool_decide; reflexivity. Qed.

Lemma set_all_fields l : forall conf isSet st', set_all l (conf, isSet) = Ok st' -> forall i,
  exists vs, parse_all (parse_text (field_kind i)) (given i l) = Ok vs /\ st'.1 i = store_all (field_kind i) (isSet i) (conf i) vs.
Proof.
  induction l as [|[j s] l IH]; intros conf isSet st' H i; [injection H as <-; exists []; auto|]. cbn [set_all] in H.
  unfold Flags.set_flag, Set_value in H. destruct (parse_text (field_kind j) s) as [v|] eqn:Ev; [|discriminate]. cbn [rbind] in H.
  destruct (IH _ _ _ H i) as (vs & Hvs & Hi). rewrite given_cons. destruct (decide (j = i)) as [->|Hne].
  - rewrite bool_decide_true by reflexivity. exists (v :: vs). cbn [parse_all]. rewrite Ev, Hvs. split; [reflexivity|].
    rewrite Hi, set_field_eq, bool_decide_true by reflexivity. reflexivity.
  - rewrite !bool_decide_false in Hi |- * by exact Hne. exists vs. rewrite Hi, set_field_ne by exact Hne. auto.
Qed.

Lemma set_all_total l : (forall i, exists vs, parse_all (parse_text (field_kind i)) (given i l) = Ok vs) ->
  forall st, exists st', set_all l st = Ok st'.
Proof.
  induction l as [|[j s] l IH]; intros Hp [conf isSet]; [eexists; reflexivity|]. cbn [set_all].
  unfold Flags.set_flag, Set_value. pose proof (Hp j) as [vs Hvs]. rewrite given_cons, bool_decide_true in Hvs by reflexivity.
  cbn [parse_all] in Hvs. destruct (parse_text (field_kind j) s) as [v|]; [|discriminate]. cbn [rbind]. apply IH. intros i.
  destruct (Hp i) as [us Hus]. rewrite given_cons in Hus. case_bool_decide; [|eauto]. subst. cbn [parse_all] in Hus.
  destruct (parse_text (field_kind i) s); [|discriminate]. cbn [rbind] in Hus. destruct (parse_all _ (given i l)); [eauto|discriminate].
Qed.

Lemma command_line args conf conf' : parseCmdLineOptions args conf = Ret (Ok conf') ->
  exists l, gives args l /\ forall i, settled i (given i l) (conf i) (conf' i).
Proof.
  unfold Flags.parseCmdLineOptions. rewrite registered. cbn [gbind].
  destruct (Parse all_flags args _) as [[[c' f'] [|]]|] eqn:E; [|intros; discriminate..]. intros [= <-].
  destruct (Parse_gives (length args) args _ _ (le_n _) E) as (l & Hg & Hset). exists l. split; [exact Hg|]. intros i.
  destruct (set_all_fields l _ _ _ Hset i) as (vs & Hvs & Hi). exists vs. rewrite <- store_all_assign. auto.
Qed.

Lemma parseCmdLineOptions_total args conf : exists r, parseCmdLineOptions args conf = Ret r.
Proof. unfold Flags.parseCmdLineOptions. rewrite registered. cbn [gbind]. eauto. Qed.

(** A command line is accepted if and only if it is a sequence of options that the
    program has, in one of the documented forms and with values that all parse; no
    registration of a flag panics.  Then every field of the configuration has the
    last value that is given to its option, all of them in order if it has many,
    and an option that is not given leaves its field as it was. *)
Theorem command_line_spec (args : list bytes) (conf : configuration) :
  exists r, parseCmdLineOptions args conf = Ret r
    /\ ((exists conf', r = Ok conf') <->
        exists l, gives args l /\ forall i, exists vs, parse_all (parse_text (field_kind i)) (given i l) = Ok vs)
    /\ (forall conf', r = Ok conf' -> exists l, gives args l /\ forall i, settled i (given i l) (conf i) (conf' i)).
Proof.
  destruct (parseCmdLineOptions_total args conf) as [r Hr]. exists r. split; [exact Hr|]. split.
  - split; [intros [conf' ->]; destruct (command_line _ _ _ Hr) as (l & Hg & Hi); exists l; split; [exact Hg|];
      intros i; destruct (Hi i) as (vs & Hvs & _); eauto|].
    intros (l & Hg & Hi). destruct (set_all_total l Hi (conf, fun _ => false)) as [[c' f'] Hset].
    pose proof (gives_Parse args l Hg (conf, fun _ => false)) as Hp. rewrite Hset in Hp.
    unfold Flags.parseCmdLineOptions in Hr. rewrite registered in Hr. cbn [gbind] in Hr. rewrite Hp in Hr. injection Hr as <-. eauto.
  - intros conf' ->. exact (command_line _ _ _ Hr).
Qed.
(** *** The configuration *)

(** A command line gives its options in one way. *)
Fixpoint tokens (args : list bytes) : list (option_idx * bytes) :=
  match args with
  | [] => []
  | s :: rest =>
      match read_argument s with
      | Flag n v =>
          match lookup_flag all_flags n, v, rest with
          | Some i, Some v, _ => (i, v) :: tokens rest
          | Some i, None, _ =>
              if bool_decide (field_kind i = KBool) then (i, str "true") :: tokens rest
              else match rest with v :: rest => (i, v) :: tokens rest | [] => [] end
          | None, _, _ => []
          end
      | _ => []
      end
  end.

Lemma gives_tokens args l : gives args l -> tokens args = l.
Proof.
  induction 1 as [| |i n dash rest l Hk Hn Hd _ IH|i n dash v rest l Hn Hd _ IH|i n dash v rest l Hk Hn Hd _ IH];
    [reflexivity..| | |]; cbn [tokens];
    destruct (read_flag n dash (ex_intro _ i Hn) Hd) as [Hr Hrv]; rewrite ?Hr, ?Hrv; destruct (names_ok i n Hn) as [-> _];
    [rewrite bool_decide_true by exact Hk| |rewrite bool_decide_false by exact Hk]; rewrite IH; reflexivity.
Qed.

Context (ReadFile : bytes -> result bytes) (Unmarshal : bytes -> configuration -> result configuration).
#[local] Notation parseConfig := (parseConfig UnmarshalDuration ReadFile Unmarshal).

(** The two passes over the command line. *)
Lemma parseConfig_cases cmdName version args :
  exists r, parseConfig cmdName version args = Ret r
    /\ forall conf code err, r = (Some conf, code, err) ->
      code = ExitCodeSuccess /\ err = None
      /\ exists conf1, parseCmdLineOptions args default_configuration = Ret (Ok conf1)
        /\ ((conf1 configPathIdx = [] /\ conf = conf1)
            \/ exists b base, conf1 configPathIdx <> [] /\ ReadFile (conf1 configPathIdx) = Ok b /\ Unmarshal b conf1 = Ok base
              /\ parseCmdLineOptions args base = Ret (Ok conf)).
Proof.
  unfold Flags.parseConfig, parseConfigFile. destruct (parseCmdLineOptions_total args default_configuration) as [r1 Hr1]. rewrite Hr1. cbn [gbind].
  destruct (processCmdLineOptions cmdName version r1) as [[code ?]|] eqn:Ep; [eexists; split; [reflexivity|]; intros; congruence|].
  destruct r1 as [conf1|]; [|discriminate]. destruct (conf1 configPathIdx) as [|c path] eqn:Ec.
  { eexists. split; [reflexivity|]. intros conf code err [= <- <- <-]. split; [reflexivity|]. split; [reflexivity|].
    exists conf1. split; [reflexivity|]. left. split; [exact Ec|reflexivity]. }
  destruct (ReadFile (c :: path)) as [b|] eqn:Eb; [|eexists; split; [reflexivity|]; intros; congruence].
  destruct (Unmarshal b conf1) as [base|] eqn:Eu; [|eexists; split; [reflexivity|]; intros; congruence].
  destruct (parseCmdLineOptions_total args base) as [r2 Hr2]. rewrite Hr2. cbn [gbind]. eexists. split; [reflexivity|].
  destruct r2 as [conf2|]; intros conf code err [= <- <- <-]. split; [reflexivity|]. split; [reflexivity|]. exists conf1. split; [reflexivity|].
  right. exists b, base. rewrite Ec. auto.
Qed.

(** Without a configuration, success is for the help and the version. *)
Lemma parseConfig_exits cmdName version args err : parseConfig cmdName version args = Ret (None, ExitCodeSuccess, err) ->
  exists conf, parseCmdLineOptions args default_configuration = Ret (Ok conf) /\ (conf helpIdx = true \/ conf versionIdx = true).
Proof.
  unfold Flags.parseConfig, parseConfigFile. destruct (parseCmdLineOptions_total args default_configuration) as [r1 Hr1]. rewrite Hr1. cbn [gbind].
  destruct r1 as [conf|e]; [|discriminate]. unfold processCmdLineOptions.
  destruct (conf helpIdx) eqn:Eh; [eauto|]. destruct (conf versionIdx) eqn:Ev; [eauto|].
  destruct (conf configPathIdx); [discriminate|]. destruct (ReadFile _); [|discriminate]. destruct (Unmarshal _ conf) as [base|]; [|discriminate].
  destruct (parseCmdLineOptions_total args base) as [r2 Hr2]. rewrite Hr2. cbn [gbind]. destruct r2; discriminate.
Qed.

(** C15: The program always gets past its command line and configuration file, with a
    configuration or an exit code.  A configuration has, for every option, what the
    command line gives to it; for every other option it has what the configuration
    file leaves there, if the command line names a file, and the default otherwise.
    The file is read over the defaults with the command line applied, and no value
    of it, not even a list, survives beside one of the command line. *)
Theorem parseConfig_priority (cmdName version : bytes) (args : list bytes) :
  exists r, parseConfig cmdName version args = Ret r
    /\ forall conf code err, r = (Some conf, code, err) ->
      code = ExitCodeSuccess /\ err = None
      /\ exists l path, gives args l /\ settled configPathIdx (given configPathIdx l) [] path
        /\ match path with
           | [] => forall i, settled i (given i l) (default_configuration i) (conf i)
           | _ => exists b conf1 base, ReadFile path = Ok b
               /\ (forall i, settled i (given i l) (default_configuration i) (conf1 i)) /\ Unmarshal b conf1 = Ok base
               /\ forall i, settled i (given i l) (base i) (conf i)
           end.
Proof.
  destruct (parseConfig_cases cmdName version args) as (r & Hr & Hc). exists r. split; [exact Hr|]. intros conf code err Er.
  destruct (Hc _ _ _ Er) as (-> & -> & conf1 & H1 & Hrest). split; [reflexivity|]. split; [reflexivity|].
  destruct (command_line _ _ _ H1) as (l & Hg & Hset). exists l, (conf1 configPathIdx). split; [exact Hg|].
  split; [exact (Hset configPathIdx)|]. destruct Hrest as [[-> ->]|(b & base & Hp & Hb & Hu & H2)]; [exact Hset|].
  destruct (command_line _ _ _ H2) as (l' & Hg' & Hset'). apply gives_tokens in Hg, Hg'. subst l l'.
  destruct (conf1 configPathIdx) as [|c path]; [contradiction|]. eauto 10.
Qed.

(** *** Ranges *)

Definition elem_ok (k : kind) : elem k -> Prop :=
  match k with
  | KInt | KDuration => fun z => - 2 ^ 63 <= z < 2 ^ 63
  | KUint => fun z => 0 <= z < 2 ^ 64
  | KUint32 => fun z => 0 <= z < 2 ^ 32
  | KUint16s => fun z => 0 <= z < 2 ^ 16
  | _ => fun _ => True
  end.
Definition field_ok (k : kind) : field k -> Prop :=
  match k with
  | KUint16s => Forall (elem_ok KUint16s)
  | KStrings => Forall (elem_ok KStrings)
  | k => elem_ok k
  end.
Definition typed (conf : configuration) : Prop := forall i, field_ok (field_kind i) (conf i).

Hypothesis durations : forall s d, UnmarshalDuration s = Ok d -> - 2 ^ 63 <= d < 2 ^ 63.

Lemma parse_text_ok k s v : parse_text k s = Ok v -> elem_ok k v.
Proof using durations.
  destruct k; cbn [elem_ok Flags.parse_text]; intros H; try exact I;
    [apply (ParseInt_range s 0 64 v)|apply (ParseUint_range s 0 64 v)|apply (ParseUint_range s 0 32 v)|apply (ParseUint_range s 10 16 v)|exact (durations s v H)];
    try lia; exact H.
Qed.

Lemma settled_ok i texts cur v : settled i texts cur v -> field_ok (field_kind i) cur -> field_ok (field_kind i) v.
Proof using durations.
  intros (vs & Hvs & ->) Hc. set (k := field_kind i) in *. clearbody k.
  assert (Hall : Forall (elem_ok k) vs).
  { clear Hc. revert vs Hvs. induction texts as [|s texts IH]; intros vs Hvs; [injection Hvs as <-; constructor|].
    cbn [parse_all] in Hvs. destruct (parse_text k s) as [w|] eqn:Ew; [|discriminate]. cbn [rbind] in Hvs.
    destruct (parse_all _ texts) as [ws|]; [|discriminate]. injection Hvs as <-. constructor; [exact (parse_text_ok k s w Ew)|apply IH; reflexivity]. }
  assert (Hlast : forall w, list.last vs = Some w -> elem_ok k w).
  { intros w Hw. apply (proj1 (list.Forall_forall _ _) Hall), last_Some_elem_of, Hw. }
  destruct k; cbn [assign field_ok] in *; try (destruct (list.last vs) as [w|]; [exact (Hlast w eq_refl)|exact Hc]);
    (destruct vs; [exact Hc|exact Hall]).
Qed.

Lemma set_field_typed i v conf : field_ok (field_kind i) v -> typed conf -> typed (set_field i v conf).
Proof.
  intros Hv Hc j. destruct (decide (i = j)) as [->|Hne]; [rewrite set_field_eq; exact Hv|rewrite set_field_ne by exact Hne; exact (Hc j)].
Qed.

Lemma default_typed : typed default_configuration.
Proof.
  unfold default_configuration, DefaultOptimisticAnswerTTL, DefaultOptimisticMaxAge, Second.
  do 11 (apply set_field_typed; [cbn [field_kind field_ok elem_ok]; exact I || lia|]).
  intros i. unfold empty_configuration. destruct (field_kind i); cbn; try constructor; lia.
Qed.

Lemma command_line_typed args conf conf' : parseCmdLineOptions args conf = Ret (Ok conf') -> typed conf -> typed conf'.
Proof using durations.
  intros Hp Ht i. destruct (command_line _ _ _ Hp) as (l & _ & Hset). exact (settled_ok i _ _ _ (Hset i) (Ht i)).
Qed.

(** The decoder fills fields with values of their types. *)
Hypothesis unmarshal_typed : forall b conf conf', typed conf -> Unmarshal b conf = Ok conf' -> typed conf'.

(** Every value of the configuration that the program goes on with is one of the
    type of its field: ports fit in 16 bits, TTLs in 32 bits, sizes and durations in
    the signed and the rate limits in the unsigned 64 bits, whatever the command
    line and the file say. *)
Theorem parseConfig_typed (cmdName version : bytes) (args : list bytes) :
  exists r, parseConfig cmdName version args = Ret r
    /\ forall conf code err, r = (Some conf, code, err) -> typed conf.
Proof using durations unmarshal_typed.
  destruct (parseConfig_cases cmdName version args) as (r & Hr & Hc). exists r. split; [exact Hr|]. intros conf code err Er.
  destruct (Hc _ _ _ Er) as (_ & _ & conf1 & H1 & Hrest).
  pose proof (command_line_typed _ _ _ H1 default_typed) as Ht1.
  destruct Hrest as [[_ ->]|(b & base & _ & _ & Hu & H2)]; [exact Ht1|]. exact (command_line_typed _ _ _ H2 (unmarshal_typed _ _ _ Ht1 Hu)).
Qed.
End FlagFacts.

(** ** The usage text *)

Lemma insert_option_perm o l : insert_option o l ≡ₚ o :: l.
Proof.
  induction l as [|p l IH]; cbn [insert_option]; [reflexivity|]. destruct (text_le _ _); [reflexivity|]. rewrite IH. apply Permutation_swap.
Qed.

Lemma sorted_options_perm : sorted_options ≡ₚ commandLineOptions <$> all_options.
Proof.
  unfold sorted_options. induction (commandLineOptions <$> all_options) as [|o l IH]; cbn [foldr]; [reflexivity|].
  rewrite insert_option_perm, IH. reflexivity.
Qed.

(** The usage text has a line with the names of every option and its description. *)
Lemma usage_complete cmdName i : exists pre post, usage cmdName = pre ++ usage_entry (commandLineOptions i) ++ post.
Proof.
  assert (Hin : commandLineOptions i ∈ sorted_options).
  { rewrite sorted_options_perm. apply list_elem_of_fmap_2, all_options_all. }
  apply list_elem_of_split in Hin as (l1 & l2 & Hs). unfold usage. rewrite Hs, fmap_app, fmap_cons, concat_app. cbn [concat].
  exists (str "Usage of " ++ cmdName ++ str ":" ++ [10] ++ concat (usage_entry <$> l1)), (concat (usage_entry <$> l2)).
  rewrite <- !app_assoc. reflexivity.
Qed.

(** ** Examples *)

Module FlagsExamples.
Definition duration_of (s : bytes) : result Duration := let? n := ParseUint s 10 32 in Ok (n * Second).
Definition files (path : bytes) : result bytes := if bool_decide (path = str "c.yaml") then Ok [] else Err (New "no such file").
(** A file with two ports, an upstream and a rate limit. *)
Definition yaml (_ : bytes) (conf : configuration) : result configuration :=
  Ok (set_field listenPortsIdx [5353; 5354] (set_field upstreamsIdx [str "9.9.9.9"] (set_field ratelimitIdx 10 conf))).
Definition args : list bytes :=
  [str "--config-path=c.yaml"; str "-p"; str "53"; str "--port=0x35"; str "--cache"; str "-u"; str "8.8.8.8"].
Definition args_ok : list bytes :=
  [str "--config-path=c.yaml"; str "-p"; str "53"; str "--port=5300"; str "--cache"; str "--dnssec=false"; str "--timeout"; str "5"].

Definition shown (r : go (option configuration * exit_code * option error)) :=
  match r with
  | Ret (Some conf, code, _) =>
      Some (conf listenPortsIdx, conf upstreamsIdx, conf ratelimitIdx, conf cacheIdx, conf dnssecEnabledIdx, conf timeoutIdx, code)
  | _ => None
  end.

(** The ports of the command line take the place of those of the file; ports are
    decimal. *)
Example priority :
  shown (parseConfig duration_of files yaml (str "dnsproxy") [] args_ok)
  = Some ([53; 5300], [str "9.9.9.9"], 10, true, false, 5 * Second, ExitCodeSuccess)
  /\ shown (parseConfig duration_of files yaml (str "dnsproxy") [] args) = None.
Proof. split; vm_compute; reflexivity. Qed.

Lemma duration_of_range s d : duration_of s = Ok d -> - 2 ^ 63 <= d < 2 ^ 63.
Proof.
  unfold duration_of. destruct (ParseUint s 10 32) as [n|] eqn:E; [|discriminate]. apply ParseUint_range in E; [|lia..].
  intros [= <-]. unfold Second. lia.
Qed.

Lemma yaml_typed b conf conf' : typed conf -> yaml b conf = Ok conf' -> typed conf'.
Proof.
  intros Ht [= <-]. apply set_field_typed; [|apply set_field_typed; [|apply set_field_typed; [|exact Ht]]]; cbn [field_kind field_ok];
    [repeat constructor; lia|repeat constructor|cbn [elem_ok]; lia].
Qed.

Lemma parseConfig_typed_witness :
  exists r, parseConfig duration_of files yaml (str "dnsproxy") [] args_ok = Ret r
    /\ forall conf code err, r = (Some conf, code, err) -> typed conf.
Proof. apply (parseConfig_typed duration_of files yaml duration_of_range yaml_typed). Defined.
End FlagsExamples.
