(* ===== verification/Command.v ===== *)
(** * The dnsproxy command (internal/cmd/proxy.go, internal/cmd/tls.go,
      internal/cmd/cmd.go, internal/netutil, the hosts resolver of
      upstream/hostsresolver.go)

    How the command turns its configuration into the one of the proxy, with the
    upstreams, the bootstrap, the listeners and the request handler, and how it runs
    the proxy.  The theorems say that what the command sets up passes the checks of
    [Start], listens where it should, keeps serving, and is closed in the end.
    Logging and the profiler are left out. *)

From stdpp Require Import gmap.
From Stdlib Require Import QArith SpecFloat.
From S2P Require Import Prelude NetIP DnsMsg RefDns GlCache NetUtil Wire Cache CacheFacts CacheSpec Ecs GoStrings NetParse Strconv NetURL.
From S2P Require Import Upstreams Bootstrap Dns64 Receipt Parallel Fastip Exchange Messages Stats Context Recursion.
From S2P Require Import ProxyCache ResolveCache Pending Resolve ResolveFacts ResolveSpec Server Secretbox CryptPackets CryptCert CryptClient Address.
From S2P Require Import RateLimit Middleware Config Life Flags.
#[local] Open Scope life_scope.
#[local] Open Scope Z_scope.

(** ** Lists of servers and addresses *)

Section Lists.
(** [os.ReadFile] *)
Context (ReadFile : bytes -> result bytes).

Definition is_comment (line : bytes) : bool :=
  bool_decide (line = []) || HasPrefix line (str "!") || HasPrefix line (str "#").

Fixpoint loadServersList (sources : list bytes) : list bytes :=
  match sources with
  | [] => []
  | source :: sources =>
      let '(address, data) := match ReadFile source with Ok data => ([], data) | Err _ => ([source], []) end in
      address ++ List.filter (fun line => negb (is_comment line)) (TrimSpace <$> Split data 10) ++ loadServersList sources
  end.
End Lists.

(** [ParseSubnet] of internal/netutil. *)
Definition ParseSubnet (s : bytes) : result Prefix :=
  if bool_decide (47 ∈ s) then ParsePrefix s
  else let? ip := ParseAddr s in Ok (PrefixFrom ip (BitLen ip)).

Definition MustParsePrefix (s : bytes) : go Prefix := match ParsePrefix s with Ok p => Ret p | Err _ => Panic end.

(** The addresses that are parsed one after the other. *)
Fixpoint parse_each {A} (parse : bytes -> result A) (err : error -> error) (l : list bytes) : result (list A) :=
  match l with
  | [] => Ok []
  | s :: l =>
      match parse s with
      | Err e => Err (err e)
      | Ok a => let? rest := parse_each parse err l in Ok (a :: rest)
      end
  end.

Definition parseListenAddrs (addrStrs : list bytes) : result (list Addr) :=
  let? addrs := parse_each ParseAddr (fun _ => Prelude.New "parsing listen address at index %d: %s") addrStrs in
  Ok (match addrs with [] => [Addr4 [0; 0; 0; 0]] | _ => addrs end).

(** A slice that is nil unless something was appended to it. *)
Definition appended {A} (l : list A) : option (list A) := match l with [] => None | _ => Some l end.

Definition ports_by_addrs (ports : list Z) (addrs : list Addr) : list AddrPort := port ← ports; ip ← addrs; [(ip, port)].
Definition addrs_by_ports (addrs : list Addr) (ports : list Z) : list AddrPort := ip ← addrs; port ← ports; [(ip, port)].

(** The addresses of TLS, HTTPS and QUIC. *)
Definition initTLSListenAddrs (conf : configuration) (addrs : list Addr) : list AddrPort * list AddrPort * list AddrPort :=
  (addrs_by_ports addrs (conf tlsListenPortsIdx), addrs_by_ports addrs (conf httpsListenPortsIdx),
   addrs_by_ports addrs (conf quicListenPortsIdx)).

(** The addresses of DNSCrypt over TCP and UDP. *)
Definition initDNSCryptListenAddrs (conf : configuration) (addrs : list Addr) : list AddrPort * list AddrPort :=
  let l := ports_by_addrs (conf dnsCryptListenPortsIdx) addrs in (l, l).

(** ** TLS *)

Definition VersionTLS10 : Z := 769.
Definition VersionTLS11 : Z := 770.
Definition VersionTLS13 : Z := 772.

(** The float32 that a constant of the source is. *)
Definition const32 (s : bytes) : float32 := match ParseFloat32 s with Ok f => f | Err _ => S754_nan end.

(** ** Facts on lists of addresses *)

Definition listed (l : option (list AddrPort)) : list AddrPort := default [] l.

Lemma appended_list {A} (l : list A) : default [] (appended l) = l.
Proof. destruct l; reflexivity. Qed.

Lemma elem_ports_by_addrs a port ports addrs : (a, port) ∈ ports_by_addrs ports addrs <-> a ∈ addrs /\ port ∈ ports.
Proof.
  unfold ports_by_addrs. rewrite list_elem_of_bind. setoid_rewrite list_elem_of_bind. setoid_rewrite list_elem_of_singleton.
  split; [intros (? & (? & [= <- <-] & ?) & ?); auto|intros [? ?]; eauto 10].
Qed.

Lemma elem_addrs_by_ports a port ports addrs : (a, port) ∈ addrs_by_ports addrs ports <-> a ∈ addrs /\ port ∈ ports.
Proof.
  unfold addrs_by_ports. rewrite list_elem_of_bind. setoid_rewrite list_elem_of_bind. setoid_rewrite list_elem_of_singleton.
  split; [intros (? & (? & [= <- <-] & ?) & ?); auto|intros [? ?]; eauto 10].
Qed.

(** The ports of plain DNS. *)
Definition plain_ports (conf : configuration) : list Z := match conf listenPortsIdx with [] => [53] | ports => ports end.

(** A protocol with [ports] listens on them at each of [addrs] if it is set up. *)
Definition listens (on : Prop) (addrs : list Addr) (ports : list Z) (l : option (list AddrPort)) : Prop :=
  forall a port, (a, port) ∈ listed l <-> on /\ a ∈ addrs /\ port ∈ ports.

Lemma parseListenAddrs_some l addrs : parseListenAddrs l = Ok addrs -> addrs <> [].
Proof.
  unfold parseListenAddrs. destruct (parse_each _ _ l) as [[|a rest]|]; [intros [= <-]|intros [= <-]|]; discriminate.
Qed.

Lemma listens_on (on : Prop) addrs ports l : on -> (forall a port, (a, port) ∈ l <-> a ∈ addrs /\ port ∈ ports) ->
  listens on addrs ports (appended l).
Proof. intros Hon Hl a port. unfold listed. rewrite appended_list, Hl. tauto. Qed.

Lemma listens_off (on : Prop) addrs ports : ~ on -> listens on addrs ports (appended []).
Proof. intros Hon a port. cbn. rewrite elem_of_nil. tauto. Qed.

Lemma plain_listens conf l addrs : parseListenAddrs l = Ok addrs -> exists x, appended (ports_by_addrs (plain_ports conf) addrs) = Some x.
Proof.
  intros Ha. apply parseListenAddrs_some in Ha. destruct addrs as [|a addrs]; [contradiction|].
  assert (Hp : exists port, port ∈ plain_ports conf) by (unfold plain_ports; destruct (conf listenPortsIdx) as [|x r]; eexists; left).
  destruct Hp as [port Hp]. pose proof (proj2 (elem_ports_by_addrs a port (plain_ports conf) (a :: addrs)) (conj (list_elem_of_here _ _) Hp)) as Hin.
  destruct (ports_by_addrs _ _) as [|x r]; [destruct (not_elem_of_nil _ Hin)|]. eexists. reflexivity.
Qed.

Section Command.
Context {DL : DnsLib} {DN : DnsNames} {GC : GlCache} {NU : NetUtil} {MC : MessageConstructor} {VA : Validators}.
Context {C L N : Type} {GOC : GoCache C} {RA : Rate L} {Out : Outside N} {Co : Conns N} {HL : HasLimiters (C := C) (L := L) N}.
Context {D : Type} {HF : HostsFile D} {AT : AddrTexts} {DS : DnsStamps} {CL : CryptoLib} {ED : Ed25519}.
(** Files: what [os.ReadFile] and opening give. *)
Context (ReadFile : bytes -> result bytes) (open : bytes -> result (bytes * option error)).
(** [tls.X509KeyPair]; certificates are only handed on. *)
Context {K : Type} (X509KeyPair : bytes -> bytes -> result K).
(** golibs: the default paths of hosts files, the parser of addresses, the locally
    served networks and the checks of values. *)
Context (hostsfile_DefaultHostsPaths : result (list bytes)) (netutil_ParseIP : bytes -> result IP).
Context (IsLocallyServed : Addr -> bool) (NotEmptySlice : nat -> option error) (NotEmpty : string -> bytes -> option error).
(** yaml.v3, for a resolver configuration. *)
Context (Unmarshal_rc : bytes -> result ResolverConfig).

Record server_tls := mkServerTLS { Certificates : list K; MinVersion : Z; MaxVersion : Z }.

Definition loadX509KeyPair (certFile keyFile : bytes) : result K :=
  let? certPEMBlock := ReadFile certFile in
  let? keyPEMBlock := ReadFile keyFile in
  X509KeyPair certPEMBlock keyPEMBlock.

Definition newTLSConfig (conf : configuration) : result server_tls :=
  let same (i : float32) (s : bytes) := SFeqb i (const32 s) in
  let min := conf tlsMinVersionIdx in
  let tlsMinVersion :=
    if same min (str "1.1") then VersionTLS11 else if same min (str "1.2") then VersionTLS12 else if same min (str "1.3") then VersionTLS13
    else VersionTLS10 in
  let max := conf tlsMaxVersionIdx in
  let tlsMaxVersion :=
    if same max (str "1.0") then VersionTLS10 else if same max (str "1.1") then VersionTLS11 else if same max (str "1.2") then VersionTLS12
    else VersionTLS13 in
  match loadX509KeyPair (conf tlsCertPathIdx) (conf tlsKeyPathIdx) with
  | Err _ => Err (Prelude.New "loading TLS cert: %s")
  | Ok cert => Ok (mkServerTLS [cert] tlsMinVersion tlsMaxVersion)
  end.

Definition initTLSConfig (conf : configuration) : result (option server_tls) :=
  match conf tlsCertPathIdx, conf tlsKeyPathIdx with
  | _ :: _, _ :: _ =>
      match newTLSConfig conf with Err e => Err (Errorf "loading TLS config: %w" e) | Ok c => Ok (Some c) end
  | _, _ => Ok None
  end.

(** ** DNSCrypt *)

(** The certificate and the provider name; [now] and [now'] are the times of making and
    of validating the certificate, [rnd] random bytes. *)
Definition initDNSCryptConfig (now now' : Time) (rnd : bytes) (conf : configuration) : go (result (option (Certificate * bytes))) :=
  match conf dnsCryptConfigPathIdx with
  | [] => Ret (Ok None)
  | path =>
      match ReadFile path with
      | Err e => Ret (Err (Errorf "reading dnscrypt config %q: %w" e))
      | Ok b =>
          match Unmarshal_rc b with
          | Err e => Ret (Err (Errorf "unmarshalling dnscrypt config: %w" e))
          | Ok rc =>
              match rc_Validate NotEmpty rc with
              | Some e => Ret (Err (Errorf "validating dnscrypt config: %w" e))
              | None =>
                  let! cert := newCert rc now rnd in
                  Ret (match cert with
                       | Err e => Err (Errorf "creating dnscrypt certificate: %w" e)
                       | Ok cert =>
                           match cert_Validate now' cert with
                           | Some e => Err (Errorf "validating dnscrypt certificate: %w" e)
                           | None => Ok (Some (cert, rc_ProviderName rc))
                           end
                       end)
              end
          end
      end
  end.

(** ** Listeners *)

(** The listeners' part of the configuration, with the HTTP configuration that is
    there already. *)
Definition initListenAddrs (conf : configuration) (tls : option server_tls) (crypt : option (Certificate * bytes))
    (hc : HTTPConfig) : result listen_conf :=
  match parseListenAddrs (conf listenAddrsIdx) with
  | Err e => Err (Errorf "parsing listen addresses: %w" e)
  | Ok addrs =>
      let ListenPorts := match conf listenPortsIdx with [] => [53] | ports => ports end in
      let plain := ports_by_addrs ListenPorts addrs in
      let '(tlsAddrs, httpsAddrs, quicAddrs) :=
        match tls with Some _ => initTLSListenAddrs conf addrs | None => ([], [], []) end in
      let '(cryptTCP, cryptUDP) :=
        match crypt with
        | Some (_, _ :: _) => initDNSCryptListenAddrs conf addrs
        | _ => ([], [])
        end in
      Ok (mkListen (appended plain) (appended plain) (appended tlsAddrs) (appended quicAddrs) (appended cryptUDP) (appended cryptTCP)
            (not_nil tls)
            (Some (mkHTTPConfig (Userinfo hc) (hc_ServerHeader hc) (appended httpsAddrs) (Routes hc) (HTTP3Enabled hc) (InsecureEnabled hc)))
            (fst <$> crypt) (default [] (snd <$> crypt)) 0 0 (conf maxGoRoutinesIdx) (conf udpBufferSizeIdx))
  end.

(** ** Subnets *)

(** The prefixes of DNS64, and the private subnets if they are set. *)
Definition initPrivateSubnets (conf : configuration) : result (option (Addr -> bool)) :=
  let? private := parse_each ParsePrefix (Errorf "parsing private subnet at index %d: %w") (conf privateSubnetsIdx) in
  Ok (match private with [] => None | _ => Some (SliceSubnetSet_Contains private) end).

Definition initSubnets (conf : configuration) : result (list Prefix * option (Addr -> bool)) :=
  let? prefs :=
    if conf dns64Idx then parse_each ParsePrefix (Errorf "parsing dns64 prefix at index %d: %w") (conf dns64PrefixIdx)
    else Ok [] in
  let? private := if negb (conf usePrivateRDNSIdx) then Ok None else initPrivateSubnets conf in
  Ok (prefs, private).

Definition initBogusNXDomain (conf : configuration) : list Prefix :=
  omap (fun s => match ParseSubnet s with Ok p => Some p | Err _ => None end) (conf bogusNXDomainIdx).

Definition initEDNS (conf : configuration) : result IP :=
  match conf ednsAddrIdx with
  | [] => Ok None
  | addr =>
      if negb (conf enableEDNSSubnetIdx) then Ok None
      else match netutil_ParseIP addr with Err e => Err (Errorf "parsing edns-addr: %w" e) | Ok ip => Ok ip end
  end.

(** ** Bootstrap *)

(** [hostsfile.NewDefaultStorage] with what opening and parsing the files gives; a
    file that does not exist is skipped. *)
Definition parseHostsFile (hosts : D) (filename : bytes) : option error * D :=
  match open filename with
  | Err e => (if errors_Is e "file does not exist" then None else Some e, hosts)
  | Ok (contents, closeErr) =>
      let '(err, hosts) := hosts_Parse hosts contents in
      (match err, closeErr with
       | None, c => c
       | Some e, None => Some e
       | Some e, Some c => Some (Join [e; c])
       end, hosts)
  end.

Fixpoint parse_hosts_files (hosts : D) (paths : list bytes) : result D :=
  match paths with
  | [] => Ok hosts
  | filename :: paths =>
      match parseHostsFile hosts filename with
      | (Some e, _) => Err e
      | (None, hosts) => parse_hosts_files hosts paths
      end
  end.

Definition NewDefaultHostsResolver : result Resolver :=
  match hostsfile_DefaultHostsPaths with
  | Err e => Err (Errorf "getting default hosts paths: %w" e)
  | Ok paths => let? strg := parse_hosts_files NewDefaultStorage paths in Ok (HostsResolver (ByName (storage_of strg)))
  end.

(** Callbacks of upstreams, none of which the command sets. *)
Context {V : Type} (no_callbacks : V).
(** How the caching resolver of an upstream and [net.DefaultResolver] answer, the
    error of a recovered panic and the order in which lookups end. *)
Context (caching_resolver : upstream (V := V) -> Resolver) (net_DefaultResolver : Resolver).
Context (FromRecovered : error) (order : list nat).

Fixpoint bootstrap_resolvers (bootstraps : list bytes) (opts : Options (V := V)) : result (list Resolver) :=
  match bootstraps with
  | [] => Ok []
  | b :: bootstraps =>
      match NewUpstreamResolver b opts with
      | Err e | Ok (_, Some e) => Err (Errorf "creating bootstrap resolver at index %d: %w" e)
      | Ok (ur, None) => let? rs := bootstrap_resolvers bootstraps opts in Ok (caching_resolver ur :: rs)
      end
  end.

Definition initBootstrap (bootstraps : list bytes) (opts : Options (V := V)) : result Resolver :=
  let? resolvers := bootstrap_resolvers bootstraps opts in
  Ok (match resolvers with
      | [] =>
          match NewDefaultHostsResolver with
          | Err _ => net_DefaultResolver
          | Ok etcHosts => ConsequentResolver [etcHosts; net_DefaultResolver]
          end
      | [r] => r
      | _ => ParallelResolver FromRecovered resolvers order
      end).

(** ** Upstreams *)

Definition defaultLocalTimeout : Duration := 1 * Second.

Definition isEmpty (uc : UpstreamConfig) : bool :=
  bool_decide (Upstreams uc = []) && bool_decide (DomainReservedUpstreams uc = ∅) && bool_decide (SpecifiedDomainUpstreams uc = ∅).

(** [UnmarshalText] of an upstream mode. *)
Definition mode_UnmarshalText (b : bytes) : result bytes :=
  if bool_decide (b ∈ [UpstreamModeLoadBalance; UpstreamModeParallel; UpstreamModeFastestAddr]) then Ok b
  else Err (Prelude.New "invalid upstream mode %q, supported: %q, %q, %q").

(** The identities of new upstreams; those of the three configurations differ. *)
Context (new_id : nat -> upstream (V := V) -> nat).

Definition new_upstream (which : nat) (opts : Options (V := V)) (addr : bytes) : result Upstream :=
  let? u := AddressToUpstream addr opts in
  match Address.Address u with
  | Ret a => Ok (mkUpstream (new_id which u) a)
  | Panic => Err (Prelude.New "unreachable")
  end.

(** [proxy.ParseUpstreamsConfig], with its errors joined. *)
Definition parse_upstreams (which : nat) (lines : list bytes) (opts : Options (V := V)) : go (result UpstreamConfig) :=
  let! (uc, errs) := ParseUpstreamsConfig (new_upstream which opts) Address.ValidateDomainName lines in
  Ret (match join_errors (snd <$> errs) with Some e => Err e | None => Ok uc end).

Record upstreams_conf := mkUps {
  uf_general : UpstreamConfig;
  uf_private : option UpstreamConfig;
  uf_fallbacks : option UpstreamConfig;
  uf_mode : bytes;
}.

Definition initUpstreams (conf : configuration) : go (result upstreams_conf) :=
  let httpVersions := if conf http3Idx then [HTTPVersion3; HTTPVersion2; HTTPVersion11] else DefaultHTTPVersions in
  let timeout := conf timeoutIdx in
  let options boot insecure timeout := mkOptions false [] [] no_callbacks [] boot httpVersions timeout insecure false in
  match initBootstrap (conf bootstrapDNSIdx) (options None (conf insecureIdx) timeout) with
  | Err e => Ret (Err (Errorf "initializing bootstrap: %w" e))
  | Ok boot =>
      let upsOpts := options (Some boot) (conf insecureIdx) timeout in
      let! general := parse_upstreams 0 (loadServersList ReadFile (conf upstreamsIdx)) upsOpts in
      match general with
      | Err e => Ret (Err (Errorf "parsing upstreams configuration: %w" e))
      | Ok general =>
          let privateUpsOpts := options (Some boot) false (Z.min defaultLocalTimeout timeout) in
          let! private := parse_upstreams 1 (loadServersList ReadFile (conf privateRDNSUpstreamsIdx)) privateUpsOpts in
          match private with
          | Err e => Ret (Err (Errorf "parsing private rdns upstreams configuration: %w" e))
          | Ok private =>
              let! fallbacks := parse_upstreams 2 (loadServersList ReadFile (conf fallbacksIdx)) upsOpts in
              match fallbacks with
              | Err e => Ret (Err (Errorf "parsing fallback upstreams configuration: %w" e))
              | Ok fallbacks =>
                  let nonempty uc := if isEmpty uc then None else Some uc in
                  Ret (match conf upstreamModeIdx with
                       | [] => Ok (mkUps general (nonempty private) (nonempty fallbacks) UpstreamModeLoadBalance)
                       | text =>
                           match mode_UnmarshalText text with
                           | Err e => Err (Errorf "parsing upstream mode: %w" e)
                           | Ok mode => Ok (mkUps general (nonempty private) (nonempty fallbacks) mode)
                           end
                       end)
              end
          end
      end
  end.

(** ** The configuration of the proxy *)

(** [DefaultHostsPaths] of internal/netutil on UNIX. *)
Definition DefaultHostsPaths : go (list bytes) :=
  match hostsfile_DefaultHostsPaths with
  | Err _ => Panic
  | Ok paths => Ret ((fun p => str "/" ++ p) <$> paths)
  end.

Definition hostsFiles (conf : configuration) : go (list bytes) :=
  if negb (conf hostsFileEnabledIdx) then Ret []
  else match conf hostsFilesIdx with
  | [] => DefaultHostsPaths
  | paths => Ret paths
  end.

Definition http_conf (conf : configuration) : HTTPConfig :=
  let user :=
    match conf httpsUserinfoIdx with
    | [] => None
    | uiStr => let '(user, pass, ok) := Cut uiStr (str ":") in Some (user, if ok then Some pass else None)
    end in
  mkHTTPConfig user (conf httpsServerNameIdx) None (conf dohRoutesIdx) (conf http3Idx) (conf dohInsecureEnabledIdx).

Definition error_of {A} (r : result A) : option error := match r with Ok _ => None | Err e => Some e end.
Definition value_of {A} (d : A) (r : result A) : A := match r with Ok a => a | Err _ => d end.

(** The configuration and the TLS configuration of the servers.  [pending] is the
    result of an identical request, for the handler. *)
Definition createProxyConfig (now now' : Time) (rnd : bytes) (pending : option pendingResult) (conf : configuration)
    : go (result (Config (N := N) * option server_tls)) :=
  let! paths := hostsFiles conf in
  let '(hosts, err) := ReadHosts open paths in
  match err with
  | Some e => Ret (Err (Errorf "reading hosts files: %w" e))
  | None =>
      let preMw := Middleware.New hosts (inl DefaultMessageConstructor) (conf ipv6DisabledIdx) in
      match newRatelimitMw (conf ratelimitIdx) (conf ratelimitSubnetLenIPv4Idx) (conf ratelimitSubnetLenIPv6Idx) with
      | Err e => Ret (Err (Errorf "ratelimit mw: %w" e))
      | Ok ratelimitMw =>
          let! any4 := MustParsePrefix (str "0.0.0.0/0") in
          let! any6 := MustParsePrefix (str "::0/0") in
          let! ups := initUpstreams conf in
          let edns := initEDNS conf in
          let tls := initTLSConfig conf in
          let! crypt := initDNSCryptConfig now now' rnd conf in
          let listen := initListenAddrs conf (value_of None tls) (value_of None crypt) (http_conf conf) in
          let subnets := initSubnets conf in
          Ret (match ups, edns, tls, crypt, listen, subnets with
               | Ok ups, Ok edns, Ok tls, Ok _, Ok listen, Ok (prefs, private) =>
                   Ok (Config.mkConfig
                         (Some (SliceSubnetSet_Contains [any4; any6]))
                         (Some (default IsLocallyServed private))
                         (Some (conf pendingRequestsEnabledIdx))
                         (Some (fun p => ratelimitMw (mw_Wrap preMw (DefaultHandler p pending))))
                         None None
                         (Some (uf_general ups)) (uf_private ups) (uf_fallbacks ups) None (uf_mode ups)
                         (initBogusNXDomain conf) prefs edns
                         (conf cacheSizeBytesIdx) (conf cacheMinTTLIdx) (conf cacheMaxTTLIdx)
                         (conf cacheOptimisticAnswerTTLIdx) (conf cacheOptimisticMaxAgeIdx)
                         (conf refuseAnyIdx) (conf dnssecEnabledIdx) (conf enableEDNSSubnetIdx) (conf cacheIdx)
                         (conf cacheOptimisticIdx) (conf dns64Idx) (conf usePrivateRDNSIdx) false listen, tls)
               | _, _, _, _, _, _ =>
                   Err (Join (omap id [error_of ups; error_of edns; error_of tls; error_of crypt; error_of listen; error_of subnets]))
               end)
      end
  end.

(** ** Running *)

(** The configurations of upstreams that [Shutdown] closes. *)
Definition upstream_configs (p : Proxy) : list UpstreamConfig :=
  omap id [upstreamConf p; privateRDNSUpstreamConfig p; fallbacks p].

(** [runProxy] until a signal and the shutdown after it; [n] is the outside at its
    beginning. *)
Definition runProxy (E : env) (cert_empty cert_nil : bool -> option error) (now now' : Time) (rnd : bytes) (n : N) (conf : configuration)
    : go (M (option error)) :=
  let! r := createProxyConfig now now' rnd None conf in
  match r with
  | Err e => Ret (ret (Some (Errorf "configuring proxy: %w" e)))
  | Ok (proxyConf, _) =>
      let! p := New_proxy IsLocallyServed NotEmptySlice None proxyConf n in
      match p with
      | Err e => Ret (ret (Some (Errorf "creating proxy: %w" e)))
      | Ok dnsProxy =>
          Ret (do err <- Start E (p_listen dnsProxy) cert_empty cert_nil;
               match err with
               | Some e => ret (Some (Errorf "starting dnsproxy: %w" e))
               | None =>
                   do err <- Shutdown E (upstream_configs (p_conf dnsProxy));
                   ret (wrap_error "stopping dnsproxy: %w" err)
               end)
      end
  end.

(** The flags' durations, the decoder of the configuration file, and what opening the
    log file gives. *)
Context (UnmarshalDuration : bytes -> result Duration) (Unmarshal : bytes -> configuration -> result configuration).
Context (OpenFile : bytes -> option error).

(** [Main] with [os.Args]: the exit code of the process. *)
Definition Main (E : env) (cert_empty cert_nil : bool -> option error) (now now' : Time) (rnd : bytes) (n : N)
    (cmdName version : bytes) (args : list bytes) : go (M exit_code) :=
  let! (conf, exitCode, _) := parseConfig UnmarshalDuration ReadFile Unmarshal cmdName version args in
  match conf with
  | None => Ret (ret exitCode)
  | Some conf =>
      match (match conf logOutputIdx with [] => None | path => OpenFile path end) with
      | Some _ => Ret (ret ExitCodeArgumentError)
      | None =>
          let! run := runProxy E cert_empty cert_nil now now' rnd n conf in
          Ret (do err <- run; ret (match err with Some _ => ExitCodeFailure | None => ExitCodeSuccess end))
      end
  end.

(** ** Facts *)

(** The parts of a configuration that is accepted. *)
Lemma createProxyConfig_inv now now' rnd pending conf c tls :
  createProxyConfig now now' rnd pending conf = Ret (Ok (c, tls)) ->
  exists paths hosts mw ups edns crypt listen prefs private,
    hostsFiles conf = Ret paths /\ ReadHosts open paths = (hosts, None)
    /\ newRatelimitMw (conf ratelimitIdx) (conf ratelimitSubnetLenIPv4Idx) (conf ratelimitSubnetLenIPv6Idx) = Ok mw
    /\ initUpstreams conf = Ret (Ok ups) /\ initEDNS conf = Ok edns /\ initTLSConfig conf = Ok tls
    /\ initDNSCryptConfig now now' rnd conf = Ret (Ok crypt)
    /\ initListenAddrs conf tls crypt (http_conf conf) = Ok listen /\ initSubnets conf = Ok (prefs, private)
    /\ c = Config.mkConfig
         (Some (SliceSubnetSet_Contains [mkPrefix (Addr4 [0; 0; 0; 0]) 0; mkPrefix (Addr6 (replicate 16 0) []) 0]))
         (Some (default IsLocallyServed private)) (Some (conf pendingRequestsEnabledIdx))
         (Some (fun p => mw (mw_Wrap (Middleware.New hosts (inl DefaultMessageConstructor) (conf ipv6DisabledIdx)) (DefaultHandler p pending))))
         None None (Some (uf_general ups)) (uf_private ups) (uf_fallbacks ups) None (uf_mode ups) (initBogusNXDomain conf) prefs edns
         (conf cacheSizeBytesIdx) (conf cacheMinTTLIdx) (conf cacheMaxTTLIdx)
         (conf cacheOptimisticAnswerTTLIdx) (conf cacheOptimisticMaxAgeIdx)
         (conf refuseAnyIdx) (conf dnssecEnabledIdx) (conf enableEDNSSubnetIdx) (conf cacheIdx)
         (conf cacheOptimisticIdx) (conf dns64Idx) (conf usePrivateRDNSIdx) false listen.
Proof using Type.
  intros H. unfold createProxyConfig in H. inv_bind H. destruct (ReadHosts open a) as [hosts [e|]] eqn:Eh; [discriminate|].
  destruct (newRatelimitMw _ _ _) as [mw|] eqn:Em; [|discriminate].
  change (MustParsePrefix (str "0.0.0.0/0")) with (Ret (mkPrefix (Addr4 [0; 0; 0; 0]) 0)) in H.
  change (MustParsePrefix (str "::0/0")) with (Ret (mkPrefix (Addr6 (replicate 16 0) []) 0)) in H. cbn [gbind] in H.
  inv_bind H. inv_bind H. destruct a0 as [ups|]; [|discriminate]. destruct (initEDNS conf) as [edns|] eqn:Ee; [|discriminate].
  destruct (initTLSConfig conf) as [t|] eqn:Et; [|discriminate]. destruct a1 as [crypt|]; [|discriminate]. cbn [value_of] in H.
  destruct (initListenAddrs _ _ _ _) as [listen|] eqn:El; [|discriminate].
  destruct (initSubnets conf) as [[prefs private]|] eqn:Es; [|discriminate]. injection H as <- <-.
  exists a, hosts, mw, ups, edns, crypt, listen, prefs, private. auto 20.
Qed.

(** *** Listeners *)

Lemma initListenAddrs_spec conf tls crypt hc l : initListenAddrs conf tls crypt hc = Ok l ->
  validateListenAddrs l = None
  /\ exists addrs, parseListenAddrs (conf listenAddrsIdx) = Ok addrs
    /\ listens True addrs (plain_ports conf) (udpListenAddr l) /\ listens True addrs (plain_ports conf) (tcpListenAddr l)
    /\ listens (tls <> None) addrs (conf tlsListenPortsIdx) (tlsListenAddr l)
    /\ listens (tls <> None) addrs (conf httpsListenPortsIdx) (http ← httpConf l; ListenAddresses http)
    /\ listens (tls <> None) addrs (conf quicListenPortsIdx) (quicListenAddr l)
    /\ listens (exists cert name, crypt = Some (cert, name) /\ name <> []) addrs (conf dnsCryptListenPortsIdx) (dnsCryptUDPListenAddr l)
    /\ listens (exists cert name, crypt = Some (cert, name) /\ name <> []) addrs (conf dnsCryptListenPortsIdx) (dnsCryptTCPListenAddr l).
Proof using Type.
  unfold initListenAddrs. destruct (parseListenAddrs _) as [addrs|] eqn:Ea; [|discriminate]. fold (plain_ports conf).
  destruct (plain_listens conf _ addrs Ea) as [x Hx].
  assert (Htls : forall t, (tls <> None -> t = initTLSListenAddrs conf addrs) -> (tls = None -> t = ([], [], [])) ->
    listens (tls <> None) addrs (conf tlsListenPortsIdx) (appended t.1.1) /\ listens (tls <> None) addrs (conf httpsListenPortsIdx) (appended t.1.2)
    /\ listens (tls <> None) addrs (conf quicListenPortsIdx) (appended t.2)).
  { intros t H1 H2. destruct tls as [c|]; [rewrite H1 by discriminate; split; [|split]; (apply listens_on; [discriminate|intros; apply elem_addrs_by_ports])|].
    rewrite H2 by reflexivity. split; [|split]; apply listens_off; congruence. }
  set (on := exists cert name, crypt = Some (cert, name) /\ name <> []).
  assert (Hcr : forall t, (on -> t = initDNSCryptListenAddrs conf addrs) -> (~ on -> t = ([], [])) ->
    listens on addrs (conf dnsCryptListenPortsIdx) (appended t.2) /\ listens on addrs (conf dnsCryptListenPortsIdx) (appended t.1)).
  { intros t H1 H2. assert (Hd : on \/ ~ on).
    { unfold on. destruct crypt as [[cert [|b n]]|]; [right|left; exists cert, (b :: n); split; [reflexivity|discriminate]|right]; intros (? & ? & [= <- <-] & ?); contradiction. }
    destruct Hd as [Hon|Hoff]; [rewrite H1 by exact Hon; split; (apply listens_on; [exact Hon|intros; apply elem_ports_by_addrs])|].
    rewrite H2 by exact Hoff. split; apply listens_off; exact Hoff. }
  destruct (match tls with Some _ => _ | None => _ end) as [[ta ha] qa] eqn:Et.
  destruct (match crypt with Some _ => _ | None => _ end) as [ct cu] eqn:Ec. intros [= <-].
  destruct (Htls (ta, ha, qa)) as (Ht & Hh & Hq); [intros; destruct tls; congruence|intros ->; congruence|].
  destruct (Hcr (ct, cu)) as (Hu & Hc);
    [intros (? & [|] & -> & ?); [contradiction|congruence]
    |intros Hoff; destruct crypt as [[cert [|b n]]|]; [congruence|destruct Hoff; exists cert, (b :: n); split; [reflexivity|discriminate]|congruence]|].
  cbn [fst snd] in *. split.
  - unfold validateListenAddrs, hasListenAddrs. cbn [udpListenAddr]. rewrite Hx. cbn [not_nil orb negb].
    unfold validateTLSConfig. cbn [tlsConf tlsListenAddr httpConf http_listens ListenAddresses quicListenAddr dnsCryptResolverCert dnsCryptProviderName dnsCryptTCPListenAddr dnsCryptUDPListenAddr].
    assert (Hend : (if negb (not_nil (fst <$> crypt)) || bool_decide (default [] (snd <$> crypt) = [])
        then if not_nil (appended ct) then Some (Prelude.New "cannot create dnscrypt tcp listener without dnscrypt config")
             else if not_nil (appended cu) then Some (Prelude.New "cannot create dnscrypt udp listener without dnscrypt config") else None
        else None) = None).
    { destruct crypt as [[cert [|b n]]|]; cbn in Ec |- *; [injection Ec as <- <-; reflexivity|reflexivity|injection Ec as <- <-; reflexivity]. }
    destruct tls; cbn [not_nil]; [exact Hend|]. injection Et as <- <- <-. cbn [appended not_nil]. exact Hend.
  - exists addrs. split; [reflexivity|]. cbn. split; [apply listens_on; [exact I|intros; apply elem_ports_by_addrs]|].
    split; [apply listens_on; [exact I|intros; apply elem_ports_by_addrs]|]. auto 10.
Qed.

(** C16: What the command sets up always passes the checks of the listeners that [Start]
    makes.  Plain DNS is served over UDP and TCP on each port at each address, on port
    53 of all IPv4 addresses by default; DNS-over-TLS, DNS-over-HTTPS and
    DNS-over-QUIC on exactly their ports, if and only if there is a certificate;
    DNSCrypt if and only if its file has a certificate and a provider name.  There
    is always a plain listener: no port, zero included, disables it. *)
Theorem command_listens (now now' : Time) (rnd : bytes) (pending : option pendingResult) (conf : configuration)
    (c : Config (N := N)) (tls : option server_tls)
    (Hc : createProxyConfig now now' rnd pending conf = Ret (Ok (c, tls))) :
  let l := Listen c in
  validateListenAddrs l = None
  /\ exists addrs crypt, parseListenAddrs (conf listenAddrsIdx) = Ok addrs /\ addrs <> []
    /\ initTLSConfig conf = Ok tls /\ initDNSCryptConfig now now' rnd conf = Ret (Ok crypt)
    /\ listens True addrs (plain_ports conf) (udpListenAddr l) /\ listens True addrs (plain_ports conf) (tcpListenAddr l)
    /\ listens (tls <> None) addrs (conf tlsListenPortsIdx) (tlsListenAddr l)
    /\ listens (tls <> None) addrs (conf httpsListenPortsIdx) (http ← httpConf l; ListenAddresses http)
    /\ listens (tls <> None) addrs (conf quicListenPortsIdx) (quicListenAddr l)
    /\ listens (exists cert name, crypt = Some (cert, name) /\ name <> []) addrs (conf dnsCryptListenPortsIdx) (dnsCryptUDPListenAddr l)
    /\ listens (exists cert name, crypt = Some (cert, name) /\ name <> []) addrs (conf dnsCryptListenPortsIdx) (dnsCryptTCPListenAddr l).
Proof using Type.
  destruct (createProxyConfig_inv _ _ _ _ _ _ _ Hc) as (paths & hosts & mw & ups & edns & crypt & listen & prefs & private & H).
  destruct H as (_ & _ & _ & _ & _ & Ht & Hd & Hl & _ & ->). cbn [Listen].
  destruct (initListenAddrs_spec _ _ _ _ _ Hl) as (Hv & addrs & Ha & Hrest). split; [exact Hv|].
  exists addrs, crypt. split; [exact Ha|]. split; [exact (parseListenAddrs_some _ _ Ha)|]. auto.
Qed.

(** *** The configuration is one that resolving can work with *)

Context {DLaws : DnsLaws} {GLaws : GlCacheLaws} {NL : NetUtilLaws} {ML : MessageLaws} {VL : ValidatorLaws}.
Context {GL : GoCacheLaws} {RLL : RateLaws} {OL : OutsideLaws Out}.
Hypothesis NotEmptySlice_spec : forall k, NotEmptySlice k = None <-> k <> O.
Hypothesis extract_errors : forall d e, ExtractReversedAddr d = Err e -> errors_Is e "no upstream specified" = false.
(** An address that is parsed consists of bytes, and hosts files have valid ones. *)
Hypothesis ParseIP_bytes : forall s ip, netutil_ParseIP s = Ok ip -> wf_bytes (slice ip).
Hypothesis hosts_valid : forall d, valid_storage (storage_of d).
(** A wildcard is no domain name. *)
Hypothesis validate_star : Address.ValidateDomainName (str "*") <> None.
(** The limiters are memory of the process, which the network does not change. *)
Hypothesis limiters_net : forall u m n, limiters (snd (net_ex u m n)) = limiters n.
Hypothesis limiters_udp : forall b raddr laddr n, limiters (snd (UDPWrite b raddr laddr n)) = limiters n.
Hypothesis limiters_set : forall n st, limiters (set_limiters st n) = st.

Lemma parse_each_all {A} (P : A -> Prop) parse err l : (forall s a, parse s = Ok a -> P a) ->
  forall r, parse_each parse err l = Ok r -> Forall P r.
Proof using Type.
  intros Hp. induction l as [|s l IH]; intros r H; cbn [parse_each] in H; [injection H as <-; constructor|].
  destruct (parse s) as [a|] eqn:Ea; [|discriminate]. destruct (parse_each parse err l) as [rest|]; [|discriminate].
  injection H as <-. constructor; [exact (Hp s a Ea)|apply IH; reflexivity].
Qed.

Lemma parse_upstreams_parsed which lines opts uc : parse_upstreams which lines opts = Ret (Ok uc) -> parsed_config uc.
Proof using validate_star.
  unfold parse_upstreams. intros H. inv_bind H. destruct a as [uc' errs]. destruct (join_errors _); [discriminate|]. injection H as ->.
  eapply parse_parsed; [exact validate_star|exact E].
Qed.

Lemma initUpstreams_parsed conf ups : initUpstreams conf = Ret (Ok ups) ->
  parsed_config (uf_general ups) /\ (forall uc, uf_private ups = Some uc -> parsed_config uc)
  /\ (forall uc, uf_fallbacks ups = Some uc -> parsed_config uc).
Proof using validate_star.
  unfold initUpstreams. destruct (initBootstrap _ _) as [boot|]; [|discriminate]. intros H. inv_bind H.
  destruct a as [general|]; [|discriminate]. inv_bind H. destruct a as [private|]; [|discriminate]. inv_bind H.
  destruct a as [fb|]; [|discriminate]. apply parse_upstreams_parsed in E, E0, E1.
  assert (Hu : exists mode, ups = mkUps general (if isEmpty private then None else Some private) (if isEmpty fb then None else Some fb) mode).
  { injection H as H. destruct (conf upstreamModeIdx); [injection H as <-; eauto|]. destruct (mode_UnmarshalText _); [injection H as <-; eauto|discriminate]. }
  destruct Hu as [mode ->]. cbn. split; [exact E|]. split; intros uc Hu;
    [destruct (isEmpty private)|destruct (isEmpty fb)]; try discriminate; injection Hu as <-; assumption.
Qed.

Lemma command_typed now now' rnd pending conf c tls : typed conf ->
  createProxyConfig now now' rnd pending conf = Ret (Ok (c, tls)) -> typed_config c.
Proof using ParseIP_bytes validate_star.
  intros Ht Hc. destruct (createProxyConfig_inv _ _ _ _ _ _ _ Hc) as (paths & hosts & mw & ups & edns & crypt & listen & prefs & private & H).
  destruct H as (_ & _ & _ & Hu & He & _ & _ & _ & Hs & ->). destruct (initUpstreams_parsed _ _ Hu) as (Hg & Hp & Hf).
  split; cbn; [intros uc [= <-]; exact Hg|exact Hp|exact Hf| | | |].
  - unfold initSubnets in Hs. destruct (if conf dns64Idx then _ else _) as [prefs'|] eqn:Ep; [|discriminate]. cbn [rbind] in Hs.
    destruct (if negb _ then _ else _); [|discriminate]. injection Hs as -> _. destruct (conf dns64Idx); [|injection Ep as <-; constructor].
    refine (parse_each_all _ _ _ _ _ _ Ep). intros s p Hsp. apply ParsePrefix_wf in Hsp as [? ?]. split; [assumption|lia].
  - pose proof (Ht cacheMinTTLIdx) as H. cbn in H. unfold MaxUint32. lia.
  - pose proof (Ht cacheMaxTTLIdx) as H. cbn in H. unfold MaxUint32. lia.
  - unfold initEDNS in He. destruct (conf ednsAddrIdx) as [|x a]; [injection He as <-; constructor|].
    destruct (negb _); [injection He as <-; constructor|]. destruct (netutil_ParseIP _) as [ip|] eqn:Ei; [|discriminate].
    injection He as <-. exact (ParseIP_bytes _ _ Ei).
Qed.

Lemma ReadHosts_valid paths hosts err : ReadHosts open paths = (hosts, err) -> valid_storage hosts.
Proof using hosts_valid.
  unfold ReadHosts. destruct (read_hosts_loop _ _ _ _) as [errs strg]. intros [= <- _].
  destruct (has_addrs strg); [apply hosts_valid|intros name; constructor].
Qed.

(** C2: The dnsproxy command keeps serving.  For any configuration with values in the
    ranges of their types and a rate limit below 2^63 from which the command makes a
    proxy, that proxy, with the hosts files and the rate limiter in front of
    [Resolve], handles every sequence of datagrams whatever from any clients, without
    a panic and with its caches, statistics and limiters well formed all along. *)
Theorem command_serves (now now' : Time) (rnd : bytes) (n : N) (conf : configuration) (c : Config (N := N)) (tls : option server_tls)
    (p : proxy (N := N)) (packets : list (bytes * Addr * Addr)) (id : Z)
    (Ht : typed conf) (Hrl : conf ratelimitIdx < 2 ^ 63)
    (Hc : createProxyConfig now now' rnd None conf = Ret (Ok (c, tls)))
    (Hn : New_proxy IsLocallyServed NotEmptySlice None c n = Ret (Ok p))
    (Hl : limiters n = new_limiters)
    (Hp : Forall (fun x => fields_ok (fst (Unpack (fst (fst x)))) /\ wf_addr (snd x)) packets) :
  exists s', serve_packets (requestPipeline p) packets id (p_state p) = Ret s' /\ proxy_fine (p_conf p) s'.
Proof using NotEmptySlice_spec extract_errors validate_star ParseIP_bytes hosts_valid limiters_net limiters_udp limiters_set DLaws GLaws NL ML VL GL RLL OL.
  pose proof (command_typed _ _ _ _ _ _ _ Ht Hc) as Htc.
  destruct (createProxyConfig_inv _ _ _ _ _ _ _ Hc) as (paths & hosts & mw & ups & edns & crypt & listen & prefs & private & H).
  destruct H as (_ & Hh & Hmw & _ & _ & _ & _ & _ & _ & Ec).
  destruct (New_fine IsLocallyServed NotEmptySlice NotEmptySlice_spec extract_errors None c n p Htc) as [Hok Hfine];
    [right; rewrite Ec; discriminate|exact Hn|].
  set (h := mw (mw_Wrap (Middleware.New hosts (inl DefaultMessageConstructor) (conf ipv6DisabledIdx)) (DefaultHandler (p_conf p) None))).
  assert (Hpl : requestPipeline p = processDNSRequest (p_conf p) h None /\ px_net (p_state p) = n).
  { revert Hn. unfold New_proxy, request_pipeline. destruct (validateConfig _ c) as [[|]|]; cbn [gbind]; try discriminate.
    rewrite Ec. cbn [RequestHandler ResponseHandler RequestMiddleware default fmap option_fmap option_map].
    destruct (setupDNS64 _ _); [|discriminate]. intros [= <-]. split; reflexivity. }
  destruct Hpl as [-> Hnet].
  set (J := with_limiters (RateLimit.mkConfig true [] (conf ratelimitIdx) (conf ratelimitSubnetLenIPv4Idx) (conf ratelimitSubnetLenIPv6Idx)) (fun _ => True)).
  assert (Hsafe : SafeHandler J (p_conf p) h).
  { apply (request_handler_safe (fun _ => True) hosts (conf ipv6DisabledIdx) (conf ratelimitIdx) (conf ratelimitSubnetLenIPv4Idx)
      (conf ratelimitSubnetLenIPv6Idx)); [exact (ReadHosts_valid _ _ _ Hh)| |exact Hok|auto|auto|unfold request_handler; rewrite Hmw; reflexivity].
    pose proof (Ht ratelimitIdx) as Hr. cbn in Hr. lia. }
  destruct (serve_safe J (p_conf p) h packets Hsafe) with (id := id) (s := p_state p) as (s' & Hx & Hs' & _); eauto.
  - intros b r l n' [_ Hj]. split; [exact I|]. rewrite limiters_udp. exact Hj.
  - split; [exact I|]. rewrite Hnet, Hl. intros k t i. cbn. rewrite get_new. discriminate.
Qed.

(** *** Running *)

Lemma runProxy_idle E cert_empty cert_nil now now' rnd n conf m : runProxy E cert_empty cert_nil now now' rnd n conf = Ret m -> wp m (fun _ w => idle w) new_world.
Proof using Type.
  intros Hr. unfold runProxy in Hr. inv_bind Hr. destruct a as [[c tls]|e]; [|injection Hr as <-; apply wp_ret, new_idle].
  inv_bind Hr. destruct a as [p|e]; [|injection Hr as <-; apply wp_ret, new_idle]. injection Hr as <-.
  apply wp_bind. eapply wp_mono; [apply wp_Start; [|exact new_idle]|].
  - rewrite (New_listens _ _ _ _ _ _ E1). destruct (createProxyConfig_inv _ _ _ _ _ _ _ E0) as (? & ? & ? & ? & ? & ? & ? & ? & ? & H).
    destruct H as (_ & _ & _ & _ & _ & _ & _ & _ & _ & ->). cbn. lia.
  - intros [e|] w Hw; [apply wp_ret, Hw|]. apply wp_bind. eapply wp_mono; [eapply wp_Shutdown, Hw|]. intros err w' [Hi _]. apply wp_ret, Hi.
Qed.

(** C8: From its command line to its exit the program leaves nothing behind.  If making
    the configuration and the proxy does not panic, the process exits after a signal
    at the latest, and then no socket, transport or listener is open and no DNSCrypt
    server runs, whatever failed.  It exits with success only if the help or the
    version was asked for, or if the proxy was started and stopped without an error. *)
Theorem Main_exits (E : env) (cert_empty cert_nil : bool -> option error) (now now' : Time) (rnd : bytes) (n : N)
    (cmdName version : bytes) (args : list bytes) (m : M exit_code)
    (Hm : Main E cert_empty cert_nil now now' rnd n cmdName version args = Ret m) :
  exists code w, m new_world = Some (code, w) /\ idle w
    /\ (code = ExitCodeSuccess ->
         (exists conf, parseCmdLineOptions UnmarshalDuration args default_configuration = Ret (Ok conf)
            /\ (conf helpIdx = true \/ conf versionIdx = true))
         \/ exists conf run, parseConfig UnmarshalDuration ReadFile Unmarshal cmdName version args = Ret (Some conf, ExitCodeSuccess, None)
              /\ runProxy E cert_empty cert_nil now now' rnd n conf = Ret run /\ run new_world = Some (None, w)).
Proof using Type.
  destruct (parseConfig_cases UnmarshalDuration ReadFile Unmarshal cmdName version args) as (r & Hr & Hc). unfold Main in Hm. rewrite Hr in Hm. cbn [gbind] in Hm.
  destruct r as [[[conf|] code] err].
  - destruct (Hc _ _ _ eq_refl) as (-> & -> & _).
    destruct (match conf logOutputIdx with [] => _ | _ => _ end) as [e|];
      [injection Hm as <-; exists ExitCodeArgumentError, new_world; split; [reflexivity|]; split; [exact new_idle|discriminate]|].
    inv_bind Hm. injection Hm as <-. pose proof (runProxy_idle _ _ _ _ _ _ _ _ _ E0) as Hw. unfold wp in Hw.
    destruct (a new_world) as [[err w]|] eqn:Ea; [|destruct Hw]. exists (match err with Some _ => ExitCodeFailure | None => ExitCodeSuccess end), w.
    split; [unfold bind; rewrite Ea; reflexivity|]. split; [exact Hw|]. destruct err; [discriminate|]. intros _. right. exists conf, a. auto.
  - injection Hm as <-. exists code, new_world. split; [reflexivity|]. split; [exact new_idle|]. intros ->. left.
    exact (parseConfig_exits _ _ _ _ _ _ _ Hr).
Qed.
End Command.

(** ** Examples *)

Module CommandExamples.
Import ResolveExamples ServerExamples RateLimitExamples MiddlewareExamples AddressExamples FlagsExamples.
#[local] Existing Instances SecretboxExamples.toy CertExamples.toy_ed.

(** Hosts files that all have the names of the examples of the middleware. *)
#[global] Instance hosts_ex : HostsFile nat := {|
  NewDefaultStorage := O;
  hosts_Parse d _ := (None, S d);
  has_addrs d := (0 <? d)%nat;
  storage_of _ := strg;
|}.

(** Two files of a certificate, and a list of servers. *)
Definition disk (path : bytes) : result bytes :=
  if bool_decide (path ∈ [str "crt"; str "key"]) then Ok []
  else if bool_decide (path = str "list") then Ok (str "# servers" ++ [10; 32] ++ str "9.9.9.9" ++ [32; 10; 10] ++ str "tls://dns.example" ++ [10])
  else Err (Prelude.New "file does not exist").
Definition no_file (path : bytes) : result (bytes * option error) := Ok ([], None).
Definition pair (crt key : bytes) : result unit := Ok tt.
Definition parse_ip (s : bytes) : result IP := Ok (Some [192; 0; 2; 1]).
Definition not_empty_text (name : string) (v : bytes) : option error := if bool_decide (v = []) then Some (Prelude.New name) else None.
Definition no_rc (b : bytes) : result ResolverConfig := Err (Prelude.New "no configuration").
Definition never : Resolver := fun _ _ => Ret (Err (Prelude.New "no answer")).

Definition create (conf : configuration) : go (result (Config (N := list nat * limits) * option (server_tls (K := unit)))) :=
  createProxyConfig disk no_file pair (Ok [str "etc/hosts"]) parse_ip ConfigExamples.served not_empty_text no_rc tt (fun _ => never) never
    (Prelude.New "panic") [0%nat] (fun which _ => which) 0 0 [] None conf.

(** The configuration of a command line. *)
Definition configured_by (args : list bytes) : configuration :=
  match parseCmdLineOptions duration_of args default_configuration with Ret (Ok conf) => conf | _ => default_configuration end.
Definition args : list bytes :=
  [str "-u"; str "list"; str "-l"; str "127.0.0.1"; str "-l=::1"; str "--port=5353"; str "--tls-crt=crt"; str "--tls-key"; str "key";
   str "-t"; str "853"; str "-r"; str "2"; str "-g="].
Definition conf : configuration := configured_by args.

Example servers : loadServersList disk (conf upstreamsIdx ++ [str "8.8.8.8"]) = [str "9.9.9.9"; str "tls://dns.example"; str "8.8.8.8"].
Proof. vm_compute. reflexivity. Qed.

Definition loopback6 : Addr := Addr6 (replicate 15 0 ++ [1]) [].
Definition addresses (r : go (result (Config (N := list nat * limits) * option (server_tls (K := unit))))) :=
  match r with Ret (Ok (c, tls)) => Some (udpListenAddr (Listen c), tlsListenAddr (Listen c), MinVersion <$> tls) | _ => None end.

Example listeners :
  addresses (create conf)
  = Some (Some [(Addr4 [127; 0; 0; 1], 5353); (loopback6, 5353)], Some [(Addr4 [127; 0; 0; 1], 853); (loopback6, 853)], Some VersionTLS10).
Proof. vm_compute. reflexivity. Qed.

(** Port zero does not disable the plain listeners: they are bound to some port. *)
Example port_zero :
  addresses (create (configured_by [str "-u"; str "9.9.9.9"; str "--port=0"])) = Some (Some [(Addr4 [0; 0; 0; 0], 0)], None, None).
Proof. vm_compute. reflexivity. Qed.

Lemma conf_typed : typed conf.
Proof.
  unfold conf, configured_by. destruct (parseCmdLineOptions _ _ _) as [[c|]|] eqn:E; try exact default_typed.
  exact (command_line_typed _ duration_of_range _ _ _ E default_typed).
Qed.

Lemma packets_fine : Forall (fun x => fields_ok (fst (Unpack (fst (fst x)))) /\ wf_addr (snd x))
  [(ServerExamples.packet, AddrZero, ResolveExamples.client); (ServerExamples.packet, AddrZero, ResolveExamples.client)].
Proof.
  repeat constructor; cbn [fst snd]; try (rewrite ServerExamples.packet_unpacks; apply ServerExamples.a_req_fields);
    try reflexivity; vm_compute; discriminate.
Qed.

(** What is outside at the beginning. *)
Definition outside : list nat * limits := ([], new_limiters).

Definition is_ok {A} (r : go (result A)) : bool := match r with Ret (Ok _) => true | _ => false end.
Lemma created : is_ok (let! r := create conf in
  match r with Ok (c, _) => New_proxy ConfigExamples.served ConfigExamples.not_empty None c outside | Err e => Ret (Err e) end) = true.
Proof. vm_compute. reflexivity. Qed.

Definition main : go (M exit_code) :=
  Main disk no_file pair (Ok [str "etc/hosts"]) parse_ip ConfigExamples.served ConfigExamples.not_empty not_empty_text no_rc tt (fun _ => never) never
    (Prelude.New "panic") [0%nat] (fun which _ => which) duration_of yaml (fun _ => None) LifeExamples.outside LifeExamples.not_empty LifeExamples.not_empty 0 0 [] outside
    (str "dnsproxy") [] args.
Lemma runs : match main with Ret _ => true | Panic => false end = true.
Proof. vm_compute. reflexivity. Qed.
End CommandExamples.

#[local] Existing Instances SecretboxExamples.toy CertExamples.toy_ed.

Lemma command_listens_witness :
  match CommandExamples.create CommandExamples.conf with
  | Ret (Ok (c, tls)) => validateListenAddrs (Listen c) = None
      /\ exists addrs, parseListenAddrs (CommandExamples.conf listenAddrsIdx) = Ok addrs /\ listens (tls <> None) addrs [853] (tlsListenAddr (Listen c))
  | _ => False
  end.
Proof.
  pose proof CommandExamples.created as Hok. destruct (CommandExamples.create CommandExamples.conf) as [[[c tls]|]|] eqn:E; [|discriminate..].
  unfold CommandExamples.create in E.
  destruct (command_listens _ _ _ _ _ _ _ _ _ _ _ _ _ _ _ _ _ _ CommandExamples.conf c tls E) as (H1 & addrs & crypt & Ha & _ & _ & _ & _ & _ & Ht & _).
  split; [exact H1|]. exists addrs. split; [exact Ha|exact Ht].
Defined.

Lemma command_serves_witness :
  match CommandExamples.create CommandExamples.conf with
  | Ret (Ok (c, _)) =>
      exists p s', New_proxy ConfigExamples.served ConfigExamples.not_empty None c CommandExamples.outside = Ret (Ok p)
        /\ serve_packets (requestPipeline p)
             [(ServerExamples.packet, AddrZero, ResolveExamples.client); (ServerExamples.packet, AddrZero, ResolveExamples.client)]
             1 (p_state p) = Ret s'
  | _ => False
  end.
Proof.
  pose proof CommandExamples.created as Hok. destruct (CommandExamples.create CommandExamples.conf) as [[[c tls]|]|] eqn:E; [|discriminate..].
  unfold CommandExamples.create in E. cbn [gbind] in Hok. destruct (New_proxy _ _ _ c _) as [[p|]|] eqn:En; [|discriminate..].
  destruct (command_serves (D := nat) CommandExamples.disk CommandExamples.no_file CommandExamples.pair (Ok [str "etc/hosts"]) CommandExamples.parse_ip
    ConfigExamples.served ConfigExamples.not_empty CommandExamples.not_empty_text CommandExamples.no_rc tt (fun _ => CommandExamples.never)
    CommandExamples.never (Prelude.New "panic") [0%nat] (fun which _ => which) ConfigExamples.not_empty_spec ConfigExamples.extract_err) with
    (now := 0) (now' := 0) (rnd := @nil Z) (n := CommandExamples.outside) (conf := CommandExamples.conf) (c := c) (tls := tls) (p := p)
    (packets := [(ServerExamples.packet, AddrZero, ResolveExamples.client); (ServerExamples.packet, AddrZero, ResolveExamples.client)]) (id := 1)
    as (s' & Hs & _).
  - intros s ip [= <-]. repeat constructor; lia.
  - intros d. exact MiddlewareExamples.strg_valid.
  - discriminate.
  - reflexivity.
  - reflexivity.
  - reflexivity.
  - exact CommandExamples.conf_typed.
  - vm_compute. reflexivity.
  - exact E.
  - exact En.
  - reflexivity.
  - exact CommandExamples.packets_fine.
  - exists p, s'. split; [reflexivity|exact Hs].
Defined.

Lemma Main_exits_witness :
  match CommandExamples.main with
  | Ret m => exists code w, m new_world = Some (code, w) /\ idle w
  | Panic => False
  end.
Proof.
  pose proof CommandExamples.runs as Hok. destruct CommandExamples.main as [m|] eqn:E; [|discriminate]. unfold CommandExamples.main in E.
  destruct (Main_exits _ _ _ _ _ _ _ _ _ _ _ _ _ _ _ _ _ _ _ _ _ _ _ _ _ _ _ _ m E) as (code & w & H & Hi & _). eauto.
Defined.
